(* ===== verification/_CoqProject ===== *)
-Q . S2P
Prelude.v
Sync.v
Config.v
Machine.v
Heap.v
Address.v
FrameAllocator.v
Ownership.v
PageTable.v
PageTree.v
PageTableSpec.v
Mmu.v
MemorySet.v
MapAreaSpec.v
MemorySetSpec.v
AddressSpace.v
UserSpace.v
UserMemory.v
Fork.v
KernelSpace.v
TableCost.v
ElfLoad.v
Pid.v
Driver.v
Context.v
Timer.v
Task.v
Scheduler.v
SyscallProcess.v
KernelInv.v
ProcessSpec.v
WaitSpec.v
ExecSpec.v
SyscallSpec.v
KernelSteps.v
Boot.v
Processes.v
Files.v
Console.v
Build.v
FileSpec.v
SyscallFile.v
Trap.v
SystemInv.v
SystemCalls.v
SystemSpec.v
Waiting.v
Systems.v
Hart.v
Paging.v
Start.v
StartSpec.v
UserMode.v
Trampoline.v
Switch.v
Preempt.v
Hardware.v
Bringup.v
