(* ===== verification/Prelude.v ===== *)
(** * Verification of rCore-Kernel

    rCore-Kernel is a small RISC-V kernel in Rust: SV39 virtual memory, processes
    with [fork]/[exec]/[waitpid], stride scheduling on one core, a file layer over
    the crate [easy_fs].  This library translates its core into Rocq functions and
    proves what makes it correct.  Paths such as [src/mm/address.rs] are relative to
    the root of the repository.

    ** The program and its model

    Code is translated to functions in the monad [M S] below: a function from a state
    to [Done a s], to [Panic k] (an [unwrap] of [None], a failed [assert!], an index
    out of range, a double borrow, an explicit [panic!]; the kernel then shuts down)
    or to [OutOfFuel].  Machine integers are [Z] with the wrap-around written out (the
    kernel is built with [--release], so arithmetic wraps silently).  Values that own
    resources are dropped explicitly where Rust drops them.  [wp m Q E s] says that [m]
    run from [s] returns with [Q] or panics with [E]; running out of fuel satisfies
    neither, so every [wp] theorem includes termination.

    The state is built in layers: [mm] (physical memory, byte by byte, and the frame
    allocator, [FrameAllocator.v]) is part of [kmem] (with the pid allocator and the
    kernel's own address space, [Pid.v]), which is part of [kernel] (with the store of
    task control blocks, the ready queue, the processor and the initial process,
    [Task.v]), which is part of [system] (with the disk, the open files, the console and
    the processes suspended in the middle of a system call, [Files.v]).

    - [Prelude]: integers, the monad, [wp] and its rules, tactics, generic lemmas.
    - [Sync]: [src/sync/up.rs]; why [zoom] below stands for a scoped [exclusive_access].
    - [Config]: [src/config.rs].
    - [Machine]: physical memory as bytes, 64-bit little-endian words.
    - [Heap]: [src/mm/heap_allocator.rs], over the contract of an allocator.
    - [Address]: [src/mm/address.rs]; addresses, page numbers, [SimpleRange].
    - [FrameAllocator]: [src/mm/frame_allocator.rs]; the class [FrameAllocatorLaws]
      is the interface, and the memory management proofs use nothing else of it.
    - [Ownership]: who owns which frame; [mm_step], the contract every memory
      management routine keeps towards the rest of the system.
    - [PageTable], [PageTree], [PageTableSpec]: [PageTable] of [src/mm/page_table.rs];
      the definitions, the tree of table pages in memory, and the refinement of a
      finite map from page numbers to entries.  [Mmu]: the SV39 translation of the
      hardware, and that it follows this map.
    - [MemorySet], [MapAreaSpec], [MemorySetSpec], [AddressSpace]:
      [src/mm/memory_set.rs]; definitions, the loops over page ranges, the invariant
      [MemorySet_ok], and the properties for callers.
    - [UserSpace], [UserMemory]: user memory by virtual address, and the
      [translated_*] functions of [src/mm/page_table.rs].
    - [Fork]: [MemorySet::from_existed_user].  [KernelSpace]: [MemorySet::new_kernel]
      and [remap_test].  [TableCost]: how many frames its tables take, and that it does
      not panic when they are there.  [ElfLoad]: [MemorySet::from_elf].
    - [Pid]: [src/task/pid.rs].  [Driver]: [src/drivers/block].  [Context]: [src/task/context.rs] and
      [src/trap/context.rs].  [Timer]: [src/timer.rs].
    - [Task]: [src/task/task.rs]; the task control blocks and every method of them.
    - [Scheduler]: [src/task/manager.rs], [processor.rs], [mod.rs], [scheduler.rs].
    - [SyscallProcess]: the handlers of [src/syscall/process.rs].  [KernelInv]: the
      invariant [kernel_ok] of the whole kernel: who owns which frame, the tree of
      processes, queue and processor.  [ProcessSpec], [WaitSpec], [ExecSpec],
      [SyscallSpec]: what [fork], [exit], [waitpid], [exec], [spawn], [mmap], [munmap],
      [sbrk] do to a kernel in that state.  [KernelSteps]: the same for the idle loop.
    - [Boot]: [clear_bss], the first process as [TaskControlBlock::new] makes it and the
      invariant of a kernel with that one process.  [Processes]: the properties of these calls, with a
      small kernel that has just been set up as the concrete state.
    - [Files]: [src/fs].  [Console]: [src/sbi.rs], [console.rs], [logging.rs],
      [lang_item.rs], and what is printed elsewhere.  [Build]: [src/build.rs].
      [FileSpec]: what the file layer does, against the laws of the file system
      ([EasyFsLaws]).  [SyscallFile]: [src/syscall/fs.rs], [sys_exec] and [sys_spawn].
    - [Trap]: [src/syscall/mod.rs] and [src/trap/mod.rs].  [SystemInv]: the invariant
      [system_ok].  [SystemCalls]: every system call keeps it.  [SystemSpec]: every trap
      and the idle loop keep it; [sys_step], the transitions of the whole machine.
      [Waiting]: a process that gave up the processor keeps its memory and goes on.
    - [Systems]: the properties of the running system, with a file system in memory as
      the instance of the laws.
    - [Hart]: a RISC-V hart and the assembly of [src/trap/trap.S] and
      [src/task/switch.S], instruction by instruction.  [Paging]: [MemorySet::activate].
      [UserMode]: what the MMU gives a process and the kernel.  [Trampoline]:
      [__alltraps] and [__restore].  [Switch]: [__switch] and [schedule].  [Preempt]: a
      timer interrupt from the first instruction of [__alltraps] to the return of the
      process.  [Hardware]: the properties of all this together.
    - [Start]: [rust_main] of [src/main.rs], [mm::init] and the statics that are made on
      first use, on a [machine] with a hart, frames, a heap, the firmware, the queues of
      the block device and the timer.  [StartSpec]: what each stage does, [rust_main_spec].
      [Bringup]: the properties from power-on to the first program and beyond.

    ** What the theorems show

    - The start: with an image laid out as by [linker.ld], a disk with the first program and
      enough frames, [rust_main] returns (its one possible panic is an allocator that
      refuses [heap_test]), with the invariant, the mappings, the process and the
      transcript spelled out in [booted]; the idle loop then takes the hart to the entry
      point of the program in user mode, on its stack, in its address space.
    - The system: from there on, in every state reached by [sys_step] the invariant
      holds, pids are unique and no frame of a process belongs to anyone else; a step
      changes the memory of one process at most.  The steps are computations, keys, the
      idle loop and traps from a process whose trap context has its kernel's words
      ([kernel_words]): every fault and interrupt and every unknown call, but the system
      calls the kernel knows only with arguments that [call_ok] accepts ([trap_admitted] in
      [SystemSpec]).  The rest is where the kernel panics, never returns or is corrupted,
      see the flaws below.  Traps that the kernel can carry out ([trap_ok]) end in user
      mode or in the idle loop; they panic only in a call that needs frames when fewer than
      it may take ([trap_frames]) are free; a system call gets its arguments from, and
      leaves its result in, the trap context; a faulting process is killed and nobody else.
    - The hart: user mode reaches exactly the user pages of its process; a timer interrupt
      arrives at [trap_handler] on the kernel stack of the process, and the process goes on,
      after any steps of the others, at the same instruction with its registers and its
      memory; [__switch] returns to its caller when someone
      switches back; turning paging on moves nothing of the kernel.
    - Processes: [fork] copies the caller, [exec] replaces its program by a file,
      [waitpid] takes exactly the first matching zombie and frees what it held, [mmap]
      and [sbrk] map what they promise, on every branch, errors included.
    - Waiting: with a firmware that answers 0 when there is no key, a process that reads
      the console sleeps until it gets a key, and finds it in its buffer with nothing else
      changed; with another answer ([read_takes_no_key]) it gets that answer at once.
    - Files: [read_all] is the whole file, what is written through one descriptor is
      read through another, [open] takes the lowest descriptor, the console prints the
      bytes of the buffer.
    - Flaws of the code: an unknown system call number, a character cut by a page
      boundary and an [munmap] of the trap context are not survived; a [read] into the
      trap context lets a process choose where the kernel goes at the next trap; see also
      the theorems on [munmap_area], priorities, buffers past the end of the address space.
    - Devices and output: [dma_alloc] hands out contiguous fresh frames and [dma_dealloc]
      takes them back, device addresses are physical addresses, the heap and the device
      test pass; what is printed is one firmware call per character, the same bytes as
      the model of the console has; a panic prints its line and powers off; addresses,
      numbers and log lines can be read back; the generated [link_app.S] is consistent.
    - Frames: the stack allocator refines a set of live frames; a frame is handed out
      once, zeroed, inside the pool; the pool of the boot avoids the kernel image.
    - Page tables: over raw memory, [map] and [unmap] refine insertion into and
      deletion from a finite map, panic exactly on a page that is (not) mapped or when
      frames run out, and undo each other; SV39 indices are in range and injective.
    - Address spaces: creation, every sequence of operations and the final drop keep
      the invariant and give every frame back; operations on one address space change
      neither the mappings nor a byte of another; what [insert_framed_area],
      [munmap_area], [shrink_to] and [append_to] map and unmap; [fork]'s copy is equal
      byte for byte and independent; [from_elf] loads the segments of the file; the
      kernel's space is the identity, and never writable and executable.
    - User memory: [translated_byte_buffer] covers exactly the user's bytes in order,
      writing then reading gives the data back, [translated_str] stops at the first
      zero; a buffer reaching the end of the 39-bit space is never translated.
    - Kernel resources: pids are unique, kernel stacks are disjoint with unmapped guard pages,
      and a process's kernel resources return when it is dropped; the initial trap
      context survives in memory; exit makes a zombie, releases the pages and
      re-parents the children.
    - Scheduling: [fetch] takes the first task of least stride; with priorities from 2
      to 250 every ready task runs again within a bounded number of rounds; a priority
      above 250 monopolises the processor.
    - Time: the conversions are exact for 17 days and then wrap.

    ** Bounds and fuel

    Some loops of the source are not bounded by their data and run on fuel.
    [translated_byte_buffer] and [translated_and_write_bytes] get one step for each
    page of the buffer and three more, which the theorems show to be enough below 2^39;
    at and above 2^39 no fuel is enough, which is a theorem too.  [translated_str] takes
    its fuel as an argument, and any fuel above the length of the string is enough;
    [read_all] needs one step for each 512 bytes and one more.  In the system calls both
    get [sys_fuel], a field of [SystemEnv]; the theorems ask for paths and programs
    within it.  [run_tasks] is one iteration of an infinite loop, a step of [sys_step].
    Frame counts ([3 * pages]) in the conditions for panics are upper bounds: a page
    costs at most its frame and two table pages.

    ** What is not modelled

    Code outside the repository is a parameter: the ELF parser ([xmas_elf]), the file
    system ([easy_fs], the class [EasyFs]), the VirtIO driver ([VirtIOBlk]), the heap
    allocator ([LockedHeap]), the macros of [log] ([LogCrate]), the firmware
    ([Firmware]), its answer when no key is pressed ([ConsoleInput]), linker symbols, addresses of assembly labels, the sizes of encoded
    instructions ([Assembler]), the layout of [TaskInfo] (not [repr(C)]) and the clock.

    There are two views of the processor.  In [sys_step] a switch is the point where a
    process is left ([resume_point]) and the step that comes back to it, and a step of a
    process changes only bytes of its own address space.  In [Hart] and the files on it
    the registers, [satp], the MMU and the assembly are explicit; [user_mode_confined]
    and [preemption_is_transparent] connect the two.  The Rust code between the two
    assembly routines is that of [Trap], not compiled code, so the contents of the other
    registers at the jump to [__restore] are arbitrary there.  The accessed and dirty
    bits, TLB and fences, [SUM] and [MXR], and the fetches of [__switch] are left out of
    the hart.  The heap's objects are values of the model everywhere but in [Heap].
    [rust_main] starts with the stack that [entry.asm] set up and ends at the call of
    [run_tasks]; the hart there carries [satp], the mode and the memory, and its other
    registers are those of compiled code.  A firmware call that does not return is
    [OutOfFuel] in [Start].  What is left of the sources are imports, module and type
    declarations that the records here stand for, and attributes. *)
From stdpp Require Export base tactics option list numbers gmap strings sorting.
From Stdlib Require Export Lia.

Open Scope Z_scope.

Declare Scope kernel_scope.
Delimit Scope kernel_scope with K.
Open Scope kernel_scope.

(** ** Machine integers

    [usize] is 64 bits wide on [riscv64gc].  The kernel is built with
    [--release], so [+], [-] and [*] wrap silently; they are written [+u], [-u]
    and [*u].  A value of type [usize] is a [Z] satisfying [is_usize]. *)

Definition usize_modulus : Z := 2 ^ 64.
Definition usize_MAX : Z := 2 ^ 64 - 1.
Definition wrap64 (z : Z) : Z := z mod usize_modulus.
Definition is_usize (z : Z) : Prop := 0 ≤ z < usize_modulus.

Definition usize_add (x y : Z) : Z := wrap64 (x + y).
Definition usize_sub (x y : Z) : Z := wrap64 (x - y).
Definition usize_mul (x y : Z) : Z := wrap64 (x * y).
Definition usize_shl (x n : Z) : Z := wrap64 (Z.shiftl x n).

Infix "+u" := usize_add (at level 50, left associativity) : kernel_scope.
Infix "-u" := usize_sub (at level 50, left associativity) : kernel_scope.
Infix "*u" := usize_mul (at level 40, left associativity) : kernel_scope.
Infix "<<u" := usize_shl (at level 54, left associativity) : kernel_scope.

(** [x as isize] and [x as usize] reinterpret the 64 bits; [+i] is the wrapping
    addition of [isize]. *)
Definition as_isize (z : Z) : Z := if z <? 2 ^ 63 then z else z - 2 ^ 64.
Definition as_usize (z : Z) : Z := wrap64 z.
Definition isize_add (x y : Z) : Z := as_isize (wrap64 (x + y)).
Infix "+i" := isize_add (at level 50, left associativity) : kernel_scope.

#[global] Instance is_usize_dec z : Decision (is_usize z).
Proof. unfold is_usize. apply _. Defined.

(** ** Effects: state, panics and fuel

    A kernel routine runs in a state [S] and either returns a value and a new
    state, panics (the panic handler of [lang_item.rs] shuts the machine down,
    so there is no state to observe afterwards), or, when it is a loop modelled
    with fuel, runs out of it. *)

Inductive panic_kind : Set :=
| UnwrapNone          (* [Option::unwrap] on [None], [expect] on [Err] *)
| AssertFailed        (* [assert!], [assert_eq!] *)
| IndexOutOfBounds    (* slice or [Vec] index, slice range *)
| DivisionByZero      (* integer division *)
| AlreadyBorrowed     (* [RefCell::borrow_mut] *)
| ExplicitPanic.      (* [panic!] *)

#[global] Instance panic_kind_eq_dec : EqDecision panic_kind.
Proof. solve_decision. Defined.

Inductive outcome (S A : Type) : Type :=
| Done (a : A) (s : S)
| Panic (k : panic_kind)
| OutOfFuel.
Arguments Done {S A} a s.
Arguments Panic {S A} k.
Arguments OutOfFuel {S A}.

Definition M (S A : Type) : Type := S → outcome S A.

#[global] Instance M_ret S : MRet (M S) := λ A a s, Done a s.
#[global] Instance M_bind S : MBind (M S) := λ A B f m s,
  match m s with
  | Done a s' => f a s'
  | Panic k => Panic k
  | OutOfFuel => OutOfFuel
  end.

Definition gets {S A} (f : S → A) : M S A := λ s, Done (f s) s.
Definition modify {S} (f : S → S) : M S unit := λ s, Done tt (f s).
Definition panic {S A} (k : panic_kind) : M S A := λ _, Panic k.
Definition out_of_fuel {S A} : M S A := λ _, OutOfFuel.

(** [Option::unwrap] and [assert!]. *)
Definition unwrap {S A} (o : option A) : M S A :=
  match o with Some a => mret a | None => panic UnwrapNone end.
Definition assert_ {S} (b : bool) : M S unit :=
  if b then mret tt else panic AssertFailed.

(** [for x in l { a = f(a, x) }]. *)
Fixpoint foldM {S A B} (f : A → B → M S A) (a : A) (l : list B) : M S A :=
  match l with
  | [] => mret a
  | x :: l => a' ← f a x; foldM f a' l
  end.

(** [for x in l { f(x) }]. *)
Definition forM {S B} (f : B → M S unit) (l : list B) : M S unit :=
  foldM (λ _ x, f x) tt l.

(** Running a routine of a component on its part of a larger state. *)
Definition zoom {S T A} (view : S → T) (upd : T → S → S) (m : M T A) : M S A :=
  λ s, match m (view s) with
       | Done a t => Done a (upd t s)
       | Panic k => Panic k
       | OutOfFuel => OutOfFuel
       end.

(** ** Specifications

    [wp m Q E s]: run from [s], the routine [m] terminates, either returning
    [a] in a state [s'] with [Q a s'], or panicking with a kind [k] with [E k].
    [E := no_panic] is total correctness. *)

Definition wp {S A} (m : M S A) (Q : A → S → Prop) (E : panic_kind → Prop)
    (s : S) : Prop :=
  match m s with
  | Done a s' => Q a s'
  | Panic k => E k
  | OutOfFuel => False
  end.

Definition no_panic (_ : panic_kind) : Prop := False.

(** ** Vectors

    A [Vec<T>] is a list; [push] appends at the end and [pop] takes from it. *)

Definition vec_push {A} (l : list A) (x : A) : list A := l ++ [x].

Fixpoint vec_pop {A} (l : list A) : option (A * list A) :=
  match l with
  | [] => None
  | [x] => Some (x, [])
  | x :: l => match vec_pop l with
              | Some (y, l') => Some (y, x :: l')
              | None => None
              end
  end.

(** [Vec::remove(i)] (the caller has checked [i]). *)
Definition vec_remove {A} (l : list A) (i : nat) : list A :=
  take i l ++ drop (S i) l.

(** ** Automation *)

Create HintDb kernel.

(** Linear arithmetic with division and modulo by constants. *)
Ltac zsolve := Z.to_euclidean_division_equations; lia.

(** Open the definitions of the machine integers, then [zsolve]. *)
Ltac unfold_usize :=
  unfold usize_add, usize_sub, usize_mul, usize_shl, wrap64, is_usize,
    usize_modulus, usize_MAX in *.
Ltac usolve := unfold_usize; zsolve.

(** Invert [... = Done a s] through binds. *)
Ltac run_inv :=
  repeat match goal with
  | H : Done _ _ = Done _ _ |- _ => injection H; clear H; intros; subst
  | H : Panic _ = Done _ _ |- _ => discriminate H
  | H : OutOfFuel = Done _ _ |- _ => discriminate H
  end.

Lemma wp_ret {S A} (a : A) (Q : A → S → Prop) E s :
  Q a s → wp (mret a) Q E s.
Proof. done. Qed.

Lemma wp_bind {S A B} (m : M S A) (f : A → M S B) Q E s :
  wp m (λ a s', wp (f a) Q E s') E s → wp (m ≫= f) Q E s.
Proof. unfold wp, mbind, M_bind. by destruct (m s). Qed.

Lemma wp_mono {S A} (m : M S A) (Q Q' : A → S → Prop) (E E' : panic_kind → Prop) s :
  wp m Q E s → (∀ a s', Q a s' → Q' a s') → (∀ k, E k → E' k) → wp m Q' E' s.
Proof. unfold wp. destruct (m s); naive_solver. Qed.

(** The rule used to apply the specification of a callee: its panics must be
    panics of the caller. *)
Lemma wp_call {S A B} (m : M S A) (f : A → M S B) Q0 E0 Q (E : panic_kind → Prop) s :
  wp m Q0 E0 s →
  (∀ k, E0 k → E k) →
  (∀ a s', Q0 a s' → wp (f a) Q E s') →
  wp (m ≫= f) Q E s.
Proof. intros Hm HE Hf. apply wp_bind. by eapply wp_mono. Qed.

Lemma wp_gets {S A} (f : S → A) (Q : A → S → Prop) E s :
  Q (f s) s → wp (gets f) Q E s.
Proof. done. Qed.

Lemma wp_modify {S} (f : S → S) (Q : unit → S → Prop) E s :
  Q tt (f s) → wp (modify f) Q E s.
Proof. done. Qed.

Lemma wp_panic {S A} k (Q : A → S → Prop) (E : panic_kind → Prop) s :
  E k → wp (panic k) Q E s.
Proof. done. Qed.

Lemma wp_unwrap {S A} (o : option A) (Q : A → S → Prop) (E : panic_kind → Prop) s :
  (∀ a, o = Some a → Q a s) → (o = None → E UnwrapNone) → wp (unwrap o) Q E s.
Proof. destruct o; naive_solver. Qed.

Lemma wp_assert {S} (b : bool) (Q : unit → S → Prop) (E : panic_kind → Prop) s :
  (b = true → Q tt s) → (b = false → E AssertFailed) → wp (assert_ b) Q E s.
Proof. destruct b; naive_solver. Qed.

Lemma wp_elim {S A} (m : M S A) Q E s a s' :
  wp m Q E s → m s = Done a s' → Q a s'.
Proof. unfold wp. intros H Hm. by rewrite Hm in H. Qed.

Lemma wp_no_panic {S A} (m : M S A) Q s :
  wp m Q no_panic s → ∃ a s', m s = Done a s' ∧ Q a s'.
Proof. unfold wp. destruct (m s); [eauto|done..]. Qed.

Lemma wp_cases {S A} (m : M S A) Q E s :
  wp m Q E s → (∃ a s', m s = Done a s' ∧ Q a s') ∨ (∃ k, m s = Panic k ∧ E k).
Proof. unfold wp. destruct (m s); [eauto..|done]. Qed.

Lemma wp_assoc {S A B C} (m : M S A) (f : A → M S B) (g : B → M S C) Q E s :
  wp ((a ← m; f a) ≫= g) Q E s → wp (a ← m; f a ≫= g) Q E s.
Proof. unfold wp, mbind, M_bind. by destruct (m s). Qed.

Lemma wp_and {S A} (m : M S A) (Q Q' : A → S → Prop) (E : panic_kind → Prop) s :
  wp m Q E s → wp m Q' E s → wp m (λ a s', Q a s' ∧ Q' a s') E s.
Proof. unfold wp. destruct (m s); auto. Qed.

(** Loops: an invariant indexed by the part of the list still to be visited. *)
Lemma wp_foldM {S A B} (f : A → B → M S A) (I : list B → A → S → Prop)
    (E : panic_kind → Prop) l a s :
  I l a s →
  (∀ x l' a' s', I (x :: l') a' s' → wp (f a' x) (I l') E s') →
  wp (foldM f a l) (I []) E s.
Proof.
  revert a s. induction l as [|x l IH]; intros a s HI Hf; simpl; [done|].
  apply wp_bind. eapply wp_mono; [by apply Hf| |done].
  intros a' s' HI'. by apply IH.
Qed.

Lemma wp_zoom {S T A} (view : S → T) upd (m : M T A) (Q : A → S → Prop) E s :
  wp m (λ a t, Q a (upd t s)) E (view s) → wp (zoom view upd m) Q E s.
Proof. unfold wp, zoom. by destruct (m (view s)). Qed.

(** Partial correctness, for any initial state: what holds whenever the routine returns. *)
Definition yields {S A} (m : M S A) (P : A → S → Prop) : Prop := ∀ s a s', m s = Done a s' → P a s'.

Lemma yields_bind {S A B} (m : M S A) (f : A → M S B) P : (∀ a, yields (f a) P) → yields (m ≫= f) P.
Proof. intros Hf s b s'. unfold mbind, M_bind. destruct (m s) as [a s1| |]; [apply Hf|done..]. Qed.

Lemma yields_ret {S A} (a : A) (P : A → S → Prop) : (∀ s, P a s) → yields (mret a : M S A) P.
Proof. intros HP s b s' [= <- <-]. apply HP. Qed.

Lemma yields_panic {S A} k (P : A → S → Prop) : yields (panic k : M S A) P.
Proof. by intros s b s'. Qed.

(** The value alone. *)
Lemma yields_bind_value {S A B} (m : M S A) (f : A → M S B) (P : A → Prop) Q :
  yields m (λ a _, P a) → (∀ a, P a → yields (f a) Q) → yields (m ≫= f) Q.
Proof.
  intros Hm Hf s b s'. unfold mbind, M_bind. destruct (m s) as [a s1| |] eqn:E; [|done..].
  apply (Hf a (Hm _ _ _ E)).
Qed.

(** One step of a symbolic execution. *)
Ltac wp_step :=
  lazymatch goal with
  | |- wp (mbind _ _) _ _ _ => apply wp_bind
  | |- wp (mret _) _ _ _ => apply wp_ret
  | |- wp (unwrap (Some _)) _ _ _ => apply wp_ret
  | |- wp (assert_ true) _ _ _ => apply wp_ret
  | |- wp (gets _) _ _ _ => apply wp_gets
  | |- wp (modify _) _ _ _ => apply wp_modify
  | |- wp (panic _) _ _ _ => apply wp_panic
  end.

(** ** Generic lemmas *)

Lemma vec_pop_None {A} (l : list A) : vec_pop l = None ↔ l = [].
Proof.
  split; [|by intros ->].
  induction l as [|x [|y l] IH]; [done..|].
  simpl in *. destruct (match l with [] => _ | _ => _ end) as [[]|] eqn:?; [done|].
  intros _. by specialize (IH eq_refl).
Qed.

Lemma vec_pop_app {A} (l : list A) x : vec_pop (l ++ [x]) = Some (x, l).
Proof.
  induction l as [|y l IH]; [done|].
  simpl. destruct (l ++ [x]) eqn:Hl; [by destruct l|]. by rewrite IH.
Qed.

Lemma vec_pop_Some {A} (l l' : list A) x : vec_pop l = Some (x, l') ↔ l = l' ++ [x].
Proof.
  split; [|intros ->; apply vec_pop_app].
  destruct l as [|y l _] using rev_ind; [done|].
  rewrite vec_pop_app. naive_solver.
Qed.

Lemma is_usize_wrap64 z : is_usize (wrap64 z).
Proof. unfold is_usize, wrap64. apply Z.mod_pos_bound. done. Qed.

Lemma wrap64_small z : is_usize z → wrap64 z = z.
Proof. intros H. by apply Z.mod_small. Qed.

Lemma usize_add_small x y : 0 ≤ x → 0 ≤ y → x + y < 2 ^ 64 → x +u y = x + y.
Proof. intros. apply wrap64_small. usolve. Qed.

#[export] Hint Resolve is_usize_wrap64 : kernel.

(** Bit-mask tests against powers of two. *)
Lemma land_ones_mod z n : 0 ≤ n → Z.land z (2 ^ n - 1) = z mod 2 ^ n.
Proof.
  intros. rewrite <-Z.land_ones by done. f_equal. rewrite Z.ones_equiv. lia.
Qed.

Lemma lor_shiftl_add hi lo n :
  0 ≤ n → 0 ≤ lo < 2 ^ n → Z.lor (Z.shiftl hi n) lo = hi * 2 ^ n + lo.
Proof.
  intros Hn Hlo. rewrite <-Z.shiftl_mul_pow2 by done.
  symmetry. apply Z.add_nocarry_lor. apply Z.bits_inj'. intros i Hi.
  rewrite Z.land_spec, Z.bits_0, Z.shiftl_spec by done.
  destruct (decide (i < n)).
  - by rewrite (Z.testbit_neg_r hi) by lia.
  - rewrite <-(Z.mod_small lo (2 ^ n)) by done.
    rewrite Z.mod_pow2_bits_high by lia. apply andb_false_r.
Qed.
