(* ===== verification/Sync.v ===== *)
(** * Interior mutability ([src/sync/up.rs])

    The statics of the kernel and the mutable parts of its objects are [UPSafeCell]s.  A
    cell knows whether it is borrowed; [exclusive_access] panics if it is, and the
    [RefMut] gives it back when it is dropped.  The other files write
    [zoom view upd m] for [m] run under [exclusive_access]: [scoped_is_zoom] says that
    this is what the cell does when it is free, and [scoped_twice_panics] what happens
    when code reaches a cell that its caller has borrowed. *)
From S2P Require Import Prelude.

(* src: src/src/sync/up.rs 6-9 UPSafeCell *)
Record UPSafeCell (T : Type) : Type := mkCell { cell_inner : T; cell_borrowed : bool }.
Arguments mkCell {T} cell_inner cell_borrowed.
Arguments cell_inner {T} u.
Arguments cell_borrowed {T} u.

(* src: src/src/sync/up.rs 15-19 UPSafeCell::new *)
Definition UPSafeCell_new {T} (value : T) : UPSafeCell T := mkCell value false.

(* src: src/src/sync/up.rs 22-24 UPSafeCell::exclusive_access *)
Definition exclusive_access {T} : M (UPSafeCell T) T := λ c,
  if cell_borrowed c then Panic AlreadyBorrowed else Done (cell_inner c) (mkCell (cell_inner c) true).

(** The drop of a [RefMut] through which the value has become [v]. *)
Definition RefMut_drop {T} (v : T) : M (UPSafeCell T) unit := modify (λ _, mkCell v false).

(** [let mut x = cell.exclusive_access(); m(&mut x); drop(x)]. *)
Definition scoped {T A} (m : M T A) : M (UPSafeCell T) A :=
  v ← exclusive_access;
  match m v with
  | Done a v' => RefMut_drop v';; mret a
  | Panic k => panic k
  | OutOfFuel => out_of_fuel
  end.

(** The same while [inner] runs on the cell itself, before the [RefMut] is dropped. *)
Definition scoped_around {T A B} (m : M T A) (inner : A → M (UPSafeCell T) B) : M (UPSafeCell T) B :=
  v ← exclusive_access;
  match m v with
  | Done a v' => b ← inner a; RefMut_drop v';; mret b
  | Panic k => panic k
  | OutOfFuel => out_of_fuel
  end.

Definition set_cell {T} (v : T) (c : UPSafeCell T) : UPSafeCell T := mkCell v (cell_borrowed c).

Lemma scoped_is_zoom {T A} (m : M T A) c :
  cell_borrowed c = false → scoped m c = zoom cell_inner set_cell m c.
Proof.
  destruct c as [v b]. simpl. intros ->. unfold scoped, mbind, M_bind, exclusive_access, zoom, RefMut_drop. simpl.
  by destruct (m v).
Qed.

(** Accesses one after the other never meet a borrowed cell. *)
Lemma scoped_sequence {T} (l : list (M T unit)) c :
  cell_borrowed c = false → forM scoped l c = zoom cell_inner set_cell (forM (λ m, m) l) c.
Proof.
  revert c. induction l as [|m l IH]; intros [v b]; simpl; intros ->; [done|].
  unfold forM. cbn [foldM]. unfold mbind, M_bind. rewrite scoped_is_zoom by done. unfold zoom. cbn [cell_inner].
  destruct (m v) as [[] v'| |]; [|done..]. fold (forM (@scoped T unit) l). rewrite IH by done. done.
Qed.

(** An access under an access panics, whatever the two do, if the first gets that far. *)
Lemma scoped_twice_panics {T A B} (m : M T A) (m' : A → M T B) c a v' :
  cell_borrowed c = false → m (cell_inner c) = Done a v' →
  scoped_around m (λ a, scoped (m' a)) c = Panic AlreadyBorrowed.
Proof.
  destruct c as [v b]. simpl. intros -> Hm. unfold scoped_around, mbind, M_bind, exclusive_access. simpl. by rewrite Hm.
Qed.
