(* ===== verification/Config.v ===== *)
(** * Global configuration ([src/config.rs])

    The constants of [config.rs] that the modelled components use.  [usize]
    constants are computed by the compiler, which rejects overflow, so plain
    [Z] arithmetic gives their values. *)
From S2P Require Import Prelude.

(* src: src/src/config.rs 8-8 USER_STACK_SIZE *)
Definition USER_STACK_SIZE : Z := 4096 * 2.
(* src: src/src/config.rs 10-10 KERNEL_STACK_SIZE *)
Definition KERNEL_STACK_SIZE : Z := 4096 * 2.
(* src: src/src/config.rs 19-19 MAX_SYSCALL_NUM *)
Definition MAX_SYSCALL_NUM : Z := 500.
(* src: src/src/config.rs 21-21 CLOCK_FREQ *)
Definition CLOCK_FREQ : Z := 12500000.
(* src: src/src/config.rs 24-24 PAGE_SIZE *)
Definition PAGE_SIZE : Z := 4096.
(* src: src/src/config.rs 26-26 PAGE_SIZE_BITS *)
Definition PAGE_SIZE_BITS : Z := 12.
(* src: src/src/config.rs 29-29 MEMORY_END *)
Definition MEMORY_END : Z := 0x88000000.
(* src: src/src/config.rs 31-31 KERNEL_HEAP_SIZE *)
Definition KERNEL_HEAP_SIZE : Z := 0x2000000.
(* src: src/src/config.rs 37-37 TRAMPOLINE *)
Definition TRAMPOLINE : Z := usize_MAX - PAGE_SIZE + 1.
(* src: src/src/config.rs 40-40 TRAP_CONTEXT_BASE *)
Definition TRAP_CONTEXT_BASE : Z := TRAMPOLINE - PAGE_SIZE.
(* src: src/src/config.rs 43-43 MMIO *)
Definition MMIO : list (Z * Z) := [(0x10001000, 0x1000)].

(** Open the constants for arithmetic. *)
Ltac unfold_config :=
  unfold USER_STACK_SIZE, KERNEL_STACK_SIZE, MEMORY_END, TRAP_CONTEXT_BASE,
    TRAMPOLINE, PAGE_SIZE, PAGE_SIZE_BITS in *.
Ltac csolve := unfold_config; usolve.
