(* ===== verification/Machine.v ===== *)
(** * Physical memory

    The kernel is identity mapped, so [PhysPageNum::get_bytes_array],
    [get_pte_array] and [get_mut] ([src/mm/address.rs]) turn a physical page
    number into a slice of the very same physical bytes.  Memory is a byte per
    physical address; 64-bit words (page table entries) are eight consecutive
    bytes, little endian, as [riscv64] stores them. *)
From coqutil Require Import Byte Word.LittleEndianList.
From Stdlib Require Strings.Byte.
From S2P Require Import Prelude.

Abbreviation byte := Corelib.Init.Byte.byte.
Abbreviation memory := (Z → byte) (only parsing).

#[global] Instance byte_eq_decision : EqDecision byte := Stdlib.Strings.Byte.byte_eq_dec.

(** The bytes at [a, a + n). *)
Definition load_bytes (m : memory) (a : Z) (n : nat) : list byte :=
  (λ i, m (a + Z.of_nat i)) <$> seq 0 n.

(** Overwrite the bytes at [a, a + length l) with [l]. *)
Definition store_bytes (m : memory) (a : Z) (l : list byte) : memory :=
  let n := Z.of_nat (length l) in λ x,
  if (a <=? x) && (x <? a + n) then default (m x) (l !! Z.to_nat (x - a)) else m x.

(** Overwrite the bytes at [a, a + n) with [b]. *)
Definition fill_bytes (m : memory) (a n : Z) (b : byte) : memory := λ x,
  if (a <=? x) && (x <? a + n) then b else m x.

Definition load64 (m : memory) (a : Z) : Z := le_combine (load_bytes m a 8).
Definition store64 (m : memory) (a v : Z) : memory := store_bytes m a (le_split 8 v).

(** Two memories agree on [a, a + n). *)
Definition mem_agree (m m' : memory) (a n : Z) : Prop :=
  ∀ x, a ≤ x < a + n → m x = m' x.

Lemma length_load_bytes m a n : length (load_bytes m a n) = n.
Proof. unfold load_bytes. by rewrite length_fmap, length_seq. Qed.

Lemma lookup_load_bytes m a n i :
  (i < n)%nat → load_bytes m a n !! i = Some (m (a + Z.of_nat i)).
Proof.
  intros. unfold load_bytes. by rewrite list_lookup_fmap, lookup_seq_lt.
Qed.

Lemma load_bytes_agree m m' a n :
  mem_agree m m' a (Z.of_nat n) → load_bytes m a n = load_bytes m' a n.
Proof.
  intros H. apply list_eq. intros i. destruct (decide (i < n)%nat).
  - rewrite !lookup_load_bytes by done. f_equal. apply H. lia.
  - rewrite !lookup_ge_None_2; [done|rewrite length_load_bytes; lia..].
Qed.

Lemma store_bytes_in m a l x b :
  a ≤ x → l !! Z.to_nat (x - a) = Some b → store_bytes m a l x = b.
Proof.
  intros Hx Hl. unfold store_bytes.
  pose proof (lookup_lt_Some _ _ _ Hl).
  rewrite (proj2 (Z.leb_le a x)), (proj2 (Z.ltb_lt x _)) by lia. simpl. by rewrite Hl.
Qed.

Lemma store_bytes_out m a l x :
  x < a ∨ a + Z.of_nat (length l) ≤ x → store_bytes m a l x = m x.
Proof.
  intros Hx. unfold store_bytes. destruct (Z.leb_spec a x), (Z.ltb_spec x (a + Z.of_nat (length l))); try done.
  lia.
Qed.

Lemma load_store_bytes m a l : load_bytes (store_bytes m a l) a (length l) = l.
Proof.
  apply list_eq. intros i. destruct (decide (i < length l)%nat) as [Hi|Hi].
  - rewrite lookup_load_bytes by done. destruct (lookup_lt_is_Some_2 l i Hi) as [b Hb].
    rewrite Hb. f_equal. apply store_bytes_in; [lia|].
    by replace (Z.to_nat (a + Z.of_nat i - a)) with i by lia.
  - rewrite !lookup_ge_None_2; [done|lia|rewrite length_load_bytes; lia].
Qed.

Lemma store_bytes_agree m a l b n :
  b + n ≤ a ∨ a + Z.of_nat (length l) ≤ b → mem_agree (store_bytes m a l) m b n.
Proof. intros H x Hx. apply store_bytes_out. lia. Qed.

Lemma fill_bytes_in m a n b x : a ≤ x < a + n → fill_bytes m a n b x = b.
Proof.
  intros. unfold fill_bytes.
  by rewrite (proj2 (Z.leb_le _ _)), (proj2 (Z.ltb_lt _ _)) by lia.
Qed.

Lemma fill_bytes_out m a n b x : x < a ∨ a + n ≤ x → fill_bytes m a n b x = m x.
Proof.
  intros. unfold fill_bytes.
  destruct (Z.leb_spec a x), (Z.ltb_spec x (a + n)); simpl; (done || lia).
Qed.

Lemma load64_range m a : is_usize (load64 m a).
Proof.
  pose proof (le_combine_bound (load_bytes m a 8)) as H.
  rewrite length_load_bytes in H. apply H.
Qed.

Lemma load64_agree m m' a : mem_agree m m' a 8 → load64 m a = load64 m' a.
Proof. intros H. unfold load64. f_equal. by apply load_bytes_agree. Qed.

Lemma load64_store64_eq m a v : is_usize v → load64 (store64 m a v) a = v.
Proof.
  intros Hv. unfold load64, store64.
  pose proof (load_store_bytes m a (le_split 8 v)) as H.
  rewrite length_le_split in H. rewrite H, le_combine_split. by apply Z.mod_small.
Qed.

Lemma store64_out m a v x : x < a ∨ a + 8 ≤ x → store64 m a v x = m x.
Proof. intros. apply store_bytes_out. rewrite length_le_split. lia. Qed.

Lemma load64_store64_ne m a b v :
  b + 8 ≤ a ∨ a + 8 ≤ b → load64 (store64 m a v) b = load64 m b.
Proof. intros. apply load64_agree. intros x Hx. apply store64_out. lia. Qed.

Lemma load64_zero m a :
  (∀ x, a ≤ x < a + 8 → m x = Corelib.Init.Byte.x00) → load64 m a = 0.
Proof.
  intros H. unfold load64.
  replace (load_bytes m a 8) with (replicate 8 Corelib.Init.Byte.x00); [done|].
  apply list_eq. intros i. destruct (decide (i < 8)%nat).
  - rewrite lookup_load_bytes, lookup_replicate_2 by done. f_equal. symmetry. apply H. lia.
  - rewrite !lookup_ge_None_2; [done|rewrite ?length_load_bytes, ?length_replicate; lia..].
Qed.

Lemma mem_agree_refl m a n : mem_agree m m a n.
Proof. done. Qed.

Lemma mem_agree_trans m1 m2 m3 a n :
  mem_agree m1 m2 a n → mem_agree m2 m3 a n → mem_agree m1 m3 a n.
Proof. intros H1 H2 x Hx. by rewrite H1, H2. Qed.

Lemma mem_agree_sym m m' a n : mem_agree m m' a n → mem_agree m' m a n.
Proof. intros H x Hx. by rewrite H. Qed.

#[export] Hint Resolve load64_range mem_agree_refl mem_agree_sym : kernel.
