(* ===== verification/Heap.v ===== *)
(** * The heap ([src/mm/heap_allocator.rs])

    The allocator is [LockedHeap] of the crate [buddy_system_allocator], a parameter: it
    manages the bytes of [HEAP_SPACE], where it keeps its own lists in the free blocks,
    so that its operations act on memory too.  [LockedHeapLaws] is the contract of an
    allocator: a block lies in the region, aligned, apart from the live blocks, and no
    operation touches the bytes of a live block or of anything outside the region.

    [Box] and [Vec<usize>] are those of [alloc]: a vector that is full is moved to a new
    block of twice the capacity, at least 4, by the default [GlobalAlloc::realloc]. *)
From S2P Require Import Prelude Config Machine.
From coqutil Require Import Byte Word.LittleEndianList.

Class LockedHeap := {
  heap : Type;
  heap_empty : heap;
  heap_init : Z → Z → heap → heap;
  heap_alloc : Z → Z → heap → memory → option Z * heap * memory;
  heap_dealloc : Z → Z → Z → heap → memory → heap * memory;
}.

(** Addresses with the sizes of the live blocks. *)
Abbreviation blocks := (gmap Z Z) (only parsing).

(** The bytes of the blocks and those outside the region are the same. *)
Record heap_kept (region : Z * Z) (live : blocks) (m m' : memory) : Prop := {
  hk_out x : x < region.1 ∨ region.2 ≤ x → m' x = m x;
  hk_live p n x : live !! p = Some n → p ≤ x < p + n → m' x = m x;
}.

Class LockedHeapLaws `{LockedHeap} := {
  heap_region : heap → Z * Z;
  heap_live : heap → blocks;
  init_law start size : heap_region (heap_init start size heap_empty) = (start, start + size) ∧
    heap_live (heap_init start size heap_empty) = ∅;
  alloc_law size align h m : 0 < size → let '(o, h', m') := heap_alloc size align h m in
    heap_region h' = heap_region h ∧ heap_kept (heap_region h) (heap_live h) m m' ∧
    match o with
    | Some p => (heap_region h).1 ≤ p ∧ p + size ≤ (heap_region h).2 ∧ p mod align = 0 ∧
        (∀ q n, heap_live h !! q = Some n → 0 < n → p + size ≤ q ∨ q + n ≤ p) ∧
        heap_live h !! p = None ∧ heap_live h' = <[p := size]> (heap_live h)
    | None => heap_live h' = heap_live h
    end;
  dealloc_law p size align h m : heap_live h !! p = Some size → let '(h', m') := heap_dealloc p size align h m in
    heap_region h' = heap_region h ∧ heap_live h' = delete p (heap_live h) ∧
    heap_kept (heap_region h) (delete p (heap_live h)) m m';
}.

(* src: src/src/mm/heap_allocator.rs 8-10 HEAP_ALLOCATOR *)
Record heap_state `{LockedHeap} : Type := mkHeapState { HEAP_ALLOCATOR : heap; heap_mem : memory }.

Section Heap.
Context `{LockedHeap}.

(** [HEAP_SPACE] is the address of the array. *)
(* src: src/src/mm/heap_allocator.rs 12-22 init_heap *)
Definition init_heap (HEAP_SPACE : Z) : M heap_state unit :=
  modify (λ s, mkHeapState _ (heap_init HEAP_SPACE KERNEL_HEAP_SIZE (HEAP_ALLOCATOR s)) (heap_mem s)).

(* src: src/src/mm/heap_allocator.rs 25-28 handle_alloc_error *)
Definition handle_alloc_error {A} (size align : Z) : M heap_state A := panic ExplicitPanic.

(** ** [alloc] *)

Definition alloc (size align : Z) : M heap_state Z := λ s,
  let '(o, h, m) := heap_alloc size align (HEAP_ALLOCATOR s) (heap_mem s) in
  match o with
  | Some p => Done p (mkHeapState _ h m)
  | None => handle_alloc_error size align (mkHeapState _ h m)
  end.

Definition dealloc (p size align : Z) : M heap_state unit := λ s,
  let '(h, m) := heap_dealloc p size align (HEAP_ALLOCATOR s) (heap_mem s) in Done tt (mkHeapState _ h m).

Definition heap_write (f : memory → memory) : M heap_state unit :=
  modify (λ s, mkHeapState _ (HEAP_ALLOCATOR s) (f (heap_mem s))).

(** [copy_nonoverlapping]. *)
Definition copy_bytes (m : memory) (src dst n : Z) : memory := λ x,
  if (dst <=? x) && (x <? dst + n) then m (src + (x - dst)) else m x.

Definition realloc (p old_size new_size align : Z) : M heap_state Z :=
  q ← alloc new_size align;
  heap_write (λ m, copy_bytes m p q (old_size `min` new_size));;
  dealloc p old_size align;;
  mret q.

(** A [Box<i32>]. *)
Definition Box_new (v : Z) : M heap_state Z :=
  p ← alloc 4 4;
  heap_write (λ m, store_bytes m p (le_split 4 v));;
  mret p.
Definition Box_get (p : Z) : M heap_state Z := gets (λ s, le_combine (load_bytes (heap_mem s) p 4)).
Definition Box_drop (p : Z) : M heap_state unit := dealloc p 4 4.

(** A [Vec<usize>]. *)
Record vec : Set := mkVec { v_ptr : Z; v_cap : Z; v_len : Z }.
Definition Vec_new : vec := {| v_ptr := 8; v_cap := 0; v_len := 0 |}.

Definition vec_grow (v : vec) : M heap_state vec :=
  let cap := Z.max (Z.max (v_cap v * 2) (v_len v + 1)) 4 in
  p ← (if v_cap v =? 0 then alloc (8 * cap) 8 else realloc (v_ptr v) (8 * v_cap v) (8 * cap) 8);
  mret {| v_ptr := p; v_cap := cap; v_len := v_len v |}.

Definition Vec_push (v : vec) (x : Z) : M heap_state vec :=
  v ← (if v_len v =? v_cap v then vec_grow v else mret v);
  heap_write (λ m, store64 m (v_ptr v + 8 * v_len v) x);;
  mret {| v_ptr := v_ptr v; v_cap := v_cap v; v_len := v_len v + 1 |}.

Definition Vec_index (v : vec) (i : Z) : M heap_state Z :=
  if (0 <=? i) && (i <? v_len v) then gets (λ s, load64 (heap_mem s) (v_ptr v + 8 * i)) else panic IndexOutOfBounds.

Definition Vec_drop (v : vec) : M heap_state unit :=
  if v_cap v =? 0 then mret tt else dealloc (v_ptr v) (8 * v_cap v) 8.

(** ** The test *)

Definition contains (lo hi x : Z) : bool := (lo <=? x) && (x <? hi).

(* src: src/src/mm/heap_allocator.rs 31-60 heap_test *)
Definition heap_test (sbss ebss : Z) : M heap_state unit :=
  a ← Box_new 5;
  x ← Box_get a;
  assert_ (x =? 5);;
  assert_ (contains sbss ebss a);;
  Box_drop a;;
  v ← foldM Vec_push Vec_new (seqZ 0 500);
  forM (λ i, x ← Vec_index v i; assert_ (x =? i)) (seqZ 0 500);;
  assert_ (contains sbss ebss (v_ptr v));;
  Vec_drop v.
End Heap.

(** ** Correctness *)

Section Spec.
Context `{LockedHeapLaws}.

Abbreviation live s := (heap_live (HEAP_ALLOCATOR s)).
Abbreviation region s := (heap_region (HEAP_ALLOCATOR s)).

Lemma heap_kept_refl R L m : heap_kept R L m m.
Proof. done. Qed.

Lemma heap_kept_trans R L m1 m2 m3 : heap_kept R L m1 m2 → heap_kept R L m2 m3 → heap_kept R L m1 m3.
Proof.
  intros [Ho1 Hl1] [Ho2 Hl2]. split.
  - intros x Hx. by rewrite Ho2, Ho1.
  - intros p n x Hp Hx. by rewrite (Hl2 p n), (Hl1 p n).
Qed.

Lemma heap_kept_weaken R L L' m m' : L' ⊆ L → heap_kept R L m m' → heap_kept R L' m m'.
Proof. intros Hsub [Ho Hl]. split; [done|]. intros p n x Hp. apply Hl. by eapply lookup_weaken. Qed.

(** [p, p + size) is a block of the region apart from the blocks [L]. *)
Record apart (R : Z * Z) (L : blocks) (p size : Z) : Prop := {
  ap_region : R.1 ≤ p ∧ p + size ≤ R.2;
  ap_new : L !! p = None;
  ap_live q n : L !! q = Some n → 0 < n → p + size ≤ q ∨ q + n ≤ p;
}.

(** Writing inside such a block. *)
Lemma apart_write R L p size m m' :
  apart R L p size → (∀ x, x < p ∨ p + size ≤ x → m' x = m x) → heap_kept R L m m'.
Proof.
  intros [Hr _ Ha] Hw. split.
  - intros x Hx. apply Hw. lia.
  - intros q n x Hq Hx. apply Hw. destruct (Ha q n Hq); lia.
Qed.

Lemma wp_alloc size align s (Q : Z → heap_state → Prop) (E : panic_kind → Prop) :
  0 < size → E ExplicitPanic →
  (∀ p s', region s' = region s → live s' = <[p := size]> (live s) → apart (region s) (live s) p size →
     heap_kept (region s) (live s) (heap_mem s) (heap_mem s') → Q p s') →
  wp (alloc size align) Q E s.
Proof.
  intros Hs HE HQ. unfold wp, alloc. pose proof (alloc_law size align (HEAP_ALLOCATOR s) (heap_mem s) Hs) as Hl.
  destruct (heap_alloc size align (HEAP_ALLOCATOR s) (heap_mem s)) as [[[p|] h] m]; [|done].
  destruct Hl as (Hr & Hk & H1 & H2 & _ & Ha & Hn & Hlive). by apply HQ.
Qed.

Lemma wp_dealloc p size align s (Q : unit → heap_state → Prop) E :
  live s !! p = Some size →
  (∀ s', region s' = region s → live s' = delete p (live s) →
     heap_kept (region s) (delete p (live s)) (heap_mem s) (heap_mem s') → Q tt s') →
  wp (dealloc p size align) Q E s.
Proof.
  intros Hp HQ. unfold wp, dealloc. pose proof (dealloc_law p size align (HEAP_ALLOCATOR s) (heap_mem s) Hp) as Hl.
  destruct (heap_dealloc p size align (HEAP_ALLOCATOR s) (heap_mem s)) as [h m]. destruct Hl as (Hr & Hlv & Hk).
  by apply HQ.
Qed.

(** The state [s] since [s0], up to a block of its own. *)
Record since (s0 s : heap_state) : Prop := {
  si_region : region s = region s0;
  si_kept : heap_kept (region s0) (live s0) (heap_mem s0) (heap_mem s);
}.

(** A vector of [0, 1, 2, ...] in a block of its own. *)
Record vec_ok (s0 s : heap_state) (v : vec) : Prop := {
  vo_since : since s0 s;
  vo_len : 0 ≤ v_len v ≤ v_cap v;
  vo_live : live s = if decide (v_cap v = 0) then live s0 else <[v_ptr v := 8 * v_cap v]> (live s0);
  vo_apart : v_cap v ≠ 0 → apart (region s0) (live s0) (v_ptr v) (8 * v_cap v);
  vo_words i : 0 ≤ i < v_len v → load64 (heap_mem s) (v_ptr v + 8 * i) = i;
}.

Lemma load64_kept R L m m' p n i :
  heap_kept R L m m' → L !! p = Some n → 0 ≤ i → 8 * i + 8 ≤ n → load64 m' (p + 8 * i) = load64 m (p + 8 * i).
Proof. intros Hk Hp Hi Hn. apply load64_agree. intros x Hx. apply (hk_live _ _ _ _ Hk p n); [done|lia]. Qed.

Lemma load64_copy m src dst n i :
  0 ≤ i → 8 * i + 8 ≤ n → load64 (copy_bytes m src dst n) (dst + 8 * i) = load64 m (src + 8 * i).
Proof.
  intros Hi Hn. unfold load64. f_equal. apply list_eq. intros j. destruct (decide (j < 8)%nat) as [Hj|Hj].
  - rewrite !lookup_load_bytes by done. f_equal. unfold copy_bytes.
    rewrite (proj2 (Z.leb_le _ _)), (proj2 (Z.ltb_lt _ _)) by lia. simpl. f_equal. lia.
  - by rewrite !lookup_ge_None_2 by (rewrite length_load_bytes; lia).
Qed.

Lemma copy_bytes_out m src dst n x : x < dst ∨ dst + n ≤ x → copy_bytes m src dst n x = m x.
Proof.
  intros Hx. unfold copy_bytes. destruct (Z.leb_spec dst x); [|done]. by rewrite (proj2 (Z.ltb_ge _ _)) by lia.
Qed.

Lemma apart_weaken R L L' p size : L' ⊆ L → apart R L p size → apart R L' p size.
Proof.
  intros Hsub [Hr Hn Ha]. split; [done|by eapply lookup_weaken_None|]. intros q n Hq. apply Ha. by eapply lookup_weaken.
Qed.

Lemma since_next s0 s m h :
  since s0 s → heap_region h = region s0 → heap_kept (region s0) (live s0) (heap_mem s) m → since s0 (mkHeapState _ h m).
Proof. intros [Hr Hk] Hh Hm. split; [done|]. by eapply heap_kept_trans. Qed.

(** Moving the vector of [v] to a block of [size] bytes. *)
Lemma realloc_spec s0 s v size :
  vec_ok s0 s v → v_cap v ≠ 0 → 8 * v_cap v ≤ size →
  wp (realloc (v_ptr v) (8 * v_cap v) size 8) (λ p s', since s0 s' ∧ live s' = <[p := size]> (live s0) ∧
    apart (region s0) (live s0) p size ∧ ∀ i, 0 ≤ i < v_len v → load64 (heap_mem s') (p + 8 * i) = i)
    (λ e, e = ExplicitPanic) s.
Proof.
  intros [Hsi Hlen Hlive Hap Hw] Hc Hsize. specialize (Hap Hc). rewrite decide_False in Hlive by done.
  pose proof (ap_new _ _ _ _ Hap) as Hnew. assert (Hsub : live s0 ⊆ live s) by (rewrite Hlive; by apply insert_subseteq).
  unfold realloc, heap_write. wp_step. apply wp_alloc; [lia|done|]. intros q s1 Hr1 Hl1 Ha1 Hk1. rewrite (si_region _ _ Hsi) in *.
  pose proof (ap_new _ _ _ _ Ha1) as Hq. rewrite Hlive in Hl1, Ha1, Hq, Hk1. rewrite Z.min_l by done.
  assert (Hne : v_ptr v ≠ q) by (intros He; by rewrite <-He, lookup_insert_eq in Hq).
  do 2 wp_step. wp_step. apply wp_dealloc.
  { simpl. rewrite Hl1, lookup_insert_ne, lookup_insert_eq by done. done. }
  simpl. intros s3 Hr3 Hl3 Hk3. wp_step.
  assert (Hdel : delete (v_ptr v) (live s1) = <[q := size]> (live s0)).
  { rewrite Hl1, delete_insert_ne, delete_insert_id by done. done. }
  rewrite Hdel in Hl3, Hk3. rewrite Hr1 in Hr3, Hk3.
  assert (Hsub' : live s0 ⊆ <[v_ptr v := 8 * v_cap v]> (live s0)) by (by apply insert_subseteq).
  assert (Hap' : apart (region s0) (live s0) q size) by (by eapply apart_weaken).
  split_and!; [|done|done|].
  - assert (Hs1 : since s0 s1) by (destruct s1; eapply since_next; [done|done|by eapply heap_kept_weaken]).
    destruct s3 as [h3 m3]. eapply since_next; [exact Hs1|done|].
    apply (heap_kept_trans _ _ _ (copy_bytes (heap_mem s1) (v_ptr v) q (8 * v_cap v))).
    + eapply apart_write; [exact Hap'|]. intros x Hx. apply copy_bytes_out. lia.
    + eapply heap_kept_weaken; [|exact Hk3]. apply insert_subseteq. apply Hap'.
  - intros i Hi. rewrite (load64_kept _ _ _ _ q size i Hk3) by (lia || apply lookup_insert_eq).
    rewrite load64_copy by lia. rewrite (load64_kept _ _ _ _ (v_ptr v) (8 * v_cap v) i Hk1) by (lia || apply lookup_insert_eq).
    by apply Hw.
Qed.

Lemma vec_grow_spec s0 s v :
  vec_ok s0 s v → v_len v = v_cap v →
  wp (vec_grow v) (λ v' s', vec_ok s0 s' v' ∧ v_len v' = v_len v ∧ v_len v' < v_cap v') (λ e, e = ExplicitPanic) s.
Proof.
  intros Hv Hfull. pose proof (vo_len _ _ _ Hv) as Hlen. unfold vec_grow. set (cap := Z.max _ 4). wp_step.
  destruct (Z.eqb_spec (v_cap v) 0) as [Hc|Hc].
  - pose proof (vo_live _ _ _ Hv) as Hlive. rewrite decide_True in Hlive by done. pose proof (si_region _ _ (vo_since _ _ _ Hv)) as Hr.
    apply wp_alloc; [lia|done|]. intros p [h m] Hr1 Hl1 Ha1 Hk1. rewrite Hlive, Hr in *. wp_step.
    split_and!; [|done|simpl; lia]. split; simpl; [by eapply since_next; [apply Hv|..]|lia| |done|lia].
    by rewrite decide_False by lia.
  - eapply wp_mono; [apply (realloc_spec s0 s v (8 * cap) Hv Hc); lia| |done].
    intros p s' (Hsi & Hl & Ha & Hw). wp_step. split_and!; [|done|simpl; lia].
    split; simpl; [done|lia| |done|done]. by rewrite decide_False by lia.
Qed.

Lemma vec_push_spec s0 s v :
  vec_ok s0 s v → v_len v < 2 ^ 64 →
  wp (Vec_push v (v_len v)) (λ v' s', vec_ok s0 s' v' ∧ v_len v' = v_len v + 1) (λ e, e = ExplicitPanic) s.
Proof.
  intros Hv Hx. unfold Vec_push, heap_write. pose proof (vo_len _ _ _ Hv) as Hl0.
  apply (wp_call _ _ (λ v' s', vec_ok s0 s' v' ∧ v_len v' = v_len v ∧ v_len v' < v_cap v') (λ e, e = ExplicitPanic)); [|done|].
  { destruct (Z.eqb_spec (v_len v) (v_cap v)) as [He|He]; [by apply vec_grow_spec|]. wp_step. split_and!; [done|done|lia]. }
  intros [p c n] [h m] ([Hsi Hlen Hlive Hap Hw] & Hn & Hcap). simpl in *. subst n. specialize (Hap ltac:(lia)).
  do 2 wp_step. wp_step. simpl. split; [|done]. split; simpl; [|lia|done|done|].
  - eapply since_next; [exact Hsi|apply Hsi|]. eapply apart_write; [exact Hap|]. simpl.
    intros x Hx'. apply store64_out. lia.
  - intros i Hi. destruct (decide (i = v_len v)) as [->|Hne]; [apply load64_store64_eq; unfold is_usize, usize_modulus; lia|].
    rewrite load64_store64_ne by lia. apply Hw. lia.
Qed.

Lemma vec_pushes_spec s0 n s v :
  vec_ok s0 s v → v_len v + Z.of_nat n ≤ 2 ^ 64 →
  wp (foldM Vec_push v (seqZ (v_len v) (Z.of_nat n))) (λ v' s', vec_ok s0 s' v' ∧ v_len v' = v_len v + Z.of_nat n)
    (λ e, e = ExplicitPanic) s.
Proof.
  revert s v. induction n as [|n IH]; intros s v Hv Hb.
  { rewrite seqZ_nil by lia. simpl. wp_step. split; [done|lia]. }
  rewrite seqZ_cons by lia. cbn [foldM]. eapply wp_call; [by apply vec_push_spec; [|lia]|done|].
  intros v1 s1 [Hv1 Hl1]. replace (Z.succ (v_len v)) with (v_len v1) by lia.
  replace (Z.pred (Z.of_nat (S n))) with (Z.of_nat n) by lia.
  eapply wp_mono; [apply IH; [done|lia]| |done]. intros v' s' [Hv' Hl']. split; [done|lia].
Qed.

Lemma vec_check_spec s0 s v l :
  vec_ok s0 s v → Forall (λ i, 0 ≤ i < v_len v) l →
  forM (λ i, x ← Vec_index v i; assert_ (x =? i)) l s = Done tt s.
Proof.
  intros Hv. unfold forM. induction 1 as [|i l Hi Hl IH]; [done|]. cbn [foldM]. unfold mbind at 1, M_bind at 1.
  unfold Vec_index. rewrite (proj2 (Z.leb_le 0 i)), (proj2 (Z.ltb_lt i _)) by lia. cbn [andb].
  unfold mbind at 1, M_bind at 1, gets. rewrite (vo_words _ _ _ Hv i Hi), Z.eqb_refl. exact IH.
Qed.

Lemma le_split4 v : 0 ≤ v < 2 ^ 32 → le_combine (le_split 4 v) = v.
Proof. intros Hv. rewrite le_combine_split. apply Z.mod_small. exact Hv. Qed.

Lemma contains_block sbss ebss R L p size :
  apart R L p size → 0 < size → sbss ≤ R.1 → R.2 ≤ ebss → contains sbss ebss p = true.
Proof.
  intros Ha Hs H1 H2. pose proof (ap_region _ _ _ _ Ha). unfold contains.
  by rewrite (proj2 (Z.leb_le _ _)), (proj2 (Z.ltb_lt _ _)) by lia.
Qed.

(** The boxed integer reads back, in a block inside the bss. *)
Lemma box_spec sbss ebss s (m : M heap_state unit) Q :
  sbss ≤ (region s).1 → (region s).2 ≤ ebss →
  (∀ s', since s s' → live s' = live s → wp m Q (λ e, e = ExplicitPanic) s') →
  wp (a ← Box_new 5; x ← Box_get a; assert_ (x =? 5);; assert_ (contains sbss ebss a);; Box_drop a;; m) Q
    (λ e, e = ExplicitPanic) s.
Proof.
  intros H1 H2 Hm. unfold Box_new, Box_get, Box_drop, heap_write. do 2 wp_step. apply wp_alloc; [lia|done|].
  intros p [h1 m1] Hr1 Hl1 Ha1 Hk1. do 2 wp_step. do 3 wp_step. simpl in *.
  change 4%nat with (length (le_split 4 5)) at 1. rewrite load_store_bytes, le_split4, Z.eqb_refl by lia. do 2 wp_step.
  rewrite (contains_block _ _ _ _ _ _ Ha1) by lia. do 3 wp_step. apply wp_dealloc; [simpl; by rewrite Hl1, lookup_insert_eq|].
  simpl. rewrite Hl1, delete_insert_id by apply Ha1. intros [h2 m2] Hr2 Hl2 Hk2. apply Hm; [|done]. simpl in *.
  split; simpl; [congruence|]. eapply heap_kept_trans; [exact Hk1|].
  rewrite Hr1 in Hk2. eapply heap_kept_trans; [|exact Hk2]. eapply apart_write; [exact Ha1|].
  intros x Hx. apply store_bytes_out. rewrite length_le_split. lia.
Qed.

Lemma heap_test_spec sbss ebss s :
  sbss ≤ (region s).1 → (region s).2 ≤ ebss →
  wp (heap_test sbss ebss) (λ _ s', since s s' ∧ live s' = live s) (λ e, e = ExplicitPanic) s.
Proof.
  intros H1 H2. apply box_spec; [done..|]. intros s1 [Hr1 Hk1] Hl1. rewrite <-Hr1 in H1, H2.
  assert (Hv : vec_ok s1 s1 Vec_new) by (split; simpl; [by split|lia|done|done|lia]).
  eapply wp_call; [apply (vec_pushes_spec s1 500 s1 Vec_new Hv); simpl; lia|done|]. intros v s2 [Hv2 Hl2]. simpl in Hl2.
  wp_step. unfold wp at 1. rewrite (vec_check_spec s1 s2 v);
    [|done|apply Forall_forall; intros i Hi%elem_of_seqZ; lia].
  pose proof (vo_len _ _ _ Hv2) as Hcap. assert (Hc : v_cap v ≠ 0) by lia. pose proof (vo_apart _ _ _ Hv2 Hc) as Ha.
  wp_step. rewrite (contains_block _ _ _ _ _ _ Ha) by lia. wp_step. unfold Vec_drop.
  rewrite (proj2 (Z.eqb_neq _ _)) by done. pose proof (vo_live _ _ _ Hv2) as Hlive. rewrite decide_False in Hlive by done.
  apply wp_dealloc; [by rewrite Hlive, lookup_insert_eq|]. rewrite Hlive, delete_insert_id by apply Ha.
  destruct (vo_since _ _ _ Hv2) as [Hr2 Hk2]. intros s3 Hr3 Hl3 Hk3. rewrite Hl1, Hr1, Hr2, ?Hr1 in *. split; [|done].
  split; [congruence|]. eapply heap_kept_trans; [exact Hk1|]. by eapply heap_kept_trans.
Qed.

(** C32: the heap test of the boot passes.  After [init_heap] on an array inside the
    bss, [heap_test] can stop the kernel only because the allocator has no memory left
    (the allocation error handler): the boxed value and the five hundred elements of a
    growing vector read back, both lie in the bss, every block is given back, and no
    byte outside the array has changed. *)
Theorem heap_test_passes HEAP_SPACE sbss ebss m :
  sbss ≤ HEAP_SPACE → HEAP_SPACE + KERNEL_HEAP_SIZE ≤ ebss →
  wp (init_heap HEAP_SPACE;; heap_test sbss ebss) (λ _ s', live s' = ∅ ∧
      ∀ x, x < HEAP_SPACE ∨ HEAP_SPACE + KERNEL_HEAP_SIZE ≤ x → heap_mem s' x = m x)
    (λ e, e = ExplicitPanic) (mkHeapState _ heap_empty m).
Proof.
  intros H1 H2. destruct (init_law HEAP_SPACE KERNEL_HEAP_SIZE) as [Hr Hl]. unfold init_heap. do 2 wp_step.
  cbn [HEAP_ALLOCATOR heap_mem]. set (s0 := mkHeapState _ _ m). assert (Hr0 : region s0 = (HEAP_SPACE, HEAP_SPACE + KERNEL_HEAP_SIZE)) by exact Hr.
  eapply wp_mono; [apply (heap_test_spec sbss ebss s0); rewrite Hr0; done| |done].
  intros [] s' [[_ Hk] Hl']. rewrite Hr0 in Hk. split; [by rewrite Hl'|]. apply Hk.
Qed.
End Spec.

(** ** An allocator *)

(** It hands out the memory in order and checks that the block is free. *)
Record demo_heap : Set := mkDemoHeap { dh_region : Z * Z; dh_next : Z; dh_live : blocks }.

Definition demo_free (h : demo_heap) (align p size : Z) : Prop :=
  (dh_region h).1 ≤ p ∧ p + size ≤ (dh_region h).2 ∧ p mod align = 0 ∧
  map_Forall (λ q n, 0 < n → p + size ≤ q ∨ q + n ≤ p) (dh_live h) ∧ dh_live h !! p = None.
#[local] Instance demo_free_dec h align p size : Decision (demo_free h align p size).
Proof. unfold demo_free. apply _. Defined.

#[local] Instance demo_allocator : LockedHeap := {|
  heap := demo_heap;
  heap_empty := mkDemoHeap (0, 0) 0 ∅;
  heap_init start size h := mkDemoHeap (start, start + size) start ∅;
  heap_alloc size align h m :=
    let p := (dh_next h + align - 1) / align * align in
    if decide (demo_free h align p size)
    then (Some p, mkDemoHeap (dh_region h) (p + size) (<[p := size]> (dh_live h)), m) else (None, h, m);
  heap_dealloc p size align h m := (mkDemoHeap (dh_region h) (dh_next h) (delete p (dh_live h)), m);
|}.

#[local] Instance demo_allocator_laws : LockedHeapLaws.
Proof.
  refine {| heap_region := dh_region; heap_live := dh_live |}.
  - done.
  - intros size align h m Hs. unfold heap_alloc, demo_allocator. case_decide as Hf; [|done].
    destruct Hf as (H1 & H2 & H3 & H4 & H5). by split_and!.
  - intros p size align h m Hp. by split_and!.
Defined.

Definition demo_heap_run : outcome heap_state unit :=
  (init_heap 0x80300000;; heap_test 0x80300000 0x82300000) (mkHeapState _ heap_empty (λ _, Corelib.Init.Byte.x00)).

Lemma heap_test_passes_witness :
  ∃ s', demo_heap_run = Done tt s' ∧
    heap_live (HEAP_ALLOCATOR s') = ∅ ∧ heap_mem s' 0x8f000000 = Corelib.Init.Byte.x00.
Proof.
  assert (Hdone : match demo_heap_run with Done _ _ => true | _ => false end = true) by (vm_compute; reflexivity).
  destruct demo_heap_run as [[] s'|e|] eqn:Hrun; [|discriminate..].
  destruct (wp_elim _ _ _ _ _ _ (heap_test_passes 0x80300000 0x80300000 0x82300000 (λ _, Corelib.Init.Byte.x00)
    ltac:(vm_compute; congruence) ltac:(vm_compute; congruence)) Hrun) as [Hl Hm].
  exists s'. split; [reflexivity|]. split; [exact Hl|]. apply Hm. right. vm_compute. congruence.
Defined.
