(* ===== verification/Address.v ===== *)
(** * Addresses and page numbers ([src/mm/address.rs])

    The newtypes [PhysAddr], [VirtAddr], [PhysPageNum] and [VirtPageNum] wrap a
    [usize] and are represented by the [Z] they wrap; the [From] conversions and
    methods that Rust selects by type carry the type in their name.  References
    and slices into physical memory are represented by their address. *)
From S2P Require Import Prelude Config.

Abbreviation PhysAddr := Z (only parsing).
Abbreviation VirtAddr := Z (only parsing).
Abbreviation PhysPageNum := Z (only parsing).
Abbreviation VirtPageNum := Z (only parsing).

(* src: src/src/mm/address.rs 10-10 PA_WIDTH_SV39 *)
Definition PA_WIDTH_SV39 : Z := 56.
(* src: src/src/mm/address.rs 11-11 VA_WIDTH_SV39 *)
Definition VA_WIDTH_SV39 : Z := 39.
(* src: src/src/mm/address.rs 12-12 PPN_WIDTH_SV39 *)
Definition PPN_WIDTH_SV39 : Z := PA_WIDTH_SV39 - PAGE_SIZE_BITS.
(* src: src/src/mm/address.rs 13-13 VPN_WIDTH_SV39 *)
Definition VPN_WIDTH_SV39 : Z := VA_WIDTH_SV39 - PAGE_SIZE_BITS.

(* src: src/src/mm/address.rs 58-60 PhysAddr::page_offset *)
Definition PhysAddr_page_offset (pa : PhysAddr) : Z := Z.land pa (PAGE_SIZE - 1).
(* src: src/src/mm/address.rs 63-65 PhysAddr::floor *)
Definition PhysAddr_floor (pa : PhysAddr) : PhysPageNum := pa / PAGE_SIZE.
(* src: src/src/mm/address.rs 68-70 PhysAddr::ceil *)
Definition PhysAddr_ceil (pa : PhysAddr) : PhysPageNum := (pa +u PAGE_SIZE -u 1) / PAGE_SIZE.
(* src: src/src/mm/address.rs 73-75 PhysAddr::aligned *)
Definition PhysAddr_aligned (pa : PhysAddr) : bool := PhysAddr_page_offset pa =? 0.
(* src: src/src/mm/address.rs 78-80 PhysAddr::get_mut *)
Definition PhysAddr_get_mut {S} (pa : PhysAddr) : M S Z :=
  if pa =? 0 then panic UnwrapNone else mret pa.

(* src: src/src/mm/address.rs 84-89 PhysPageNum::from(PhysAddr) *)
Definition PhysPageNum_from_PhysAddr {S} (v : PhysAddr) : M S PhysPageNum :=
  assert_ (PhysAddr_page_offset v =? 0);;
  mret (PhysAddr_floor v).
(* src: src/src/mm/address.rs 92-98 PhysAddr::from(PhysPageNum) *)
Definition PhysAddr_from_PhysPageNum (v : PhysPageNum) : PhysAddr := v <<u PAGE_SIZE_BITS.

(* src: src/src/mm/address.rs 102-104 VirtAddr::floor *)
Definition VirtAddr_floor (va : VirtAddr) : VirtPageNum := va / PAGE_SIZE.
(* src: src/src/mm/address.rs 107-109 VirtAddr::ceil *)
Definition VirtAddr_ceil (va : VirtAddr) : VirtPageNum := (va +u PAGE_SIZE -u 1) / PAGE_SIZE.
(* src: src/src/mm/address.rs 112-114 VirtAddr::page_offset *)
Definition VirtAddr_page_offset (va : VirtAddr) : Z := Z.land va (PAGE_SIZE - 1).
(* src: src/src/mm/address.rs 117-119 VirtAddr::aligned *)
Definition VirtAddr_aligned (va : VirtAddr) : bool := VirtAddr_page_offset va =? 0.

(* src: src/src/mm/address.rs 122-127 VirtPageNum::from(VirtAddr) *)
Definition VirtPageNum_from_VirtAddr {S} (v : VirtAddr) : M S VirtPageNum :=
  assert_ (VirtAddr_page_offset v =? 0);;
  mret (VirtAddr_floor v).
(* src: src/src/mm/address.rs 129-133 VirtAddr::from(VirtPageNum) *)
Definition VirtAddr_from_VirtPageNum (v : VirtPageNum) : VirtAddr := v <<u PAGE_SIZE_BITS.

(* src: src/src/mm/address.rs 136-140 PhysAddr::from(usize) *)
Definition PhysAddr_from_usize (v : Z) : PhysAddr := Z.land v (Z.shiftl 1 PA_WIDTH_SV39 - 1).
(* src: src/src/mm/address.rs 143-147 VirtAddr::from(usize) *)
Definition VirtAddr_from_usize (v : Z) : VirtAddr := Z.land v (Z.shiftl 1 VA_WIDTH_SV39 - 1).
(* src: src/src/mm/address.rs 150-154 PhysPageNum::from(usize) *)
Definition PhysPageNum_from_usize (v : Z) : PhysPageNum := Z.land v (Z.shiftl 1 PPN_WIDTH_SV39 - 1).
(* src: src/src/mm/address.rs 157-161 VirtPageNum::from(usize) *)
Definition VirtPageNum_from_usize (v : Z) : VirtPageNum := Z.land v (Z.shiftl 1 VPN_WIDTH_SV39 - 1).

(** The wrapped [usize] itself: no sign extension of a virtual address. *)
(* src: src/src/mm/address.rs 163-167 usize::from(PhysAddr) *)
Definition usize_from_PhysAddr (v : PhysAddr) : Z := v.
(* src: src/src/mm/address.rs 169-173 usize::from(PhysPageNum) *)
Definition usize_from_PhysPageNum (v : PhysPageNum) : Z := v.
(* src: src/src/mm/address.rs 175-179 usize::from(VirtAddr) *)
Definition usize_from_VirtAddr (v : VirtAddr) : Z := v.
(* src: src/src/mm/address.rs 181-185 usize::from(VirtPageNum) *)
Definition usize_from_VirtPageNum (v : VirtPageNum) : Z := v.

(** The address of the first byte of the page, the slice itself being the
    4096 bytes (512 entries of 8 bytes) that follow. *)
(* src: src/src/mm/address.rs 190-193 PhysPageNum::get_bytes_array *)
Definition PhysPageNum_get_bytes_array (ppn : PhysPageNum) : Z := PhysAddr_from_PhysPageNum ppn.
(* src: src/src/mm/address.rs 196-199 PhysPageNum::get_pte_array *)
Definition PhysPageNum_get_pte_array (ppn : PhysPageNum) : Z := PhysAddr_from_PhysPageNum ppn.
(* src: src/src/mm/address.rs 202-205 PhysPageNum::get_mut *)
Definition PhysPageNum_get_mut {S} (ppn : PhysPageNum) : M S Z :=
  PhysAddr_get_mut (PhysAddr_from_PhysPageNum ppn).

(** The loop [for i in (0..3).rev()] carries [vpn] and the array [idx]. *)
(* src: src/src/mm/address.rs 213-223 VirtPageNum::indexes *)
Definition VirtPageNum_indexes (vpn : VirtPageNum) : list Z :=
  snd (foldl (λ '(vpn, idx) i, (Z.shiftr vpn 9, <[i := Z.land vpn 511]> idx))
             (vpn, [0; 0; 0]) [2; 1; 0]%nat).

(* src: src/src/mm/address.rs 232-236 VirtPageNum::step *)
Definition VirtPageNum_step (vpn : VirtPageNum) : VirtPageNum := vpn +u 1.
(* src: src/src/mm/address.rs 238-242 PhysPageNum::step *)
Definition PhysPageNum_step (ppn : PhysPageNum) : PhysPageNum := ppn +u 1.

(** [SimpleRange<T>] is used at [T := VirtPageNum] only ([VPNRange]). *)
(* src: src/src/mm/address.rs 244-251 SimpleRange *)
Record SimpleRange : Set := mkSimpleRange { range_l : Z; range_r : Z }.
(* src: src/src/mm/address.rs 256-259 SimpleRange::new *)
Definition SimpleRange_new {S} (start end_ : Z) : M S SimpleRange :=
  assert_ (start <=? end_);;
  mret {| range_l := start; range_r := end_ |}.
(* src: src/src/mm/address.rs 261-263 SimpleRange::get_start *)
Definition SimpleRange_get_start (r : SimpleRange) : Z := range_l r.
(* src: src/src/mm/address.rs 265-267 SimpleRange::get_end *)
Definition SimpleRange_get_end (r : SimpleRange) : Z := range_r r.

(* src: src/src/mm/address.rs 281-295 SimpleRangeIterator *)
Record SimpleRangeIterator : Set := mkSimpleRangeIterator { it_current : Z; it_end : Z }.
(* src: src/src/mm/address.rs 269-278 SimpleRange::into_iter *)
Definition SimpleRange_into_iter (r : SimpleRange) : SimpleRangeIterator :=
  {| it_current := range_l r; it_end := range_r r |}.
(* src: src/src/mm/address.rs 296-311 SimpleRangeIterator::next *)
Definition SimpleRangeIterator_next (it : SimpleRangeIterator)
    : option Z * SimpleRangeIterator :=
  if it_current it =? it_end it then (None, it)
  else (Some (it_current it),
        {| it_current := VirtPageNum_step (it_current it); it_end := it_end it |}).

(** [for vpn in range]: call [next] until it returns [None]. *)
Fixpoint iterate (fuel : nat) (it : SimpleRangeIterator) : option (list Z) :=
  match fuel with
  | O => None
  | S fuel =>
      match SimpleRangeIterator_next it with
      | (None, _) => Some []
      | (Some vpn, it') => cons vpn <$> iterate fuel it'
      end
  end.

(** What [iterate] computes on a range built by [SimpleRange_new]
    ([iterate_range]); the loops of the model run over this list. *)
Definition vpns (r : SimpleRange) : list Z := seqZ (range_l r) (range_r r - range_l r).

(** A page number that fits SV39: the values [VirtAddr::from] leads to. *)
Definition is_vpn (vpn : Z) : Prop := 0 ≤ vpn < 2 ^ 27.
Definition is_ppn (ppn : Z) : Prop := 0 ≤ ppn < 2 ^ 44.

#[global] Instance is_vpn_dec v : Decision (is_vpn v).
Proof. unfold is_vpn. apply _. Defined.
#[global] Instance is_ppn_dec v : Decision (is_ppn v).
Proof. unfold is_ppn. apply _. Defined.
#[global] Instance SimpleRange_eq_dec : EqDecision SimpleRange.
Proof. solve_decision. Defined.

(** ** Arithmetic characterisations *)

Lemma VirtAddr_from_usize_mod v : VirtAddr_from_usize v = v mod 2 ^ 39.
Proof. apply (land_ones_mod v 39). lia. Qed.

Lemma PhysAddr_from_usize_mod v : PhysAddr_from_usize v = v mod 2 ^ 56.
Proof. apply (land_ones_mod v 56). lia. Qed.

Lemma PhysPageNum_from_usize_mod v : PhysPageNum_from_usize v = v mod 2 ^ 44.
Proof. apply (land_ones_mod v 44). lia. Qed.

Lemma VirtPageNum_from_usize_mod v : VirtPageNum_from_usize v = v mod 2 ^ 27.
Proof. apply (land_ones_mod v 27). lia. Qed.

Lemma VirtAddr_page_offset_mod va : VirtAddr_page_offset va = va mod 4096.
Proof. apply (land_ones_mod va 12). lia. Qed.

Lemma PhysAddr_page_offset_mod pa : PhysAddr_page_offset pa = pa mod 4096.
Proof. apply (land_ones_mod pa 12). lia. Qed.

Lemma PhysAddr_from_PhysPageNum_mul ppn :
  is_ppn ppn → PhysAddr_from_PhysPageNum ppn = ppn * 4096.
Proof.
  intros H. unfold PhysAddr_from_PhysPageNum, usize_shl.
  rewrite Z.shiftl_mul_pow2 by done. unfold is_ppn in H. apply wrap64_small. csolve.
Qed.

Lemma VirtAddr_from_VirtPageNum_mul vpn :
  0 ≤ vpn < 2 ^ 52 → VirtAddr_from_VirtPageNum vpn = vpn * 4096.
Proof.
  intros H. unfold VirtAddr_from_VirtPageNum, usize_shl.
  rewrite Z.shiftl_mul_pow2 by done. apply wrap64_small. csolve.
Qed.

Lemma VirtAddr_ceil_eq va :
  0 ≤ va → va + 4095 < 2 ^ 64 → VirtAddr_ceil va = (va + 4095) / 4096.
Proof.
  intros. unfold VirtAddr_ceil. f_equal. unfold_config. unfold_usize.
  rewrite Zminus_mod_idemp_l. rewrite Z.mod_small; lia.
Qed.

Lemma PhysAddr_ceil_eq pa :
  0 ≤ pa → pa + 4095 < 2 ^ 64 → PhysAddr_ceil pa = (pa + 4095) / 4096.
Proof. exact (VirtAddr_ceil_eq pa). Qed.

Lemma VirtPageNum_indexes_eq vpn :
  VirtPageNum_indexes vpn = [vpn / 2 ^ 18 mod 512; vpn / 2 ^ 9 mod 512; vpn mod 512].
Proof.
  unfold VirtPageNum_indexes. simpl foldl. cbn [snd].
  change (Z.land ?x 511) with (Z.land x (2 ^ 9 - 1)).
  rewrite !(land_ones_mod _ 9) by lia.
  rewrite Z.shiftr_shiftr by lia. rewrite !Z.shiftr_div_pow2 by lia. done.
Qed.

Lemma VirtPageNum_indexes_inj vpn vpn' :
  is_vpn vpn → is_vpn vpn' →
  VirtPageNum_indexes vpn = VirtPageNum_indexes vpn' → vpn = vpn'.
Proof.
  unfold is_vpn. intros H H'. rewrite !VirtPageNum_indexes_eq. intros [= H1 H2 H3]. zsolve.
Qed.

Lemma VirtPageNum_indexes_range vpn :
  Forall (λ i, 0 ≤ i < 512) (VirtPageNum_indexes vpn).
Proof.
  rewrite VirtPageNum_indexes_eq. repeat constructor; apply Z.mod_pos_bound; lia.
Qed.

Lemma is_ppn_from_usize v : is_ppn (PhysPageNum_from_usize v).
Proof. rewrite PhysPageNum_from_usize_mod. apply Z.mod_pos_bound. lia. Qed.

Lemma PhysPageNum_from_usize_id v : is_ppn v → PhysPageNum_from_usize v = v.
Proof. intros. rewrite PhysPageNum_from_usize_mod. by apply Z.mod_small. Qed.

Lemma is_vpn_floor v : is_vpn (VirtAddr_floor (VirtAddr_from_usize v)).
Proof.
  unfold VirtAddr_floor, is_vpn. rewrite VirtAddr_from_usize_mod. csolve.
Qed.

(** ** Ranges *)

Lemma elem_of_vpns v r : v ∈ vpns r ↔ range_l r ≤ v < range_r r.
Proof. unfold vpns. rewrite elem_of_seqZ. lia. Qed.

Lemma vpns_NoDup r : NoDup (vpns r).
Proof. apply NoDup_seqZ. Qed.

Lemma length_vpns r : length (vpns r) = Z.to_nat (range_r r - range_l r).
Proof. apply length_seqZ. Qed.

Lemma iterate_range l n fuel :
  0 ≤ l → l + Z.of_nat n < 2 ^ 64 → (n < fuel)%nat →
  iterate fuel {| it_current := l; it_end := l + Z.of_nat n |} = Some (seqZ l (Z.of_nat n)).
Proof.
  revert l fuel. induction n as [|n IH]; intros l [|fuel] Hl Hn Hf; try lia.
  - cbn [iterate]. unfold SimpleRangeIterator_next. cbn [it_current it_end].
    by rewrite Z.add_0_r, Z.eqb_refl.
  - cbn [iterate]. unfold SimpleRangeIterator_next. cbn [it_current it_end].
    destruct (Z.eqb_spec l (l + Z.of_nat (S n))); [lia|].
    unfold VirtPageNum_step. rewrite usize_add_small by lia.
    replace (l + Z.of_nat (S n)) with (l + 1 + Z.of_nat n) by lia.
    rewrite IH by lia. rewrite (seqZ_cons l) by lia. cbn.
    by replace (Z.pred (Z.of_nat (S n))) with (Z.of_nat n) by lia.
Qed.

#[export] Hint Resolve is_ppn_from_usize is_vpn_floor vpns_NoDup : kernel.

(** ** Properties *)

Definition is_va (va : Z) : Prop := 0 ≤ va < 2 ^ VA_WIDTH_SV39.
Definition is_pa (pa : Z) : Prop := 0 ≤ pa < 2 ^ PA_WIDTH_SV39.

(** C35: the newtypes of addresses are closed.  Every conversion from [usize] gives a
    value of the width of its type; on values of these widths the methods and the other
    conversions stay in their types and never wrap around ([ceil] may reach one page past
    the last); converting to [usize] and back is the identity; and an address is its
    page's address plus its offset. *)
Theorem address_types_closed v va vpn pa ppn :
  is_usize v → is_va va → is_vpn vpn → is_pa pa → is_ppn ppn →
  (is_va (VirtAddr_from_usize v) ∧ is_vpn (VirtPageNum_from_usize v) ∧
   is_pa (PhysAddr_from_usize v) ∧ is_ppn (PhysPageNum_from_usize v)) ∧
  (is_vpn (VirtAddr_floor va) ∧ 0 ≤ VirtAddr_ceil va ≤ 2 ^ VPN_WIDTH_SV39 ∧ 0 ≤ VirtAddr_page_offset va < PAGE_SIZE ∧
   is_va (VirtAddr_from_VirtPageNum vpn) ∧ Forall (λ i, 0 ≤ i < 512) (VirtPageNum_indexes vpn)) ∧
  (is_ppn (PhysAddr_floor pa) ∧ 0 ≤ PhysAddr_ceil pa ≤ 2 ^ PPN_WIDTH_SV39 ∧ 0 ≤ PhysAddr_page_offset pa < PAGE_SIZE ∧
   is_pa (PhysAddr_from_PhysPageNum ppn)) ∧
  (VirtAddr_from_usize (usize_from_VirtAddr va) = va ∧ VirtPageNum_from_usize (usize_from_VirtPageNum vpn) = vpn ∧
   PhysAddr_from_usize (usize_from_PhysAddr pa) = pa ∧ PhysPageNum_from_usize (usize_from_PhysPageNum ppn) = ppn) ∧
  VirtAddr_from_VirtPageNum (VirtAddr_floor va) + VirtAddr_page_offset va = va ∧
  PhysAddr_from_PhysPageNum (PhysAddr_floor pa) + PhysAddr_page_offset pa = pa.
Proof.
  unfold is_va, is_pa, is_vpn, is_ppn. change VA_WIDTH_SV39 with 39. change PA_WIDTH_SV39 with 56.
  change VPN_WIDTH_SV39 with 27. change PPN_WIDTH_SV39 with 44. intros Hv Hva Hvpn Hpa Hppn.
  pose proof (VirtPageNum_indexes_range vpn).
  rewrite !VirtAddr_from_usize_mod, !PhysAddr_from_usize_mod, !PhysPageNum_from_usize_mod, !VirtPageNum_from_usize_mod,
    VirtAddr_page_offset_mod, PhysAddr_page_offset_mod, VirtAddr_ceil_eq, PhysAddr_ceil_eq by lia.
  assert (0 ≤ VirtAddr_floor va < 2 ^ 27) by (unfold VirtAddr_floor; csolve).
  assert (0 ≤ PhysAddr_floor pa < 2 ^ 44) by (unfold PhysAddr_floor; csolve).
  rewrite !VirtAddr_from_VirtPageNum_mul, ?PhysAddr_from_PhysPageNum_mul by (unfold is_ppn; lia).
  unfold usize_from_VirtAddr, usize_from_VirtPageNum, usize_from_PhysAddr, usize_from_PhysPageNum, VirtAddr_floor,
    PhysAddr_floor in *. unfold_config. repeat split; (done || zsolve).
Qed.

Lemma address_types_closed_witness :
  is_usize 0xFFFFFFFFFFFFF123 ∧ is_va (VirtAddr_from_usize 0xFFFFFFFFFFFFF123) ∧
  VirtAddr_from_usize (usize_from_VirtAddr 0x7FFFFFF123) = 0x7FFFFFF123.
Proof.
  assert (H : is_usize 0xFFFFFFFFFFFFF123) by (vm_compute; split; congruence).
  assert (Ha : is_va 0x7FFFFFF123) by (vm_compute; split; congruence).
  destruct (address_types_closed 0xFFFFFFFFFFFFF123 0x7FFFFFF123 0x7ffffff 0x80200000 0x80200 H Ha
    ltac:(vm_compute; split; congruence) ltac:(vm_compute; split; congruence) ltac:(vm_compute; split; congruence))
    as ((Hva & _) & _ & _ & (Hb & _) & _).
  split; [exact H|]. split; [exact Hva|exact Hb].
Defined.

(** The three SV39 indices of a virtual page number are each below 512, so
    indexing a page table page never goes out of bounds, and they determine the
    page number: two different 27-bit page numbers never share a leaf entry. *)
Theorem indexes_in_bounds_and_injective vpn vpn' :
  is_vpn vpn → is_vpn vpn' →
  length (VirtPageNum_indexes vpn) = 3%nat ∧
  Forall (λ i, 0 ≤ i < 512) (VirtPageNum_indexes vpn) ∧
  (VirtPageNum_indexes vpn = VirtPageNum_indexes vpn' ↔ vpn = vpn').
Proof.
  intros H H'. split; [done|]. split; [apply VirtPageNum_indexes_range|].
  split; [by apply VirtPageNum_indexes_inj|by intros ->].
Qed.

Lemma indexes_in_bounds_and_injective_witness :
  is_vpn 0x7ffffff ∧ is_vpn 0x80200 ∧
  VirtPageNum_indexes 0x7ffffff ≠ VirtPageNum_indexes 0x80200.
Proof.
  split; [vm_compute; split; congruence|]. split; [vm_compute; split; congruence|].
  intros Heq.
  apply (indexes_in_bounds_and_injective 0x7ffffff 0x80200) in Heq; [discriminate|..];
    vm_compute; split; congruence.
Defined.

(** Splitting any user-supplied address as the kernel does ([VirtAddr::from],
    [floor], [page_offset]) loses nothing but the bits above 39: the page number
    is a 27-bit one, the offset is inside the page, and the page number converted
    back to an address plus the offset is the masked address; the page found by
    [ceil] is the first one at or above it. *)
Theorem virt_addr_decompose v :
  is_usize v →
  let va := VirtAddr_from_usize v in
  is_vpn (VirtAddr_floor va) ∧
  0 ≤ VirtAddr_page_offset va < PAGE_SIZE ∧
  VirtAddr_from_VirtPageNum (VirtAddr_floor va) + VirtAddr_page_offset va = v mod 2 ^ 39 ∧
  (VirtAddr_ceil va - 1) * PAGE_SIZE < va ≤ VirtAddr_ceil va * PAGE_SIZE.
Proof.
  intros Hv va. assert (Hva : va = v mod 2 ^ 39) by apply VirtAddr_from_usize_mod.
  assert (0 ≤ va < 2 ^ 39) by zsolve.
  split; [apply is_vpn_floor|].
  rewrite VirtAddr_page_offset_mod, <-Hva.
  assert (0 ≤ VirtAddr_floor va < 2 ^ 52) by (unfold VirtAddr_floor; csolve).
  rewrite VirtAddr_from_VirtPageNum_mul, VirtAddr_ceil_eq by lia.
  unfold VirtAddr_floor. unfold_config. zsolve.
Qed.

Lemma virt_addr_decompose_witness :
  is_usize 0xFFFFFFFFFFFFF123 ∧
  VirtAddr_from_VirtPageNum (VirtAddr_floor (VirtAddr_from_usize 0xFFFFFFFFFFFFF123)) +
    VirtAddr_page_offset (VirtAddr_from_usize 0xFFFFFFFFFFFFF123) = 0x7FFFFFF123.
Proof.
  assert (H : is_usize 0xFFFFFFFFFFFFF123) by (vm_compute; split; congruence).
  split; [exact H|].
  exact (proj1 (proj2 (proj2 (virt_addr_decompose 0xFFFFFFFFFFFFF123 H)))).
Defined.

(** A loop [for vpn in range] over a range that [SimpleRange::new] accepted
    terminates, visiting the pages [start, end) in ascending order, each once;
    a range whose start is after its end is refused by a panic. *)
Theorem range_new_iterates {S} start end_ (s : S) :
  is_usize start → is_usize end_ →
  match SimpleRange_new start end_ s with
  | Done r s' => s' = s ∧ start ≤ end_ ∧
      iterate (Z.to_nat (end_ - start) + 1) (SimpleRange_into_iter r) = Some (vpns r) ∧
      (∀ v, v ∈ vpns r ↔ start ≤ v < end_) ∧ NoDup (vpns r)
  | Panic k => k = AssertFailed ∧ end_ < start
  | OutOfFuel => False
  end.
Proof.
  intros Hs He. unfold SimpleRange_new, assert_. destruct (Z.leb_spec start end_); simpl.
  - split; [done|]. split; [done|]. split; [|split; [intros v; by rewrite elem_of_vpns|apply vpns_NoDup]].
    unfold SimpleRange_into_iter, vpns; simpl.
    pose proof (iterate_range start (Z.to_nat (end_ - start))
                  (Z.to_nat (end_ - start) + 1)) as Hit.
    rewrite Z2Nat.id in Hit by lia.
    replace (start + (end_ - start)) with end_ in Hit by lia.
    apply Hit; usolve.
  - done.
Qed.

Lemma range_new_iterates_witness :
  is_usize 5 ∧ is_usize 8 ∧
  iterate 4 (SimpleRange_into_iter (mkSimpleRange 5 8)) = Some [5; 6; 7].
Proof.
  split; [vm_compute; split; congruence|]. split; [vm_compute; split; congruence|].
  refine (proj1 (proj2 (proj2 (range_new_iterates 5 8 tt _ _)))); vm_compute; split; congruence.
Defined.
