(* ===== verification/FrameAllocator.v ===== *)
(** * Physical frame allocator ([src/mm/frame_allocator.rs])

    The trait [FrameAllocator] is the class of the same name; what its clients
    rely on is the class [FrameAllocatorLaws], which [StackFrameAllocator]
    implements and which the page table proofs use without looking inside.  The
    state [mm] holds physical memory and the global [FRAME_ALLOCATOR]; a
    [FrameTracker] is the page number it owns, and its [Drop] is an explicit call
    of [FrameTracker_drop] where Rust drops one. *)
From S2P Require Import Prelude Config Machine Address.

(* src: src/src/mm/frame_allocator.rs 8-12 FrameAllocator *)
Class FrameAllocator (T : Type) := {
  fa_new : T;
  fa_alloc : M T (option PhysPageNum);
  fa_dealloc : PhysPageNum → M T unit;
}.

(* src: src/src/mm/frame_allocator.rs 15-19 StackFrameAllocator *)
Record StackFrameAllocator : Set := mkStackFrameAllocator {
  fa_current : Z;
  fa_end : Z;
  fa_recycled : list Z;
}.

(* src: src/src/mm/frame_allocator.rs 22-28 StackFrameAllocator::new *)
Definition StackFrameAllocator_new : StackFrameAllocator :=
  {| fa_current := 0; fa_end := 0; fa_recycled := [] |}.

(* src: src/src/mm/frame_allocator.rs 32-45 StackFrameAllocator::alloc *)
Definition StackFrameAllocator_alloc : M StackFrameAllocator (option PhysPageNum) :=
  self ← gets id;
  match vec_pop (fa_recycled self) with
  | Some (ppn, recycled') =>
      modify (λ a, {| fa_current := fa_current a; fa_end := fa_end a;
                      fa_recycled := recycled' |});;
      mret (Some (PhysPageNum_from_usize ppn))
  | None =>
      if fa_current self =? fa_end self then mret None
      else
        modify (λ a, {| fa_current := fa_current a +u 1; fa_end := fa_end a;
                        fa_recycled := fa_recycled a |});;
        self' ← gets id;
        mret (Some (PhysPageNum_from_usize (fa_current self' -u 1)))
  end.

(* src: src/src/mm/frame_allocator.rs 47-54 StackFrameAllocator::dealloc *)
Definition StackFrameAllocator_dealloc (ppn : PhysPageNum) : M StackFrameAllocator unit :=
  self ← gets id;
  if (fa_current self <=? ppn) || existsb (λ v, v =? ppn) (fa_recycled self)
  then panic ExplicitPanic
  else modify (λ a, {| fa_current := fa_current a; fa_end := fa_end a;
                       fa_recycled := vec_push (fa_recycled a) ppn |}).

(* src: src/src/mm/frame_allocator.rs 59-62 StackFrameAllocator::init *)
Definition StackFrameAllocator_init (l r : PhysPageNum) : M StackFrameAllocator unit :=
  modify (λ a, {| fa_current := l; fa_end := r; fa_recycled := fa_recycled a |}).

#[global] Instance StackFrameAllocator_impl : FrameAllocator StackFrameAllocator := {|
  fa_new := StackFrameAllocator_new;
  fa_alloc := StackFrameAllocator_alloc;
  fa_dealloc := StackFrameAllocator_dealloc;
|}.

(* src: src/src/mm/frame_allocator.rs 66-71 FRAME_ALLOCATOR *)
Record mm : Type := mkMM {
  phys : memory;
  FRAME_ALLOCATOR : StackFrameAllocator;
}.

Definition set_phys (f : memory → memory) : M mm unit :=
  modify (λ s, {| phys := f (phys s); FRAME_ALLOCATOR := FRAME_ALLOCATOR s |}).

(** [FRAME_ALLOCATOR.exclusive_access().m()]. *)
Definition with_allocator {A} (m : M StackFrameAllocator A) : M mm A :=
  zoom FRAME_ALLOCATOR (λ a s, {| phys := phys s; FRAME_ALLOCATOR := a |}) m.

(** [ekernel] is the linker symbol of [linker.ld]. *)
(* src: src/src/mm/frame_allocator.rs 74-85 init_frame_allocator *)
Definition init_frame_allocator (ekernel : Z) : M mm unit :=
  with_allocator (StackFrameAllocator_init
    (PhysAddr_ceil (PhysAddr_from_usize ekernel))
    (PhysAddr_floor (PhysAddr_from_usize MEMORY_END))).

Abbreviation FrameTracker := Z (only parsing).

(* src: src/src/mm/frame_allocator.rs 97-106 FrameTracker::new *)
Definition FrameTracker_new (ppn : PhysPageNum) : M mm FrameTracker :=
  set_phys (λ m, fill_bytes m (PhysPageNum_get_bytes_array ppn) 4096 Corelib.Init.Byte.x00);;
  mret ppn.

(* src: src/src/mm/frame_allocator.rs 118-124 frame_alloc *)
Definition frame_alloc : M mm (option FrameTracker) :=
  o ← with_allocator fa_alloc;
  match o with
  | Some ppn => t ← FrameTracker_new ppn; mret (Some t)
  | None => mret None
  end.

(* src: src/src/mm/frame_allocator.rs 127-129 frame_dealloc *)
Definition frame_dealloc (ppn : PhysPageNum) : M mm unit :=
  with_allocator (fa_dealloc ppn).

(* src: src/src/mm/frame_allocator.rs 111-115 FrameTracker::drop *)
Definition FrameTracker_drop (self : FrameTracker) : M mm unit := frame_dealloc self.

(** ** The interface offered to clients *)

(** [fa_in_use a f]: the allocator will not hand out [f] before it is given
    back.  [fa_free a]: how many frames are left to hand out. *)
Class FrameAllocatorLaws (T : Type) `{FrameAllocator T} := {
  fa_wf : T → Prop;
  fa_in_use : T → Z → Prop;
  fa_free : T → nat;
  fa_in_use_ppn a f : fa_wf a → fa_in_use a f → is_ppn f;
  fa_alloc_spec a :
    fa_wf a →
    wp fa_alloc (λ o a',
      fa_wf a' ∧
      match o with
      | Some f => is_ppn f ∧ ¬ fa_in_use a f ∧
                  (∀ g, fa_in_use a' g ↔ g = f ∨ fa_in_use a g) ∧
                  fa_free a = S (fa_free a')
      | None => a' = a ∧ fa_free a = 0%nat
      end) no_panic a;
  fa_dealloc_spec a f :
    fa_wf a → 0 ≤ f →
    wp (fa_dealloc f) (λ _ a',
      fa_wf a' ∧ fa_in_use a f ∧
      (∀ g, fa_in_use a' g ↔ g ≠ f ∧ fa_in_use a g) ∧
      fa_free a' = S (fa_free a))
      (λ k, k = ExplicitPanic ∧ ¬ fa_in_use a f) a;
}.

(** ** [StackFrameAllocator] implements the interface *)

Record sfa_wf (a : StackFrameAllocator) : Prop := {
  sfa_nodup : NoDup (fa_recycled a);
  sfa_recycled f : f ∈ fa_recycled a → 0 ≤ f < fa_current a;
  sfa_bounds : 0 ≤ fa_current a ≤ fa_end a ∧ fa_end a ≤ 2 ^ 44;
}.

Definition sfa_in_use (a : StackFrameAllocator) (f : Z) : Prop :=
  0 ≤ f < fa_current a ∧ f ∉ fa_recycled a.

Definition sfa_free (a : StackFrameAllocator) : nat :=
  length (fa_recycled a) + Z.to_nat (fa_end a - fa_current a).

Lemma existsb_eqb_elem_of (l : list Z) x : existsb (λ v, v =? x) l = true ↔ x ∈ l.
Proof.
  rewrite existsb_exists. setoid_rewrite Z.eqb_eq. setoid_rewrite <-list_elem_of_In.
  naive_solver.
Qed.

Lemma sfa_in_use_ppn a f : sfa_wf a → sfa_in_use a f → is_ppn f.
Proof. intros [_ _ ?] [? _]. unfold is_ppn. lia. Qed.

Lemma sfa_alloc_spec a :
  sfa_wf a →
  wp StackFrameAllocator_alloc (λ o a',
    sfa_wf a' ∧
    match o with
    | Some f => is_ppn f ∧ ¬ sfa_in_use a f ∧
                (∀ g, sfa_in_use a' g ↔ g = f ∨ sfa_in_use a g) ∧
                sfa_free a = S (sfa_free a')
    | None => a' = a ∧ sfa_free a = 0%nat
    end) no_panic a.
Proof.
  intros [Hnd Hrec [Hb1 Hb2]]. unfold StackFrameAllocator_alloc. do 2 wp_step. simpl.
  destruct (vec_pop (fa_recycled a)) as [[f l]|] eqn:Hpop.
  - apply vec_pop_Some in Hpop. do 3 wp_step.
    rewrite Hpop in *. apply NoDup_app in Hnd as (Hnd & Hdis & _).
    assert (0 ≤ f < fa_current a) by (apply Hrec; set_solver).
    rewrite PhysPageNum_from_usize_id by (unfold is_ppn; lia).
    split; [split; simpl; [done|set_solver|lia]|].
    unfold sfa_in_use, sfa_free, is_ppn. simpl. rewrite Hpop, length_app. simpl.
    split_and!; [lia|lia|set_solver| |lia].
    intros g. specialize (Hdis f). destruct (decide (g = f)) as [->|]; set_solver by lia.
  - apply vec_pop_None in Hpop. destruct (Z.eqb_spec (fa_current a) (fa_end a)).
    { wp_step. unfold sfa_free. rewrite Hpop. simpl. split_and!; [|done|lia]. by split. }
    do 4 wp_step. wp_step. simpl.
    replace (fa_current a +u 1) with (fa_current a + 1) by csolve.
    replace (fa_current a + 1 -u 1) with (fa_current a) by usolve.
    rewrite PhysPageNum_from_usize_id by (unfold is_ppn; lia).
    split. { split; simpl; [done| |lia]. intros g Hg%Hrec. lia. }
    unfold sfa_in_use, sfa_free, is_ppn. simpl. rewrite Hpop. simpl.
    split_and!; [lia..| |lia].
    intros g. pose proof (not_elem_of_nil g). destruct (decide (g = fa_current a)); naive_solver lia.
Qed.

Lemma sfa_dealloc_spec a f :
  sfa_wf a → 0 ≤ f →
  wp (StackFrameAllocator_dealloc f) (λ _ a',
    sfa_wf a' ∧ sfa_in_use a f ∧
    (∀ g, sfa_in_use a' g ↔ g ≠ f ∧ sfa_in_use a g) ∧
    sfa_free a' = S (sfa_free a))
    (λ k, k = ExplicitPanic ∧ ¬ sfa_in_use a f) a.
Proof.
  intros [Hnd Hrec [Hb1 Hb2]] Hf. unfold StackFrameAllocator_dealloc. do 2 wp_step. simpl.
  destruct (Z.leb_spec (fa_current a) f); simpl.
  { split; [done|]. unfold sfa_in_use. lia. }
  destruct (existsb _ _) eqn:Hex.
  { apply existsb_eqb_elem_of in Hex. split; [done|]. by intros [_ ?]. }
  assert (Hnin : f ∉ fa_recycled a) by (rewrite <-existsb_eqb_elem_of; congruence).
  wp_step. split; [split; simpl|]; [| |lia|]; unfold vec_push.
  - apply NoDup_app. split_and!; [done|set_solver|apply NoDup_singleton].
  - intros g. rewrite elem_of_app, list_elem_of_singleton. intros [?%Hrec| ->]; lia.
  - unfold sfa_in_use, sfa_free, vec_push. simpl. rewrite length_app. simpl.
    split_and!; [lia|lia|done| |lia].
    intros g. rewrite not_elem_of_app, list_elem_of_singleton. naive_solver.
Qed.

#[global] Instance StackFrameAllocator_laws : FrameAllocatorLaws StackFrameAllocator := {|
  fa_wf := sfa_wf;
  fa_in_use := sfa_in_use;
  fa_free := sfa_free;
  fa_in_use_ppn := sfa_in_use_ppn;
  fa_alloc_spec := sfa_alloc_spec;
  fa_dealloc_spec := sfa_dealloc_spec;
|}.

(** ** Frames at the level of [mm] *)

Definition mm_wf (s : mm) : Prop := fa_wf (FRAME_ALLOCATOR s).
Definition in_use (s : mm) (f : Z) : Prop := fa_in_use (FRAME_ALLOCATOR s) f.
Definition free_frames (s : mm) : nat := fa_free (FRAME_ALLOCATOR s).

(** The 4096 bytes of page [p] are the same in both memories / are all zero. *)
Definition page_agree (m m' : memory) (p : Z) : Prop := mem_agree m m' (p * 4096) 4096.
Definition page_zero (m : memory) (p : Z) : Prop :=
  ∀ x, p * 4096 ≤ x < p * 4096 + 4096 → m x = Corelib.Init.Byte.x00.

Lemma in_use_ppn s f : mm_wf s → in_use s f → is_ppn f.
Proof. apply fa_in_use_ppn. Qed.

(** What a successful [frame_alloc] gives. *)
Record fresh_frame (s : mm) (f : Z) (s' : mm) : Prop := {
  fresh_wf : mm_wf s';
  fresh_ppn : is_ppn f;
  fresh_new : ¬ in_use s f;
  fresh_in_use g : in_use s' g ↔ g = f ∨ in_use s g;
  fresh_free : free_frames s = S (free_frames s');
  fresh_zero : page_zero (phys s') f;
  fresh_others p : p ≠ f → page_agree (phys s) (phys s') p;
}.

Lemma frame_alloc_spec s :
  mm_wf s →
  wp frame_alloc (λ o s',
    match o with
    | Some f => fresh_frame s f s'
    | None => s' = s ∧ free_frames s = 0%nat
    end) no_panic s.
Proof.
  intros Hwf. unfold frame_alloc, with_allocator. apply wp_bind, wp_zoom.
  eapply wp_mono; [by apply fa_alloc_spec| |done].
  intros [f|] a' [Hwf' Hpost]; simpl in Hpost.
  - destruct Hpost as (Hf & Hnew & Huse & Hfree).
    unfold FrameTracker_new, set_phys. do 5 wp_step. simpl.
    unfold PhysPageNum_get_bytes_array. rewrite PhysAddr_from_PhysPageNum_mul by done.
    split; unfold in_use, free_frames; simpl; try done.
    + intros x Hx. by apply fill_bytes_in.
    + intros p Hp x Hx. symmetry. apply fill_bytes_out. lia.
  - destruct Hpost as [-> Hfree]. wp_step. by destruct s.
Qed.

Lemma frame_dealloc_spec s f :
  mm_wf s → 0 ≤ f →
  wp (frame_dealloc f) (λ _ s',
    mm_wf s' ∧ in_use s f ∧ phys s' = phys s ∧
    (∀ g, in_use s' g ↔ g ≠ f ∧ in_use s g) ∧
    free_frames s' = S (free_frames s))
    (λ k, k = ExplicitPanic ∧ ¬ in_use s f) s.
Proof.
  intros Hwf Hf. unfold frame_dealloc, with_allocator. apply wp_zoom.
  eapply wp_mono; [by apply fa_dealloc_spec| |done].
  intros [] a' (Hwf' & Huse & Huse' & Hfree). by split_and!.
Qed.

(** ** Abstract specification: a set of live frames

    An allocator for the pool [[l, r)] is a set of live frames; allocation adds
    any frame of the pool that is not live, or fails when all are; deallocation
    removes a live frame. *)

Inductive fa_event : Set :=
| EvAlloc (o : option Z)
| EvDealloc (f : Z).

Inductive spec_step (l r : Z) : gset Z → fa_event → gset Z → Prop :=
| spec_alloc_some live f :
    l ≤ f < r → f ∉ live → spec_step l r live (EvAlloc (Some f)) ({[f]} ∪ live)
| spec_alloc_none live :
    (∀ f, l ≤ f < r → f ∈ live) → spec_step l r live (EvAlloc None) live
| spec_dealloc live f :
    f ∈ live → spec_step l r live (EvDealloc f) (live ∖ {[f]}).

Inductive spec_steps (l r : Z) : gset Z → list fa_event → gset Z → Prop :=
| spec_steps_nil live : spec_steps l r live [] live
| spec_steps_cons live ev live' tr live'' :
    spec_step l r live ev live' → spec_steps l r live' tr live'' →
    spec_steps l r live (ev :: tr) live''.

(** The executions of the code; a deallocation that panics is no step. *)
Inductive sfa_step : StackFrameAllocator → fa_event → StackFrameAllocator → Prop :=
| sfa_step_alloc a o a' :
    StackFrameAllocator_alloc a = Done o a' → sfa_step a (EvAlloc o) a'
| sfa_step_dealloc a f a' :
    StackFrameAllocator_dealloc f a = Done tt a' → sfa_step a (EvDealloc f) a'.

Inductive sfa_steps : StackFrameAllocator → list fa_event → StackFrameAllocator → Prop :=
| sfa_steps_nil a : sfa_steps a [] a
| sfa_steps_cons a ev a' tr a'' :
    sfa_step a ev a' → sfa_steps a' tr a'' → sfa_steps a (ev :: tr) a''.

Record sfa_refines (l r : Z) (a : StackFrameAllocator) (live : gset Z) : Prop := {
  ref_wf : sfa_wf a;
  ref_end : fa_end a = r;
  ref_low : 0 ≤ l ≤ fa_current a;
  ref_pool f : f ∈ fa_recycled a → l ≤ f;
  ref_live f : f ∈ live ↔ l ≤ f ∧ sfa_in_use a f;
}.

Lemma sfa_alloc_pool l r a live o a' :
  sfa_refines l r a live → StackFrameAllocator_alloc a = Done o a' →
  fa_end a' = r ∧ l ≤ fa_current a' ∧ (∀ f, f ∈ fa_recycled a' → f ∈ fa_recycled a) ∧
  (∀ f, o = Some f → l ≤ f < r).
Proof.
  intros [[Hnd Hrec [Hb1 Hb2]] <- Hlow Hpool _].
  unfold StackFrameAllocator_alloc, mbind, M_bind, gets, modify, mret, M_ret, id. simpl.
  destruct (vec_pop (fa_recycled a)) as [[f l']|] eqn:Hpop.
  - apply vec_pop_Some in Hpop. intros [= <- <-]. simpl. rewrite Hpop in *.
    assert (f ∈ l' ++ [f]) as Hf by set_solver.
    split_and!; [done|lia|set_solver|]. intros f' [= <-].
    pose proof (Hrec f Hf). pose proof (Hpool f Hf).
    rewrite PhysPageNum_from_usize_id; unfold is_ppn; lia.
  - destruct (Z.eqb_spec (fa_current a) (fa_end a)); intros [= <- <-]; simpl; [by split_and!; try lia|].
    replace (fa_current a +u 1) with (fa_current a + 1) by csolve.
    split_and!; [done|lia|done|]. intros f [= <-].
    replace (fa_current a + 1 -u 1) with (fa_current a) by usolve.
    rewrite PhysPageNum_from_usize_id; unfold is_ppn; lia.
Qed.

Lemma sfa_step_refines l r a live ev a' :
  sfa_refines l r a live → sfa_step a ev a' →
  (∀ f, ev = EvDealloc f → l ≤ f) →
  ∃ live', spec_step l r live ev live' ∧ sfa_refines l r a' live'.
Proof.
  intros Href Hstep Hpool. pose proof Href as [Hwf Hend Hlow Hp Hlive].
  destruct Hstep as [a o a' Ha|a f a' Ha].
  - pose proof (wp_elim _ _ _ _ _ _ (sfa_alloc_spec a Hwf) Ha) as [Hwf' Hpost].
    destruct (sfa_alloc_pool _ _ _ _ _ _ Href Ha) as (Hend' & Hlow' & Hrec & Hin).
    destruct o as [f|].
    + destruct Hpost as (Hf & Hnew & Huse & _). pose proof (Hin f eq_refl).
      exists ({[f]} ∪ live). split; [constructor; [done|rewrite Hlive; naive_solver]|].
      split; [done..|lia|naive_solver|]. intros g.
      rewrite elem_of_union, elem_of_singleton, Hlive, Huse. naive_solver lia.
    + destruct Hpost as [-> Hfree]. exists live. split; [constructor|done].
      intros f Hf. apply Hlive. unfold sfa_free in Hfree. unfold sfa_in_use.
      destruct (fa_recycled a); simpl in Hfree; [|lia]. split; [lia|].
      split; [lia|apply not_elem_of_nil].
  - pose proof (Hpool f eq_refl).
    pose proof (wp_elim _ _ _ _ _ _ (sfa_dealloc_spec a f Hwf ltac:(lia)) Ha)
      as (Hwf' & Huse & Huse' & _).
    exists (live ∖ {[f]}). split; [constructor; by apply Hlive|].
    unfold StackFrameAllocator_dealloc, mbind, M_bind, gets, modify, panic in Ha. simpl in Ha.
    destruct (_ || _); simplify_eq.
    split; simpl; [done..| |].
    + intros g. unfold vec_push. rewrite elem_of_app, list_elem_of_singleton. naive_solver.
    + intros g. rewrite elem_of_difference, elem_of_singleton, Hlive, Huse'. naive_solver.
Qed.

Lemma sfa_steps_refine l r a live tr a' :
  sfa_refines l r a live → sfa_steps a tr a' →
  (∀ f, EvDealloc f ∈ tr → l ≤ f) →
  ∃ live', spec_steps l r live tr live' ∧ sfa_refines l r a' live'.
Proof.
  intros Href Hsteps. revert live Href.
  induction Hsteps as [|a ev a' tr a'' Hstep _ IH]; intros live Href Hpool.
  { exists live. split; [constructor|done]. }
  destruct (sfa_step_refines _ _ _ _ _ _ Href Hstep) as (live' & Hspec & Href').
  { intros f ->. apply Hpool. by left. }
  destruct (IH live' Href') as (live'' & Hspecs & Href'').
  { intros f Hf. apply Hpool. by right. }
  exists live''. split; [by econstructor|done].
Qed.

Lemma sfa_init_refines l r :
  0 ≤ l ≤ r → r ≤ 2 ^ 44 → sfa_refines l r {| fa_current := l; fa_end := r; fa_recycled := [] |} ∅.
Proof.
  intros. split; simpl; [|done|lia|set_solver|].
  - split; simpl; [constructor|set_solver|lia].
  - intros f. unfold sfa_in_use. simpl. set_solver by lia.
Qed.

(** The state after [StackFrameAllocator::new] and [init]. *)
Definition sfa_start (l r : Z) : outcome StackFrameAllocator unit :=
  StackFrameAllocator_init l r StackFrameAllocator_new.

(** ** Properties *)

(** C23: after [init(l, r)] the stack allocator refines a set of live frames over
    the pool [l, r): every sequence of successful calls is one the abstract
    allocator allows (a frame handed out is in the pool and not live, [None] is
    returned only when the whole pool is live); allocation never panics; and
    giving back a frame of the pool succeeds exactly when it is live, a double
    free being caught by a panic. *)
Theorem frame_allocator_refines_live_set l r :
  0 ≤ l ≤ r → r ≤ 2 ^ 44 →
  ∃ a0, sfa_start l r = Done tt a0 ∧
  ∀ tr a, sfa_steps a0 tr a → (∀ f, EvDealloc f ∈ tr → l ≤ f) →
  ∃ live, spec_steps l r ∅ tr live ∧
    (∃ o a', StackFrameAllocator_alloc a = Done o a') ∧
    (∀ f, f ∈ live → ∃ a', StackFrameAllocator_dealloc f a = Done tt a') ∧
    (∀ f, l ≤ f → f ∉ live → StackFrameAllocator_dealloc f a = Panic ExplicitPanic).
Proof.
  intros Hl Hr. eexists. split; [done|]. intros tr a Hsteps Hpool.
  destruct (sfa_steps_refine _ _ _ _ _ _ (sfa_init_refines l r Hl Hr) Hsteps Hpool)
    as (live & Hspec & [Hwf _ _ _ Hlive]).
  exists live. split; [done|]. split.
  { destruct (wp_no_panic _ _ _ (sfa_alloc_spec a Hwf)) as (o & a' & ? & _). eauto. }
  assert (Hd : ∀ f, l ≤ f → _) by (intros f Hf; exact (sfa_dealloc_spec a f Hwf ltac:(lia))).
  unfold wp in Hd. split.
  - intros f [Hf Huse]%Hlive. specialize (Hd f Hf).
    destruct (StackFrameAllocator_dealloc f a) as [[] a'|k|]; naive_solver.
  - intros f Hf Hnlive. rewrite Hlive in Hnlive. specialize (Hd f Hf).
    destruct (StackFrameAllocator_dealloc f a) as [[] a'|k|]; naive_solver.
Qed.

Lemma frame_allocator_refines_live_set_witness :
  ∃ a0, sfa_start 2 4 = Done tt a0 ∧
  ∀ tr a, sfa_steps a0 tr a → (∀ f, EvDealloc f ∈ tr → 2 ≤ f) →
  ∃ live, spec_steps 2 4 ∅ tr live ∧
    (∃ o a', StackFrameAllocator_alloc a = Done o a') ∧
    (∀ f, f ∈ live → ∃ a', StackFrameAllocator_dealloc f a = Done tt a') ∧
    (∀ f, 2 ≤ f → f ∉ live → StackFrameAllocator_dealloc f a = Panic ExplicitPanic).
Proof. apply (frame_allocator_refines_live_set 2 4); lia. Defined.

(** [frame_alloc] never panics.  It returns [None] only when no frame is left
    and then changes nothing; otherwise it returns a frame that was not in use,
    filled with zeros, leaving every other page of memory as it was and every
    other frame's status unchanged; dropping the tracker makes exactly that frame
    available again and does not touch memory. *)
Theorem frame_alloc_fresh_zeroed s :
  mm_wf s →
  wp frame_alloc (λ o s',
    match o with
    | None => s' = s ∧ free_frames s = 0%nat
    | Some f =>
        fresh_frame s f s' ∧
        wp (FrameTracker_drop f) (λ _ s'',
          phys s'' = phys s' ∧ free_frames s'' = free_frames s ∧
          (∀ g, in_use s'' g ↔ in_use s g)) no_panic s'
    end) no_panic s.
Proof.
  intros Hwf. eapply wp_mono; [by apply frame_alloc_spec| |done].
  intros [f|] s' H; [|done]. split; [done|]. destruct H as [Hwf' Hppn Hnew Huse Hfree _ _].
  eapply wp_mono; [apply frame_dealloc_spec; [done|apply Hppn]|..].
  - intros [] s'' (_ & _ & Hphys & Huse' & Hfree'). split; [done|]. split; [lia|].
    intros g. rewrite Huse', Huse. naive_solver.
  - intros k [_ []]. apply Huse. by left.
Qed.

Lemma frame_alloc_fresh_zeroed_witness :
  let s := {| phys := λ _, Corelib.Init.Byte.xff;
              FRAME_ALLOCATOR := {| fa_current := 5; fa_end := 9; fa_recycled := [3] |} |} in
  mm_wf s ∧ ∃ s', frame_alloc s = Done (Some 3) s' ∧ fresh_frame s 3 s'.
Proof.
  intros s. assert (Hwf : mm_wf s).
  { split; simpl; [apply NoDup_singleton| |lia].
    intros f. rewrite list_elem_of_singleton. lia. }
  split; [done|]. pose proof (frame_alloc_fresh_zeroed s Hwf) as H.
  eexists. split; [reflexivity|]. exact (proj1 H).
Defined.

(** The allocator after [init_frame_allocator]. *)
Definition boot_pool (ekernel : Z) : StackFrameAllocator :=
  {| fa_current := (ekernel + 4095) / 4096; fa_end := 0x88000; fa_recycled := [] |}.

Lemma init_frame_allocator_spec ekernel s :
  0 ≤ ekernel ≤ MEMORY_END → FRAME_ALLOCATOR s = fa_new →
  init_frame_allocator ekernel s = Done tt {| phys := phys s; FRAME_ALLOCATOR := boot_pool ekernel |}.
Proof.
  intros He Hnew. unfold init_frame_allocator, with_allocator, StackFrameAllocator_init, zoom, modify.
  rewrite Hnew. simpl. unfold boot_pool. do 3 f_equal.
  unfold PhysAddr_ceil. rewrite PhysAddr_from_usize_mod. unfold_config. unfold_usize.
  rewrite Zminus_mod_idemp_l, (Z.mod_small ekernel) by lia.
  rewrite Z.mod_small by lia. f_equal. lia.
Qed.

(** The pool set up at boot lies between the end of the kernel image and the
    end of memory, so no frame handed out overlaps the kernel or goes past the
    installed memory, and the whole pages in between are all available. *)
Theorem init_frame_allocator_pool ekernel s :
  0 ≤ ekernel ≤ MEMORY_END → FRAME_ALLOCATOR s = fa_new →
  wp (init_frame_allocator ekernel) (λ _ s',
    ∃ l r, sfa_refines l r (FRAME_ALLOCATOR s') ∅ ∧ phys s' = phys s ∧
      ekernel ≤ l * PAGE_SIZE < ekernel + PAGE_SIZE ∧ r * PAGE_SIZE = MEMORY_END ∧
      Z.of_nat (free_frames s') = r - l) no_panic s.
Proof.
  intros He Hnew. unfold wp. rewrite init_frame_allocator_spec by done.
  exists ((ekernel + 4095) / 4096), 0x88000.
  split; [apply sfa_init_refines; csolve|].
  unfold free_frames. simpl. unfold sfa_free. simpl. split_and!; try done; csolve.
Qed.

Lemma init_frame_allocator_pool_witness :
  ∃ s', init_frame_allocator 0x80412345
          {| phys := λ _, Corelib.Init.Byte.x00; FRAME_ALLOCATOR := fa_new |} = Done tt s' ∧
        ∃ l r, sfa_refines l r (FRAME_ALLOCATOR s') ∅ ∧ l = 0x80413.
Proof.
  eexists. split; [reflexivity|].
  assert (H : wp (init_frame_allocator 0x80412345) _ no_panic
                 {| phys := λ _, Corelib.Init.Byte.x00; FRAME_ALLOCATOR := fa_new |})
    by (apply (init_frame_allocator_pool 0x80412345); [unfold MEMORY_END; lia|reflexivity]).
  destruct H as (l & r & Href & _ & Hl & _). exists l, r. split; [exact Href|].
  unfold PAGE_SIZE in Hl. lia.
Defined.
