(* ===== verification/Ownership.v ===== *)
(** * Ownership of physical frames

    Rust's ownership of [FrameTracker]s says who may touch which frame.  A
    component owns a list of frames [O]; [mm_step s O s' O'] is what every memory
    management routine guarantees to the rest of the system when it takes its
    owner from the frames [O] to the frames [O']: the frames of all others stay in
    use and keep their contents, the owner's new frames were free, nothing leaks,
    and the count of free frames is exact.  The relation is reflexive, transitive,
    insensitive to the order of the frames and stable under framing, so routines
    compose. *)
From S2P Require Import Prelude Config Machine Address FrameAllocator.

Record owns (s : mm) (O : list Z) : Prop := {
  owns_nodup : NoDup O;
  owns_in_use f : f ∈ O → in_use s f;
}.

Record mm_step (s : mm) (O : list Z) (s' : mm) (O' : list Z) : Prop := {
  step_wf : mm_wf s';
  step_owns : owns s' O';
  step_other f : in_use s f → f ∉ O →
    in_use s' f ∧ (f ∉ O') ∧ page_agree (phys s) (phys s') f;
  step_no_leak f : in_use s' f → f ∈ O' ∨ (in_use s f ∧ f ∉ O);
  step_count : (free_frames s + length O = free_frames s' + length O')%nat;
}.

#[global] Instance owns_proper s : Proper ((≡ₚ) ==> iff) (owns s).
Proof.
  intros O1 O2 HO. split; intros [Hnd Huse]; (split; [by rewrite HO || by rewrite <-HO|]);
    intros f Hf; apply Huse; by rewrite HO || by rewrite <-HO.
Qed.

Lemma mm_step_perm_impl s O1 O2 s' O1' O2' :
  O1 ≡ₚ O2 → O1' ≡ₚ O2' → mm_step s O1 s' O1' → mm_step s O2 s' O2'.
Proof.
  intros HO HO' [Hwf Hown Hoth Hleak Hcnt]. split; [done|by rewrite <-HO'| | |].
  - intros f. rewrite <-HO, <-HO'. apply Hoth.
  - intros f. rewrite <-HO, <-HO'. apply Hleak.
  - by rewrite <-HO, <-HO'.
Qed.

#[global] Instance mm_step_proper s :
  Proper ((≡ₚ) ==> (=) ==> (≡ₚ) ==> iff) (mm_step s).
Proof.
  intros O1 O2 HO s' ? <- O1' O2' HO'.
  split; apply mm_step_perm_impl; by try symmetry.
Qed.

Lemma owns_app s O R :
  owns s (O ++ R) ↔ owns s O ∧ owns s R ∧ (∀ f, f ∈ O → f ∉ R).
Proof.
  split.
  - intros [(Hnd & Hdis & Hnd')%NoDup_app Huse]. split_and!; [split|split|]; try done;
      intros f Hf; apply Huse; set_solver.
  - intros ([Hnd Huse] & [Hnd' Huse'] & Hdis). split; [by apply NoDup_app|].
    intros f [?|?]%elem_of_app; auto.
Qed.

Lemma owns_is_ppn s O f : mm_wf s → owns s O → f ∈ O → is_ppn f.
Proof. intros Hwf [_ Huse] Hf. eapply in_use_ppn; eauto. Qed.

Lemma mm_step_refl s O : mm_wf s → owns s O → mm_step s O s O.
Proof.
  intros. split; [done..| | |done].
  - intros. by split_and!.
  - intros f ?. destruct (decide (f ∈ O)); auto.
Qed.

Lemma mm_step_trans s1 O1 s2 O2 s3 O3 :
  mm_step s1 O1 s2 O2 → mm_step s2 O2 s3 O3 → mm_step s1 O1 s3 O3.
Proof.
  intros [Hwf2 Hown2 Hoth2 Hleak2 Hcnt2] [Hwf3 Hown3 Hoth3 Hleak3 Hcnt3].
  split; [done..| | |lia].
  - intros f Huse Hf. destruct (Hoth2 f Huse Hf) as (Huse2 & Hf2 & Hag2).
    destruct (Hoth3 f Huse2 Hf2) as (Huse3 & Hf3 & Hag3).
    split_and!; [done..|]. by eapply mem_agree_trans.
  - intros f [?|[Huse2 Hf2]]%Hleak3; [by left|].
    destruct (Hleak2 f Huse2); [done|by right].
Qed.

(** Framing: what another part of the owner holds is carried along untouched. *)
Lemma mm_step_frame s O s' O' R :
  mm_step s O s' O' → owns s (O ++ R) → mm_step s (O ++ R) s' (O' ++ R).
Proof.
  intros [Hwf Hown Hoth Hleak Hcnt] (HO & HR & Hdis)%owns_app.
  assert (HR' : ∀ f, f ∈ R → in_use s' f ∧ f ∉ O').
  { intros f Hf. destruct (Hoth f) as (? & ? & _); [by apply HR|set_solver|done]. }
  split; [done| | | |].
  - apply owns_app. split_and!; [done| |set_solver].
    split; [apply HR|]. intros f Hf. by apply HR'.
  - intros f Huse Hf. destruct (Hoth f Huse) as (? & ? & ?); [set_solver|].
    split_and!; [done|set_solver|done].
  - intros f Hf. destruct (decide (f ∈ R)); [left; set_solver|].
    destruct (Hleak f Hf) as [?|[? ?]]; [left|right]; set_solver.
  - rewrite !length_app. lia.
Qed.

Lemma mm_step_frame_agree s O s' O' R f :
  mm_step s O s' O' → owns s (O ++ R) → f ∈ R → page_agree (phys s) (phys s') f.
Proof.
  intros Hstep (_ & HR & Hdis)%owns_app Hf.
  apply (step_other _ _ _ _ Hstep f); [by apply HR|set_solver].
Qed.

(** ** The three primitive steps *)

Lemma mm_step_alloc s O f s' :
  fresh_frame s f s' → owns s O → mm_step s O s' (f :: O).
Proof.
  intros [Hwf Hppn Hnew Huse Hfree Hzero Hoth] HO.
  assert (Hf : f ∉ O) by (intros ?%HO; done).
  split; [done| | | |simpl; lia].
  - split; [constructor; [done|apply HO]|]. intros g [->|Hg]%elem_of_cons; apply Huse; [by left|].
    right. by apply HO.
  - intros g Hg HgO. assert (g ≠ f) by congruence.
    split_and!; [apply Huse; by right|set_solver|by apply Hoth].
  - intros g [->|Hg]%Huse; [left; set_solver|].
    destruct (decide (g ∈ O)); [left; set_solver|by right].
Qed.

Lemma mm_step_dealloc s O f :
  mm_wf s → owns s (f :: O) →
  wp (frame_dealloc f) (λ _ s', phys s' = phys s ∧ mm_step s (f :: O) s' O) no_panic s.
Proof.
  intros Hwf Hown. pose proof Hown as [Hnd Huse].
  assert (Hf : in_use s f) by (apply Huse; set_solver).
  eapply wp_mono; [apply frame_dealloc_spec; [done|]| |].
  - by destruct (in_use_ppn _ _ Hwf Hf).
  - intros [] s' (Hwf' & _ & Hphys & Huse' & Hfree). split; [done|].
    apply NoDup_cons in Hnd as [HfO Hnd]. split; [done| | | |simpl; lia].
    + split; [done|]. intros g Hg. apply Huse'. split; [set_solver|]. apply Huse. by right.
    + intros g Hg HgO. rewrite Huse', Hphys. split_and!; [set_solver|done|set_solver|].
      apply mem_agree_refl.
    + intros g [Hne Hg]%Huse'. destruct (decide (g ∈ O)); [by left|right].
      split; [done|]. set_solver.
  - intros k [_ []]. done.
Qed.

Lemma mm_step_write s O s' :
  mm_wf s → owns s O → FRAME_ALLOCATOR s' = FRAME_ALLOCATOR s →
  (∀ f, is_ppn f → f ∉ O → page_agree (phys s) (phys s') f) →
  mm_step s O s' O.
Proof.
  intros Hwf [Hnd Huse] Hfa Hag.
  assert (Hu : ∀ f, in_use s' f ↔ in_use s f) by (intros f; unfold in_use; by rewrite Hfa).
  split; [unfold mm_wf; by rewrite Hfa| | | |unfold free_frames; by rewrite Hfa].
  - split; [done|]. intros f Hf. by apply Hu, Huse.
  - intros f Hf HfO. split_and!; [by apply Hu|done|]. apply Hag; [|done].
    by eapply in_use_ppn.
  - intros f Hf%Hu. destruct (decide (f ∈ O)); auto.
Qed.

(** Dropping a list of trackers, as [Vec<FrameTracker>] does. *)
Lemma forM_dealloc_spec s O R :
  mm_wf s → owns s (O ++ R) →
  wp (forM FrameTracker_drop O) (λ _ s', phys s' = phys s ∧ mm_step s (O ++ R) s' R) no_panic s.
Proof.
  intros Hwf Hown. unfold forM.
  eapply wp_mono; [apply (wp_foldM _ (λ l _ s', phys s' = phys s ∧
    mm_step s (O ++ R) s' (l ++ R)))| |done].
  - split; [done|]. by apply mm_step_refl.
  - intros f l [] s' [Hphys Hstep]. simpl in Hstep.
    eapply wp_mono; [apply mm_step_dealloc; apply Hstep| |done].
    intros [] s'' [Hphys' Hstep']. split; [congruence|]. by eapply mm_step_trans.
  - done.
Qed.

#[export] Hint Resolve mm_step_refl step_wf step_owns : kernel.
