(* ===== verification/PageTable.v ===== *)
(** * SV39 page tables ([src/mm/page_table.rs], the type [PageTable])

    Entries live in physical memory and are read and written through it; a
    [&mut PageTableEntry] is the physical address of the entry. *)
From S2P Require Import Prelude Config Machine Address FrameAllocator Ownership.

(** ** Page table entries *)

Abbreviation PTEFlags := Z (only parsing).
Abbreviation PageTableEntry := Z (only parsing).

(* src: src/src/mm/page_table.rs 19-19 PTEFlags::V *)
Definition PTE_V : PTEFlags := Z.shiftl 1 0.
(* src: src/src/mm/page_table.rs 20-20 PTEFlags::R *)
Definition PTE_R : PTEFlags := Z.shiftl 1 1.
(* src: src/src/mm/page_table.rs 21-21 PTEFlags::W *)
Definition PTE_W : PTEFlags := Z.shiftl 1 2.
(* src: src/src/mm/page_table.rs 22-22 PTEFlags::X *)
Definition PTE_X : PTEFlags := Z.shiftl 1 3.
(* src: src/src/mm/page_table.rs 23-23 PTEFlags::U *)
Definition PTE_U : PTEFlags := Z.shiftl 1 4.
(** [PTEFlags::all()]: the flags [V R W X U G A D]. *)
(* src: src/src/mm/page_table.rs 16-28 PTEFlags *)
Definition PTEFlags_all : PTEFlags :=
  foldr Z.lor 0 [PTE_V; PTE_R; PTE_W; PTE_X; PTE_U; Z.shiftl 1 5; Z.shiftl 1 6; Z.shiftl 1 7].

(** [bitflags]' [from_bits]: [None] when an undefined bit is set. *)
Definition PTEFlags_from_bits (b : Z) : option PTEFlags :=
  if Z.land b (Z.lnot PTEFlags_all) =? 0 then Some b else None.

(* src: src/src/mm/page_table.rs 40-44 PageTableEntry::new *)
Definition PTE_new (ppn : PhysPageNum) (flags : PTEFlags) : PageTableEntry :=
  Z.lor (ppn <<u 10) flags.
(* src: src/src/mm/page_table.rs 47-49 PageTableEntry::empty *)
Definition PTE_empty : PageTableEntry := 0.
(* src: src/src/mm/page_table.rs 52-54 PageTableEntry::ppn *)
Definition PTE_ppn (bits : PageTableEntry) : PhysPageNum :=
  PhysPageNum_from_usize (Z.land (Z.shiftr bits 10) (Z.shiftl 1 44 - 1)).
(** The [unwrap] cannot fail: [PTE_flags_unwrap] below. *)
(* src: src/src/mm/page_table.rs 57-59 PageTableEntry::flags *)
Definition PTE_flags (bits : PageTableEntry) : PTEFlags :=
  default 0 (PTEFlags_from_bits (bits mod 2 ^ 8)).
(* src: src/src/mm/page_table.rs 62-64 PageTableEntry::is_valid *)
Definition PTE_is_valid (bits : PageTableEntry) : bool :=
  negb (Z.land (PTE_flags bits) PTE_V =? 0).
(* src: src/src/mm/page_table.rs 67-69 PageTableEntry::is_readable *)
Definition PTE_is_readable (bits : PageTableEntry) : bool :=
  negb (Z.land (PTE_flags bits) PTE_R =? 0).
(* src: src/src/mm/page_table.rs 72-74 PageTableEntry::is_writable *)
Definition PTE_is_writable (bits : PageTableEntry) : bool :=
  negb (Z.land (PTE_flags bits) PTE_W =? 0).
(* src: src/src/mm/page_table.rs 77-79 PageTableEntry::is_executable *)
Definition PTE_is_executable (bits : PageTableEntry) : bool :=
  negb (Z.land (PTE_flags bits) PTE_X =? 0).

(** ** Page tables *)

(* src: src/src/mm/page_table.rs 83-88 PageTable *)
Record PageTable : Set := mkPageTable {
  root_ppn : PhysPageNum;
  frames : list FrameTracker;
}.

(** [&mut ppn.get_pte_array()[idx]], [*pte] and [*pte = v]. *)
Definition pte_ref (ppn : PhysPageNum) (idx : Z) : M mm Z :=
  if idx <? 512 then mret (PhysPageNum_get_pte_array ppn + 8 * idx)
  else panic IndexOutOfBounds.
Definition read_pte (pte : Z) : M mm PageTableEntry := gets (λ s, load64 (phys s) pte).
Definition write_pte (pte : Z) (v : PageTableEntry) : M mm unit :=
  set_phys (λ m, store64 m pte v).

(* src: src/src/mm/page_table.rs 93-99 PageTable::new *)
Definition PageTable_new : M mm PageTable :=
  o ← frame_alloc;
  frame ← unwrap o;
  mret {| root_ppn := frame; frames := [frame] |}.

(** The body of [for i in 0..3] of [find_pte_create], from iteration [i] on. *)
(* src: src/src/mm/page_table.rs 115-131 PageTable::find_pte_create *)
Fixpoint find_pte_create_loop (iters : list nat) (idxs : list Z) (ppn : PhysPageNum)
    (self : PageTable) : M mm (option Z * PageTable) :=
  match iters with
  | [] => mret (None, self)
  | i :: iters =>
      pte ← pte_ref ppn (idxs !!! i);
      if (i =? 2)%nat then mret (Some pte, self)
      else
        e ← read_pte pte;
        self' ← (if negb (PTE_is_valid e) then
                   o ← frame_alloc;
                   frame ← unwrap o;
                   write_pte pte (PTE_new frame PTE_V);;
                   mret {| root_ppn := root_ppn self; frames := vec_push (frames self) frame |}
                 else mret self);
        e' ← read_pte pte;
        find_pte_create_loop iters idxs (PTE_ppn e') self'
  end.

(* src: src/src/mm/page_table.rs 103-132 PageTable::find_pte_create *)
Definition PageTable_find_pte_create (self : PageTable) (vpn : VirtPageNum)
    : M mm (option Z * PageTable) :=
  find_pte_create_loop [0; 1; 2]%nat (VirtPageNum_indexes vpn) (root_ppn self) self.

(* src: src/src/mm/page_table.rs 136-142 PageTable::map *)
Definition PageTable_map (self : PageTable) (vpn : VirtPageNum) (ppn : PhysPageNum)
    (flags : PTEFlags) : M mm PageTable :=
  '(o, self') ← PageTable_find_pte_create self vpn;
  pte ← unwrap o;
  e ← read_pte pte;
  assert_ (negb (PTE_is_valid e));;
  write_pte pte (PTE_new ppn (Z.lor flags PTE_V));;
  mret self'.

(* src: src/src/mm/page_table.rs 147-152 PageTable::unmap *)
Definition PageTable_unmap (self : PageTable) (vpn : VirtPageNum) : M mm PageTable :=
  '(o, self') ← PageTable_find_pte_create self vpn;
  pte ← unwrap o;
  e ← read_pte pte;
  assert_ (PTE_is_valid e);;
  write_pte pte PTE_empty;;
  mret self'.

(* src: src/src/mm/page_table.rs 155-162 PageTable::from_token *)
Definition PageTable_from_token (satp : Z) : PageTable :=
  {| root_ppn := PhysPageNum_from_usize (Z.land satp (Z.shiftl 1 44 - 1)); frames := [] |}.

(* src: src/src/mm/page_table.rs 171-184 PageTable::find_pte *)
Fixpoint find_pte_loop (iters : list nat) (idxs : list Z) (ppn : PhysPageNum)
    : M mm (option Z) :=
  match iters with
  | [] => mret None
  | i :: iters =>
      pte ← pte_ref ppn (idxs !!! i);
      if (i =? 2)%nat then mret (Some pte)
      else
        e ← read_pte pte;
        if negb (PTE_is_valid e) then mret None
        else find_pte_loop iters idxs (PTE_ppn e)
  end.

(* src: src/src/mm/page_table.rs 166-185 PageTable::find_pte *)
Definition PageTable_find_pte (self : PageTable) (vpn : VirtPageNum) : M mm (option Z) :=
  find_pte_loop [0; 1; 2]%nat (VirtPageNum_indexes vpn) (root_ppn self).

(* src: src/src/mm/page_table.rs 188-190 PageTable::translate *)
Definition PageTable_translate (self : PageTable) (vpn : VirtPageNum)
    : M mm (option PageTableEntry) :=
  o ← PageTable_find_pte self vpn;
  match o with
  | Some pte => e ← read_pte pte; mret (Some e)
  | None => mret None
  end.

(* src: src/src/mm/page_table.rs 196-198 PageTable::token *)
Definition PageTable_token (self : PageTable) : Z := Z.lor (8 <<u 60) (root_ppn self).

(* src: src/src/mm/page_table.rs 201-207 PageTable::find_vpn *)
Definition PageTable_find_vpn (self : PageTable) (vpn : VirtPageNum) : M mm bool :=
  o ← PageTable_find_pte self vpn;
  match o with
  | Some pte => e ← read_pte pte; mret (PTE_is_valid e)
  | None => mret false
  end.

(* src: src/src/mm/page_table.rs 210-217 PageTable::translate_va *)
Definition PageTable_translate_va (self : PageTable) (va : VirtAddr)
    : M mm (option PhysAddr) :=
  o ← PageTable_find_pte self (VirtAddr_floor va);
  match o with
  | Some pte =>
      e ← read_pte pte;
      let aligned_pa := PhysAddr_from_PhysPageNum (PTE_ppn e) in
      let offset := VirtAddr_page_offset va in
      mret (Some (PhysAddr_from_usize (aligned_pa +u offset)))
  | None => mret None
  end.

(** Dropping a [PageTable] drops its [Vec<FrameTracker>]. *)
Definition PageTable_drop (self : PageTable) : M mm unit :=
  forM FrameTracker_drop (frames self).

(** ** Facts about entries *)

Lemma PTEFlags_from_bits_u8 b : 0 ≤ b < 2 ^ 8 → PTEFlags_from_bits b = Some b.
Proof.
  intros Hb. unfold PTEFlags_from_bits.
  replace (Z.land b (Z.lnot PTEFlags_all)) with 0; [done|].
  symmetry. apply Z.bits_inj'. intros i Hi. rewrite Z.land_spec, Z.bits_0, Z.lnot_spec by done.
  change PTEFlags_all with (Z.ones 8). destruct (decide (i < 8)).
  - by rewrite Z.ones_spec_low, andb_false_r by lia.
  - rewrite <-(Z.mod_small b (2 ^ 8)) by done. by rewrite Z.mod_pow2_bits_high by lia.
Qed.

(** The [unwrap] in [PageTableEntry::flags] never panics: all eight bits are
    defined flags. *)
Lemma PTE_flags_unwrap bits :
  PTEFlags_from_bits (bits mod 2 ^ 8) = Some (PTE_flags bits).
Proof.
  unfold PTE_flags. by rewrite PTEFlags_from_bits_u8 by (apply Z.mod_pos_bound; lia).
Qed.

Lemma PTE_flags_eq bits : PTE_flags bits = bits mod 2 ^ 8.
Proof.
  pose proof (PTE_flags_unwrap bits) as H.
  rewrite PTEFlags_from_bits_u8 in H by (apply Z.mod_pos_bound; lia). congruence.
Qed.

Lemma flag_testbit bits k :
  0 ≤ k < 8 → negb (Z.land (PTE_flags bits) (Z.shiftl 1 k) =? 0) = Z.testbit bits k.
Proof.
  intros Hk. rewrite PTE_flags_eq, Z.shiftl_1_l.
  rewrite <-(Z.mod_pow2_bits_low bits 8 k) by lia.
  set (b := bits mod 2 ^ 8). destruct (Z.testbit b k) eqn:Hb.
  - destruct (Z.eqb_spec (Z.land b (2 ^ k)) 0) as [H|]; [|done].
    apply (f_equal (λ z, Z.testbit z k)) in H.
    rewrite Z.land_spec, Hb, Z.pow2_bits_true, Z.bits_0 in H by lia. done.
  - destruct (Z.eqb_spec (Z.land b (2 ^ k)) 0) as [|[]]; [done|].
    apply Z.bits_inj'. intros i Hi. rewrite Z.land_spec, Z.bits_0.
    destruct (decide (i = k)) as [->|]; [by rewrite Hb|].
    rewrite Z.pow2_bits_false by done. apply andb_false_r.
Qed.

Lemma PTE_is_valid_testbit bits : PTE_is_valid bits = Z.testbit bits 0.
Proof. by apply (flag_testbit bits 0). Qed.

Lemma PTE_is_valid_empty : PTE_is_valid PTE_empty = false.
Proof. done. Qed.

Lemma PTE_new_eq ppn flags :
  is_ppn ppn → 0 ≤ flags < 2 ^ 8 → PTE_new ppn flags = ppn * 2 ^ 10 + flags.
Proof.
  unfold is_ppn. intros. unfold PTE_new, usize_shl. rewrite Z.shiftl_mul_pow2 by lia.
  rewrite wrap64_small by usolve. rewrite <-lor_shiftl_add by lia.
  by rewrite Z.shiftl_mul_pow2 by lia.
Qed.

Lemma PTE_ppn_eq bits : PTE_ppn bits = (bits / 2 ^ 10) mod 2 ^ 44.
Proof.
  unfold PTE_ppn. change (Z.shiftl 1 44 - 1) with (2 ^ 44 - 1).
  rewrite land_ones_mod, Z.shiftr_div_pow2, PhysPageNum_from_usize_mod by lia.
  by rewrite Z.mod_mod by lia.
Qed.

Lemma PTE_ppn_is_ppn bits : is_ppn (PTE_ppn bits).
Proof. apply is_ppn_from_usize. Qed.

Lemma PTE_new_usize ppn flags :
  is_ppn ppn → 0 ≤ flags < 2 ^ 8 → is_usize (PTE_new ppn flags).
Proof. intros. rewrite PTE_new_eq by done. unfold is_ppn in *. usolve. Qed.

Lemma PTE_ppn_new ppn flags :
  is_ppn ppn → 0 ≤ flags < 2 ^ 8 → PTE_ppn (PTE_new ppn flags) = ppn.
Proof.
  intros Hp Hf. rewrite PTE_new_eq, PTE_ppn_eq by done. unfold is_ppn in Hp.
  rewrite Z.div_add_l, (Z.div_small flags), Z.add_0_r by lia. by apply Z.mod_small.
Qed.

Lemma PTE_flags_new ppn flags :
  is_ppn ppn → 0 ≤ flags < 2 ^ 8 → PTE_flags (PTE_new ppn flags) = flags.
Proof. intros. rewrite PTE_new_eq, PTE_flags_eq by done. zsolve. Qed.

Lemma lor_flags_range f g : 0 ≤ f < 2 ^ 8 → 0 ≤ g < 2 ^ 8 → 0 ≤ Z.lor f g < 2 ^ 8.
Proof.
  intros Hf Hg. split; [apply Z.lor_nonneg; lia|].
  destruct (decide (Z.lor f g = 0)) as [->|]; [done|].
  assert (0 ≤ Z.lor f g) by (apply Z.lor_nonneg; lia).
  apply Z.log2_lt_pow2; [lia|]. rewrite Z.log2_lor by lia.
  assert (∀ h, 0 ≤ h < 2 ^ 8 → Z.log2 h < 8) as Hlog.
  { intros h Hh. destruct (decide (h = 0)) as [->|]; [done|]. apply Z.log2_lt_pow2; lia. }
  pose proof (Hlog f Hf). pose proof (Hlog g Hg). lia.
Qed.

Lemma lor_V_range f : 0 ≤ f < 2 ^ 8 → 0 ≤ Z.lor f PTE_V < 2 ^ 8.
Proof. intros. by apply lor_flags_range. Qed.

Lemma PTE_is_valid_new ppn flags :
  is_ppn ppn → 0 ≤ flags < 2 ^ 8 → PTE_is_valid (PTE_new ppn (Z.lor flags PTE_V)) = true.
Proof.
  intros. unfold PTE_is_valid. rewrite PTE_flags_new by (try done; by apply lor_V_range).
  destruct (Z.eqb_spec (Z.land (Z.lor flags PTE_V) PTE_V) 0) as [He|]; [|done].
  apply (f_equal (λ z, Z.testbit z 0)) in He.
  rewrite Z.land_spec, Z.lor_spec, orb_true_r in He. done.
Qed.

#[export] Hint Resolve PTE_ppn_is_ppn PTE_new_usize PTE_is_valid_new lor_V_range : kernel.
