(* ===== verification/PageTree.v ===== *)
(** * The tree of table pages in memory

    The logical content of a page table: which table page each path of indices
    reaches ([node]), which valid leaf entry each virtual page number finds
    ([pt_lookup]), and the invariant [pt_wf] under which writing one entry changes
    one path only: every table page is owned by the table and is reached by a
    single path. *)
From S2P Require Import Prelude Config Machine Address FrameAllocator Ownership PageTable.

(** The address of entry [i] of table page [p], and the entry. *)
Definition slot (p i : Z) : Z := p * 4096 + 8 * i.
Definition entry (m : memory) (p i : Z) : Z := load64 m (slot p i).

(** The next-level table that entry [i] of page [p] points to. *)
Definition child (m : memory) (p i : Z) : option Z :=
  if PTE_is_valid (entry m p i) then Some (PTE_ppn (entry m p i)) else None.

Fixpoint node (m : memory) (p : Z) (path : list Z) : option Z :=
  match path with
  | [] => Some p
  | i :: path => q ← child m p i; node m q path
  end.

(** The two upper indices and the leaf index of a virtual page number. *)
Definition upper (vpn : Z) : list Z := [vpn / 2 ^ 18 mod 512; vpn / 2 ^ 9 mod 512].
Definition leaf (vpn : Z) : Z := vpn mod 512.
#[global] Arguments upper : simpl never.
#[global] Arguments leaf : simpl never.

(** The valid leaf entry of [vpn], if there is one: the mapping the MMU uses. *)
Definition pt_lookup (m : memory) (pt : PageTable) (vpn : Z) : option Z :=
  p ← node m (root_ppn pt) (upper vpn);
  if PTE_is_valid (entry m p (leaf vpn)) then Some (entry m p (leaf vpn)) else None.

Definition is_idx (i : Z) : Prop := 0 ≤ i < 512.
Definition is_path (path : list Z) : Prop := Forall is_idx path ∧ (length path ≤ 2)%nat.

Record pt_wf (m : memory) (pt : PageTable) : Prop := {
  ptw_root : root_ppn pt ∈ frames pt;
  ptw_ppn f : f ∈ frames pt → is_ppn f;
  ptw_owned path p : is_path path → node m (root_ppn pt) path = Some p → p ∈ frames pt;
  ptw_inj path path' p : is_path path → is_path path' →
    node m (root_ppn pt) path = Some p → node m (root_ppn pt) path' = Some p → path = path';
  (** An entry above the leaves has no permission: to the MMU it is a pointer. *)
  ptw_table path p i : is_path (path ++ [i]) → node m (root_ppn pt) path = Some p →
    PTE_is_valid (entry m p i) = true → PTE_flags (entry m p i) = PTE_V;
}.

(** ** Slots and entries *)

Lemma is_idx_mod v : is_idx (v mod 512).
Proof. apply Z.mod_pos_bound. lia. Qed.

Lemma is_path_upper vpn : is_path (upper vpn).
Proof. split; [repeat constructor; apply is_idx_mod|simpl; lia]. Qed.

Lemma is_idx_leaf vpn : is_idx (leaf vpn).
Proof. apply is_idx_mod. Qed.

Lemma is_path_snoc path i : is_path (path ++ [i]) ↔ Forall is_idx path ∧ is_idx i ∧ (length path ≤ 1)%nat.
Proof.
  unfold is_path. rewrite Forall_app, Forall_singleton, length_app. simpl. naive_solver lia.
Qed.

Lemma is_path_init path i : is_path (path ++ [i]) → is_path path.
Proof. rewrite is_path_snoc. intros (? & ? & ?). split; [done|lia]. Qed.

Lemma upper_leaf_inj vpn vpn' :
  is_vpn vpn → is_vpn vpn' → upper vpn = upper vpn' → leaf vpn = leaf vpn' → vpn = vpn'.
Proof. unfold is_vpn, upper, leaf. intros ? ? [= H1 H2] H3. zsolve. Qed.

Lemma slot_usize p i : is_ppn p → is_idx i → is_usize (slot p i).
Proof. unfold is_ppn, is_idx, slot. usolve. Qed.

Lemma entry_usize m p i : is_usize (entry m p i).
Proof. apply load64_range. Qed.

Lemma entry_agree m m' p i : is_idx i → page_agree m m' p → entry m p i = entry m' p i.
Proof.
  unfold is_idx. intros Hi H. apply load64_agree. intros x Hx. apply H. unfold slot in Hx. lia.
Qed.

Lemma entry_zero m p i : is_idx i → page_zero m p → entry m p i = 0.
Proof.
  unfold is_idx. intros Hi H. apply load64_zero. intros x Hx. apply H. unfold slot in Hx. lia.
Qed.

Lemma entry_store_eq m p i v : is_usize v → entry (store64 m (slot p i) v) p i = v.
Proof. apply load64_store64_eq. Qed.

Lemma entry_store_ne m p i v p' i' :
  is_idx i → is_idx i' → (p, i) ≠ (p', i') →
  entry (store64 m (slot p i) v) p' i' = entry m p' i'.
Proof.
  unfold is_idx. intros Hi Hi' Hne. apply load64_store64_ne. unfold slot.
  destruct (decide (p = p')) as [->|]; [|lia].
  destruct (decide (i = i')) as [->|]; [done|lia].
Qed.

Lemma store_slot_page_agree m p i v q :
  is_idx i → q ≠ p → page_agree m (store64 m (slot p i) v) q.
Proof.
  unfold is_idx, slot. intros Hi Hq x Hx. symmetry. apply store64_out. lia.
Qed.

(** ** Nodes *)

Lemma child_ppn m p i q : child m p i = Some q → is_ppn q.
Proof. unfold child. case_match; [|done]. intros [= <-]. apply PTE_ppn_is_ppn. Qed.

Lemma child_entry_eq m m' p i : entry m p i = entry m' p i → child m p i = child m' p i.
Proof. unfold child. by intros ->. Qed.

Lemma node_app m p path path' :
  node m p (path ++ path') = (q ← node m p path; node m q path').
Proof.
  revert p. induction path as [|i path IH]; intros p; [done|].
  simpl. destruct (child m p i); [apply IH|done].
Qed.

Lemma node_snoc m p path i : node m p (path ++ [i]) = (q ← node m p path; child m q i).
Proof.
  rewrite node_app. destruct (node m p path) as [q|]; [|done]. simpl.
  by destruct (child m q i).
Qed.

Lemma node_snoc_Some m p path i r :
  node m p (path ++ [i]) = Some r ↔ ∃ q, node m p path = Some q ∧ child m q i = Some r.
Proof. rewrite node_snoc. destruct (node m p path); naive_solver. Qed.

(** Two memories with the same entries in the pages reached have the same tree. *)
Lemma node_agree m m' root path :
  Forall is_idx path →
  (∀ path' q i, path' ++ [i] `prefix_of` path → node m root path' = Some q → is_idx i →
     entry m q i = entry m' q i) →
  node m' root path = node m root path.
Proof.
  induction path as [|i path IH] using rev_ind; intros Hidx Hent; [done|].
  apply Forall_app in Hidx as [Hidx Hi]. rewrite Forall_singleton in Hi.
  rewrite !node_snoc, IH; [|done|].
  - destruct (node m root path) as [q|] eqn:Hq; [|done]. simpl.
    symmetry. apply child_entry_eq. apply (Hent path); [reflexivity|done..].
  - intros path' q j Hpre. apply Hent. by apply prefix_app_r.
Qed.

Lemma pt_lookup_Some m pt vpn e :
  pt_lookup m pt vpn = Some e ↔
  ∃ p, node m (root_ppn pt) (upper vpn) = Some p ∧ e = entry m p (leaf vpn) ∧
       PTE_is_valid e = true.
Proof.
  unfold pt_lookup. split.
  - destruct (node m (root_ppn pt) (upper vpn)) as [p|]; simpl; [|done].
    destruct (PTE_is_valid _) eqn:Hv; [|done]. intros [= <-]. eauto.
  - intros (p & -> & -> & Hv). simpl. by rewrite Hv.
Qed.

Lemma pt_lookup_node m pt vpn p :
  node m (root_ppn pt) (upper vpn) = Some p →
  pt_lookup m pt vpn =
    if PTE_is_valid (entry m p (leaf vpn)) then Some (entry m p (leaf vpn)) else None.
Proof. unfold pt_lookup. by intros ->. Qed.

(** ** Writing an entry *)

Section TreeUpdate.
Context (m : memory) (pt : PageTable) (Hwf : pt_wf m pt).

(** Memory outside the table's own pages does not matter. *)
Lemma node_pages_agree m' path :
  (∀ f, f ∈ frames pt → page_agree m m' f) → is_path path →
  node m' (root_ppn pt) path = node m (root_ppn pt) path.
Proof.
  intros Hag [Hidx Hlen]. apply node_agree; [done|]. intros path' q i Hpre Hq Hi.
  apply entry_agree; [done|]. apply Hag. eapply (ptw_owned _ _ Hwf path'); [|done].
  apply prefix_length in Hpre as Hlen'. rewrite length_app in Hlen'. simpl in Hlen'.
  split; [|lia]. destruct Hpre as [k ->]. rewrite <-app_assoc, Forall_app in Hidx. tauto.
Qed.

Lemma pt_wf_pages_agree m' :
  (∀ f, f ∈ frames pt → page_agree m m' f) → pt_wf m' pt.
Proof.
  intros Hag. destruct Hwf as [Hroot Hppn Hown Hinj Htab]. split; [done..| | |].
  - intros path p Hpath. rewrite node_pages_agree by done. by apply Hown.
  - intros path path' p Hpath Hpath'. rewrite (node_pages_agree m' path), (node_pages_agree m' path') by done.
    by apply Hinj.
  - intros path p i Hpath. pose proof (is_path_init _ _ Hpath). rewrite node_pages_agree by done. intros Hp.
    assert (Hi : is_idx i) by (apply is_path_snoc in Hpath; tauto).
    rewrite <-(entry_agree m m') by eauto. by apply (Htab path).
Qed.

Lemma pt_lookup_pages_agree m' vpn :
  (∀ f, f ∈ frames pt → page_agree m m' f) → pt_lookup m' pt vpn = pt_lookup m pt vpn.
Proof.
  intros Hag. unfold pt_lookup. rewrite node_pages_agree by auto using is_path_upper.
  destruct (node m (root_ppn pt) (upper vpn)) as [p|] eqn:Hp; [|done]. simpl.
  rewrite <-(entry_agree m m'); [done|apply is_idx_leaf|].
  apply Hag. eapply ptw_owned; [done|apply is_path_upper|done].
Qed.

(** A write into a leaf table leaves the tree as it is... *)
Lemma node_store_leaf path p i v path' :
  length path = 2%nat → is_path path → node m (root_ppn pt) path = Some p → is_idx i →
  is_path path' →
  node (store64 m (slot p i) v) (root_ppn pt) path' = node m (root_ppn pt) path'.
Proof.
  intros Hlen Hpath Hp Hi Hpath'. apply node_agree; [apply Hpath'|].
  intros path'' q j Hpre Hq Hj. symmetry. apply entry_store_ne; [done..|]. intros [= <- <-].
  apply prefix_length in Hpre as Hlen'. rewrite length_app in Hlen'. simpl in Hlen'.
  destruct Hpath' as [Hidx' Hlen''].
  assert (path'' = path) as ->; [|lia].
  apply (ptw_inj _ _ Hwf path'' path p); [|done..].
  split; [|lia]. destruct Hpre as [k ->]. rewrite <-app_assoc, Forall_app in Hidx'. tauto.
Qed.

Lemma pt_wf_store_leaf path p i v :
  length path = 2%nat → is_path path → node m (root_ppn pt) path = Some p → is_idx i →
  pt_wf (store64 m (slot p i) v) pt.
Proof.
  intros Hlen Hpath Hp Hi. destruct Hwf as [Hroot Hppn Hown Hinj Htab]. split; [done..| | |].
  - intros path' q Hpath'. rewrite (node_store_leaf path) by done. by apply Hown.
  - intros path1 path2 q Hpath1 Hpath2. rewrite (node_store_leaf path p i v path1), (node_store_leaf path p i v path2) by done.
    by apply Hinj.
  - intros path' q j Hpath'. pose proof (is_path_init _ _ Hpath'). rewrite (node_store_leaf path) by done. intros Hq.
    rewrite entry_store_ne; [by apply (Htab path')|done|apply is_path_snoc in Hpath'; tauto|].
    intros [= <- _]. assert (path' = path) as -> by eauto.
    apply is_path_snoc in Hpath' as (_ & _ & Hl). lia.
Qed.

(** ... and changes the mapping of one virtual page number only. *)
Lemma pt_lookup_store_leaf vpn p v vpn' :
  node m (root_ppn pt) (upper vpn) = Some p → is_usize v → is_vpn vpn → is_vpn vpn' →
  pt_lookup (store64 m (slot p (leaf vpn)) v) pt vpn' =
    if decide (vpn' = vpn) then (if PTE_is_valid v then Some v else None)
    else pt_lookup m pt vpn'.
Proof.
  intros Hp Hv Hvpn Hvpn'. unfold pt_lookup.
  rewrite (node_store_leaf (upper vpn)) by auto using is_path_upper, is_idx_leaf.
  case_decide as Heq.
  - subst vpn'. rewrite Hp. simpl. by rewrite entry_store_eq.
  - destruct (node m (root_ppn pt) (upper vpn')) as [q|] eqn:Hq; [|done]. simpl.
    rewrite entry_store_ne; [done|apply is_idx_leaf..|]. intros [= <- Hleaf].
    apply Heq. apply upper_leaf_inj; [done..| |done].
    apply (ptw_inj _ _ Hwf _ _ p); auto using is_path_upper.
Qed.

End TreeUpdate.

(** ** Adding a table page

    [find_pte_create] allocates a zeroed frame [f] (memory [m] becomes [m0]) and
    links it at entry [i] of the table page [p] reached by [path]. *)
Section TreeGrow.
Context (m m0 : memory) (pt : PageTable) (Hwf : pt_wf m pt).
Context (path : list Z) (i p f : Z).
Context (Hpath : is_path (path ++ [i])).
Context (Hp : node m (root_ppn pt) path = Some p).
Context (Hnone : child m p i = None).
Context (Hf : is_ppn f) (Hfresh : f ∉ frames pt).
Context (Hzero : page_zero m0 f).
Context (Hothers : ∀ q, q ≠ f → page_agree m m0 q).

Let m' : memory := store64 m0 (slot p i) (PTE_new f PTE_V).
Let pt' : PageTable := {| root_ppn := root_ppn pt; frames := vec_push (frames pt) f |}.

Lemma grow_idx : is_idx i.
Proof. exact (proj1 (proj2 (proj1 (is_path_snoc path i) Hpath))). Qed.

Lemma grow_p_owned : p ∈ frames pt.
Proof. eapply ptw_owned; [done| |done]. by eapply is_path_init. Qed.

Lemma grow_entry_other q j :
  q ∈ frames pt → is_idx j → (q, j) ≠ (p, i) → entry m' q j = entry m q j.
Proof.
  intros Hq Hj Hne. unfold m'. rewrite entry_store_ne by (auto using grow_idx; congruence).
  symmetry. apply entry_agree; [done|]. apply Hothers. congruence.
Qed.

Lemma grow_entry_new : child m' p i = Some f.
Proof.
  unfold child, m'. rewrite entry_store_eq by (by apply PTE_new_usize).
  change PTE_V with (Z.lor 0 PTE_V).
  rewrite PTE_is_valid_new, PTE_ppn_new by done. done.
Qed.

Lemma grow_entry_fresh j : is_idx j → entry m' f j = 0.
Proof.
  intros Hj. pose proof grow_p_owned as Hpo. unfold m'.
  rewrite entry_store_ne by (auto using grow_idx; congruence). by apply entry_zero.
Qed.

Lemma node_grow path' :
  is_path path' →
  node m' (root_ppn pt) path' =
    if decide (path' = path ++ [i]) then Some f else node m (root_ppn pt) path'.
Proof.
  induction path' as [|j path' IH] using rev_ind; intros Hpath'.
  { case_decide as H; [by apply app_cons_not_nil in H|done]. }
  pose proof (is_path_init _ _ Hpath') as Hinit.
  assert (Hj : is_idx j) by (apply is_path_snoc in Hpath'; tauto).
  rewrite !node_snoc, IH by done.
  destruct (decide (path' = path ++ [i])) as [->|Hne].
  - rewrite decide_False by (intros H%(f_equal length); rewrite !length_app in H; simpl in H; lia).
    rewrite node_snoc, Hp. simpl. rewrite Hnone. simpl.
    unfold child. by rewrite grow_entry_fresh.
  - destruct (node m (root_ppn pt) path') as [q|] eqn:Hq; simpl.
    + destruct (decide ((q, j) = (p, i))) as [[= -> ->]|Hqj].
      * assert (path' = path) as ->.
        { apply (ptw_inj _ _ Hwf _ _ p); [done| |done..]. by eapply is_path_init. }
        by rewrite decide_True, grow_entry_new.
      * rewrite decide_False; [|intros [-> ->]%app_inj_tail; congruence].
        apply child_entry_eq, grow_entry_other; [|done..].
        by eapply ptw_owned.
    + rewrite decide_False; [done|]. intros [-> ->]%app_inj_tail. congruence.
Qed.

Lemma pt_wf_grow : pt_wf m' pt'.
Proof.
  pose proof Hwf as [Hroot Hppn Hown Hinj Htab].
  assert (Hfr : ∀ path', is_path path' → node m (root_ppn pt) path' ≠ Some f).
  { intros path' Hpath' Hn. by apply Hfresh, (Hown path'). }
  split; unfold pt', vec_push; simpl.
  - set_solver.
  - intros g [Hg|Hg]%elem_of_app; [by auto|]. by apply list_elem_of_singleton in Hg as ->.
  - intros path' q Hpath'. rewrite node_grow by done. case_decide.
    + intros [= <-]. set_solver.
    + intros ?%Hown; set_solver.
  - intros path1 path2 q Hp1 Hp2. rewrite (node_grow path1), (node_grow path2) by done.
    pose proof (Hfr path1 Hp1). pose proof (Hfr path2 Hp2).
    repeat case_decide; subst; intros; simplify_eq; eauto.
  - intros path' q j Hpath'. pose proof (is_path_init _ _ Hpath') as Hinit.
    assert (Hj : is_idx j) by (apply is_path_snoc in Hpath'; tauto). rewrite node_grow by done. case_decide.
    + intros [= <-]. by rewrite grow_entry_fresh.
    + intros Hq. destruct (decide ((q, j) = (p, i))) as [[= -> ->]|Hne].
      * intros _. unfold m'. rewrite entry_store_eq by (by apply PTE_new_usize). by apply PTE_flags_new.
      * rewrite grow_entry_other by eauto. by apply (Htab path').
Qed.

Lemma pt_lookup_grow vpn : pt_lookup m' pt' vpn = pt_lookup m pt vpn.
Proof.
  unfold pt_lookup. change (root_ppn pt') with (root_ppn pt).
  rewrite node_grow by apply is_path_upper.
  case_decide as Heq.
  - rewrite Heq, node_snoc, Hp. simpl. rewrite Hnone. simpl.
    by rewrite grow_entry_fresh by apply is_idx_leaf.
  - destruct (node m (root_ppn pt) (upper vpn)) as [q|] eqn:Hq; [|done]. simpl.
    rewrite grow_entry_other; [done| |apply is_idx_leaf|].
    { by apply (ptw_owned _ _ Hwf (upper vpn)); [apply is_path_upper|]. }
    intros [= -> Hli].
    assert (upper vpn = path) as <-.
    { apply (ptw_inj _ _ Hwf _ _ p); auto using is_path_upper. by eapply is_path_init. }
    apply is_path_snoc in Hpath as (_ & _ & Hlen). simpl in Hlen. lia.
Qed.

End TreeGrow.
