(* ===== verification/PageTableSpec.v ===== *)
(** * Page table operations refine a finite map

    The operations of [PageTable] against the logical content [pt_lookup]: a
    page table is a finite map from 27-bit virtual page numbers to entries;
    [map] inserts, [unmap] deletes, [find_pte], [translate] and [find_vpn] look
    up, and what they do to the frames of the system is an [mm_step]. *)
From S2P Require Import Prelude Config Machine Address FrameAllocator Ownership PageTable PageTree.

(** A page table whose frames are in use and whose tree is well formed. *)
Record pt_ok (s : mm) (pt : PageTable) : Prop := {
  pt_ok_mm : mm_wf s;
  pt_ok_owns : owns s (frames pt);
  pt_ok_tree : pt_wf (phys s) pt;
}.

(** [pt_grown s pt s' pt' n]: [n] table pages were added, no mapping changed. *)
Record pt_grown (s : mm) (pt : PageTable) (s' : mm) (pt' : PageTable) (n : nat) : Prop := {
  grown_root : root_ppn pt' = root_ppn pt;
  grown_ok : pt_ok s' pt';
  grown_step : mm_step s (frames pt) s' (frames pt');
  grown_lookup vpn : pt_lookup (phys s') pt' vpn = pt_lookup (phys s) pt vpn;
  grown_node path q : is_path path → node (phys s) (root_ppn pt) path = Some q →
    node (phys s') (root_ppn pt) path = Some q;
  grown_length : length (frames pt') = (length (frames pt) + n)%nat;
  grown_id : n = 0%nat → s' = s ∧ pt' = pt;
}.

Lemma pt_ok_root_ppn s pt : pt_ok s pt → is_ppn (root_ppn pt).
Proof. intros [_ _ Hwf]. by eapply ptw_ppn, ptw_root. Qed.

Lemma pt_ok_node_ppn s pt path p :
  pt_ok s pt → is_path path → node (phys s) (root_ppn pt) path = Some p → is_ppn p.
Proof. intros [_ _ Hwf] ? ?. eapply ptw_ppn, ptw_owned; eauto. Qed.

Lemma pt_grown_refl s pt : pt_ok s pt → pt_grown s pt s pt 0.
Proof. intros Hok. destruct Hok. split; auto using mm_step_refl. by split. Qed.

Lemma pt_grown_trans s1 pt1 s2 pt2 s3 pt3 n1 n2 :
  pt_grown s1 pt1 s2 pt2 n1 → pt_grown s2 pt2 s3 pt3 n2 → pt_grown s1 pt1 s3 pt3 (n1 + n2).
Proof.
  intros [Hr1 Hok1 Hs1 Hl1 Hn1 Hlen1 Hid1] [Hr2 Hok2 Hs2 Hl2 Hn2 Hlen2 Hid2].
  split; [congruence|done|by eapply mm_step_trans| | |lia|].
  - intros vpn. by rewrite Hl2.
  - intros path q Hpath Hq. rewrite <-Hr1. apply Hn2; [done|]. rewrite Hr1. by apply Hn1.
  - intros Hn. destruct Hid1 as [-> ->]; [lia|]. apply Hid2. lia.
Qed.

(** Freed frames are what the new table pages cost. *)
Lemma pt_grown_free s pt s' pt' n :
  pt_grown s pt s' pt' n → free_frames s = (free_frames s' + n)%nat.
Proof. intros H. pose proof (step_count _ _ _ _ (grown_step _ _ _ _ _ H)). 
  pose proof (grown_length _ _ _ _ _ H). lia. Qed.

Lemma pte_ref_eq p i s : is_ppn p → is_idx i → pte_ref p i s = Done (slot p i) s.
Proof.
  intros Hp [Hi Hi']. unfold pte_ref, PhysPageNum_get_pte_array.
  rewrite (proj2 (Z.ltb_lt _ _)) by done. by rewrite PhysAddr_from_PhysPageNum_mul.
Qed.

Lemma wp_pte_ref p i (Q : Z → mm → Prop) E s :
  is_ppn p → is_idx i → Q (slot p i) s → wp (pte_ref p i) Q E s.
Proof. intros Hp Hi HQ. unfold wp. by rewrite pte_ref_eq. Qed.

(** ** Reading *)

Lemma find_pte_loop_inner i iters idxs p s :
  is_ppn p → is_idx (idxs !!! i) → i ≠ 2%nat →
  find_pte_loop (i :: iters) idxs p s =
    match child (phys s) p (idxs !!! i) with
    | Some q => find_pte_loop iters idxs q s
    | None => Done None s
    end.
Proof.
  intros Hp Hi Hne. cbn [find_pte_loop]. unfold mbind, M_bind. rewrite pte_ref_eq by done.
  rewrite (proj2 (Nat.eqb_neq i 2)) by done. unfold read_pte, gets, child, entry.
  by destruct (PTE_is_valid _).
Qed.

Lemma find_pte_loop_leaf iters idxs p s :
  is_ppn p → is_idx (idxs !!! 2%nat) →
  find_pte_loop (2%nat :: iters) idxs p s = Done (Some (slot p (idxs !!! 2%nat))) s.
Proof.
  intros Hp Hi. cbn [find_pte_loop]. unfold mbind, M_bind. by rewrite pte_ref_eq.
Qed.

Lemma find_pte_eq s pt vpn :
  is_ppn (root_ppn pt) →
  PageTable_find_pte pt vpn s =
    Done ((λ p, slot p (leaf vpn)) <$> node (phys s) (root_ppn pt) (upper vpn)) s.
Proof.
  intros Hroot. unfold PageTable_find_pte. rewrite VirtPageNum_indexes_eq.
  unfold upper. cbn [node].
  rewrite find_pte_loop_inner by (done || apply is_idx_mod). cbn [lookup_total list_lookup_total].
  destruct (child (phys s) (root_ppn pt) _) as [q|] eqn:Hq; [|done].
  apply child_ppn in Hq. cbn [mbind option_bind].
  rewrite find_pte_loop_inner by (done || apply is_idx_mod). cbn [lookup_total list_lookup_total].
  destruct (child (phys s) q _) as [r|] eqn:Hr; [|done]. apply child_ppn in Hr.
  by rewrite find_pte_loop_leaf by (done || apply is_idx_mod).
Qed.

Lemma translate_eq s pt vpn :
  is_ppn (root_ppn pt) →
  PageTable_translate pt vpn s =
    Done ((λ p, entry (phys s) p (leaf vpn)) <$> node (phys s) (root_ppn pt) (upper vpn)) s.
Proof.
  intros Hroot. unfold PageTable_translate, mbind, M_bind. rewrite find_pte_eq by done.
  by destruct (node _ _ _).
Qed.

Lemma find_vpn_eq s pt vpn :
  is_ppn (root_ppn pt) →
  PageTable_find_vpn pt vpn s = Done (bool_decide (is_Some (pt_lookup (phys s) pt vpn))) s.
Proof.
  intros Hroot. unfold PageTable_find_vpn, mbind, M_bind. rewrite find_pte_eq by done.
  unfold pt_lookup. destruct (node _ _ _) as [p|]; simpl; [|done].
  fold (entry (phys s) p (leaf vpn)). unfold read_pte, gets. simpl.
  fold (entry (phys s) p (leaf vpn)). by destruct (PTE_is_valid _).
Qed.

Lemma translate_lookup s pt vpn e :
  is_ppn (root_ppn pt) → pt_lookup (phys s) pt vpn = Some e →
  PageTable_translate pt vpn s = Done (Some e) s.
Proof.
  intros Hroot (p & Hp & -> & _)%pt_lookup_Some. rewrite translate_eq by done. by rewrite Hp.
Qed.

(** ** Walking down, creating the missing tables *)

Lemma pt_grow_ok s pt path i p f s1 :
  pt_ok s pt → is_path (path ++ [i]) →
  node (phys s) (root_ppn pt) path = Some p → child (phys s) p i = None →
  fresh_frame s f s1 →
  let s2 := {| phys := store64 (phys s1) (slot p i) (PTE_new f PTE_V);
               FRAME_ALLOCATOR := FRAME_ALLOCATOR s1 |} in
  let pt2 := {| root_ppn := root_ppn pt; frames := vec_push (frames pt) f |} in
  pt_grown s pt s2 pt2 1 ∧ node (phys s2) (root_ppn pt) (path ++ [i]) = Some f.
Proof.
  intros [Hmm Hown Hwf] Hpath Hp Hnone Hfresh s2 pt2.
  assert (Hnew : f ∉ frames pt) by (intros Hf%Hown; by apply (fresh_new _ _ _ Hfresh)).
  pose proof (fresh_ppn _ _ _ Hfresh) as Hppn.
  pose proof (fresh_zero _ _ _ Hfresh) as Hzero.
  pose proof (fresh_others _ _ _ Hfresh) as Hoth.
  assert (Hstep : mm_step s (frames pt) s2 (frames pt2)).
  { apply mm_step_trans with s1 (f :: frames pt); [by apply mm_step_alloc|].
    apply mm_step_perm_impl with (f :: frames pt) (f :: frames pt);
      [done|unfold pt2, vec_push; simpl; by rewrite <-Permutation_cons_append|].
    apply mm_step_write; [apply Hfresh|by eapply step_owns, mm_step_alloc|done|].
    intros g _ Hg. apply store_slot_page_agree; [by eapply grow_idx|].
    intros ->. apply Hg. right. by eapply grow_p_owned. }
  split.
  - split; [done| |done| | | |done].
    + split; [by eapply step_wf|by eapply step_owns|]. by eapply pt_wf_grow.
    + intros vpn. by eapply pt_lookup_grow.
    + intros path' q Hpath' Hq. simpl. erewrite node_grow by done.
      rewrite decide_False; [done|]. intros ->.
      rewrite node_snoc, Hp in Hq. simpl in Hq. congruence.
    + unfold pt2, vec_push. simpl. rewrite length_app. simpl. lia.
  - simpl. erewrite node_grow by done. by rewrite decide_True.
Qed.

(** One iteration of the loop of [find_pte_create] at an inner level. *)
Lemma wp_descend {B} (k : Z → PageTable → M mm B) s pt path i p Q (E : panic_kind → Prop) :
  pt_ok s pt → is_path (path ++ [i]) → node (phys s) (root_ppn pt) path = Some p →
  (∀ q s' pt' n, pt_grown s pt s' pt' n → (n ≤ 1)%nat →
     node (phys s') (root_ppn pt) (path ++ [i]) = Some q →
     (is_Some (node (phys s) (root_ppn pt) (path ++ [i])) → n = 0%nat) →
     wp (k q pt') Q E s') →
  (free_frames s = 0%nat → node (phys s) (root_ppn pt) (path ++ [i]) = None → E UnwrapNone) →
  wp (e ← read_pte (slot p i);
      self' ← (if negb (PTE_is_valid e) then
                 o ← frame_alloc;
                 frame ← unwrap o;
                 write_pte (slot p i) (PTE_new frame PTE_V);;
                 mret {| root_ppn := root_ppn pt; frames := vec_push (frames pt) frame |}
               else mret pt);
      e' ← read_pte (slot p i);
      k (PTE_ppn e') self') Q E s.
Proof.
  intros Hok Hpath Hp Hk HE. unfold read_pte. do 2 wp_step.
  fold (entry (phys s) p i). pose proof (node_snoc (phys s) (root_ppn pt) path i) as Hsnoc.
  rewrite Hp in Hsnoc. simpl in Hsnoc. unfold child in Hsnoc.
  destruct (PTE_is_valid (entry (phys s) p i)) eqn:Hv; simpl.
  - do 4 wp_step. apply (Hk _ _ _ 0%nat); [by apply pt_grown_refl|lia|exact Hsnoc|done].
  - wp_step. eapply wp_call; [apply frame_alloc_spec, Hok|done|]. intros [f|] s1 H; simpl.
    + destruct (pt_grow_ok s pt path i p f s1) as [Hg Hn]; [done..| |done|].
      { unfold child. by rewrite Hv. }
      do 2 wp_step. unfold write_pte, set_phys. do 5 wp_step. cbn [phys].
      assert (Hc : child (store64 (phys s1) (slot p i) (PTE_new f PTE_V)) p i = Some f)
        by (eapply grow_entry_new, fresh_ppn; eauto).
      revert Hc. unfold child, entry. case_match; [|done]. intros [= ->].
      apply (Hk _ _ _ 1%nat); [done|lia|done|]. rewrite Hsnoc. by intros [].
    + destruct H as [-> Hfree]. by apply HE.
Qed.

(** Specification of [find_pte_create]: it panics only for want of frames; no
    mapping changes; at most two table pages are added, none if the leaf table
    exists already. *)
Lemma find_pte_create_spec s pt vpn :
  pt_ok s pt →
  wp (PageTable_find_pte_create pt vpn) (λ r s', ∃ p n,
      fst r = Some (slot p (leaf vpn)) ∧ pt_grown s pt s' (snd r) n ∧ (n ≤ 2)%nat ∧
      node (phys s') (root_ppn pt) (upper vpn) = Some p ∧
      (is_Some (node (phys s) (root_ppn pt) (upper vpn)) → n = 0%nat))
    (λ k, k = UnwrapNone ∧ (free_frames s < 2)%nat ∧
          node (phys s) (root_ppn pt) (upper vpn) = None) s.
Proof.
  intros Hok. unfold PageTable_find_pte_create. rewrite VirtPageNum_indexes_eq.
  set (i0 := vpn / 2 ^ 18 mod 512). set (i1 := vpn / 2 ^ 9 mod 512).
  assert (Hi0 : is_idx i0) by apply is_idx_mod. assert (Hi1 : is_idx i1) by apply is_idx_mod.
  assert (Hup : upper vpn = ([] ++ [i0]) ++ [i1]) by done.
  assert (Hnone : node (phys s) (root_ppn pt) ([] ++ [i0]) = None →
                  node (phys s) (root_ppn pt) (upper vpn) = None).
  { intros H. by rewrite Hup, node_snoc, H. }
  cbn [find_pte_create_loop]. cbn [lookup_total list_lookup_total Nat.eqb]. wp_step.
  apply wp_pte_ref; [by eapply pt_ok_root_ppn|done|].
  apply (wp_descend (λ q pt', find_pte_create_loop [1; 2]%nat [i0; i1; vpn mod 512] q pt')
           s pt [] i0); [done|by apply is_path_snoc; split_and!; [constructor|..]; simpl; try lia|done| |].
  2: { intros Hf Hn. split_and!; [done|lia|by apply Hnone]. }
  intros q s1 pt1 n1 Hg1 Hn1 Hq Hs1. pose proof Hg1 as [Hr1 Hok1 _ _ Hnode1 _ _].
  assert (Hpath1 : is_path ([] ++ [i0])) by (split; [by apply Forall_singleton|simpl; lia]).
  cbn [find_pte_create_loop]. cbn [lookup_total list_lookup_total Nat.eqb]. wp_step.
  rewrite <-Hr1 in Hq. apply wp_pte_ref; [by eapply pt_ok_node_ppn|done|].
  apply (wp_descend (λ q pt', find_pte_create_loop [2]%nat [i0; i1; vpn mod 512] q pt')
           s1 pt1 ([] ++ [i0]) i1); [done|exact (is_path_upper vpn)|done| |].
  2: { intros Hf Hn. pose proof (pt_grown_free _ _ _ _ _ Hg1). split_and!; [done|lia|].
       destruct (node (phys s) (root_ppn pt) (upper vpn)) as [r|] eqn:Hr; [|done].
       apply Hnode1 in Hr; [|apply is_path_upper]. rewrite Hup, <-Hr1 in Hr. congruence. }
  intros r s2 pt2 n2 Hg2 Hn2 Hr Hs2. rewrite Hr1 in Hr, Hs2.
  cbn [find_pte_create_loop]. cbn [lookup_total list_lookup_total Nat.eqb]. wp_step.
  apply wp_pte_ref; [|apply is_idx_mod|].
  { eapply (pt_ok_node_ppn s2 pt2 (upper vpn)); [by eapply grown_ok|apply is_path_upper|].
    by rewrite (grown_root _ _ _ _ _ Hg2), Hr1. }
  wp_step. exists r, (n1 + n2)%nat. split_and!; [done|by eapply pt_grown_trans|lia|done|].
  intros [r' Hr'].
  assert (n1 = 0%nat) as ->.
  { apply Hs1. rewrite Hup, node_snoc in Hr'. by destruct (node _ _ ([] ++ [i0])). }
  rewrite Hs2; [done|]. rewrite <-Hup. exists r'. apply Hnode1; [apply is_path_upper|done].
Qed.

(** ** Updating one mapping

    [pt_updated s pt s' pt' vpn o]: the mapping of [vpn] is now [o] and no other
    changed; at most two table pages were added. *)
Record pt_updated (s : mm) (pt : PageTable) (s' : mm) (pt' : PageTable)
    (vpn : Z) (o : option Z) : Prop := {
  upd_ok : pt_ok s' pt';
  upd_root : root_ppn pt' = root_ppn pt;
  upd_step : mm_step s (frames pt) s' (frames pt');
  upd_lookup vpn' : is_vpn vpn' →
    pt_lookup (phys s') pt' vpn' = if decide (vpn' = vpn) then o else pt_lookup (phys s) pt vpn';
  upd_length : (length (frames pt) ≤ length (frames pt') ≤ length (frames pt) + 2)%nat;
}.

(** Writing the leaf entry once the leaf table is there. *)
Lemma write_leaf_spec s pt vpn p v :
  pt_ok s pt → node (phys s) (root_ppn pt) (upper vpn) = Some p → is_vpn vpn → is_usize v →
  let s' := {| phys := store64 (phys s) (slot p (leaf vpn)) v;
               FRAME_ALLOCATOR := FRAME_ALLOCATOR s |} in
  pt_updated s pt s' pt vpn (if PTE_is_valid v then Some v else None).
Proof.
  intros [Hmm Hown Hwf] Hp Hvpn Hv s'.
  assert (Hpo : p ∈ frames pt) by (eapply ptw_owned; eauto using is_path_upper).
  assert (Hstep : mm_step s (frames pt) s' (frames pt)).
  { apply mm_step_write; [done..|]. intros f _ Hf.
    apply store_slot_page_agree; [apply is_idx_leaf|congruence]. }
  split; [|done|done| |lia].
  - split; [by eapply step_wf|by eapply step_owns|].
    apply (pt_wf_store_leaf _ _ Hwf (upper vpn)); auto using is_path_upper, is_idx_leaf.
  - intros vpn' Hvpn'. by apply pt_lookup_store_leaf.
Qed.

Lemma pt_updated_after_grown s pt s1 pt1 n s' pt' vpn o :
  pt_grown s pt s1 pt1 n → (n ≤ 2)%nat → pt_updated s1 pt1 s' pt' vpn o →
  length (frames pt') = length (frames pt1) →
  pt_updated s pt s' pt' vpn o.
Proof.
  intros [Hr Hok Hs Hl _ Hlen _] Hn [Hok' Hr' Hs' Hl' Hlen'] Heq.
  split; [done|congruence|by eapply mm_step_trans| |lia].
  intros vpn' Hvpn'. rewrite Hl' by done. by rewrite Hl.
Qed.

Lemma map_spec s pt vpn ppn flags :
  pt_ok s pt → is_vpn vpn → is_ppn ppn → 0 ≤ flags < 2 ^ 8 →
  wp (PageTable_map pt vpn ppn flags) (λ pt' s',
      pt_lookup (phys s) pt vpn = None ∧
      pt_updated s pt s' pt' vpn (Some (PTE_new ppn (Z.lor flags PTE_V))))
    (λ k, (k = UnwrapNone ∧ (free_frames s < 2)%nat ∧ pt_lookup (phys s) pt vpn = None) ∨
          (k = AssertFailed ∧ is_Some (pt_lookup (phys s) pt vpn))) s.
Proof.
  intros Hok Hvpn Hppn Hfl. unfold PageTable_map.
  eapply wp_call; [by apply find_pte_create_spec| |].
  { intros k (-> & Hfree & Hn). left. split_and!; [done..|]. unfold pt_lookup. by rewrite Hn. }
  intros [o pt1] s1 (p & n & Ho & Hg & Hn & Hp & _). simpl in Ho, Hg. subst o.
  pose proof Hg as [Hr Hok1 _ Hl _ _ _]. rewrite <-Hr in Hp.
  do 2 wp_step. unfold read_pte. do 2 wp_step. fold (entry (phys s1) p (leaf vpn)).
  rewrite <-Hl, (pt_lookup_node _ _ _ _ Hp).
  wp_step. destruct (PTE_is_valid (entry _ _ _)) eqn:Hv; simpl.
  { right. by split; [|eexists]. }
  do 2 wp_step. unfold write_pte, set_phys. do 2 wp_step. split; [done|].
  pose proof (write_leaf_spec s1 pt1 vpn p (PTE_new ppn (Z.lor flags PTE_V)) Hok1 Hp Hvpn
    (PTE_new_usize _ _ Hppn (lor_V_range _ Hfl))) as Hw.
  rewrite PTE_is_valid_new in Hw by done. by eapply pt_updated_after_grown.
Qed.

Lemma unmap_spec s pt vpn :
  pt_ok s pt → is_vpn vpn →
  wp (PageTable_unmap pt vpn) (λ pt' s',
      is_Some (pt_lookup (phys s) pt vpn) ∧ pt' = pt ∧ FRAME_ALLOCATOR s' = FRAME_ALLOCATOR s ∧
      pt_updated s pt s' pt vpn None)
    (λ k, pt_lookup (phys s) pt vpn = None ∧
          (k = AssertFailed ∨ (k = UnwrapNone ∧ (free_frames s < 2)%nat))) s.
Proof.
  intros Hok Hvpn. unfold PageTable_unmap.
  eapply wp_call; [by apply find_pte_create_spec| |].
  { intros k (-> & Hfree & Hn). split; [|auto]. unfold pt_lookup. by rewrite Hn. }
  intros [o pt1] s1 (p & n & Ho & Hg & Hn & Hp & Hn0). simpl in Ho, Hg. subst o.
  pose proof Hg as [Hr Hok1 _ Hl _ _ Hid]. rewrite <-Hr in Hp.
  do 2 wp_step. unfold read_pte. do 2 wp_step. fold (entry (phys s1) p (leaf vpn)).
  wp_step. destruct (PTE_is_valid (entry (phys s1) p (leaf vpn))) eqn:Hv; simpl.
  - assert (Hlook : is_Some (pt_lookup (phys s) pt vpn)).
    { rewrite <-Hl, (pt_lookup_node _ _ _ _ Hp), Hv. by eexists. }
    destruct Hid as [-> ->].
    { apply Hn0. destruct Hlook as [e (q & Hq & _)%pt_lookup_Some]. by eexists. }
    do 2 wp_step. unfold write_pte, set_phys. do 2 wp_step. split_and!; [done..|].
    by apply (write_leaf_spec s pt vpn p PTE_empty).
  - split; [|auto]. by rewrite <-Hl, (pt_lookup_node _ _ _ _ Hp), Hv.
Qed.

(** [PageTable::new]: one zeroed page, no mapping. *)
Lemma new_spec s :
  mm_wf s →
  wp PageTable_new (λ pt s', pt_ok s' pt ∧ mm_step s [] s' (frames pt) ∧
      length (frames pt) = 1%nat ∧ (∀ vpn, pt_lookup (phys s') pt vpn = None))
    (λ k, k = UnwrapNone ∧ free_frames s = 0%nat) s.
Proof.
  intros Hmm. unfold PageTable_new. eapply wp_call; [by apply frame_alloc_spec|done|].
  intros [f|] s1 H; simpl; [|by destruct H as [-> ?]].
  do 3 wp_step. assert (Hstep : mm_step s [] s1 [f]).
  { apply mm_step_alloc; [done|]. split; [constructor|set_solver]. }
  pose proof (fresh_zero _ _ _ H) as Hz.
  assert (Hnode : ∀ path p, is_path path → node (phys s1) f path = Some p → path = [] ∧ p = f).
  { intros [|i path] p [Hidx _]; simpl; [naive_solver|]. apply Forall_cons in Hidx as [Hi _].
    unfold child. by rewrite entry_zero. }
  split; [split; [by eapply step_wf|by eapply step_owns|]|split; [done|split; [done|]]].
  - split; simpl; [set_solver| | | |].
    + intros g ->%list_elem_of_singleton. by eapply fresh_ppn.
    + intros path p Hpath Hp. destruct (Hnode _ _ Hpath Hp) as [_ ->]. set_solver.
    + intros path path' p Hp1 Hp2 H1 H2.
      destruct (Hnode _ _ Hp1 H1) as [-> _]. by destruct (Hnode _ _ Hp2 H2) as [-> _].
    + intros path p i Hp1 Hp. destruct (Hnode _ _ (is_path_init _ _ Hp1) Hp) as [-> ->].
      rewrite entry_zero; [done| |done]. apply is_path_snoc in Hp1; tauto.
  - intros vpn. unfold pt_lookup. cbn [root_ppn].
    destruct (node (phys s1) f (upper vpn)) as [p|] eqn:Hp; [|done].
    by apply Hnode in Hp as [? _]; [|apply is_path_upper].
Qed.

(** ** Tokens *)

Lemma token_eq pt : is_ppn (root_ppn pt) → PageTable_token pt = 2 ^ 63 + root_ppn pt.
Proof.
  unfold is_ppn. intros H. unfold PageTable_token. change (8 <<u 60) with (Z.shiftl 1 63).
  rewrite lor_shiftl_add; lia.
Qed.

Lemma from_token_root pt :
  is_ppn (root_ppn pt) → root_ppn (PageTable_from_token (PageTable_token pt)) = root_ppn pt.
Proof.
  intros H. simpl. rewrite token_eq by done. change (Z.shiftl 1 44 - 1) with (2 ^ 44 - 1).
  rewrite land_ones_mod by lia. unfold is_ppn in H.
  rewrite PhysPageNum_from_usize_id; [|apply Z.mod_pos_bound; lia].
  change (2 ^ 63) with (2 ^ 19 * 2 ^ 44). rewrite Z.add_comm, Z.mod_add by lia.
  by apply Z.mod_small.
Qed.

(** A machine with 63 free frames and a fresh page table, for the witnesses. *)
Definition demo_boot : mm :=
  {| phys := λ _, Corelib.Init.Byte.xff;
     FRAME_ALLOCATOR := {| fa_current := 1; fa_end := 64; fa_recycled := [] |} |}.
Definition demo_pt : PageTable := {| root_ppn := 1; frames := [1] |}.
Definition demo_mm : mm :=
  {| phys := fill_bytes (phys demo_boot) 4096 4096 Corelib.Init.Byte.x00;
     FRAME_ALLOCATOR := {| fa_current := 2; fa_end := 64; fa_recycled := [] |} |}.

Lemma demo_boot_wf : mm_wf demo_boot.
Proof. split; simpl; [constructor|set_solver|lia]. Qed.

Lemma demo_pt_ok : pt_ok demo_mm demo_pt.
Proof.
  exact (proj1 (wp_elim _ _ _ _ demo_pt demo_mm (new_spec demo_boot demo_boot_wf) eq_refl)).
Qed.

Lemma demo_lookup vpn : pt_lookup (phys demo_mm) demo_pt vpn = None.
Proof.
  pose proof (wp_elim _ _ _ _ demo_pt demo_mm (new_spec demo_boot demo_boot_wf) eq_refl)
    as (_ & _ & _ & H). apply H.
Qed.

(** ** Properties *)

(** C16: [PageTable::map] refines insertion into a finite map.  On a well-formed
    table and an unmapped page with two frames free it always succeeds; it makes
    the entry of that page the given frame with the given flags and [V], changes
    the entry of no other page, keeps the table well formed, adds at most two
    table pages, and touches no frame it does not own; the assertion fails exactly
    when the page is mapped already. *)
Theorem page_table_map_inserts s pt vpn ppn flags :
  pt_ok s pt → is_vpn vpn → is_ppn ppn → 0 ≤ flags < 2 ^ 8 →
  wp (PageTable_map pt vpn ppn flags) (λ pt' s',
      pt_lookup (phys s) pt vpn = None ∧
      pt_updated s pt s' pt' vpn (Some (PTE_new ppn (Z.lor flags PTE_V))))
    (λ k, (k = UnwrapNone ∧ (free_frames s < 2)%nat ∧ pt_lookup (phys s) pt vpn = None) ∨
          (k = AssertFailed ∧ is_Some (pt_lookup (phys s) pt vpn))) s.
Proof. apply map_spec. Qed.

Lemma page_table_map_inserts_witness :
  ∃ pt' s', PageTable_map demo_pt 0x12345 0x99 PTE_R demo_mm = Done pt' s' ∧
    pt_lookup (phys s') pt' 0x12345 = Some (PTE_new 0x99 (Z.lor PTE_R PTE_V)) ∧
    pt_lookup (phys s') pt' 0x12346 = None.
Proof.
  pose proof (page_table_map_inserts demo_mm demo_pt 0x12345 0x99 PTE_R demo_pt_ok
    ltac:(vm_compute; split; congruence) ltac:(vm_compute; split; congruence)
    ltac:(vm_compute; split; congruence)) as H.
  unfold wp in H.
  destruct (PageTable_map demo_pt 0x12345 0x99 PTE_R demo_mm) as [pt' s'|k|].
  - exists pt', s'. destruct H as [_ Hupd]. split; [reflexivity|].
    rewrite !(upd_lookup _ _ _ _ _ _ Hupd) by (vm_compute; split; congruence).
    rewrite demo_lookup. by split.
  - destruct H as [(_ & Hfree & _)|[_ [e He]]]; [vm_compute in Hfree; lia|].
    rewrite demo_lookup in He. discriminate He.
  - destruct H.
Defined.

(** C24: [PageTable::unmap] refines deletion from a finite map: on a mapped page it
    never panics, allocates and frees nothing, and removes that mapping only; on
    an unmapped page it panics. *)
Theorem page_table_unmap_deletes s pt vpn :
  pt_ok s pt → is_vpn vpn →
  wp (PageTable_unmap pt vpn) (λ pt' s',
      is_Some (pt_lookup (phys s) pt vpn) ∧ pt' = pt ∧ FRAME_ALLOCATOR s' = FRAME_ALLOCATOR s ∧
      pt_updated s pt s' pt vpn None)
    (λ k, pt_lookup (phys s) pt vpn = None ∧
          (k = AssertFailed ∨ (k = UnwrapNone ∧ (free_frames s < 2)%nat))) s.
Proof. apply unmap_spec. Qed.

Lemma page_table_unmap_deletes_witness :
  pt_ok demo_mm demo_pt ∧ PageTable_unmap demo_pt 77 demo_mm = Panic AssertFailed.
Proof.
  split; [exact demo_pt_ok|].
  pose proof (page_table_unmap_deletes demo_mm demo_pt 77 demo_pt_ok
    ltac:(vm_compute; split; congruence)) as H. unfold wp in H.
  destruct (PageTable_unmap demo_pt 77 demo_mm) as [pt' s'|k|] eqn:Hrun.
  - destruct H as [[e He] _]. rewrite demo_lookup in He. discriminate He.
  - destruct H as [_ [->|[_ Hfree]]]; [reflexivity|]. vm_compute in Hfree. lia.
  - destruct H.
Defined.

(** Mapping an unmapped page and unmapping it again succeeds whenever two
    frames are free, and gives back the original mappings. *)
Theorem page_table_map_unmap_roundtrip s pt vpn ppn flags :
  pt_ok s pt → is_vpn vpn → is_ppn ppn → 0 ≤ flags < 2 ^ 8 →
  (2 ≤ free_frames s)%nat → pt_lookup (phys s) pt vpn = None →
  wp (pt1 ← PageTable_map pt vpn ppn flags; PageTable_unmap pt1 vpn) (λ pt' s',
    pt_ok s' pt' ∧
    ∀ vpn', is_vpn vpn' → pt_lookup (phys s') pt' vpn' = pt_lookup (phys s) pt vpn')
    no_panic s.
Proof.
  intros Hok Hvpn Hppn Hfl Hfree Hnone.
  eapply wp_call; [by apply map_spec| |].
  { intros k [(_ & ? & _)|[_ [e He]]]; [lia|congruence]. }
  intros pt1 s1 [_ Hupd].
  eapply wp_mono; [apply unmap_spec; [by eapply upd_ok|done]| |].
  - intros pt' s' (_ & -> & _ & Hupd'). split; [by eapply upd_ok|]. intros vpn' Hvpn'.
    rewrite (upd_lookup _ _ _ _ _ _ Hupd'), (upd_lookup _ _ _ _ _ _ Hupd) by done.
    case_decide; congruence.
  - intros k [Hn _]. rewrite (upd_lookup _ _ _ _ _ _ Hupd) in Hn by done.
    by rewrite decide_True in Hn.
Qed.

Lemma page_table_map_unmap_roundtrip_witness :
  wp (pt1 ← PageTable_map demo_pt 3 9 PTE_W; PageTable_unmap pt1 3) (λ pt' s',
    pt_ok s' pt' ∧
    ∀ vpn', is_vpn vpn' → pt_lookup (phys s') pt' vpn' = pt_lookup (phys demo_mm) demo_pt vpn')
    no_panic demo_mm.
Proof.
  apply (page_table_map_unmap_roundtrip demo_mm demo_pt 3 9 PTE_W).
  - exact demo_pt_ok.
  - vm_compute; split; congruence.
  - vm_compute; split; congruence.
  - vm_compute; split; congruence.
  - vm_compute. lia.
  - apply demo_lookup.
Defined.
