(* ===== verification/Mmu.v ===== *)
(** * The MMU sees the page table

    How a RISC-V hart translates an address in SV39 mode, from the privileged
    specification: the walk from [satp], with leaves recognised by their permissions at
    every level, reserved encodings, and the checks of the access against the mode.
    (The accessed and dirty bits and the ASID are left out.)  For a page table of the
    kernel the translation is determined by the finite map [pt_lookup]. *)
From S2P Require Import Prelude Config Machine Address FrameAllocator Ownership.
From S2P Require Import PageTable PageTree PageTableSpec.

Inductive access : Set := Fetch | Load | Store.
Inductive privilege : Set := UserMode | SupervisorMode.

(** The bits of an entry. *)
Definition pte_v (e : Z) : bool := Z.testbit e 0.
Definition pte_r (e : Z) : bool := Z.testbit e 1.
Definition pte_w (e : Z) : bool := Z.testbit e 2.
Definition pte_x (e : Z) : bool := Z.testbit e 3.
Definition pte_u (e : Z) : bool := Z.testbit e 4.

(** The index of [va] at [level], and the offset in a page of that level. *)
Definition vpn_index (va : Z) (level : nat) : Z := va / 2 ^ (12 + 9 * Z.of_nat level) mod 512.
Definition level_size (level : nat) : Z := 2 ^ (12 + 9 * Z.of_nat level).

(** The leaf entry and its level; [None] is a page fault. *)
Fixpoint sv39_walk (m : memory) (va : Z) (level : nat) (a : Z) : option (Z * nat) :=
  let e := load64 m (a * 4096 + 8 * vpn_index va level) in
  if negb (pte_v e) || (negb (pte_r e) && pte_w e) then None
  else if pte_r e || pte_x e then Some (e, level)
  else match level with
       | O => None
       | S level => sv39_walk m va level (PTE_ppn e)
       end.

(** May the access be made?  [SUM] and [MXR] are clear. *)
Definition access_allowed (p : privilege) (acc : access) (e : Z) : bool :=
  (match acc with Fetch => pte_x e | Load => pte_r e | Store => pte_w e end) &&
  (match p with UserMode => pte_u e | SupervisorMode => negb (pte_u e) end).

(** Bits 63 to 39 are equal to bit 38. *)
Definition canonical (va : Z) : bool := (va / 2 ^ 38 =? 0) || (va / 2 ^ 38 =? 2 ^ 26 - 1).

(** The physical address for an access to [va]; [None] is an exception. *)
Definition mmu_translate (satp : Z) (m : memory) (p : privilege) (acc : access) (va : Z) : option Z :=
  if satp / 2 ^ 60 =? 0 then Some va
  else if negb (canonical va) then None
  else match sv39_walk m va 2 (satp mod 2 ^ 44) with
       | None => None
       | Some (e, level) =>
           if negb (access_allowed p acc e) then None
           else if (PTE_ppn e * 4096) mod level_size level =? 0
                then Some (PTE_ppn e * 4096 + va mod level_size level)
                else None
       end.

(** What the page number [va] has after truncation to 39 bits. *)
Definition va_vpn (va : Z) : Z := va / 4096 mod 2 ^ 27.

(** The same from the logical content of the table. *)
Definition page_translate (m : memory) (pt : PageTable) (p : privilege) (acc : access) (va : Z) : option Z :=
  if negb (canonical va) then None
  else match pt_lookup m pt (va_vpn va) with
       | Some e => if access_allowed p acc e && (pte_r e || negb (pte_w e))
                   then Some (PTE_ppn e * 4096 + va mod 4096) else None
       | None => None
       end.

(** ** Refinement *)

Lemma va_vpn_bounds va : is_vpn (va_vpn va).
Proof. unfold is_vpn, va_vpn. zsolve. Qed.

Lemma index_upper va :
  0 ≤ va → upper (va_vpn va) = [vpn_index va 2; vpn_index va 1] ∧ leaf (va_vpn va) = vpn_index va 0.
Proof.
  intros Hva. unfold upper, leaf, va_vpn, vpn_index. simpl.
  change (12 + 9 * 2) with 30. change (12 + 9 * 1) with 21. change (12 + 9 * 0) with 12.
  split; [f_equal; [|f_equal]|]; zsolve.
Qed.

Lemma flags_V e : PTE_flags e = PTE_V → pte_v e = true ∧ pte_r e = false ∧ pte_w e = false ∧ pte_x e = false.
Proof.
  rewrite PTE_flags_eq. intros He. unfold pte_v, pte_r, pte_w, pte_x.
  rewrite <-!(Z.mod_pow2_bits_low e 8) by lia. by rewrite He.
Qed.

(** A step through a table above the leaves. *)
Lemma walk_table m pt va level path p :
  pt_wf m pt → is_path (path ++ [vpn_index va (S level)]) → node m (root_ppn pt) path = Some p →
  sv39_walk m va (S level) p =
    (q ← child m p (vpn_index va (S level)); sv39_walk m va level q).
Proof.
  intros Hwf Hpath Hp. cbn [sv39_walk]. fold (slot p (vpn_index va (S level))).
  fold (PageTree.entry m p (vpn_index va (S level))). set (e := PageTree.entry _ _ _).
  unfold child. fold e. rewrite PTE_is_valid_testbit. fold (pte_v e).
  destruct (pte_v e) eqn:Hv; [|done]. simpl.
  assert (Hfl : PTE_flags e = PTE_V).
  { eapply ptw_table; [done..|]. by rewrite PTE_is_valid_testbit. }
  destruct (flags_V e Hfl) as (_ & -> & -> & ->). done.
Qed.

Lemma walk_lookup m pt va :
  pt_wf m pt → 0 ≤ va →
  sv39_walk m va 2 (root_ppn pt) =
    match pt_lookup m pt (va_vpn va) with
    | Some e => if (pte_r e || negb (pte_w e)) && (pte_r e || pte_x e) then Some (e, 0%nat) else None
    | None => None
    end.
Proof.
  intros Hwf Hva. destruct (index_upper va Hva) as [Hup Hlf].
  pose proof (is_path_upper (va_vpn va)) as Hpath. rewrite Hup in Hpath.
  rewrite (walk_table m pt va 1 [] (root_ppn pt)); [|done|exact (is_path_init [_] _ Hpath)|done].
  unfold pt_lookup. rewrite Hup, Hlf. simpl node.
  destruct (child m (root_ppn pt) (vpn_index va 2)) as [q|] eqn:Hq; [|done]. cbn [mbind option_bind].
  rewrite (walk_table m pt va 0 [vpn_index va 2] q); [|done..|simpl; by rewrite Hq].
  destruct (child m q (vpn_index va 1)) as [r|] eqn:Hr; [|done]. cbn [mbind option_bind node sv39_walk].
  fold (slot r (vpn_index va 0)). fold (PageTree.entry m r (vpn_index va 0)).
  set (e := PageTree.entry _ _ _). rewrite PTE_is_valid_testbit. fold (pte_v e).
  destruct (pte_v e), (pte_r e), (pte_w e), (pte_x e); done.
Qed.

Lemma mmu_lookup m pt p acc va :
  pt_wf m pt → is_usize va →
  mmu_translate (PageTable_token pt) m p acc va = page_translate m pt p acc va.
Proof.
  intros Hwf [Hva _]. unfold mmu_translate, page_translate.
  assert (Hroot : is_ppn (root_ppn pt)) by (eapply ptw_ppn; [done|by eapply ptw_root]).
  rewrite token_eq by done. unfold is_ppn in Hroot.
  replace ((2 ^ 63 + root_ppn pt) / 2 ^ 60) with 8 by zsolve.
  replace ((2 ^ 63 + root_ppn pt) mod 2 ^ 44) with (root_ppn pt) by zsolve.
  destruct (canonical va); [|done]. cbn [negb Z.eqb]. rewrite walk_lookup by done.
  destruct (pt_lookup m pt (va_vpn va)) as [e|]; [|done].
  assert (Hal : ((PTE_ppn e * 4096) mod level_size 0 =? 0) = true).
  { change (level_size 0) with 4096. rewrite Z.mod_mul by lia. done. }
  destruct ((pte_r e || negb (pte_w e)) && (pte_r e || pte_x e)) eqn:Hleaf; rewrite ?Hal; change (level_size 0) with 4096;
    unfold access_allowed; destruct acc, p, (pte_r e), (pte_w e), (pte_x e), (pte_u e); done.
Qed.

(** ** Entries made from permissions *)

(** Does a set of permissions allow the access? *)
Definition perm_allows (acc : access) (perm : Z) : bool :=
  Z.testbit perm (match acc with Fetch => 3 | Load => 1 | Store => 2 end).
Definition perm_user (perm : Z) : bool := Z.testbit perm 4.

(** The flags of an entry are the permissions and [V]. *)
Lemma new_testbit ppn perm i :
  is_ppn ppn → 0 ≤ perm < 2 ^ 8 → 1 ≤ i < 8 → Z.testbit (PTE_new ppn (Z.lor perm PTE_V)) i = Z.testbit perm i.
Proof.
  intros Hp Hf Hi. rewrite PTE_new_eq by (done || by apply lor_V_range).
  rewrite <-(Z.mod_pow2_bits_low _ 8) by lia.
  replace (ppn * 2 ^ 10 + Z.lor perm PTE_V) with (Z.lor perm PTE_V + (ppn * 4) * 2 ^ 8) by lia.
  rewrite Z.mod_add, Z.mod_small by (lia || by apply lor_V_range).
  rewrite Z.lor_spec. replace (Z.testbit PTE_V i) with false; [by rewrite orb_false_r|].
  symmetry. assert (i ∈ seqZ 1 7) as Hin by (apply elem_of_seqZ; lia).
  change (seqZ 1 7) with [1; 2; 3; 4; 5; 6; 7] in Hin. by set_unfold in Hin; destruct_or!; subst.
Qed.

Lemma allowed_new p acc ppn perm :
  is_ppn ppn → 0 ≤ perm < 2 ^ 8 →
  access_allowed p acc (PTE_new ppn (Z.lor perm PTE_V)) =
    perm_allows acc perm && match p with UserMode => perm_user perm | SupervisorMode => negb (perm_user perm) end.
Proof.
  intros Hp Hf. unfold access_allowed, perm_allows, perm_user, pte_r, pte_w, pte_x, pte_u.
  destruct acc; by rewrite !new_testbit by (done || lia).
Qed.

Lemma readable_new ppn perm :
  is_ppn ppn → 0 ≤ perm < 2 ^ 8 → Z.testbit perm 1 = true →
  (pte_r (PTE_new ppn (Z.lor perm PTE_V)) || negb (pte_w (PTE_new ppn (Z.lor perm PTE_V)))) = true.
Proof. intros Hp Hf Hr. unfold pte_r. by rewrite new_testbit, Hr by (done || lia). Qed.

(** May the access be made to a page mapped with [flags]? *)
Definition flags_allow (p : privilege) (acc : access) (flags : Z) : bool :=
  perm_allows acc flags && (match p with UserMode => perm_user flags | SupervisorMode => negb (perm_user flags) end) &&
  (Z.testbit flags 1 || negb (Z.testbit flags 2)).

Lemma page_translate_new p acc ppn flags va :
  is_ppn ppn → 0 ≤ flags < 2 ^ 8 → let e := PTE_new ppn (Z.lor flags PTE_V) in
  (if access_allowed p acc e && (pte_r e || negb (pte_w e)) then Some (PTE_ppn e * 4096 + va mod 4096) else None) =
  (if flags_allow p acc flags then Some (ppn * 4096 + va mod 4096) else None).
Proof.
  intros Hp Hf e. unfold e. rewrite allowed_new, PTE_ppn_new by (done || by apply lor_V_range).
  unfold pte_r, pte_w. by rewrite !new_testbit by (done || lia).
Qed.

Lemma token_lookup s pt p acc va :
  pt_ok s pt → is_usize va → mmu_translate (PageTable_token pt) (phys s) p acc va = page_translate (phys s) pt p acc va.
Proof. intros [_ _ Hwf] Hva. by apply mmu_lookup. Qed.

(** ** Property *)

(** C10: the hardware follows [PageTable::map].  After [map], a hart whose [satp] is
    [token()] translates the addresses of the page to the frame, for exactly the
    accesses that the flags and the mode allow (and none if the flags are a reserved
    combination), and every other address as before: the three-level walk of the MMU
    finds what [find_pte_create] put there, and finds nothing else changed. *)
Theorem hardware_follows_map s pt vpn ppn flags p acc va :
  pt_ok s pt → is_vpn vpn → is_ppn ppn → 0 ≤ flags < 2 ^ 8 → is_usize va →
  wp (PageTable_map pt vpn ppn flags) (λ pt' s',
      mmu_translate (PageTable_token pt') (phys s') p acc va =
        if decide (va_vpn va = vpn)
        then if canonical va && flags_allow p acc flags then Some (ppn * 4096 + va mod 4096) else None
        else mmu_translate (PageTable_token pt) (phys s) p acc va)
    (λ k, (k = UnwrapNone ∧ (free_frames s < 2)%nat) ∨
          (k = AssertFailed ∧ is_Some (pt_lookup (phys s) pt vpn))) s.
Proof.
  intros Hok Hvpn Hppn Hfl Hva. eapply wp_mono; [by apply map_spec| |].
  - intros pt' s' [_ Hupd]. pose proof (upd_ok _ _ _ _ _ _ Hupd) as Hok'.
    rewrite !token_lookup by done. unfold page_translate.
    rewrite (upd_lookup _ _ _ _ _ _ Hupd) by (apply va_vpn_bounds). destruct (canonical va); cbn [negb andb].
    + case_decide; [|done]. by apply page_translate_new.
    + by case_decide.
  - intros k [(-> & Hf & _)|[-> Hm]]; [by left|by right].
Qed.

Lemma hardware_follows_map_witness :
  ∃ pt' s', PageTable_map demo_pt 0x12345 0x99 PTE_R demo_mm = Done pt' s' ∧
    mmu_translate (PageTable_token pt') (phys s') SupervisorMode Load 0x12345678 = Some 0x99678 ∧
    mmu_translate (PageTable_token pt') (phys s') SupervisorMode Store 0x12345678 = None ∧
    mmu_translate (PageTable_token pt') (phys s') UserMode Load 0x12345678 = None.
Proof.
  assert (Hu : is_usize 0x12345678) by (vm_compute; split; congruence).
  assert (Hrun : ∀ p acc, ∃ pt' s', PageTable_map demo_pt 0x12345 0x99 PTE_R demo_mm = Done pt' s' ∧
    mmu_translate (PageTable_token pt') (phys s') p acc 0x12345678 =
      if flags_allow p acc PTE_R then Some 0x99678 else None).
  { intros p acc.
    pose proof (hardware_follows_map demo_mm demo_pt 0x12345 0x99 PTE_R p acc 0x12345678 demo_pt_ok
      ltac:(vm_compute; split; congruence) ltac:(vm_compute; split; congruence)
      ltac:(vm_compute; split; congruence) Hu) as H.
    unfold wp in H. destruct (PageTable_map demo_pt 0x12345 0x99 PTE_R demo_mm) as [pt' s'|k|].
    - exists pt', s'. split; [reflexivity|exact H].
    - destruct H as [(_ & Hfree)|[_ [e He]]]; [vm_compute in Hfree; lia|]. rewrite demo_lookup in He. discriminate He.
    - destruct H. }
  destruct (Hrun SupervisorMode Load) as (pt' & s' & H0 & H1). exists pt', s'.
  destruct (Hrun SupervisorMode Store) as (pt2 & s2 & H2 & H3).
  destruct (Hrun UserMode Load) as (pt3 & s3 & H4 & H5).
  rewrite H2 in H0. injection H0 as <- <-. rewrite H4 in H2. injection H2 as <- <-.
  split; [exact H4|]. split; [exact H1|]. split; [exact H3|exact H5].
Defined.
