(* ===== verification/MemorySet.v ===== *)
(** * Address spaces ([src/mm/memory_set.rs])

    [MapArea] and [MemorySet] own frames through [data_frames] and the page
    table; where Rust drops a value that owns frames, the model calls the
    corresponding [_drop].  The linker symbols are the class [LinkerSymbols];
    what the kernel asks of the crate [xmas_elf] is the record [ElfFile], produced
    by a parsing function that is a parameter.  [satp::write] and [sfence.vma] of
    [activate] act on the processor, not on the state modelled here. *)
From S2P Require Import Prelude Config Machine Address FrameAllocator Ownership PageTable.

(** The symbols of [linker.ld]. *)
(* src: src/src/mm/memory_set.rs 23-34 extern *)
Class LinkerSymbols := {
  stext : Z; etext : Z; srodata : Z; erodata : Z; sdata : Z; edata : Z;
  sbss_with_stack : Z; ebss : Z; ekernel : Z; strampoline : Z;
}.

(* src: src/src/mm/memory_set.rs 44-51 MapType *)
Inductive MapType : Set := Identical | Framed.
#[global] Instance MapType_eq_dec : EqDecision MapType.
Proof. solve_decision. Defined.

Abbreviation MapPermission := Z (only parsing).
(* src: src/src/mm/memory_set.rs 57-57 MapPermission::R *)
Definition MapPermission_R : MapPermission := Z.shiftl 1 1.
(* src: src/src/mm/memory_set.rs 59-59 MapPermission::W *)
Definition MapPermission_W : MapPermission := Z.shiftl 1 2.
(* src: src/src/mm/memory_set.rs 61-61 MapPermission::X *)
Definition MapPermission_X : MapPermission := Z.shiftl 1 3.
(* src: src/src/mm/memory_set.rs 63-63 MapPermission::U *)
Definition MapPermission_U : MapPermission := Z.shiftl 1 4.

(* src: src/src/mm/memory_set.rs 37-42 MapArea *)
Record MapArea : Type := mkMapArea {
  vpn_range : SimpleRange;
  data_frames : gmap Z FrameTracker;
  map_type : MapType;
  map_perm : MapPermission;
}.

(* src: src/src/mm/memory_set.rs 68-71 MemorySet *)
Record MemorySet : Type := mkMemorySet {
  page_table : PageTable;
  areas : list MapArea;
}.

Definition set_data_frames (d : gmap Z FrameTracker) (a : MapArea) : MapArea :=
  {| vpn_range := vpn_range a; data_frames := d; map_type := map_type a; map_perm := map_perm a |}.
Definition set_vpn_range (r : SimpleRange) (a : MapArea) : MapArea :=
  {| vpn_range := r; data_frames := data_frames a; map_type := map_type a; map_perm := map_perm a |}.

(** The values of a [BTreeMap] in the order of its keys. *)
Definition key_le (x y : Z * Z) : Prop := x.1 ≤ y.1.
#[global] Instance key_le_dec x y : Decision (key_le x y).
Proof. unfold key_le. apply _. Defined.
Definition btree_values (d : gmap Z Z) : list Z := (merge_sort key_le (map_to_list d)).*2.

(** Dropping the [Option<FrameTracker>] that [insert] and [remove] return. *)
Definition option_drop (o : option FrameTracker) : M mm unit :=
  match o with Some f => FrameTracker_drop f | None => mret tt end.

Definition MapArea_drop (self : MapArea) : M mm unit :=
  forM FrameTracker_drop (btree_values (data_frames self)).

(** Fields are dropped in declaration order. *)
Definition MemorySet_drop (self : MemorySet) : M mm unit :=
  PageTable_drop (page_table self);;
  forM MapArea_drop (areas self).

(** ** [MapArea] *)

(* src: src/src/mm/memory_set.rs 428-445 MapArea::new *)
Definition MapArea_new {S} (start_va end_va : VirtAddr) (ty : MapType) (perm : MapPermission)
    : M S MapArea :=
  r ← SimpleRange_new (VirtAddr_floor start_va) (VirtAddr_ceil end_va);
  mret {| vpn_range := r; data_frames := ∅; map_type := ty; map_perm := perm |}.

(* src: src/src/mm/memory_set.rs 466-487 MapArea::map_one *)
Definition MapArea_map_one (vpn : VirtPageNum) (self_pt : MapArea * PageTable)
    : M mm (MapArea * PageTable) :=
  let '(self, pt) := self_pt in
  '(ppn, self') ←
    match map_type self with
    | Identical => mret (vpn, self)
    | Framed =>
        o ← frame_alloc;
        frame ← unwrap o;
        option_drop (data_frames self !! vpn);;
        mret (frame, set_data_frames (<[vpn := frame]> (data_frames self)) self)
    end;
  pte_flags ← unwrap (PTEFlags_from_bits (map_perm self'));
  pt' ← PageTable_map pt vpn ppn pte_flags;
  mret (self', pt').

(* src: src/src/mm/memory_set.rs 491-500 MapArea::unmap_one *)
Definition MapArea_unmap_one (vpn : VirtPageNum) (self_pt : MapArea * PageTable)
    : M mm (MapArea * PageTable) :=
  let '(self, pt) := self_pt in
  self' ←
    match map_type self with
    | Framed =>
        option_drop (data_frames self !! vpn);;
        mret (set_data_frames (delete vpn (data_frames self)) self)
    | Identical => mret self
    end;
  pt' ← PageTable_unmap pt vpn;
  mret (self', pt').

(** [for vpn in r { self.map_one(page_table, vpn) }], and the same for [unmap_one]. *)
Definition map_range (r : SimpleRange) (self_pt : MapArea * PageTable) : M mm (MapArea * PageTable) :=
  foldM (λ st vpn, MapArea_map_one vpn st) self_pt (vpns r).
Definition unmap_range (r : SimpleRange) (self_pt : MapArea * PageTable) : M mm (MapArea * PageTable) :=
  foldM (λ st vpn, MapArea_unmap_one vpn st) self_pt (vpns r).

(* src: src/src/mm/memory_set.rs 449-455 MapArea::map *)
Definition MapArea_map (self : MapArea) (pt : PageTable) : M mm (MapArea * PageTable) :=
  map_range (vpn_range self) (self, pt).

(* src: src/src/mm/memory_set.rs 459-463 MapArea::unmap *)
Definition MapArea_unmap (self : MapArea) (pt : PageTable) : M mm (MapArea * PageTable) :=
  unmap_range (vpn_range self) (self, pt).

(** The [loop] of [copy_data], with fuel for its iterations. *)
(* src: src/src/mm/memory_set.rs 510-524 MapArea::copy_data *)
Fixpoint copy_data_loop (fuel : nat) (pt : PageTable) (data : list byte) (start : Z)
    (current_vpn : VirtPageNum) : M mm unit :=
  match fuel with
  | O => out_of_fuel
  | S fuel =>
      let len := Z.of_nat (length data) in
      let stop := Z.min len (start +u PAGE_SIZE) in
      if stop <? start then panic IndexOutOfBounds
      else
        let src := take (Z.to_nat (stop - start)) (drop (Z.to_nat start) data) in
        o ← PageTable_translate pt current_vpn;
        e ← unwrap o;
        let dst := PhysPageNum_get_bytes_array (PTE_ppn e) in
        set_phys (λ m, store_bytes m dst src);;
        let start' := start +u PAGE_SIZE in
        if len <=? start' then mret tt
        else copy_data_loop fuel pt data start' (VirtPageNum_step current_vpn)
  end.

(* src: src/src/mm/memory_set.rs 503-525 MapArea::copy_data *)
Definition MapArea_copy_data (self : MapArea) (pt : PageTable) (data : list byte) : M mm unit :=
  assert_ (bool_decide (map_type self = Framed));;
  copy_data_loop (S (length data)) pt data 0 (SimpleRange_get_start (vpn_range self)).

(* src: src/src/mm/memory_set.rs 528-530 MapArea::vpn_len *)
Definition MapArea_vpn_len (self : MapArea) : Z :=
  SimpleRange_get_end (vpn_range self) -u SimpleRange_get_start (vpn_range self) +u 1.

(** Return on the first page for which the test on [find_vpn] succeeds. *)
Fixpoint any_vpn (test : bool → bool) (pt : PageTable) (l : list Z) : M mm bool :=
  match l with
  | [] => mret false
  | vpn :: l =>
      b ← PageTable_find_vpn pt vpn;
      if test b then mret true else any_vpn test pt l
  end.

(* src: src/src/mm/memory_set.rs 533-540 MapArea::check_mapping *)
Definition MapArea_check_mapping (self : MapArea) (pt : PageTable) : M mm bool :=
  any_vpn id pt (vpns (vpn_range self)).

(* src: src/src/mm/memory_set.rs 543-550 MapArea::check_unmapping *)
Definition MapArea_check_unmapping (self : MapArea) (pt : PageTable) : M mm bool :=
  any_vpn negb pt (vpns (vpn_range self)).

(* src: src/src/mm/memory_set.rs 553-555 MapArea::get_start *)
Definition MapArea_get_start (self : MapArea) : VirtPageNum := SimpleRange_get_start (vpn_range self).
(* src: src/src/mm/memory_set.rs 558-560 MapArea::get_end *)
Definition MapArea_get_end (self : MapArea) : VirtPageNum := SimpleRange_get_end (vpn_range self).

(* src: src/src/mm/memory_set.rs 563-570 MapArea::from_another *)
Definition MapArea_from_another {S} (another : MapArea) : M S MapArea :=
  r ← SimpleRange_new (SimpleRange_get_start (vpn_range another))
                      (SimpleRange_get_end (vpn_range another));
  mret {| vpn_range := r; data_frames := ∅;
          map_type := map_type another; map_perm := map_perm another |}.

(* src: src/src/mm/memory_set.rs 573-579 MapArea::shrink_to *)
Definition MapArea_shrink_to (self : MapArea) (pt : PageTable) (new_end : VirtPageNum)
    : M mm (MapArea * PageTable) :=
  r ← SimpleRange_new new_end (SimpleRange_get_end (vpn_range self));
  '(self', pt') ← unmap_range r (self, pt);
  r' ← SimpleRange_new (SimpleRange_get_start (vpn_range self')) new_end;
  mret (set_vpn_range r' self', pt').

(* src: src/src/mm/memory_set.rs 582-587 MapArea::append_to *)
Definition MapArea_append_to (self : MapArea) (pt : PageTable) (new_end : VirtPageNum)
    : M mm (MapArea * PageTable) :=
  r ← SimpleRange_new (SimpleRange_get_end (vpn_range self)) new_end;
  '(self', pt') ← map_range r (self, pt);
  r' ← SimpleRange_new (SimpleRange_get_start (vpn_range self')) new_end;
  mret (set_vpn_range r' self', pt').

(** ** [MemorySet] *)

(* src: src/src/mm/memory_set.rs 75-80 MemorySet::new_bare *)
Definition MemorySet_new_bare : M mm MemorySet :=
  pt ← PageTable_new;
  mret {| page_table := pt; areas := [] |}.

(* src: src/src/mm/memory_set.rs 83-89 MemorySet::push *)
Definition MemorySet_push (self : MemorySet) (map_area : MapArea) (data : option (list byte))
    : M mm MemorySet :=
  '(map_area', pt') ← MapArea_map map_area (page_table self);
  match data with
  | Some data => MapArea_copy_data map_area' pt' data
  | None => mret tt
  end;;
  mret {| page_table := pt'; areas := vec_push (areas self) map_area' |}.

(* src: src/src/mm/memory_set.rs 92-102 MemorySet::insert_framed_area *)
Definition MemorySet_insert_framed_area (self : MemorySet) (start_va end_va : VirtAddr)
    (permission : MapPermission) : M mm MemorySet :=
  map_area ← MapArea_new start_va end_va Framed permission;
  MemorySet_push self map_area None.

(* src: src/src/mm/memory_set.rs 306-308 MemorySet::token *)
Definition MemorySet_token (self : MemorySet) : Z := PageTable_token (page_table self).

(** [self.areas.clear()] drops the areas in order. *)
(* src: src/src/mm/memory_set.rs 311-313 MemorySet::recycle_data_pages *)
Definition MemorySet_recycle_data_pages (self : MemorySet) : M mm MemorySet :=
  forM MapArea_drop (areas self);;
  mret {| page_table := page_table self; areas := [] |}.

(* src: src/src/mm/memory_set.rs 328-334 MemorySet::map_trampoline *)
Definition MemorySet_map_trampoline `{LinkerSymbols} (self : MemorySet) : M mm MemorySet :=
  vpn ← VirtPageNum_from_VirtAddr (VirtAddr_from_usize TRAMPOLINE);
  ppn ← PhysPageNum_from_PhysAddr (PhysAddr_from_usize strampoline);
  pt' ← PageTable_map (page_table self) vpn ppn (Z.lor PTE_R PTE_X);
  mret {| page_table := pt'; areas := areas self |}.

(* src: src/src/mm/memory_set.rs 337-339 MemorySet::translate *)
Definition MemorySet_translate (self : MemorySet) (vpn : VirtPageNum)
    : M mm (option PageTableEntry) :=
  PageTable_translate (page_table self) vpn.

(** [retain_mut] visits the areas in order; one for which the closure returns
    [false] is dropped at once. *)
(* src: src/src/mm/memory_set.rs 346-353 MemorySet::munmap_area *)
Fixpoint munmap_areas (start_vpn end_vpn : VirtPageNum) (l : list MapArea) (pt : PageTable)
    : M mm (list MapArea * PageTable) :=
  match l with
  | [] => mret ([], pt)
  | area :: l =>
      if (end_vpn <=? MapArea_get_end area) && (MapArea_get_start area <=? start_vpn) then
        '(area', pt') ← MapArea_unmap area pt;
        MapArea_drop area';;
        munmap_areas start_vpn end_vpn l pt'
      else
        '(l', pt') ← munmap_areas start_vpn end_vpn l pt;
        mret (area :: l', pt')
  end.

(* src: src/src/mm/memory_set.rs 342-354 MemorySet::munmap_area *)
Definition MemorySet_munmap_area (self : MemorySet) (start_va end_va : VirtAddr)
    : M mm MemorySet :=
  let start_vpn := VirtAddr_floor start_va in
  let end_vpn := VirtAddr_ceil end_va in
  '(l, pt) ← munmap_areas start_vpn end_vpn (areas self) (page_table self);
  mret {| page_table := pt; areas := l |}.

(** The first area starting at [start_vpn], with its index. *)
Definition find_area (start_vpn : VirtPageNum) (l : list MapArea) : option (nat * MapArea) :=
  list_find (λ area, SimpleRange_get_start (vpn_range area) = start_vpn) l.

(* src: src/src/mm/memory_set.rs 357-368 MemorySet::remove_area_with_start_vpn *)
Definition MemorySet_remove_area_with_start_vpn (self : MemorySet) (start_vpn : VirtPageNum)
    : M mm MemorySet :=
  match find_area start_vpn (areas self) with
  | Some (idx, area) =>
      '(area', pt') ← MapArea_unmap area (page_table self);
      MapArea_drop area';;
      mret {| page_table := pt'; areas := vec_remove (areas self) idx |}
  | None => mret self
  end.

(** Copy one page: [dst.get_bytes_array().copy_from_slice(src.get_bytes_array())]. *)
Definition copy_page (src_ppn dst_ppn : PhysPageNum) : M mm unit :=
  set_phys (λ m, store_bytes m (PhysPageNum_get_bytes_array dst_ppn)
                   (load_bytes m (PhysPageNum_get_bytes_array src_ppn) (Z.to_nat PAGE_SIZE))).

(* src: src/src/mm/memory_set.rs 384-390 MemorySet::from_existed_user *)
Definition copy_vpn (user_space memory_set : MemorySet) (vpn : VirtPageNum) : M mm unit :=
  o ← MemorySet_translate user_space vpn;
  src ← unwrap o;
  o' ← MemorySet_translate memory_set vpn;
  dst ← unwrap o';
  copy_page (PTE_ppn src) (PTE_ppn dst).

(* src: src/src/mm/memory_set.rs 371-394 MemorySet::from_existed_user *)
Definition MemorySet_from_existed_user `{LinkerSymbols} (user_space : MemorySet) : M mm MemorySet :=
  bare ← MemorySet_new_bare;
  memory_set ← MemorySet_map_trampoline bare;
  foldM (λ memory_set area,
    new_area ← MapArea_from_another area;
    memory_set' ← MemorySet_push memory_set new_area None;
    forM (copy_vpn user_space memory_set') (vpns (vpn_range area));;
    mret memory_set') memory_set (areas user_space).

(* src: src/src/mm/memory_set.rs 397-408 MemorySet::shrink_to *)
Definition MemorySet_shrink_to (self : MemorySet) (start new_end : VirtAddr) : M mm (bool * MemorySet) :=
  match find_area (VirtAddr_floor start) (areas self) with
  | Some (idx, area) =>
      '(area', pt') ← MapArea_shrink_to area (page_table self) (VirtAddr_ceil new_end);
      mret (true, {| page_table := pt'; areas := <[idx := area']> (areas self) |})
  | None => mret (false, self)
  end.

(* src: src/src/mm/memory_set.rs 411-422 MemorySet::append_to *)
Definition MemorySet_append_to (self : MemorySet) (start new_end : VirtAddr) : M mm (bool * MemorySet) :=
  match find_area (VirtAddr_floor start) (areas self) with
  | Some (idx, area) =>
      '(area', pt') ← MapArea_append_to area (page_table self) (VirtAddr_ceil new_end);
      mret (true, {| page_table := pt'; areas := <[idx := area']> (areas self) |})
  | None => mret (false, self)
  end.

(** ** The kernel address space *)

(* src: src/src/mm/memory_set.rs 106-203 MemorySet::new_kernel *)
Definition MemorySet_new_kernel `{LinkerSymbols} : M mm MemorySet :=
  bare ← MemorySet_new_bare;
  ms0 ← MemorySet_map_trampoline bare;
  text ← MapArea_new (VirtAddr_from_usize stext) (VirtAddr_from_usize etext) Identical
           (Z.lor MapPermission_R MapPermission_X);
  ms1 ← MemorySet_push ms0 text None;
  rodata ← MapArea_new (VirtAddr_from_usize srodata) (VirtAddr_from_usize erodata) Identical
             MapPermission_R;
  ms2 ← MemorySet_push ms1 rodata None;
  data ← MapArea_new (VirtAddr_from_usize sdata) (VirtAddr_from_usize edata) Identical
           MapPermission_R;
  ms3 ← MemorySet_push ms2 data None;
  bss ← MapArea_new (VirtAddr_from_usize sbss_with_stack) (VirtAddr_from_usize ebss) Identical
          (Z.lor MapPermission_R MapPermission_W);
  ms4 ← MemorySet_push ms3 bss None;
  free ← MapArea_new (VirtAddr_from_usize ekernel) (VirtAddr_from_usize MEMORY_END) Identical
           (Z.lor MapPermission_R MapPermission_W);
  ms5 ← MemorySet_push ms4 free None;
  foldM (λ ms pair,
    area ← MapArea_new (VirtAddr_from_usize (fst pair)) (VirtAddr_from_usize (fst pair +u snd pair))
             Identical (Z.lor MapPermission_R MapPermission_W);
    MemorySet_push ms area None) ms5 MMIO.

(** Bottom and top of the kernel stack of a process, below a guard page. *)
(* src: src/src/mm/memory_set.rs 602-608 kernel_stack_position *)
Definition kernel_stack_position (app_id : Z) : Z * Z :=
  let top := TRAMPOLINE -u app_id *u (KERNEL_STACK_SIZE + PAGE_SIZE) in
  let bottom := top -u KERNEL_STACK_SIZE in
  (bottom, top).

(* src: src/src/mm/memory_set.rs 612-640 remap_test *)
Definition remap_test `{LinkerSymbols} (kernel_space : MemorySet) : M mm unit :=
  let mid_text := VirtAddr_from_usize ((stext +u etext) / 2) in
  let mid_rodata := VirtAddr_from_usize ((srodata +u erodata) / 2) in
  let mid_data := VirtAddr_from_usize ((sdata +u edata) / 2) in
  o ← PageTable_translate (page_table kernel_space) (VirtAddr_floor mid_text);
  e ← unwrap o;
  assert_ (negb (PTE_is_writable e));;
  o ← PageTable_translate (page_table kernel_space) (VirtAddr_floor mid_rodata);
  e ← unwrap o;
  assert_ (negb (PTE_is_writable e));;
  o ← PageTable_translate (page_table kernel_space) (VirtAddr_floor mid_data);
  e ← unwrap o;
  assert_ (negb (PTE_is_executable e)).

(** ** Loading an ELF file

    What [from_elf] reads through the crate [xmas_elf]. *)
Inductive PhType : Set := PhLoad | PhOther.

Record ProgramHeader : Set := mkProgramHeader {
  ph_type : option PhType;          (* [get_type()], [None] for an error *)
  ph_virtual_addr : Z;
  ph_mem_size : Z;
  ph_offset : Z;
  ph_file_size : Z;
  ph_is_read : bool;
  ph_is_write : bool;
  ph_is_execute : bool;
}.

Record ElfFile : Type := mkElfFile {
  elf_magic : list Z;
  elf_ph_count : nat;
  elf_program_header : nat → option ProgramHeader;   (* [None] for an error *)
  elf_entry_point : Z;
}.

(** [&l[a..b]]. *)
Definition slice {S A} (l : list A) (a b : Z) : M S (list A) :=
  if (a <=? b) && (b <=? Z.of_nat (length l))
  then mret (take (Z.to_nat (b - a)) (drop (Z.to_nat a) l))
  else panic IndexOutOfBounds.

(* src: src/src/mm/memory_set.rs 229-242 MemorySet::from_elf *)
Definition ph_map_perm (ph : ProgramHeader) : MapPermission :=
  let map_perm := MapPermission_U in
  let map_perm := if ph_is_read ph then Z.lor map_perm MapPermission_R else map_perm in
  let map_perm := if ph_is_write ph then Z.lor map_perm MapPermission_W else map_perm in
  if ph_is_execute ph then Z.lor map_perm MapPermission_X else map_perm.

(** One iteration of the loop over the program headers; the state is the memory
    set and [max_end_vpn]. *)
(* src: src/src/mm/memory_set.rs 224-252 MemorySet::from_elf *)
Definition load_segment (elf : ElfFile) (elf_data : list byte)
    (st : MemorySet * VirtPageNum) (i : nat) : M mm (MemorySet * VirtPageNum) :=
  let '(memory_set, max_end_vpn) := st in
  ph ← unwrap (elf_program_header elf i);
  ty ← unwrap (ph_type ph);
  match ty with
  | PhLoad =>
      let start_va := VirtAddr_from_usize (ph_virtual_addr ph) in
      let end_va := VirtAddr_from_usize (ph_virtual_addr ph +u ph_mem_size ph) in
      map_area ← MapArea_new start_va end_va Framed (ph_map_perm ph);
      let max_end_vpn' := SimpleRange_get_end (vpn_range map_area) in
      data ← slice elf_data (ph_offset ph) (ph_offset ph +u ph_file_size ph);
      memory_set' ← MemorySet_push memory_set map_area (Some data);
      mret (memory_set', max_end_vpn')
  | PhOther => mret (memory_set, max_end_vpn)
  end.

(** Returns the address space, the top of the user stack and the entry point. *)
(* src: src/src/mm/memory_set.rs 207-303 MemorySet::from_elf *)
Definition MemorySet_from_elf `{LinkerSymbols} (ElfFile_new : list byte → option ElfFile)
    (elf_data : list byte) : M mm (MemorySet * Z * Z) :=
  bare ← MemorySet_new_bare;
  memory_set ← MemorySet_map_trampoline bare;
  elf ← unwrap (ElfFile_new elf_data);
  assert_ (bool_decide (elf_magic elf = [0x7f; 0x45; 0x4c; 0x46]));;
  '(ms1, max_end_vpn) ← foldM (load_segment elf elf_data) (memory_set, 0)
                              (seq 0 (elf_ph_count elf));
  let max_end_va := VirtAddr_from_VirtPageNum max_end_vpn in
  let user_stack_bottom := max_end_va +u PAGE_SIZE in
  let user_stack_top := user_stack_bottom +u USER_STACK_SIZE in
  let rwu := Z.lor (Z.lor MapPermission_R MapPermission_W) MapPermission_U in
  stack ← MapArea_new (VirtAddr_from_usize user_stack_bottom) (VirtAddr_from_usize user_stack_top)
            Framed rwu;
  ms2 ← MemorySet_push ms1 stack None;
  heap ← MapArea_new (VirtAddr_from_usize user_stack_top) (VirtAddr_from_usize user_stack_top)
           Framed rwu;
  ms3 ← MemorySet_push ms2 heap None;
  trap ← MapArea_new (VirtAddr_from_usize TRAP_CONTEXT_BASE) (VirtAddr_from_usize TRAMPOLINE)
           Framed (Z.lor MapPermission_R MapPermission_W);
  ms4 ← MemorySet_push ms3 trap None;
  mret (ms4, user_stack_top, elf_entry_point elf).
