(* ===== verification/MapAreaSpec.v ===== *)
(** * Mapping and unmapping the pages of an area

    Specifications of [MapArea::map_one], [unmap_one] and of the loops over a
    range of pages: which mappings appear or disappear, where the frames come
    from and go to, and how many frames are needed. *)
From S2P Require Import Prelude Config Machine Address FrameAllocator Ownership.
From S2P Require Import PageTable PageTree PageTableSpec MemorySet.

(** The physical page an area gives to [vpn], and the entry that maps it. *)
Definition area_ppn (a : MapArea) (vpn : Z) : option Z :=
  match map_type a with Identical => Some vpn | Framed => data_frames a !! vpn end.
Definition area_pte (a : MapArea) (vpn : Z) : option Z :=
  (λ p, PTE_new p (Z.lor (map_perm a) PTE_V)) <$> area_ppn a vpn.

(** The frames an area owns. *)
Definition area_frames (a : MapArea) : list Z := (map_to_list (data_frames a)).*2.

Definition is_perm (perm : Z) : Prop := 0 ≤ perm < 2 ^ 8.

(** [area_mapped s a pt s' a' pt' l]: the pages [l], unmapped before, are now
    mapped by the area; [new] are the zeroed frames it got for them. *)
Record area_mapped (s : mm) (a : MapArea) (pt : PageTable)
    (s' : mm) (a' : MapArea) (pt' : PageTable) (l : list Z) (new : list Z) : Prop := {
  am_range : vpn_range a' = vpn_range a;
  am_type : map_type a' = map_type a;
  am_perm : map_perm a' = map_perm a;
  am_root : root_ppn pt' = root_ppn pt;
  am_tree : pt_wf (phys s') pt';
  am_step : mm_step s (frames pt) s' (frames pt' ++ new);
  am_new : area_frames a' ≡ₚ new ++ area_frames a;
  am_old vpn : vpn ∉ l → data_frames a' !! vpn = data_frames a !! vpn;
  am_data vpn : vpn ∈ l →
    is_Some (area_ppn a' vpn) ∧
    ∀ f, data_frames a' !! vpn = Some f → map_type a = Framed ∧ f ∈ new ∧ page_zero (phys s') f;
  am_lookup vpn : is_vpn vpn →
    pt_lookup (phys s') pt' vpn =
      if decide (vpn ∈ l) then area_pte a' vpn else pt_lookup (phys s) pt vpn;
  am_unmapped vpn : vpn ∈ l → pt_lookup (phys s) pt vpn = None;
  am_cost : (length (frames pt') + length new ≤ length (frames pt) + 3 * length l)%nat;
}.

Lemma pt_ok_of_step s pt s' pt' new :
  mm_step s (frames pt) s' (frames pt' ++ new) → pt_wf (phys s') pt' → pt_ok s' pt'.
Proof.
  intros Hstep Htree. split; [by eapply step_wf| |done].
  apply step_owns in Hstep. by apply owns_app in Hstep as [? _].
Qed.

Lemma area_mapped_refl s a pt : pt_ok s pt → area_mapped s a pt s a pt [] [].
Proof.
  intros [Hmm Hown Htree]. split; try done.
  - rewrite app_nil_r. by apply mm_step_refl.
  - by intros vpn ?%not_elem_of_nil.
  - by intros vpn ?%not_elem_of_nil.
Qed.

Lemma area_pte_eq a a' vpn :
  map_type a' = map_type a → map_perm a' = map_perm a →
  data_frames a' !! vpn = data_frames a !! vpn → area_pte a' vpn = area_pte a vpn.
Proof. unfold area_pte, area_ppn. by intros -> -> ->. Qed.

Lemma area_ppn_eq a a' vpn :
  map_type a' = map_type a → data_frames a' !! vpn = data_frames a !! vpn →
  area_ppn a' vpn = area_ppn a vpn.
Proof. unfold area_ppn. by intros -> ->. Qed.

(** Mapping more pages after some. *)
Lemma area_mapped_trans s a pt s1 a1 pt1 s2 a2 pt2 l1 new1 l2 new2 :
  area_mapped s a pt s1 a1 pt1 l1 new1 → area_mapped s1 a1 pt1 s2 a2 pt2 l2 new2 →
  (∀ vpn, vpn ∈ l1 → vpn ∉ l2) → (∀ vpn, vpn ∈ l2 → is_vpn vpn) →
  area_mapped s a pt s2 a2 pt2 (l1 ++ l2) (new2 ++ new1).
Proof.
  intros [Hr1 Ht1 Hp1 Hro1 Hwf1 Hs1 Hn1 Ho1 Hd1 Hl1 Hu1 Hc1]
         [Hr2 Ht2 Hp2 Hro2 Hwf2 Hs2 Hn2 Ho2 Hd2 Hl2 Hu2 Hc2] Hdis Hvpn.
  assert (Hs2' : mm_step s1 (frames pt1 ++ new1) s2 ((frames pt2 ++ new2) ++ new1))
    by (apply mm_step_frame; [done|by eapply step_owns]).
  split; [congruence..|done| | | | | | |].
  - rewrite app_assoc. by eapply mm_step_trans.
  - by rewrite Hn2, Hn1, app_assoc.
  - intros vpn [H1 H2]%not_elem_of_app. by rewrite Ho2, Ho1.
  - intros vpn Hin. destruct (decide (vpn ∈ l2)) as [H2|H2].
    + destruct (Hd2 vpn H2) as [Hs Hf]. split; [done|]. intros f [? [? ?]]%Hf.
      split_and!; [congruence|apply elem_of_app; auto|done].
    + apply elem_of_app in Hin as [H1|?]; [|done]. destruct (Hd1 vpn H1) as [Hs Hf].
      rewrite (area_ppn_eq a1), Ho2 by auto. split; [done|].
      intros f (? & Hnew & Hz)%Hf. split_and!; [done|apply elem_of_app; auto|].
      intros x Hx. rewrite <-(Hz x Hx). symmetry.
      by apply (mm_step_frame_agree _ _ _ _ new1 f Hs2); [eapply step_owns|..].
  - intros vpn Hv. rewrite Hl2, Hl1 by done.
    destruct (decide (vpn ∈ l2)) as [H2|H2]; [by rewrite decide_True by (apply elem_of_app; auto)|].
    destruct (decide (vpn ∈ l1)) as [H1|H1].
    + rewrite decide_True by (apply elem_of_app; auto).
      symmetry. by apply area_pte_eq; [..|apply Ho2].
    + by rewrite decide_False by (rewrite elem_of_app; tauto).
  - intros vpn [H1|H2]%elem_of_app; [by apply Hu1|].
    specialize (Hu2 vpn H2). rewrite Hl1 in Hu2 by auto.
    rewrite decide_False in Hu2; [done|]. intros H1. by apply (Hdis vpn).
  - rewrite !length_app in *. lia.
Qed.

Lemma area_frames_insert (d : gmap Z Z) vpn f :
  d !! vpn = None → (map_to_list (<[vpn := f]> d)).*2 ≡ₚ f :: (map_to_list d).*2.
Proof. intros H. by rewrite map_to_list_insert. Qed.

Lemma area_frames_delete (d : gmap Z Z) vpn f :
  d !! vpn = Some f → (map_to_list d).*2 ≡ₚ f :: (map_to_list (delete vpn d)).*2.
Proof. intros H. by rewrite <-(map_to_list_delete d vpn f). Qed.

Lemma perm_from_bits perm : is_perm perm → PTEFlags_from_bits perm = Some perm.
Proof. apply PTEFlags_from_bits_u8. Qed.

(** ** [map_one] *)

Definition map_one_error (s : mm) (pt : PageTable) (vpn : Z) (k : panic_kind) : Prop :=
  (k = UnwrapNone ∧ (free_frames s < 3)%nat) ∨
  (k = AssertFailed ∧ is_Some (pt_lookup (phys s) pt vpn)).

Lemma map_one_identical_spec s a pt vpn :
  pt_ok s pt → is_vpn vpn → is_perm (map_perm a) → data_frames a !! vpn = None →
  map_type a = Identical →
  wp (MapArea_map_one vpn (a, pt)) (λ r s', ∃ new,
      area_mapped s a pt s' (fst r) (snd r) [vpn] new) (map_one_error s pt vpn) s.
Proof.
  intros Hok Hvpn Hperm Hnew Hty. unfold MapArea_map_one. rewrite Hty. do 2 wp_step.
  rewrite perm_from_bits by done. do 2 wp_step.
  eapply wp_call; [apply map_spec; [done..| |done]| |].
  { unfold is_vpn in Hvpn. unfold is_ppn. lia. }
  { intros k [(-> & ? & _)|H]; [left; split; [done|lia]|by right]. }
  intros pt' s' [Hnone [Hok' Hroot Hstep Hl Hlen]]. wp_step. exists []. simpl.
  split; simpl; try done.
  - by destruct Hok'.
  - by rewrite app_nil_r.
  - intros v ->%list_elem_of_singleton. unfold area_ppn. rewrite Hty, Hnew. by split.
  - intros v Hv. rewrite Hl by done. unfold area_pte, area_ppn. rewrite Hty. simpl.
    destruct (decide (v = vpn)) as [->|Hne].
    + by rewrite decide_True by (by apply list_elem_of_singleton).
    + by rewrite decide_False by (by rewrite list_elem_of_singleton).
  - intros v ->%list_elem_of_singleton. done.
  - lia.
Qed.

Lemma map_one_framed_spec s a pt vpn :
  pt_ok s pt → is_vpn vpn → is_perm (map_perm a) → data_frames a !! vpn = None →
  map_type a = Framed →
  wp (MapArea_map_one vpn (a, pt)) (λ r s', ∃ new,
      area_mapped s a pt s' (fst r) (snd r) [vpn] new) (map_one_error s pt vpn) s.
Proof.
  intros Hok Hvpn Hperm Hnew Hty. unfold MapArea_map_one. rewrite Hty, Hnew.
  do 2 wp_step. eapply wp_mono; [apply frame_alloc_spec, Hok| |done].
  intros [f|] s1 H; wp_step; [|destruct H as [-> Hfree]; left; split; [done|lia]].
  wp_step. simpl option_drop. do 4 wp_step. simpl map_perm.
  rewrite perm_from_bits by done. do 2 wp_step.
  pose proof Hok as [Hmm Hown Htree].
  assert (Hf1 : mm_step s (frames pt) s1 (f :: frames pt)) by (by apply mm_step_alloc).
  assert (Hag : ∀ g, g ∈ frames pt → page_agree (phys s) (phys s1) g).
  { intros g Hg. apply (fresh_others _ _ _ H). intros ->. by apply (fresh_new _ _ _ H), Hown. }
  assert (Hl1 : ∀ v, pt_lookup (phys s1) pt v = pt_lookup (phys s) pt v)
    by (intros v; by apply pt_lookup_pages_agree).
  assert (Hok1 : pt_ok s1 pt).
  { split; [by eapply step_wf| |by eapply pt_wf_pages_agree].
    apply step_owns, (owns_app _ [f]) in Hf1. tauto. }
  eapply wp_mono; [apply map_spec; [done..|by eapply fresh_ppn|done]| |].
  2: { intros k [(-> & ? & _)|H']; [left|right; by rewrite <-Hl1].
    pose proof (fresh_free _ _ _ H). split; [done|lia]. }
  intros pt' s' [Hnone [Hok' Hroot Hstep Hl Hlen]]. rewrite Hl1 in Hnone. wp_step.
  assert (Hperm1 : f :: frames pt ≡ₚ frames pt ++ [f]) by apply Permutation_cons_append.
  rewrite Hperm1 in Hf1.
  assert (Hstep' : mm_step s1 (frames pt ++ [f]) s' (frames pt' ++ [f]))
    by (apply mm_step_frame; [done|by eapply step_owns]).
  exists [f]. split; simpl; try done.
  - by destruct Hok'.
  - by eapply mm_step_trans.
  - by apply area_frames_insert.
  - intros v Hv. apply lookup_insert_ne. intros <-. by apply Hv, list_elem_of_singleton.
  - intros v ->%list_elem_of_singleton. unfold area_ppn. simpl. rewrite Hty, lookup_insert_eq.
    split; [by eexists|]. intros g [= <-]. split_and!; [done|by apply list_elem_of_singleton|].
    intros x Hx. rewrite <-(fresh_zero _ _ _ H x Hx). symmetry.
    apply (mm_step_frame_agree _ _ _ _ [f] f Hstep); [by eapply step_owns|by apply list_elem_of_singleton|done].
  - intros v Hv. rewrite Hl, Hl1 by done. unfold area_pte, area_ppn. simpl.
    rewrite Hty. destruct (decide (v = vpn)) as [->|Hne].
    + by rewrite decide_True, lookup_insert_eq by (by apply list_elem_of_singleton).
    + by rewrite decide_False by (by rewrite list_elem_of_singleton).
  - intros v ->%list_elem_of_singleton. done.
  - lia.
Qed.

Lemma map_one_spec s a pt vpn :
  pt_ok s pt → is_vpn vpn → is_perm (map_perm a) → data_frames a !! vpn = None →
  wp (MapArea_map_one vpn (a, pt)) (λ r s', ∃ new,
      area_mapped s a pt s' (fst r) (snd r) [vpn] new) (map_one_error s pt vpn) s.
Proof.
  intros. destruct (map_type a) eqn:?; [by apply map_one_identical_spec|by apply map_one_framed_spec].
Qed.

(** ** Mapping a range *)

Definition map_range_error (s : mm) (pt : PageTable) (l : list Z) (k : panic_kind) : Prop :=
  (k = UnwrapNone ∧ (free_frames s < 3 * length l)%nat) ∨
  (k = AssertFailed ∧ ∃ vpn, vpn ∈ l ∧ is_Some (pt_lookup (phys s) pt vpn)).

Lemma area_mapped_free s a pt s' a' pt' l new :
  area_mapped s a pt s' a' pt' l new → (free_frames s ≤ free_frames s' + 3 * length l)%nat.
Proof.
  intros H. pose proof (step_count _ _ _ _ (am_step _ _ _ _ _ _ _ _ H)) as Hc.
  pose proof (am_cost _ _ _ _ _ _ _ _ H). rewrite length_app in Hc. lia.
Qed.

Lemma map_list_spec s a pt l :
  pt_ok s pt → Forall is_vpn l → is_perm (map_perm a) → NoDup l →
  (∀ vpn, vpn ∈ l → data_frames a !! vpn = None) →
  wp (foldM (λ st vpn, MapArea_map_one vpn st) (a, pt) l) (λ r s', ∃ new,
      area_mapped s a pt s' (fst r) (snd r) l new) (map_range_error s pt l) s.
Proof.
  intros Hok Hvpns Hperm Hnd Hnew.
  eapply wp_mono; [apply (wp_foldM _ (λ rest r s', ∃ pre new,
    l = pre ++ rest ∧ area_mapped s a pt s' (fst r) (snd r) pre new)) | |done].
  - exists [], []. split; [done|]. by apply area_mapped_refl.
  - intros vpn rest [a1 pt1] s1 (pre & new & Hl & Hm). simpl in Hm.
    assert (Hin : vpn ∈ l) by (rewrite Hl; apply elem_of_app; right; by left).
    assert (Hpre : vpn ∉ pre).
    { rewrite Hl in Hnd. apply NoDup_app in Hnd as (_ & Hdis & _).
      intros Hp. apply (Hdis _ Hp). by left. }
    assert (Hv : is_vpn vpn) by (by apply (proj1 (Forall_forall _ _) Hvpns)).
    eapply wp_mono; [apply map_one_spec| |].
    + by eapply pt_ok_of_step; [eapply am_step|eapply am_tree].
    + done.
    + by rewrite (am_perm _ _ _ _ _ _ _ _ Hm).
    + rewrite (am_old _ _ _ _ _ _ _ _ Hm) by done. by apply Hnew.
    + intros [a2 pt2] s2 [new2 Hm2]. exists (pre ++ [vpn]), (new2 ++ new).
      split; [by rewrite Hl, <-app_assoc|]. eapply area_mapped_trans; [done..| |].
      * intros v Hp ->%list_elem_of_singleton. done.
      * by intros v ->%list_elem_of_singleton.
    + pose proof (area_mapped_free _ _ _ _ _ _ _ _ Hm).
      intros k [[-> Hfree]|[-> Hs]]; [left|right]; (split; [done|]).
      * rewrite Hl, length_app. simpl. lia.
      * exists vpn. split; [done|]. rewrite (am_lookup _ _ _ _ _ _ _ _ Hm) in Hs by done.
        by rewrite decide_False in Hs.
  - intros r s' (pre & new & Hl & Hm). rewrite app_nil_r in Hl. subst pre. by exists new.
Qed.

(** ** [unmap_one]

    [area_unmapped s a pt s' a' l old]: the pages [l] are no longer mapped and the
    frames [old] the area had for them are free again. *)
Record area_unmapped (s : mm) (a : MapArea) (pt : PageTable)
    (s' : mm) (a' : MapArea) (l : list Z) (old : list Z) : Prop := {
  au_range : vpn_range a' = vpn_range a;
  au_type : map_type a' = map_type a;
  au_perm : map_perm a' = map_perm a;
  au_tree : pt_wf (phys s') pt;
  au_step : mm_step s (frames pt ++ old) s' (frames pt);
  au_frames : area_frames a ≡ₚ old ++ area_frames a';
  au_other vpn : vpn ∉ l → data_frames a' !! vpn = data_frames a !! vpn;
  au_gone vpn : vpn ∈ l → map_type a = Framed → data_frames a' !! vpn = None;
  au_identical : map_type a = Identical → data_frames a' = data_frames a;
  au_lookup vpn : is_vpn vpn →
    pt_lookup (phys s') pt vpn = if decide (vpn ∈ l) then None else pt_lookup (phys s) pt vpn;
}.

Lemma area_unmapped_refl s a pt : pt_ok s pt → area_unmapped s a pt s a [] [].
Proof.
  intros [Hmm Hown Htree]. split; try done.
  - rewrite app_nil_r. by apply mm_step_refl.
  - by intros vpn ?%not_elem_of_nil.
Qed.

Lemma area_unmapped_trans s a pt s1 a1 s2 a2 l1 old1 l2 old2 :
  area_unmapped s a pt s1 a1 l1 old1 → area_unmapped s1 a1 pt s2 a2 l2 old2 →
  owns s (frames pt ++ area_frames a) →
  area_unmapped s a pt s2 a2 (l1 ++ l2) (old1 ++ old2).
Proof.
  intros [Hr1 Ht1 Hp1 Hwf1 Hs1 Hf1 Ho1 Hg1 Hi1 Hl1] [Hr2 Ht2 Hp2 Hwf2 Hs2 Hf2 Ho2 Hg2 Hi2 Hl2] Hown.
  rewrite Hf1, Hf2, !app_assoc in Hown. apply owns_app in Hown as (Hown & _ & _).
  split; [congruence..|done| | | | | |].
  - eapply mm_step_trans; [|done]. rewrite app_assoc. by apply mm_step_frame.
  - by rewrite Hf1, Hf2, app_assoc.
  - intros vpn [H1 H2]%not_elem_of_app. by rewrite Ho2, Ho1.
  - intros vpn Hin Hty. destruct (decide (vpn ∈ l2)); [apply Hg2; congruence|].
    apply elem_of_app in Hin as [H1|?]; [|done]. rewrite Ho2 by done. by apply Hg1.
  - intros Hty. rewrite Hi2 by congruence. by apply Hi1.
  - intros vpn Hv. rewrite Hl2, Hl1 by done.
    destruct (decide (vpn ∈ l2)) as [H2|H2]; [by rewrite decide_True by (apply elem_of_app; auto)|].
    destruct (decide (vpn ∈ l1)) as [H1|H1].
    + by rewrite decide_True by (apply elem_of_app; auto).
    + by rewrite decide_False by (rewrite elem_of_app; tauto).
Qed.

(** The [page_table.unmap(vpn)] that ends [unmap_one], from the state [s1] in
    which the frames [old] have been given back. *)
Lemma unmap_page_spec s a pt vpn s1 a1 old :
  pt_ok s pt → is_vpn vpn → phys s1 = phys s →
  mm_step s (frames pt ++ old) s1 (frames pt) →
  vpn_range a1 = vpn_range a → map_type a1 = map_type a → map_perm a1 = map_perm a →
  area_frames a ≡ₚ old ++ area_frames a1 →
  (∀ v, v ≠ vpn → data_frames a1 !! v = data_frames a !! v) →
  (map_type a = Framed → data_frames a1 !! vpn = None) →
  (map_type a = Identical → data_frames a1 = data_frames a) →
  wp (PageTable_unmap pt vpn) (λ pt' s', pt' = pt ∧ is_Some (pt_lookup (phys s) pt vpn) ∧
      area_unmapped s a pt s' a1 [vpn] old)
    (λ _, pt_lookup (phys s) pt vpn = None) s1.
Proof.
  intros [Hmm Hown Htree] Hvpn Hphys Hstep Hr Ht Hp Hfr Hoth Hgone Hid.
  assert (Hok1 : pt_ok s1 pt).
  { split; [by eapply step_wf|by eapply step_owns|by rewrite Hphys]. }
  eapply wp_mono; [by apply unmap_spec| |].
  - intros pt' s' (Hs & -> & Hfa & [Hok' _ Hstep' Hl _]). rewrite Hphys in Hs, Hl.
    split_and!; [done..|]. split; try done.
    + by destruct Hok'.
    + by eapply mm_step_trans.
    + intros v Hv. apply Hoth. intros ->. by apply Hv, list_elem_of_singleton.
    + by intros v ->%list_elem_of_singleton.
    + intros v Hv. rewrite Hl by done. destruct (decide (v = vpn)) as [->|Hne].
      * by rewrite decide_True by (by apply list_elem_of_singleton).
      * by rewrite decide_False by (by rewrite list_elem_of_singleton).
  - intros k [Hn _]. by rewrite Hphys in Hn.
Qed.

Lemma unmap_one_spec s a pt vpn :
  pt_ok s pt → owns s (frames pt ++ area_frames a) → is_vpn vpn →
  wp (MapArea_unmap_one vpn (a, pt)) (λ r s', ∃ old, snd r = pt ∧
      is_Some (pt_lookup (phys s) pt vpn) ∧ area_unmapped s a pt s' (fst r) [vpn] old)
    (λ _, pt_lookup (phys s) pt vpn = None) s.
Proof.
  intros Hok Hown Hvpn. unfold MapArea_unmap_one.
  destruct (map_type a) eqn:Hty; wp_step.
  - repeat wp_step. eapply wp_mono; [eapply (unmap_page_spec s a pt vpn s a []); try done| |done].
    + rewrite app_nil_r. by apply mm_step_refl; destruct Hok.
    + by rewrite Hty.
    + intros pt' s' (-> & Hs & Hu). wp_step. by exists [].
  - set (a1 := set_data_frames (delete vpn (data_frames a)) a).
    assert (Hoth : ∀ v, v ≠ vpn → data_frames a1 !! v = data_frames a !! v)
      by (intros v Hv; by apply lookup_delete_ne).
    assert (Hgone : map_type a = Framed → data_frames a1 !! vpn = None)
      by (intros _; apply lookup_delete_eq).
    assert (Hid : map_type a = Identical → data_frames a1 = data_frames a) by congruence.
    wp_step. destruct (data_frames a !! vpn) as [f|] eqn:Hf; simpl option_drop.
    + pose proof (area_frames_delete _ _ _ Hf) as Hfr.
      eapply wp_mono; [apply (mm_step_dealloc s (frames pt)); [apply Hok|]| |done].
      { unfold area_frames in Hown. rewrite Hfr, <-Permutation_middle, app_comm_cons in Hown.
        apply owns_app in Hown. tauto. }
      intros [] s1 [Hphys Hstep]. repeat wp_step.
      eapply wp_mono; [eapply (unmap_page_spec s a pt vpn s1 a1 [f]); try done| |done].
      * by rewrite <-Permutation_cons_append.
      * intros pt' s' (-> & Hs & Hu). wp_step. by exists [f].
    + repeat wp_step. eapply wp_mono; [eapply (unmap_page_spec s a pt vpn s a1 []); try done| |done].
      * rewrite app_nil_r. by apply mm_step_refl; destruct Hok.
      * unfold area_frames, a1. simpl. by rewrite delete_id.
      * intros pt' s' (-> & Hs & Hu). wp_step. by exists [].
Qed.

Lemma area_unmapped_owns s a pt s' a' l old :
  area_unmapped s a pt s' a' l old → owns s (frames pt ++ area_frames a) →
  pt_ok s' pt ∧ owns s' (frames pt ++ area_frames a').
Proof.
  intros [_ _ _ Hwf Hs Hf _ _ _ _] Hown. split.
  { split; [by eapply step_wf|by eapply step_owns|done]. }
  rewrite Hf, app_assoc in Hown. by eapply step_owns, mm_step_frame.
Qed.

(** ** Unmapping a range *)

Lemma unmap_list_spec s a pt l :
  pt_ok s pt → owns s (frames pt ++ area_frames a) → Forall is_vpn l → NoDup l →
  (∀ vpn, vpn ∈ l → is_Some (pt_lookup (phys s) pt vpn)) →
  wp (foldM (λ st vpn, MapArea_unmap_one vpn st) (a, pt) l) (λ r s', ∃ old,
      snd r = pt ∧ area_unmapped s a pt s' (fst r) l old) no_panic s.
Proof.
  intros Hok Hown Hvpns Hnd Hmapped.
  eapply wp_mono; [apply (wp_foldM _ (λ rest r s', ∃ pre old,
    l = pre ++ rest ∧ snd r = pt ∧ area_unmapped s a pt s' (fst r) pre old)) | |done].
  - exists [], []. split_and!; [done..|]. by apply area_unmapped_refl.
  - intros vpn rest [a1 pt1] s1 (pre & old & Hl & Hpt1 & Hu). simpl in Hpt1, Hu. subst pt1.
    assert (Hin : vpn ∈ l) by (rewrite Hl; apply elem_of_app; right; by left).
    assert (Hpre : vpn ∉ pre).
    { rewrite Hl in Hnd. apply NoDup_app in Hnd as (_ & Hdis & _).
      intros Hp. apply (Hdis _ Hp). by left. }
    assert (Hv : is_vpn vpn) by (by apply (proj1 (Forall_forall _ _) Hvpns)).
    destruct (area_unmapped_owns _ _ _ _ _ _ _ Hu Hown) as [Hok1 Hown1].
    eapply wp_mono; [by apply unmap_one_spec| |].
    + intros [a2 pt2] s2 (old2 & Hpt2 & _ & Hu2). exists (pre ++ [vpn]), (old ++ old2).
      split_and!; [by rewrite Hl, <-app_assoc|done|]. by eapply area_unmapped_trans.
    + intros k Hn. rewrite (au_lookup _ _ _ _ _ _ _ Hu), decide_False in Hn by done.
      destruct (Hmapped vpn Hin). congruence.
  - intros r s' (pre & old & Hl & Hpt & Hu). rewrite app_nil_r in Hl. subst pre. by exists old.
Qed.
