(* ===== verification/MemorySetSpec.v ===== *)
(** * The invariant of an address space and what preserves it

    [ms_ok s pt al X] says that the areas [al] and the page table [pt] of an
    address space fit together: every page of an area, and besides these only the
    pages of [X] (the trampoline), is mapped, with the frame and the permissions
    the area records; areas do not overlap; every frame is owned once.  It does
    not depend on the order of the areas. *)
From S2P Require Import Prelude Config Machine Address FrameAllocator Ownership.
From S2P Require Import PageTable PageTree PageTableSpec MemorySet MapAreaSpec.

Record area_wf (a : MapArea) : Prop := {
  area_bounds : 0 ≤ range_l (vpn_range a) ≤ range_r (vpn_range a) ∧ range_r (vpn_range a) ≤ 2 ^ 27;
  area_perm : is_perm (map_perm a);
  area_dom vpn : is_Some (data_frames a !! vpn) ↔
    map_type a = Framed ∧ vpn ∈ vpns (vpn_range a);
}.

Definition areas_frames (al : list MapArea) : list Z := al ≫= area_frames.
Definition areas_vpns (al : list MapArea) : list Z := al ≫= (λ a, vpns (vpn_range a)).

Record ms_ok (s : mm) (pt : PageTable) (al : list MapArea) (X : gmap Z Z) : Prop := {
  ms_mm : mm_wf s;
  ms_owns : owns s (frames pt ++ areas_frames al);
  ms_tree : pt_wf (phys s) pt;
  ms_areas a : a ∈ al → area_wf a;
  ms_disjoint : NoDup (areas_vpns al);
  ms_extra vpn : is_Some (X !! vpn) → vpn ∉ areas_vpns al;
  ms_lookup_area a vpn : a ∈ al → vpn ∈ vpns (vpn_range a) →
    pt_lookup (phys s) pt vpn = area_pte a vpn;
  ms_lookup_other vpn : is_vpn vpn → vpn ∉ areas_vpns al → pt_lookup (phys s) pt vpn = X !! vpn;
}.

(** The frames of a whole address space. *)
Definition ms_frames (ms : MemorySet) : list Z :=
  frames (page_table ms) ++ areas_frames (areas ms).
Definition MemorySet_ok (s : mm) (ms : MemorySet) (X : gmap Z Z) : Prop :=
  ms_ok s (page_table ms) (areas ms) X.

#[global] Instance areas_frames_proper : Proper ((≡ₚ) ==> (≡ₚ)) areas_frames.
Proof. intros l1 l2 Hl. unfold areas_frames. by rewrite Hl. Qed.
#[global] Instance areas_vpns_proper : Proper ((≡ₚ) ==> (≡ₚ)) areas_vpns.
Proof. intros l1 l2 Hl. unfold areas_vpns. by rewrite Hl. Qed.

Lemma ms_ok_perm_impl s pt al al' X : al ≡ₚ al' → ms_ok s pt al X → ms_ok s pt al' X.
Proof.
  intros Hal [Hmm Hown Htree Har Hdis Hex Hla Hlo]. split; try done.
  - by rewrite <-Hal.
  - intros a. rewrite <-Hal. apply Har.
  - by rewrite <-Hal.
  - intros vpn. rewrite <-Hal. apply Hex.
  - intros a vpn. rewrite <-Hal. apply Hla.
  - intros vpn. rewrite <-Hal. apply Hlo.
Qed.

#[global] Instance ms_ok_proper s pt : Proper ((≡ₚ) ==> (=) ==> iff) (ms_ok s pt).
Proof. intros l1 l2 Hl X ? <-. split; apply ms_ok_perm_impl; by try symmetry. Qed.

Lemma elem_of_areas_vpns al vpn :
  vpn ∈ areas_vpns al ↔ ∃ a, a ∈ al ∧ vpn ∈ vpns (vpn_range a).
Proof. unfold areas_vpns. rewrite list_elem_of_bind. naive_solver. Qed.

Lemma elem_of_areas_frames al f :
  f ∈ areas_frames al ↔ ∃ a, a ∈ al ∧ f ∈ area_frames a.
Proof. unfold areas_frames. rewrite list_elem_of_bind. naive_solver. Qed.

Lemma elem_of_area_frames a f : f ∈ area_frames a ↔ ∃ vpn, data_frames a !! vpn = Some f.
Proof.
  unfold area_frames. rewrite list_elem_of_fmap. split.
  - intros ([vpn f'] & -> & H%elem_of_map_to_list). eauto.
  - intros [vpn H]. exists (vpn, f). by rewrite elem_of_map_to_list.
Qed.

Lemma areas_vpns_is_vpn s pt al X vpn : ms_ok s pt al X → vpn ∈ areas_vpns al → is_vpn vpn.
Proof.
  intros Hok (a & Ha & Hv)%elem_of_areas_vpns. apply (ms_areas _ _ _ _ Hok) in Ha as [Hb _ _].
  apply elem_of_vpns in Hv. unfold is_vpn. lia.
Qed.

Lemma area_wf_vpns a : area_wf a → Forall is_vpn (vpns (vpn_range a)).
Proof.
  intros [Hb _ _]. apply Forall_forall. intros v Hv%elem_of_vpns. unfold is_vpn. lia.
Qed.

Lemma ms_ok_pt_ok s pt al X : ms_ok s pt al X → pt_ok s pt.
Proof.
  intros [Hmm Hown Htree _ _ _ _ _]. split; [done| |done]. apply owns_app in Hown. tauto.
Qed.

(** Every page of an area has its frame and its entry. *)
Lemma area_wf_ppn a vpn : area_wf a → vpn ∈ vpns (vpn_range a) → is_Some (area_ppn a vpn).
Proof.
  intros [_ _ Hdom] Hv. unfold area_ppn. destruct (map_type a) eqn:Ht; [by eexists|].
  apply Hdom. by split.
Qed.

Lemma area_pte_is_Some a vpn : is_Some (area_pte a vpn) ↔ is_Some (area_ppn a vpn).
Proof. unfold area_pte. by rewrite fmap_is_Some. Qed.

Lemma ms_ok_mapped s pt al X vpn :
  ms_ok s pt al X → vpn ∈ areas_vpns al → is_Some (pt_lookup (phys s) pt vpn).
Proof.
  intros Hok (a & Ha & Hv)%elem_of_areas_vpns. rewrite (ms_lookup_area _ _ _ _ Hok a) by done.
  apply area_pte_is_Some, area_wf_ppn; [|done]. by apply (ms_areas _ _ _ _ Hok).
Qed.

(** An area without pages makes no difference. *)
Lemma ms_ok_empty_area s pt a al X :
  range_l (vpn_range a) = range_r (vpn_range a) → data_frames a = ∅ → area_wf a →
  ms_ok s pt (a :: al) X ↔ ms_ok s pt al X.
Proof.
  intros Hr Hd Ha.
  assert (Hv : vpns (vpn_range a) = []) by (unfold vpns; rewrite Hr, Z.sub_diag; done).
  assert (Hf : area_frames a = []) by (unfold area_frames; by rewrite Hd, map_to_list_empty).
  assert (Hfs : areas_frames (a :: al) = areas_frames al)
    by (unfold areas_frames; simpl; by rewrite Hf).
  assert (Hvs : areas_vpns (a :: al) = areas_vpns al)
    by (unfold areas_vpns; simpl; by rewrite Hv).
  split; intros [Hmm Hown Htree Har Hdis Hex Hla Hlo]; split; rewrite ?Hfs, ?Hvs in *; try done.
  - intros b Hb. apply Har. by right.
  - intros b v Hb. apply Hla. by right.
  - intros b [->|Hb]%elem_of_cons; [done|by apply Har].
  - intros b v [->|Hb]%elem_of_cons; [|by apply Hla].
    rewrite Hv. by intros ?%not_elem_of_nil.
Qed.

(** The mapping seen from outside depends on nothing else in memory. *)
Lemma ms_ok_agree s s' pt al X :
  ms_ok s pt al X → mm_wf s' → owns s' (frames pt ++ areas_frames al) →
  (∀ f, f ∈ frames pt → page_agree (phys s) (phys s') f) → ms_ok s' pt al X.
Proof.
  intros [Hmm Hown Htree Har Hdis Hex Hla Hlo] Hmm' Hown' Hag.
  assert (Hl : ∀ v, pt_lookup (phys s') pt v = pt_lookup (phys s) pt v)
    by (intros v; by apply pt_lookup_pages_agree).
  split; try done.
  - by eapply pt_wf_pages_agree.
  - intros a v. rewrite Hl. apply Hla.
  - intros v. rewrite Hl. apply Hlo.
Qed.

(** ** Adding pages to an area *)

Lemma areas_frames_cons a al : areas_frames (a :: al) = area_frames a ++ areas_frames al.
Proof. done. Qed.
Lemma areas_frames_app al al' : areas_frames (al ++ al') = areas_frames al ++ areas_frames al'.
Proof. unfold areas_frames. apply bind_app. Qed.
Lemma areas_vpns_app al al' : areas_vpns (al ++ al') = areas_vpns al ++ areas_vpns al'.
Proof. unfold areas_vpns. apply bind_app. Qed.
Lemma areas_vpns_cons a al : areas_vpns (a :: al) = vpns (vpn_range a) ++ areas_vpns al.
Proof. done. Qed.

Section Grow.
Context (s s' : mm) (pt pt' : PageTable) (a a' : MapArea) (al : list MapArea) (X : gmap Z Z).
Context (l new : list Z) (r' : SimpleRange).
Context (Hok : ms_ok s pt (a :: al) X).
Context (Hm : area_mapped s a pt s' a' pt' l new).
Context (Hr' : 0 ≤ range_l r' ≤ range_r r' ∧ range_r r' ≤ 2 ^ 27).
Context (Hvpns : vpns r' = vpns (vpn_range a) ++ l).

Let a2 := set_vpn_range r' a'.

Lemma grow_vpn v : v ∈ l → is_vpn v ∧ (v ∉ areas_vpns (a :: al)) ∧ X !! v = None.
Proof.
  intros Hv.
  assert (is_vpn v).
  { assert (Hin : v ∈ vpns r') by (rewrite Hvpns; apply elem_of_app; by right).
    apply elem_of_vpns in Hin. unfold is_vpn. lia. }
  pose proof (am_unmapped _ _ _ _ _ _ _ _ Hm v Hv) as Hn.
  assert (v ∉ areas_vpns (a :: al)).
  { intros Hin. destruct (ms_ok_mapped _ _ _ _ _ Hok Hin). congruence. }
  split_and!; [done..|]. by rewrite <-(ms_lookup_other _ _ _ _ Hok).
Qed.

Lemma grow_step :
  mm_step s (frames pt ++ areas_frames (a :: al)) s' (frames pt' ++ areas_frames (a2 :: al)).
Proof.
  pose proof (mm_step_frame _ _ _ _ _ (am_step _ _ _ _ _ _ _ _ Hm) (ms_owns _ _ _ _ Hok)) as H.
  eapply mm_step_perm_impl; [done| |exact H].
  rewrite !areas_frames_cons. change (area_frames a2) with (area_frames a').
  by rewrite (am_new _ _ _ _ _ _ _ _ Hm), !app_assoc.
Qed.

Lemma grow_contents f : f ∈ areas_frames (a :: al) → page_agree (phys s) (phys s') f.
Proof.
  apply (mm_step_frame_agree _ _ _ _ _ f (am_step _ _ _ _ _ _ _ _ Hm) (ms_owns _ _ _ _ Hok)).
Qed.

Lemma grow_area_wf : area_wf a2.
Proof.
  pose proof (ms_areas _ _ _ _ Hok a (list_elem_of_here _ _)) as [Hb Hp Hdom].
  split; simpl; [done|by rewrite (am_perm _ _ _ _ _ _ _ _ Hm)|].
  intros v. rewrite Hvpns, elem_of_app, (am_type _ _ _ _ _ _ _ _ Hm).
  destruct (decide (v ∈ l)) as [Hv|Hv].
  - destruct (am_data _ _ _ _ _ _ _ _ Hm v Hv) as [Hs Hf]. split.
    + intros [f Hf']. destruct (Hf f Hf') as [? _]. auto.
    + intros [Ht _]. unfold area_ppn in Hs. by rewrite (am_type _ _ _ _ _ _ _ _ Hm), Ht in Hs.
  - rewrite (am_old _ _ _ _ _ _ _ _ Hm) by done. rewrite Hdom. tauto.
Qed.

Lemma grow_areas_vpns : areas_vpns (a2 :: al) ≡ₚ l ++ areas_vpns (a :: al).
Proof.
  rewrite !areas_vpns_cons. simpl. rewrite Hvpns, app_assoc.
  by rewrite (Permutation_app_comm (vpns _)).
Qed.

Lemma grow_lookup v :
  is_vpn v → pt_lookup (phys s') pt' v =
    if decide (v ∈ l) then area_pte a2 v else pt_lookup (phys s) pt v.
Proof. apply (am_lookup _ _ _ _ _ _ _ _ Hm). Qed.

Lemma ms_ok_grow : ms_ok s' pt' (a2 :: al) X.
Proof.
  assert (Hnd : NoDup (vpns r')) by apply vpns_NoDup.
  rewrite Hvpns in Hnd. apply NoDup_app in Hnd as (_ & Hdis & Hnd).
  split.
  - by eapply step_wf, grow_step.
  - by eapply step_owns, grow_step.
  - by eapply am_tree.
  - intros b [->|Hb]%elem_of_cons; [apply grow_area_wf|].
    apply (ms_areas _ _ _ _ Hok). by right.
  - rewrite grow_areas_vpns. apply NoDup_app. split_and!; [done| |by eapply ms_disjoint].
    intros v Hv. by apply grow_vpn.
  - intros v Hv. rewrite grow_areas_vpns. apply not_elem_of_app. split.
    + intros Hl%grow_vpn. destruct Hv. naive_solver.
    + by eapply ms_extra.
  - intros b v Hb Hv.
    assert (Hin : v ∈ areas_vpns (a2 :: al)) by (apply elem_of_areas_vpns; eauto).
    rewrite grow_areas_vpns in Hin.
    assert (is_vpn v).
    { apply elem_of_app in Hin as [Hl%grow_vpn|Hl]; [tauto|by eapply areas_vpns_is_vpn]. }
    rewrite grow_lookup by done. apply elem_of_cons in Hb as [->|Hb].
    + simpl in Hv. rewrite Hvpns, elem_of_app in Hv. case_decide as Hl; [done|].
      rewrite (ms_lookup_area _ _ _ _ Hok a) by (by left || tauto). symmetry. apply area_pte_eq;
        [apply (am_type _ _ _ _ _ _ _ _ Hm)|apply (am_perm _ _ _ _ _ _ _ _ Hm)|].
      by apply (am_old _ _ _ _ _ _ _ _ Hm).
    + rewrite decide_False; [by apply (ms_lookup_area _ _ _ _ Hok); [right|]|].
      intros Hl. apply grow_vpn in Hl as (_ & Hl & _). apply Hl, elem_of_areas_vpns.
      exists b. split; [by right|done].
  - intros v Hv. rewrite grow_areas_vpns. intros [Hl Ho]%not_elem_of_app.
    rewrite grow_lookup, decide_False by done. by apply (ms_lookup_other _ _ _ _ Hok).
Qed.

End Grow.

(** ** Removing pages from an area *)

Section Shrink.
Context (s s' : mm) (pt : PageTable) (a a' : MapArea) (al : list MapArea) (X : gmap Z Z).
Context (l old : list Z) (r' : SimpleRange).
Context (Hok : ms_ok s pt (a :: al) X).
Context (Hu : area_unmapped s a pt s' a' l old).
Context (Hr' : 0 ≤ range_l r' ≤ range_r r' ∧ range_r r' ≤ 2 ^ 27).
Context (Hvpns : vpns (vpn_range a) ≡ₚ vpns r' ++ l).

Let a2 := set_vpn_range r' a'.

Lemma shrink_vpn v : v ∈ l → is_vpn v ∧ (v ∉ vpns r') ∧ (v ∉ areas_vpns al).
Proof.
  intros Hv. pose proof (ms_disjoint _ _ _ _ Hok) as Hnd.
  rewrite areas_vpns_cons, Hvpns in Hnd. apply NoDup_app in Hnd as (Hnd & Hdis & _).
  apply NoDup_app in Hnd as (_ & Hdis' & _). split_and!.
  - eapply areas_vpns_is_vpn; [done|]. rewrite areas_vpns_cons, Hvpns, !elem_of_app. auto.
  - intros Hr. by apply (Hdis' v).
  - apply Hdis. apply elem_of_app. by right.
Qed.

Lemma shrink_step :
  mm_step s (frames pt ++ areas_frames (a :: al)) s' (frames pt ++ areas_frames (a2 :: al)).
Proof.
  pose proof (ms_owns _ _ _ _ Hok) as Hown.
  rewrite areas_frames_cons, (au_frames _ _ _ _ _ _ _ Hu), <-!app_assoc, app_assoc in Hown.
  pose proof (mm_step_frame _ _ _ _ _ (au_step _ _ _ _ _ _ _ Hu) Hown) as H.
  eapply mm_step_perm_impl; [|done|exact H].
  by rewrite areas_frames_cons, (au_frames _ _ _ _ _ _ _ Hu), <-!app_assoc.
Qed.

Lemma shrink_contents f : f ∈ areas_frames (a2 :: al) → page_agree (phys s) (phys s') f.
Proof.
  pose proof (ms_owns _ _ _ _ Hok) as Hown.
  rewrite areas_frames_cons, (au_frames _ _ _ _ _ _ _ Hu), <-!app_assoc, app_assoc in Hown.
  apply (mm_step_frame_agree _ _ _ _ _ f (au_step _ _ _ _ _ _ _ Hu) Hown).
Qed.

Lemma shrink_area_wf : area_wf a2.
Proof.
  pose proof (ms_areas _ _ _ _ Hok a (list_elem_of_here _ _)) as [Hb Hp Hdom].
  split; simpl; [done|by rewrite (au_perm _ _ _ _ _ _ _ Hu)|].
  intros v. rewrite (au_type _ _ _ _ _ _ _ Hu).
  destruct (decide (v ∈ l)) as [Hv|Hv].
  - pose proof (shrink_vpn v Hv) as (_ & Hr & _). destruct (map_type a) eqn:Ht.
    + rewrite (au_identical _ _ _ _ _ _ _ Hu Ht), Hdom. naive_solver.
    + rewrite (au_gone _ _ _ _ _ _ _ Hu v Hv Ht). split; [by intros []|tauto].
  - rewrite (au_other _ _ _ _ _ _ _ Hu) by done. rewrite Hdom, Hvpns, elem_of_app. tauto.
Qed.

Lemma shrink_areas_vpns : areas_vpns (a :: al) ≡ₚ l ++ areas_vpns (a2 :: al).
Proof.
  rewrite !areas_vpns_cons. simpl. rewrite Hvpns, app_assoc.
  by rewrite (Permutation_app_comm (vpns _)).
Qed.

Lemma ms_ok_shrink : ms_ok s' pt (a2 :: al) X.
Proof.
  pose proof (ms_disjoint _ _ _ _ Hok) as Hnd. rewrite shrink_areas_vpns in Hnd.
  apply NoDup_app in Hnd as (_ & Hdis & Hnd).
  split; [by eapply step_wf, shrink_step|by eapply step_owns, shrink_step|by eapply au_tree| |done|..].
  - intros b [->|Hb]%elem_of_cons; [apply shrink_area_wf|].
    apply (ms_areas _ _ _ _ Hok). by right.
  - intros v Hv Hin. apply (ms_extra _ _ _ _ Hok v Hv).
    rewrite shrink_areas_vpns. apply elem_of_app. by right.
  - intros b v Hb Hv.
    assert (Hin : v ∈ areas_vpns (a2 :: al)) by (apply elem_of_areas_vpns; eauto).
    assert (Hl : v ∉ l) by (intros Hl; by apply (Hdis v)).
    assert (is_vpn v).
    { eapply areas_vpns_is_vpn; [done|]. rewrite shrink_areas_vpns. apply elem_of_app. by right. }
    rewrite (au_lookup _ _ _ _ _ _ _ Hu), decide_False by done.
    apply elem_of_cons in Hb as [->|Hb].
    + simpl in Hv. rewrite (ms_lookup_area _ _ _ _ Hok a); [|by left|].
      * symmetry. apply area_pte_eq;
          [apply (au_type _ _ _ _ _ _ _ Hu)|apply (au_perm _ _ _ _ _ _ _ Hu)|].
        by apply (au_other _ _ _ _ _ _ _ Hu).
      * rewrite Hvpns. apply elem_of_app. by left.
    + by apply (ms_lookup_area _ _ _ _ Hok); [right|].
  - intros v Hv Ho. rewrite (au_lookup _ _ _ _ _ _ _ Hu) by done. case_decide as Hl.
    + destruct (X !! v) eqn:HX; [|done].
      destruct (ms_extra _ _ _ _ Hok v); [by eexists|].
      rewrite shrink_areas_vpns. apply elem_of_app. by left.
    + apply (ms_lookup_other _ _ _ _ Hok); [done|]. rewrite shrink_areas_vpns.
      by apply not_elem_of_app.
Qed.

End Shrink.

(** ** Operations

    [ms_step s ms s' ms' X]: the operation took the address space [ms] to [ms'],
    keeping the invariant and touching no frame that is not its own. *)
Record ms_step (s : mm) (ms : MemorySet) (s' : mm) (ms' : MemorySet) (X : gmap Z Z) : Prop := {
  mss_ok : MemorySet_ok s' ms' X;
  mss_step : mm_step s (ms_frames ms) s' (ms_frames ms');
  mss_root : root_ppn (page_table ms') = root_ppn (page_table ms);
}.

(** An area as [MapArea::new] makes it. *)
Record area_fresh (a : MapArea) : Prop := {
  fresh_bounds : 0 ≤ range_l (vpn_range a) ≤ range_r (vpn_range a) ∧ range_r (vpn_range a) ≤ 2 ^ 27;
  fresh_perm : is_perm (map_perm a);
  fresh_data : data_frames a = ∅;
}.

Lemma area_mapped_set_range s a pt s' a' pt' l new r :
  area_mapped s a pt s' a' pt' l new →
  area_mapped s (set_vpn_range r a) pt s' (set_vpn_range r a') pt' l new.
Proof. intros []. by split. Qed.

Lemma set_vpn_range_id a : set_vpn_range (vpn_range a) a = a.
Proof. by destruct a. Qed.

(** The post-condition of [push]: [a'] is the area as it is stored. *)
Record pushed (s : mm) (ms : MemorySet) (a : MapArea) (s' : mm) (ms' : MemorySet)
    (a' : MapArea) (X : gmap Z Z) : Prop := {
  pushed_areas : areas ms' = areas ms ++ [a'];
  pushed_range : vpn_range a' = vpn_range a;
  pushed_type : map_type a' = map_type a;
  pushed_perm : map_perm a' = map_perm a;
  pushed_step : ms_step s ms s' ms' X;
  pushed_zero f : f ∈ area_frames a' → page_zero (phys s') f;
  pushed_old f : f ∈ areas_frames (areas ms) → page_agree (phys s) (phys s') f;
  pushed_cost : (free_frames s ≤ free_frames s' + 3 * length (vpns (vpn_range a)))%nat;
}.

Lemma push_none_spec s ms a X :
  MemorySet_ok s ms X → area_fresh a →
  wp (MemorySet_push ms a None) (λ ms' s', ∃ a', pushed s ms a s' ms' a' X)
    (map_range_error s (page_table ms) (vpns (vpn_range a))) s.
Proof.
  intros Hok [Hb Hp Hd]. unfold MemorySet_push, MapArea_map, map_range.
  eapply wp_call; [apply map_list_spec| |].
  - by eapply ms_ok_pt_ok.
  - apply Forall_forall. intros v Hv%elem_of_vpns. unfold is_vpn. lia.
  - done.
  - apply vpns_NoDup.
  - intros v _. by rewrite Hd.
  - done.
  - intros [a' pt'] s' [new Hm]. simpl in Hm. do 3 wp_step. exists a'.
    set (e := {| range_l := range_l (vpn_range a); range_r := range_l (vpn_range a) |}).
    assert (Hve : vpns e = []) by (unfold vpns; simpl; by rewrite Z.sub_diag).
    assert (Hok0 : ms_ok s (page_table ms) (set_vpn_range e a :: areas ms) X).
    { apply ms_ok_empty_area; [done|done| |done]. split; simpl; [lia|done|].
      intros v. rewrite Hd, lookup_empty, Hve. split; [by intros []|].
      by intros [_ ?%not_elem_of_nil]. }
    pose proof (area_mapped_set_range _ _ _ _ _ _ _ _ e Hm) as Hm0.
    assert (Ha' : set_vpn_range (vpn_range a) (set_vpn_range e a') = a').
    { rewrite <-(am_range _ _ _ _ _ _ _ _ Hm). by destruct a'. }
    assert (Hv0 : vpns (vpn_range a) = vpns (vpn_range (set_vpn_range e a)) ++ vpns (vpn_range a))
      by (simpl; by rewrite Hve).
    pose proof (ms_ok_grow _ _ _ _ _ _ _ _ _ _ _ Hok0 Hm0 Hb Hv0) as Hgok.
    pose proof (grow_step _ _ _ _ _ _ _ _ _ _ (vpn_range a) Hok0 Hm0) as Hgst.
    pose proof (grow_contents _ _ _ _ _ _ _ _ _ _ Hok0 Hm0) as Hgct.
    rewrite Ha' in Hgok, Hgst.
    assert (Hf0 : areas_frames (set_vpn_range e a :: areas ms) = areas_frames (areas ms)).
    { rewrite areas_frames_cons. unfold area_frames. simpl. by rewrite Hd, map_to_list_empty. }
    rewrite Hf0 in Hgst, Hgct. rewrite Permutation_cons_append in Hgok.
    split; [done|by eapply am_range|by eapply am_type|by eapply am_perm| | |done|by eapply area_mapped_free].
    + split; [done| |by eapply am_root]. unfold ms_frames. simpl.
      eapply mm_step_perm_impl; [done| |exact Hgst].
      by rewrite (Permutation_cons_append (areas ms)).
    + intros f [v Hv]%elem_of_area_frames. destruct (decide (v ∈ vpns (vpn_range a))) as [Hin|Hin].
      * destruct (am_data _ _ _ _ _ _ _ _ Hm v Hin) as [_ Hz]. by apply (Hz f).
      * rewrite (am_old _ _ _ _ _ _ _ _ Hm), Hd in Hv by done. done.
Qed.

Lemma MapArea_new_spec {S} start_va end_va ty perm (s : S) :
  0 ≤ start_va → 0 ≤ end_va ≤ 2 ^ 39 → is_perm perm →
  wp (MapArea_new start_va end_va ty perm) (λ a s', s' = s ∧ area_fresh a ∧
      range_l (vpn_range a) = start_va / 4096 ∧ range_r (vpn_range a) = (end_va + 4095) / 4096 ∧
      map_type a = ty ∧ map_perm a = perm)
    (λ k, k = AssertFailed ∧ (end_va + 4095) / 4096 < start_va / 4096) s.
Proof.
  intros Hs He Hp. unfold MapArea_new, SimpleRange_new. rewrite VirtAddr_ceil_eq by lia.
  change (VirtAddr_floor start_va) with (start_va / 4096).
  do 2 wp_step. apply wp_assert; intros H; [|by apply Z.leb_gt in H].
  apply Z.leb_le in H. do 2 wp_step. simpl. split_and!; try done.
  split; simpl; [|done..]. split; [zsolve|]. zsolve.
Qed.

(** ** Removing whole areas *)

Lemma btree_values_perm d : btree_values d ≡ₚ (map_to_list d).*2.
Proof. unfold btree_values. by rewrite merge_sort_Permutation. Qed.

Lemma MapArea_drop_empty a : data_frames a = ∅ → MapArea_drop a = mret tt.
Proof.
  intros Hd. unfold MapArea_drop.
  assert (btree_values (data_frames a) = []) as ->; [|done].
  apply Permutation_nil_r. by rewrite btree_values_perm, Hd, map_to_list_empty.
Qed.

(** [area.unmap(page_table)] on an area of the address space. *)
Record unmapped_area (s : mm) (pt : PageTable) (a : MapArea) (al : list MapArea)
    (s' : mm) (X : gmap Z Z) : Prop := {
  ua_ok : ms_ok s' pt al X;
  ua_step : mm_step s (frames pt ++ areas_frames (a :: al)) s' (frames pt ++ areas_frames al);
  ua_contents f : f ∈ areas_frames al → page_agree (phys s) (phys s') f;
  ua_lookup vpn : is_vpn vpn → pt_lookup (phys s') pt vpn =
    if decide (vpn ∈ vpns (vpn_range a)) then None else pt_lookup (phys s) pt vpn;
}.

Lemma unmap_all_data s a pt s' a' old :
  area_wf a → area_unmapped s a pt s' a' (vpns (vpn_range a)) old → data_frames a' = ∅.
Proof.
  intros [_ _ Hdom] Hu. apply map_eq. intros v. rewrite lookup_empty.
  destruct (map_type a) eqn:Ht.
  - rewrite (au_identical _ _ _ _ _ _ _ Hu Ht).
    destruct (data_frames a !! v) eqn:Hv; [|done].
    assert (is_Some (data_frames a !! v)) as [? _]%Hdom by eauto. congruence.
  - destruct (decide (v ∈ vpns (vpn_range a))) as [Hin|Hin]; [by eapply au_gone|].
    rewrite (au_other _ _ _ _ _ _ _ Hu) by done.
    destruct (data_frames a !! v) eqn:Hv; [|done].
    assert (is_Some (data_frames a !! v)) as [_ ?]%Hdom by eauto. done.
Qed.

Lemma MapArea_unmap_spec s pt a al X :
  ms_ok s pt (a :: al) X →
  wp (MapArea_unmap a pt) (λ r s', snd r = pt ∧ data_frames (fst r) = ∅ ∧
      unmapped_area s pt a al s' X) no_panic s.
Proof.
  intros Hok. unfold MapArea_unmap, unmap_range.
  pose proof (ms_areas _ _ _ _ Hok a (list_elem_of_here _ _)) as Hwf.
  eapply wp_mono; [apply unmap_list_spec| |done].
  - by eapply ms_ok_pt_ok.
  - pose proof (ms_owns _ _ _ _ Hok) as Hown. rewrite areas_frames_cons, app_assoc in Hown.
    apply owns_app in Hown. tauto.
  - by apply area_wf_vpns.
  - apply vpns_NoDup.
  - intros v Hv. eapply ms_ok_mapped; [done|]. rewrite areas_vpns_cons. apply elem_of_app. by left.
  - intros [a' pt'] s' (old & Hpt & Hu). simpl in Hpt, Hu. subst pt'.
    pose proof (unmap_all_data _ _ _ _ _ _ Hwf Hu) as Hd. split_and!; [done..|].
    set (e := {| range_l := range_l (vpn_range a); range_r := range_l (vpn_range a) |}).
    assert (Hve : vpns e = []) by (unfold vpns; simpl; by rewrite Z.sub_diag).
    assert (He : 0 ≤ range_l e ≤ range_r e ∧ range_r e ≤ 2 ^ 27).
    { destruct (area_bounds _ Hwf). simpl. lia. }
    assert (Hv0 : vpns (vpn_range a) ≡ₚ vpns e ++ vpns (vpn_range a)) by (by rewrite Hve).
    pose proof (ms_ok_shrink _ _ _ _ _ _ _ _ _ _ Hok Hu He Hv0) as Hsok.
    pose proof (shrink_area_wf _ _ _ _ _ _ _ _ _ _ Hok Hu He Hv0) as Hswf.
    pose proof (shrink_step _ _ _ _ _ _ _ _ _ e Hok Hu) as Hst.
    pose proof (shrink_contents _ _ _ _ _ _ _ _ _ e Hok Hu) as Hct.
    assert (Hf0 : areas_frames (set_vpn_range e a' :: al) = areas_frames al).
    { rewrite areas_frames_cons. unfold area_frames. simpl. by rewrite Hd, map_to_list_empty. }
    rewrite Hf0 in Hst, Hct. apply ms_ok_empty_area in Hsok; [|done..].
    split; [done..|]. intros v Hv. by apply (au_lookup _ _ _ _ _ _ _ Hu).
Qed.

Lemma vec_remove_perm {A} (l : list A) i x : l !! i = Some x → l ≡ₚ x :: vec_remove l i.
Proof.
  intros H. unfold vec_remove. rewrite <-(take_drop_middle l i x H) at 1.
  by rewrite Permutation_middle.
Qed.

Lemma remove_area_spec s ms start_vpn X :
  MemorySet_ok s ms X →
  wp (MemorySet_remove_area_with_start_vpn ms start_vpn) (λ ms' s',
      ms_step s ms s' ms' X ∧
      match find_area start_vpn (areas ms) with
      | None => ms' = ms ∧ s' = s
      | Some (i, a) => page_table ms' = page_table ms ∧ areas ms' = vec_remove (areas ms) i ∧
          unmapped_area s (page_table ms) a (areas ms') s' X
      end) no_panic s.
Proof.
  intros Hok. unfold MemorySet_remove_area_with_start_vpn.
  destruct (find_area start_vpn (areas ms)) as [[i a]|] eqn:Hfind; wp_step.
  - apply list_find_Some in Hfind as (Hi & _ & _).
    pose proof (vec_remove_perm _ _ _ Hi) as Hperm.
    assert (Hok' : ms_ok s (page_table ms) (a :: vec_remove (areas ms) i) X)
      by (by eapply ms_ok_perm_impl).
    eapply wp_mono; [by apply MapArea_unmap_spec| |done].
    intros [a' pt'] s' (Hpt & Hd & Hun). simpl in Hpt, Hd. subst pt'.
    rewrite MapArea_drop_empty by done. do 3 wp_step. split; [|done].
    pose proof Hun as [Huok Hust _ _]. split; [done| |done].
    eapply mm_step_perm_impl; [| |exact Hust]; [|done].
    unfold ms_frames. by rewrite <-Hperm.
  - split; [|done]. split; [done| |done]. apply mm_step_refl; [by eapply ms_mm|by eapply ms_owns].
Qed.

(** An owner's frame that it no longer has is free. *)
Lemma mm_step_freed s O s' O' f : mm_step s O s' O' → f ∈ O → f ∉ O' → ¬ in_use s' f.
Proof. intros Hstep Hf Hf' Huse. destruct (step_no_leak _ _ _ _ Hstep f Huse) as [?|[_ ?]]; done. Qed.

(** [munmap_area] removes the areas that contain the whole range. *)
Definition covers (start_vpn end_vpn : Z) (a : MapArea) : bool :=
  (end_vpn <=? MapArea_get_end a) && (MapArea_get_start a <=? start_vpn).
Definition covering (start_vpn end_vpn : Z) (al : list MapArea) : list MapArea :=
  filter (λ a, covers start_vpn end_vpn a = true) al.
Definition not_covering (start_vpn end_vpn : Z) (al : list MapArea) : list MapArea :=
  filter (λ a, covers start_vpn end_vpn a = false) al.

Lemma covering_perm st en al : al ≡ₚ covering st en al ++ not_covering st en al.
Proof.
  unfold covering, not_covering. rewrite <-(filter_app_complement (λ a, covers st en a = true) al) at 1.
  f_equiv. by rewrite (list_filter_iff _ (λ a, covers st en a = false))
    by (intros a; by rewrite not_true_iff_false).
Qed.

Lemma munmap_areas_spec s pt st en l K X :
  ms_ok s pt (l ++ K) X →
  wp (munmap_areas st en l pt) (λ r s',
      snd r = pt ∧ fst r = not_covering st en l ∧ ms_ok s' pt (not_covering st en l ++ K) X ∧
      mm_step s (frames pt ++ areas_frames (l ++ K)) s'
                (frames pt ++ areas_frames (not_covering st en l ++ K)) ∧
      (∀ f, f ∈ areas_frames (not_covering st en l ++ K) → page_agree (phys s) (phys s') f) ∧
      (∀ v, is_vpn v → pt_lookup (phys s') pt v =
         if decide (v ∈ areas_vpns (covering st en l)) then None else pt_lookup (phys s) pt v))
    no_panic s.
Proof.
  revert s K. induction l as [|a l IH]; intros s K Hok; cbn [munmap_areas].
  { wp_step. split_and!; try done.
    apply mm_step_refl; [by eapply ms_mm|by eapply ms_owns]. }
  change ((en <=? MapArea_get_end a) && (MapArea_get_start a <=? st)) with (covers st en a).
  unfold not_covering, covering. rewrite !filter_cons. destruct (covers st en a) eqn:Hc.
  - rewrite decide_False, decide_True by done.
    eapply wp_call; [by apply (MapArea_unmap_spec s pt a (l ++ K))|done|].
    intros [a' pt'] s1 (Hpt & Hd & [Hok1 Hst1 Hct1 Hl1]). simpl in Hpt, Hd. subst pt'.
    rewrite MapArea_drop_empty by done. do 2 wp_step.
    eapply wp_mono; [by apply (IH s1 K)| |done].
    intros [l' pt'] s2 (Hpt & Hl' & Hok2 & Hst2 & Hct2 & Hl2). simpl in Hpt, Hl'. subst pt' l'.
    split_and!; [done..|by eapply mm_step_trans| |].
    + intros f Hf. eapply mem_agree_trans; [apply Hct1|by apply Hct2].
      revert Hf. rewrite !elem_of_areas_frames. setoid_rewrite elem_of_app.
      setoid_rewrite list_elem_of_filter. naive_solver.
    + intros v Hv. rewrite Hl2, Hl1 by done. rewrite areas_vpns_cons.
      destruct (decide (v ∈ areas_vpns (covering st en l))) as [H2|H2].
      { by rewrite decide_True by (apply elem_of_app; auto). }
      destruct (decide (v ∈ vpns (vpn_range a))) as [H1|H1].
      * by rewrite decide_True by (apply elem_of_app; auto).
      * by rewrite decide_False by (rewrite elem_of_app; tauto).
  - rewrite decide_True, decide_False by done.
    assert (Hok' : ms_ok s pt (l ++ a :: K) X)
      by (eapply ms_ok_perm_impl; [|exact Hok]; apply Permutation_middle).
    eapply wp_call; [by apply (IH s (a :: K))|done|].
    intros [l' pt'] s2 (Hpt & Hl' & Hok2 & Hst2 & Hct2 & Hl2). simpl in Hpt, Hl'. subst pt' l'.
    wp_step. fold (not_covering st en l).
    assert (Hp : not_covering st en l ++ a :: K ≡ₚ (a :: not_covering st en l) ++ K)
      by (symmetry; apply Permutation_middle).
    split_and!; [done..| | | |done].
    + by eapply ms_ok_perm_impl.
    + eapply mm_step_perm_impl; [| |exact Hst2].
      * by rewrite <-(Permutation_middle l K a).
      * by rewrite Hp.
    + intros f. rewrite <-Hp. apply Hct2.
Qed.

Lemma munmap_area_spec s ms start_va end_va X :
  MemorySet_ok s ms X →
  let st := VirtAddr_floor start_va in let en := VirtAddr_ceil end_va in
  wp (MemorySet_munmap_area ms start_va end_va) (λ ms' s',
      ms_step s ms s' ms' X ∧ page_table ms' = page_table ms ∧
      areas ms' = not_covering st en (areas ms) ∧
      (∀ f, f ∈ areas_frames (areas ms') → page_agree (phys s) (phys s') f) ∧
      (∀ v, is_vpn v → pt_lookup (phys s') (page_table ms') v =
         if decide (v ∈ areas_vpns (covering st en (areas ms))) then None
         else pt_lookup (phys s) (page_table ms) v)) no_panic s.
Proof.
  intros Hok st en. unfold MemorySet_munmap_area.
  eapply wp_call; [apply (munmap_areas_spec s _ st en (areas ms) [] X); by rewrite app_nil_r|done|].
  intros [l' pt'] s' (Hpt & Hl' & Hok' & Hst & Hct & Hl). simpl in Hpt, Hl'. subst pt' l'.
  rewrite !app_nil_r in *. wp_step. by split_and!.
Qed.

(** ** Shrinking and growing an area in place *)

Lemma vpns_split l m r :
  l ≤ m ≤ r → vpns (mkSimpleRange l r) = vpns (mkSimpleRange l m) ++ vpns (mkSimpleRange m r).
Proof.
  intros H. unfold vpns. simpl. replace (r - l) with ((m - l) + (r - m)) by lia.
  rewrite seqZ_app by lia. by replace (l + (m - l)) with m by lia.
Qed.

Lemma range_eta r : r = mkSimpleRange (range_l r) (range_r r).
Proof. by destruct r. Qed.

Lemma insert_perm {A} (l : list A) i x y :
  l !! i = Some x → <[i := y]> l ≡ₚ y :: vec_remove l i.
Proof.
  intros H. assert (Hi : (i < length l)%nat) by (by eapply lookup_lt_Some).
  assert (H' : <[i := y]> l !! i = Some y) by (by apply list_lookup_insert_eq).
  rewrite (vec_remove_perm _ _ _ H') at 1. unfold vec_remove.
  by rewrite take_insert_ge, drop_insert_lt by lia.
Qed.

Lemma wp_SimpleRange_new {S} l r (Q : SimpleRange → S → Prop) E s :
  l ≤ r → Q (mkSimpleRange l r) s → wp (SimpleRange_new l r) Q E s.
Proof.
  intros Hle HQ. unfold SimpleRange_new. rewrite (proj2 (Z.leb_le l r)) by done. exact HQ.
Qed.

(** The area at index [i] now ends at [new_end]. *)
Record resized (s : mm) (ms : MemorySet) (i : nat) (a : MapArea) (new_end : Z)
    (s' : mm) (ms' : MemorySet) (X : gmap Z Z) : Prop := {
  resized_step : ms_step s ms s' ms' X;
  resized_area : ∃ a', areas ms' = <[i := a']> (areas ms) ∧
    vpn_range a' = mkSimpleRange (range_l (vpn_range a)) new_end ∧
    map_type a' = map_type a ∧ map_perm a' = map_perm a ∧
    (∀ v, v ∈ vpns (vpn_range a) → v < new_end → data_frames a' !! v = data_frames a !! v) ∧
    (∀ v f, v ∉ vpns (vpn_range a) → data_frames a' !! v = Some f → page_zero (phys s') f);
  resized_old f : f ∈ areas_frames (areas ms) → f ∈ areas_frames (areas ms') →
    page_agree (phys s) (phys s') f;
}.

Lemma shrink_to_spec s ms start new_end i a X :
  MemorySet_ok s ms X → find_area (VirtAddr_floor start) (areas ms) = Some (i, a) →
  range_l (vpn_range a) ≤ VirtAddr_ceil new_end ≤ range_r (vpn_range a) →
  wp (MemorySet_shrink_to ms start new_end) (λ r s', fst r = true ∧
      resized s ms i a (VirtAddr_ceil new_end) s' (snd r) X) no_panic s.
Proof.
  intros Hok Hfind Hn. unfold MemorySet_shrink_to. rewrite Hfind.
  apply list_find_Some in Hfind as (Hi & _ & _).
  set (n := VirtAddr_ceil new_end) in *. set (r2 := mkSimpleRange n (range_r (vpn_range a))).
  set (r1 := mkSimpleRange (range_l (vpn_range a)) n).
  assert (Hok' : ms_ok s (page_table ms) (a :: vec_remove (areas ms) i) X)
    by (eapply ms_ok_perm_impl; [by apply vec_remove_perm|exact Hok]).
  pose proof (ms_areas _ _ _ _ Hok' a (list_elem_of_here _ _)) as Hwf.
  pose proof (area_bounds _ Hwf) as Hb.
  assert (Hvp : vpns (vpn_range a) = vpns r1 ++ vpns r2)
    by (rewrite (range_eta (vpn_range a)); by apply vpns_split).
  unfold MapArea_shrink_to, SimpleRange_get_end. do 2 wp_step. apply wp_SimpleRange_new; [apply Hn|].
  unfold unmap_range. wp_step. eapply wp_mono; [apply (unmap_list_spec s a)| |done].
  - by eapply ms_ok_pt_ok.
  - pose proof (ms_owns _ _ _ _ Hok') as Hown. rewrite areas_frames_cons, app_assoc in Hown.
    apply owns_app in Hown. tauto.
  - apply Forall_forall. intros v Hv%elem_of_vpns. unfold r2 in Hv. simpl in Hv. unfold is_vpn. lia.
  - apply vpns_NoDup.
  - intros v Hv. eapply ms_ok_mapped; [exact Hok'|].
    rewrite areas_vpns_cons, Hvp, !elem_of_app. auto.
  - intros [a' pt'] s' (old & Hpt & Hu). simpl in Hpt, Hu. subst pt'.
    wp_step. unfold SimpleRange_get_start. rewrite (au_range _ _ _ _ _ _ _ Hu).
    apply wp_SimpleRange_new; [apply Hn|]. do 2 wp_step. split; [done|].
    assert (Hvp' : vpns (vpn_range a) ≡ₚ vpns r1 ++ vpns r2) by (by rewrite Hvp).
    assert (Hr1 : 0 ≤ range_l r1 ≤ range_r r1 ∧ range_r r1 ≤ 2 ^ 27) by (unfold r1; simpl; lia).
    pose proof (ms_ok_shrink _ _ _ _ _ _ _ _ _ _ Hok' Hu Hr1 Hvp') as Hsok.
    pose proof (shrink_step _ _ _ _ _ _ _ _ _ r1 Hok' Hu) as Hst.
    pose proof (shrink_contents _ _ _ _ _ _ _ _ _ r1 Hok' Hu) as Hct.
    pose proof (insert_perm (areas ms) i a (set_vpn_range r1 a') Hi) as Hip.
    split; simpl.
    + split; [by eapply ms_ok_perm_impl| |done].
      eapply mm_step_perm_impl; [| |exact Hst]; unfold ms_frames; cbn [page_table areas].
      * by rewrite <-(vec_remove_perm _ _ _ Hi).
      * by rewrite <-Hip.
    + eexists. split_and!; [done|done|exact (au_type _ _ _ _ _ _ _ Hu)|exact (au_perm _ _ _ _ _ _ _ Hu)| |].
      * intros v Hv Hlt. apply (au_other _ _ _ _ _ _ _ Hu).
        intros Hin%elem_of_vpns. unfold r2 in Hin. simpl in Hin. lia.
      * intros v f Hv Hf. simpl in Hf.
        rewrite (au_other _ _ _ _ _ _ _ Hu) in Hf.
        { assert (is_Some (data_frames a !! v)) as [_ ?]%(area_dom _ Hwf) by eauto. done. }
        intros Hin. apply Hv. rewrite Hvp. apply elem_of_app. by right.
    + intros f _ Hf. apply Hct. rewrite <-Hip. exact Hf.
Qed.

Lemma append_to_spec s ms start new_end i a X :
  MemorySet_ok s ms X → find_area (VirtAddr_floor start) (areas ms) = Some (i, a) →
  range_r (vpn_range a) ≤ VirtAddr_ceil new_end ≤ 2 ^ 27 →
  let r2 := mkSimpleRange (range_r (vpn_range a)) (VirtAddr_ceil new_end) in
  wp (MemorySet_append_to ms start new_end) (λ r s', fst r = true ∧
      resized s ms i a (VirtAddr_ceil new_end) s' (snd r) X)
    (map_range_error s (page_table ms) (vpns r2)) s.
Proof.
  intros Hok Hfind Hn r2. unfold MemorySet_append_to. rewrite Hfind.
  apply list_find_Some in Hfind as (Hi & _ & _).
  set (n := VirtAddr_ceil new_end) in *.
  set (r1 := mkSimpleRange (range_l (vpn_range a)) n).
  assert (Hok' : ms_ok s (page_table ms) (a :: vec_remove (areas ms) i) X)
    by (eapply ms_ok_perm_impl; [by apply vec_remove_perm|exact Hok]).
  pose proof (ms_areas _ _ _ _ Hok' a (list_elem_of_here _ _)) as Hwf.
  pose proof (area_bounds _ Hwf) as Hb.
  assert (Hvp : vpns r1 = vpns (vpn_range a) ++ vpns r2)
    by (rewrite (range_eta (vpn_range a)); apply vpns_split; lia).
  assert (Hr2 : ∀ v, v ∈ vpns r2 → v ∉ vpns (vpn_range a)).
  { intros v Hv%elem_of_vpns Hv'%elem_of_vpns. unfold r2 in Hv. simpl in Hv. lia. }
  unfold MapArea_append_to, SimpleRange_get_end. do 2 wp_step. apply wp_SimpleRange_new; [apply Hn|].
  unfold map_range. wp_step. eapply wp_mono; [apply (map_list_spec s a)| |done].
  - by eapply ms_ok_pt_ok.
  - apply Forall_forall. intros v Hv%elem_of_vpns. unfold r2 in Hv. simpl in Hv. unfold is_vpn. lia.
  - apply Hwf.
  - apply vpns_NoDup.
  - intros v Hv. destruct (data_frames a !! v) eqn:Hd; [|done].
    assert (is_Some (data_frames a !! v)) as [_ ?]%(area_dom _ Hwf) by eauto.
    by destruct (Hr2 v Hv).
  - intros [a' pt'] s' [new Hm]. simpl in Hm.
    wp_step. unfold SimpleRange_get_start. rewrite (am_range _ _ _ _ _ _ _ _ Hm).
    apply wp_SimpleRange_new; [lia|]. do 2 wp_step. split; [done|].
    assert (Hr1 : 0 ≤ range_l r1 ≤ range_r r1 ∧ range_r r1 ≤ 2 ^ 27) by (unfold r1; simpl; lia).
    pose proof (ms_ok_grow _ _ _ _ _ _ _ _ _ _ _ Hok' Hm Hr1 Hvp) as Hgok.
    pose proof (grow_step _ _ _ _ _ _ _ _ _ _ r1 Hok' Hm) as Hgst.
    pose proof (grow_contents _ _ _ _ _ _ _ _ _ _ Hok' Hm) as Hgct.
    pose proof (insert_perm (areas ms) i a (set_vpn_range r1 a') Hi) as Hip.
    split; simpl.
    + split; [by eapply ms_ok_perm_impl| |by eapply am_root].
      eapply mm_step_perm_impl; [| |exact Hgst]; unfold ms_frames; cbn [page_table areas].
      * by rewrite <-(vec_remove_perm _ _ _ Hi).
      * by rewrite <-Hip.
    + eexists. split_and!; [done|done|exact (am_type _ _ _ _ _ _ _ _ Hm)|exact (am_perm _ _ _ _ _ _ _ _ Hm)| |].
      * intros v Hv _. apply (am_old _ _ _ _ _ _ _ _ Hm). intros Hin. by apply (Hr2 v).
      * intros v f Hv Hf. simpl in Hf. destruct (decide (v ∈ vpns r2)) as [Hin|Hin].
        { destruct (am_data _ _ _ _ _ _ _ _ Hm v Hin) as [_ Hz]. by apply (Hz f). }
        rewrite (am_old _ _ _ _ _ _ _ _ Hm) in Hf by done.
        assert (is_Some (data_frames a !! v)) as [_ ?]%(area_dom _ Hwf) by eauto. done.
    + intros f Hf _. apply Hgct. by rewrite <-(vec_remove_perm _ _ _ Hi).
Qed.

(** ** Creating and dropping address spaces *)

Definition TRAMPOLINE_VPN : Z := 2 ^ 27 - 1.

(** The hardware's view of the trampoline: readable and executable, not [U]. *)
Definition trampoline_pte `{LinkerSymbols} : Z :=
  PTE_new (strampoline / 4096) (Z.lor (Z.lor PTE_R PTE_X) PTE_V).
Definition trampoline_map `{LinkerSymbols} : gmap Z Z := {[ TRAMPOLINE_VPN := trampoline_pte ]}.

(** What [linker.ld] guarantees of [strampoline] ([. = ALIGN(4K)]). *)
Definition strampoline_ok `{LinkerSymbols} : Prop :=
  0 ≤ strampoline < 2 ^ 56 ∧ strampoline mod 4096 = 0.

Lemma new_bare_spec s :
  mm_wf s →
  wp MemorySet_new_bare (λ ms s', MemorySet_ok s' ms ∅ ∧ areas ms = [] ∧
      mm_step s [] s' (ms_frames ms) ∧ length (ms_frames ms) = 1%nat)
    (λ k, k = UnwrapNone ∧ free_frames s = 0%nat) s.
Proof.
  intros Hmm. unfold MemorySet_new_bare. eapply wp_call; [by apply new_spec|done|].
  intros pt s' ([Hmm' Hown Htree] & Hstep & Hlen & Hl). wp_step.
  unfold ms_frames. simpl. unfold areas_frames. simpl. rewrite app_nil_r. split_and!; [|done..].
  split; simpl; try done.
  - unfold areas_frames. simpl. by rewrite app_nil_r.
  - by intros a ?%not_elem_of_nil.
  - constructor.
  - intros v _. by apply not_elem_of_nil.
  - by intros a v ?%not_elem_of_nil.
Qed.

Lemma map_trampoline_spec `{LinkerSymbols} s ms :
  strampoline_ok → MemorySet_ok s ms ∅ → TRAMPOLINE_VPN ∉ areas_vpns (areas ms) →
  wp (MemorySet_map_trampoline ms) (λ ms' s', ms_step s ms s' ms' trampoline_map ∧
      areas ms' = areas ms ∧ (length (ms_frames ms') ≤ length (ms_frames ms) + 2)%nat)
    (λ k, k = UnwrapNone ∧ (free_frames s < 2)%nat) s.
Proof.
  intros [Hst Hal] Hok Hnin.
  assert (Htv : is_vpn TRAMPOLINE_VPN) by (vm_compute; split; congruence).
  pose proof (ms_lookup_other _ _ _ _ Hok _ Htv Hnin) as Hnone. rewrite lookup_empty in Hnone.
  unfold MemorySet_map_trampoline, VirtPageNum_from_VirtAddr, PhysPageNum_from_PhysAddr.
  change (VirtAddr_from_usize TRAMPOLINE) with (TRAMPOLINE_VPN * 4096).
  change (VirtAddr_page_offset (TRAMPOLINE_VPN * 4096) =? 0) with true.
  change (VirtAddr_floor (TRAMPOLINE_VPN * 4096)) with TRAMPOLINE_VPN.
  assert (Hpa : PhysAddr_from_usize strampoline = strampoline)
    by (rewrite PhysAddr_from_usize_mod; by apply Z.mod_small).
  rewrite Hpa, PhysAddr_page_offset_mod, Hal. change (0 =? 0) with true.
  change (PhysAddr_floor strampoline) with (strampoline / 4096). do 8 wp_step. wp_step.
  eapply wp_mono; [apply map_spec| |].
  - by eapply ms_ok_pt_ok.
  - done.
  - unfold is_ppn. zsolve.
  - vm_compute; split; congruence.
  - intros pt' s' [_ [[Hmm' Hown' Htree'] Hroot Hstep Hl Hlen]]. wp_step.
    pose proof (mm_step_frame _ _ _ _ _ Hstep (ms_owns _ _ _ _ Hok)) as Hstep'.
    destruct Hok as [Hmm Hown Htree Har Hdis Hex Hla Hlo].
    split_and!; [|done|unfold ms_frames; rewrite !length_app; simpl; lia].
    split; [|done|done]. split; simpl; try done.
    + by eapply step_owns.
    + intros v. unfold trampoline_map. rewrite lookup_singleton_is_Some. by intros <-.
    + intros a v Ha Hv.
      assert (Hin : v ∈ areas_vpns (areas ms)) by (apply elem_of_areas_vpns; eauto).
      rewrite Hl.
      * rewrite decide_False; [by apply Hla|]. intros ->. done.
      * destruct (Har a Ha) as [Hb _ _]. apply elem_of_vpns in Hv. unfold is_vpn. lia.
    + intros v Hv Hnv. rewrite Hl by done. unfold trampoline_map. case_decide as Heq.
      * subst v. by rewrite lookup_singleton_eq.
      * by rewrite lookup_singleton_ne, Hlo, lookup_empty.
  - intros k [(-> & ? & _)|[_ [e He]]]; [by split|]. rewrite Hnone in He. discriminate He.
Qed.

Lemma areas_drop_spec s al R :
  mm_wf s → owns s (areas_frames al ++ R) →
  wp (forM MapArea_drop al) (λ _ s', phys s' = phys s ∧ mm_step s (areas_frames al ++ R) s' R)
    no_panic s.
Proof.
  intros Hmm Hown. unfold forM.
  eapply wp_mono; [apply (wp_foldM _ (λ l _ s', phys s' = phys s ∧
    mm_step s (areas_frames al ++ R) s' (areas_frames l ++ R)))|done|done].
  - split; [done|]. by apply mm_step_refl.
  - intros a l [] s' [Hphys Hstep]. rewrite areas_frames_cons, <-app_assoc in Hstep.
    unfold MapArea_drop.
    assert (Hp : btree_values (data_frames a) ++ areas_frames l ++ R ≡ₚ
                 area_frames a ++ areas_frames l ++ R) by (by rewrite btree_values_perm).
    eapply wp_mono; [apply (forM_dealloc_spec s' _ (areas_frames l ++ R))| |done].
    + by eapply step_wf.
    + rewrite Hp. by eapply step_owns.
    + intros [] s'' [Hphys' Hstep']. rewrite Hp in Hstep'. split; [congruence|].
      by eapply mm_step_trans.
Qed.

Lemma MemorySet_drop_spec s ms :
  mm_wf s → owns s (ms_frames ms) →
  wp (MemorySet_drop ms) (λ _ s', phys s' = phys s ∧ mm_step s (ms_frames ms) s' []) no_panic s.
Proof.
  intros Hmm Hown. unfold MemorySet_drop, PageTable_drop.
  eapply wp_call; [by apply (forM_dealloc_spec s (frames (page_table ms)) (areas_frames (areas ms)))|done|].
  intros [] s1 [Hphys Hstep].
  eapply wp_mono; [apply (areas_drop_spec s1 (areas ms) [])| |done].
  - by eapply step_wf.
  - rewrite app_nil_r. by eapply step_owns.
  - intros [] s2 [Hphys' Hstep']. rewrite app_nil_r in Hstep'. split; [congruence|].
    by eapply mm_step_trans.
Qed.

Lemma recycle_spec s ms :
  mm_wf s → owns s (ms_frames ms) →
  wp (MemorySet_recycle_data_pages ms) (λ ms' s',
      page_table ms' = page_table ms ∧ areas ms' = [] ∧ phys s' = phys s ∧
      mm_step s (ms_frames ms) s' (frames (page_table ms))) no_panic s.
Proof.
  intros Hmm Hown. unfold MemorySet_recycle_data_pages.
  assert (Hp : ms_frames ms ≡ₚ areas_frames (areas ms) ++ frames (page_table ms))
    by apply Permutation_app_comm.
  eapply wp_call; [apply (areas_drop_spec s (areas ms) (frames (page_table ms)))|done|].
  - done.
  - by rewrite <-Hp.
  - intros [] s' [Hphys Hstep]. wp_step. simpl. split_and!; try done. by rewrite Hp.
Qed.

(** ** Isolation *)

(** Whatever an operation does to one address space, another one whose frames are
    disjoint keeps its mappings, its contents and its disjointness. *)
Lemma mm_step_isolates s O s' O' pt al X :
  ms_ok s pt al X → mm_step s O s' O' →
  (∀ f, f ∈ frames pt ++ areas_frames al → f ∉ O) →
  ms_ok s' pt al X ∧
  (∀ v, pt_lookup (phys s') pt v = pt_lookup (phys s) pt v) ∧
  (∀ f, f ∈ frames pt ++ areas_frames al → (f ∉ O') ∧ page_agree (phys s) (phys s') f).
Proof.
  intros Hok Hstep Hdis. pose proof (ms_owns _ _ _ _ Hok) as [Hnd Huse].
  assert (Hf : ∀ f, f ∈ frames pt ++ areas_frames al →
    in_use s' f ∧ (f ∉ O') ∧ page_agree (phys s) (phys s') f).
  { intros f Hf. apply (step_other _ _ _ _ Hstep); auto. }
  assert (Hag : ∀ f, f ∈ frames pt → page_agree (phys s) (phys s') f).
  { intros f Hf'. apply Hf. apply elem_of_app. by left. }
  split_and!.
  - eapply ms_ok_agree; [done|by eapply step_wf| |done]. split; [done|]. intros f Hf'. by apply Hf.
  - intros v. apply pt_lookup_pages_agree; [by eapply ms_tree|done].
  - intros f Hf'. by apply Hf.
Qed.
