(* ===== verification/AddressSpace.v ===== *)
(** * Properties of address spaces

    What the operations of [MemorySet] ([src/mm/memory_set.rs]) promise their
    callers: what they map and unmap, that every sequence of them keeps the
    invariant, that nothing leaks, and that address spaces do not interfere. *)
From S2P Require Import Prelude Config Machine Address FrameAllocator Ownership.
From S2P Require Import PageTable PageTree PageTableSpec MemorySet MapAreaSpec MemorySetSpec.

(** ** Mapping new areas *)

Lemma pushed_lookup_old s ms a s' ms' a' X vpn :
  MemorySet_ok s ms X → pushed s ms a s' ms' a' X →
  is_vpn vpn → vpn ∉ vpns (vpn_range a) →
  pt_lookup (phys s') (page_table ms') vpn = pt_lookup (phys s) (page_table ms) vpn.
Proof.
  intros Hok [Har Hr _ _ [Hok' _ _] _ _] Hv Hn.
  destruct (decide (vpn ∈ areas_vpns (areas ms))) as [Hin|Hin].
  - apply elem_of_areas_vpns in Hin as (b & Hb & Hbv).
    rewrite (ms_lookup_area _ _ _ _ Hok b) by done.
    apply (ms_lookup_area _ _ _ _ Hok'); [|done]. rewrite Har. apply elem_of_app. by left.
  - rewrite (ms_lookup_other _ _ _ _ Hok) by done. apply (ms_lookup_other _ _ _ _ Hok'); [done|].
    rewrite Har. intros (b & [Hb|Hb]%elem_of_app & Hbv)%elem_of_areas_vpns.
    + apply Hin, elem_of_areas_vpns. eauto.
    + apply list_elem_of_singleton in Hb as ->. rewrite Hr in Hbv. done.
Qed.

Lemma pushed_lookup_new s ms a s' ms' a' X vpn :
  pushed s ms a s' ms' a' X → map_type a = Framed → vpn ∈ vpns (vpn_range a) →
  ∃ f, data_frames a' !! vpn = Some f ∧ page_zero (phys s') f ∧
    pt_lookup (phys s') (page_table ms') vpn = Some (PTE_new f (Z.lor (map_perm a) PTE_V)).
Proof.
  intros [Har Hr Hty Hp [Hok' _ _] Hz _ _] Ht Hv.
  assert (Ha' : a' ∈ areas ms') by (rewrite Har; apply elem_of_app; right; by left).
  assert (Hv' : vpn ∈ vpns (vpn_range a')) by (by rewrite Hr).
  destruct (proj2 (area_dom _ (ms_areas _ _ _ _ Hok' a' Ha') vpn)) as [f Hf]; [by rewrite Hty|].
  exists f. split_and!; [done|apply Hz, elem_of_area_frames; by exists vpn|].
  rewrite (ms_lookup_area _ _ _ _ Hok' a') by done.
  unfold area_pte, area_ppn. by rewrite Hty, Ht, Hf, Hp.
Qed.

Definition insert_error (s : mm) (ms : MemorySet) (r : SimpleRange) (k : panic_kind) : Prop :=
  (k = UnwrapNone ∧ (free_frames s < 3 * Z.to_nat (range_r r - range_l r))%nat) ∨
  (k = AssertFailed ∧
    (range_r r < range_l r ∨
     ∃ vpn, vpn ∈ vpns r ∧ is_Some (pt_lookup (phys s) (page_table ms) vpn))).

(** The pages of the half-open byte range [start_va, end_va). *)
Definition page_range (start_va end_va : Z) : SimpleRange :=
  mkSimpleRange (start_va / 4096) ((end_va + 4095) / 4096).

Lemma insert_framed_area_spec s ms start_va end_va perm X :
  MemorySet_ok s ms X → 0 ≤ start_va → 0 ≤ end_va ≤ 2 ^ 39 → is_perm perm →
  wp (MemorySet_insert_framed_area ms start_va end_va perm) (λ ms' s', ∃ a a',
      vpn_range a = page_range start_va end_va ∧ map_type a = Framed ∧ map_perm a = perm ∧
      pushed s ms a s' ms' a' X)
    (insert_error s ms (page_range start_va end_va)) s.
Proof.
  intros Hok Hs He Hp. unfold MemorySet_insert_framed_area.
  eapply wp_call; [by apply MapArea_new_spec| |].
  { intros k [-> H]. right. split; [done|]. by left. }
  intros a s1 (-> & Hfr & Hl & Hr & Hty & Hpm).
  assert (Hrng : vpn_range a = page_range start_va end_va)
    by (rewrite (range_eta (vpn_range a)), Hl, Hr; done).
  eapply wp_mono; [by apply push_none_spec| |].
  - intros ms' s' [a' H]. exists a, a'. by split_and!.
  - rewrite Hrng. intros k [[-> Hf]|[-> Hm]]; [left|right]; (split; [done|]).
    + by rewrite length_vpns in Hf.
    + by right.
Qed.

(** ** Sequences of operations

    The calls a process or the kernel makes on an address space that exists:
    [mmap] and kernel stacks insert areas, [munmap] and the end of a kernel stack
    remove them, [sbrk] resizes the heap.  [step_shrink] has the guard of its
    caller [change_program_brk]; a call that panics is no step. *)
Inductive as_step : mm * MemorySet → mm * MemorySet → Prop :=
| step_insert s ms a b perm ms' s' :
    0 ≤ a → 0 ≤ b ≤ 2 ^ 39 → is_perm perm →
    MemorySet_insert_framed_area ms a b perm s = Done ms' s' → as_step (s, ms) (s', ms')
| step_munmap s ms a b ms' s' :
    MemorySet_munmap_area ms a b s = Done ms' s' → as_step (s, ms) (s', ms')
| step_remove s ms vpn ms' s' :
    MemorySet_remove_area_with_start_vpn ms vpn s = Done ms' s' → as_step (s, ms) (s', ms')
| step_shrink s ms a b r ms' s' :
    0 ≤ a ≤ b → b < 2 ^ 63 → MemorySet_shrink_to ms a b s = Done (r, ms') s' →
    as_step (s, ms) (s', ms')
| step_append s ms a b r ms' s' :
    0 ≤ b ≤ 2 ^ 39 → MemorySet_append_to ms a b s = Done (r, ms') s' → as_step (s, ms) (s', ms').

Lemma ms_step_refl s ms X : MemorySet_ok s ms X → ms_step s ms s ms X.
Proof.
  intros Hok. split; [done| |done]. apply mm_step_refl; [by eapply ms_mm|by eapply ms_owns].
Qed.

Lemma ms_step_trans s1 ms1 s2 ms2 s3 ms3 X :
  ms_step s1 ms1 s2 ms2 X → ms_step s2 ms2 s3 ms3 X → ms_step s1 ms1 s3 ms3 X.
Proof. intros [] []. split; [done|by eapply mm_step_trans|congruence]. Qed.

Lemma VirtAddr_ceil_bounds va :
  0 ≤ va < 2 ^ 63 → va / 4096 ≤ VirtAddr_ceil va ∧ (va ≤ 2 ^ 39 → VirtAddr_ceil va ≤ 2 ^ 27).
Proof. intros H. rewrite VirtAddr_ceil_eq by lia. split; [zsolve|]. intros. zsolve. Qed.

(** A call that returns [true] found its area and was given an end in range. *)
Lemma resize_steps s ms a b r ms' s' X :
  MemorySet_ok s ms X → 0 ≤ b < 2 ^ 63 →
  (a ≤ b ∧ MemorySet_shrink_to ms a b s = Done (r, ms') s') ∨
  (b ≤ 2 ^ 39 ∧ MemorySet_append_to ms a b s = Done (r, ms') s') →
  ms_step s ms s' ms' X.
Proof.
  intros Hok Hb Hrun. pose proof (VirtAddr_ceil_bounds b ltac:(lia)) as [Hge Hle].
  destruct (find_area (VirtAddr_floor a) (areas ms)) as [[i ar]|] eqn:Hfind.
  - pose proof Hfind as (Hi & Hst & _)%list_find_Some.
    destruct Hrun as [[Hab Hrun]|[Hb' Hrun]]; pose proof Hrun as Hrun'.
    + unfold MemorySet_shrink_to, MapArea_shrink_to, SimpleRange_new in Hrun'.
      rewrite Hfind in Hrun'.
      destruct (Z.leb_spec (VirtAddr_ceil b) (SimpleRange_get_end (vpn_range ar))) as [Hr|Hr];
        [|discriminate Hrun'].
      assert (Hrng : range_l (vpn_range ar) ≤ VirtAddr_ceil b ≤ range_r (vpn_range ar)).
      { split; [|exact Hr]. change (range_l (vpn_range ar) = a / 4096) in Hst. rewrite Hst.
        pose proof (Z.div_le_mono a b 4096). lia. }
      by destruct (wp_elim _ _ _ _ _ _ (shrink_to_spec s ms a b i ar X Hok Hfind Hrng) Hrun)
        as [_ [? _ _]].
    + unfold MemorySet_append_to, MapArea_append_to, SimpleRange_new in Hrun'.
      rewrite Hfind in Hrun'.
      destruct (Z.leb_spec (SimpleRange_get_end (vpn_range ar)) (VirtAddr_ceil b)) as [Hr|Hr];
        [|discriminate Hrun'].
      by destruct (wp_elim _ _ _ _ _ _ (append_to_spec s ms a b i ar X Hok Hfind
        (conj Hr (Hle Hb'))) Hrun) as [_ [? _ _]].
  - unfold MemorySet_shrink_to, MemorySet_append_to in Hrun. rewrite Hfind in Hrun.
    destruct Hrun as [[_ [= <- <- <-]]|[_ [= <- <- <-]]]; by apply ms_step_refl.
Qed.

Lemma as_step_sound x y X :
  as_step x y → MemorySet_ok x.1 x.2 X → ms_step x.1 x.2 y.1 y.2 X.
Proof.
  intros Hstep Hok. destruct Hstep; simpl in *.
  - destruct (wp_elim _ _ _ _ _ _ (insert_framed_area_spec s ms a b perm X Hok ltac:(done)
      ltac:(done) ltac:(done)) ltac:(done)) as (? & ? & _ & _ & _ & Hp). apply Hp.
  - by destruct (wp_elim _ _ _ _ _ _ (munmap_area_spec s ms a b X Hok) ltac:(done)).
  - by destruct (wp_elim _ _ _ _ _ _ (remove_area_spec s ms vpn X Hok) ltac:(done)).
  - apply (resize_steps s ms a b r); [done|lia|left]. by split; [lia|].
  - apply (resize_steps s ms a b r); [done|lia|right]. by split; [lia|].
Qed.

Lemma as_steps_sound x y X :
  rtc as_step x y → MemorySet_ok x.1 x.2 X → ms_step x.1 x.2 y.1 y.2 X.
Proof.
  induction 1 as [x|x y z Hstep _ IH]; intros Hok; [by apply ms_step_refl|].
  pose proof (as_step_sound _ _ _ Hstep Hok) as H. eapply ms_step_trans; [done|].
  apply IH, H.
Qed.

(** [f] is a frame of another owner: in use, and not one of this address space. *)
Definition foreign (s : mm) (ms : MemorySet) (f : Z) : Prop := in_use s f ∧ f ∉ ms_frames ms.

Lemma create_spec `{LinkerSymbols} s :
  strampoline_ok → mm_wf s →
  wp (ms ← MemorySet_new_bare; MemorySet_map_trampoline ms) (λ ms s',
      MemorySet_ok s' ms trampoline_map ∧ areas ms = [] ∧ mm_step s [] s' (ms_frames ms) ∧
      (length (ms_frames ms) ≤ 3)%nat)
    (λ k, k = UnwrapNone ∧ (free_frames s < 3)%nat) s.
Proof.
  intros Hst Hmm. eapply wp_call; [by apply new_bare_spec| |].
  { intros k [-> ?]. split; [done|lia]. }
  intros ms s1 (Hok & Har & Hstep & Hlen).
  eapply wp_mono; [apply map_trampoline_spec; [done..|]| |].
  - rewrite Har. apply not_elem_of_nil.
  - intros ms' s' ([Hok' Hstep' _] & Har' & Hlen'). split_and!; [done|congruence| |lia].
    by eapply mm_step_trans.
  - intros k [-> ?]. split; [done|]. pose proof (step_count _ _ _ _ Hstep) as Hc.
    rewrite Hlen in Hc. simpl in Hc. lia.
Qed.

(** An empty address space for the examples: frame 1 is its root and the frames 2
    to 63 are free. *)
Definition demo_ms : MemorySet := {| page_table := demo_pt; areas := [] |}.

Lemma demo_ms_ok : MemorySet_ok demo_mm demo_ms ∅.
Proof.
  exact (proj1 (wp_elim _ _ _ _ demo_ms demo_mm (new_bare_spec demo_boot demo_boot_wf) eq_refl)).
Qed.

(** The same address space with the pages 5 to 7 mapped. *)
Definition demo_run : outcome mm MemorySet :=
  MemorySet_insert_framed_area demo_ms 0x5000 0x8000 MapPermission_R demo_mm.

Lemma demo_run_ok : ∃ ms s a, demo_run = Done ms s ∧ MemorySet_ok s ms ∅ ∧ areas ms = [a] ∧
  vpn_range a = mkSimpleRange 5 8 ∧ map_type a = Framed ∧ (0 ∉ ms_frames ms) ∧
  (free_frames s >= 50)%nat.
Proof.
  destruct (wp_cases _ _ _ _ (insert_framed_area_spec demo_mm demo_ms 0x5000 0x8000 MapPermission_R ∅
    demo_ms_ok ltac:(lia) ltac:(lia) ltac:(vm_compute; split; congruence)))
    as [(ms & s & Hrun & a & a' & Hr & Hty & _ & Hpu)|(k & _ & H)].
  - exists ms, s, a'. split_and!; [exact Hrun|apply Hpu| | | | |].
    + apply (pushed_areas _ _ _ _ _ _ _ Hpu).
    + by rewrite (pushed_range _ _ _ _ _ _ _ Hpu), Hr.
    + by rewrite (pushed_type _ _ _ _ _ _ _ Hpu), Hty.
    + apply (step_other _ _ _ _ (mss_step _ _ _ _ _ (pushed_step _ _ _ _ _ _ _ Hpu))).
      * split; [vm_compute; split; congruence|apply not_elem_of_nil].
      * intros [H|H]%elem_of_app; [apply list_elem_of_singleton in H; lia|].
        by apply not_elem_of_nil in H.
    + pose proof (pushed_cost _ _ _ _ _ _ _ Hpu) as Hc. rewrite Hr, length_vpns in Hc.
      change (free_frames demo_mm) with 62%nat in Hc.
      change (Z.to_nat _) with 3%nat in Hc. lia.
  - exfalso. destruct H as [[_ Hf]|[_ [Hf|(vpn & _ & e & He)]]].
    + vm_compute in Hf. lia.
    + by vm_compute in Hf.
    + change (page_table demo_ms) with demo_pt in He. by rewrite demo_lookup in He.
Qed.

(** ** Properties *)

(** [insert_framed_area] maps every page of the range to a frame of its own
    that is filled with zeros, with exactly the given permissions plus [V],
    changes no other mapping and no contents of an existing page, and keeps the
    invariant of the address space; it panics only when frames run out, when a
    page of the range is mapped already, or when the range is empty the wrong
    way round. *)
Theorem insert_framed_area_maps s ms start_va end_va perm X :
  MemorySet_ok s ms X → 0 ≤ start_va → 0 ≤ end_va ≤ 2 ^ 39 → is_perm perm →
  let r := page_range start_va end_va in
  wp (MemorySet_insert_framed_area ms start_va end_va perm) (λ ms' s',
      ms_step s ms s' ms' X ∧
      (∃ a', areas ms' = areas ms ++ [a'] ∧ vpn_range a' = r ∧
        ∀ vpn, vpn ∈ vpns r → ∃ f, data_frames a' !! vpn = Some f ∧ page_zero (phys s') f ∧
          pt_lookup (phys s') (page_table ms') vpn = Some (PTE_new f (Z.lor perm PTE_V))) ∧
      (∀ vpn, is_vpn vpn → vpn ∉ vpns r →
        pt_lookup (phys s') (page_table ms') vpn = pt_lookup (phys s) (page_table ms) vpn) ∧
      (∀ f, f ∈ areas_frames (areas ms) → page_agree (phys s) (phys s') f))
    (insert_error s ms r) s.
Proof.
  intros Hok Hs He Hp r. eapply wp_mono; [by apply insert_framed_area_spec| |done].
  intros ms' s' (a & a' & Hr & Hty & Hpm & Hpu). fold r in Hr. split_and!.
  - apply Hpu.
  - exists a'. split_and!; [apply Hpu|by rewrite (pushed_range _ _ _ _ _ _ _ Hpu)|].
    intros vpn Hv. rewrite <-Hr in Hv. rewrite <-Hpm. by eapply pushed_lookup_new.
  - intros vpn Hv Hn. rewrite <-Hr in Hn. by eapply pushed_lookup_old.
  - apply Hpu.
Qed.

Lemma insert_framed_area_maps_witness :
  ∃ ms' s', MemorySet_insert_framed_area demo_ms 0x5000 0x6001 MapPermission_R demo_mm = Done ms' s' ∧
    MemorySet_ok s' ms' ∅ ∧
    ∃ f, pt_lookup (phys s') (page_table ms') 6 = Some (PTE_new f (Z.lor MapPermission_R PTE_V)).
Proof.
  pose proof (insert_framed_area_maps demo_mm demo_ms 0x5000 0x6001 MapPermission_R ∅ demo_ms_ok
    ltac:(lia) ltac:(lia) ltac:(vm_compute; split; congruence)) as H. unfold wp in H.
  destruct (MemorySet_insert_framed_area demo_ms 0x5000 0x6001 MapPermission_R demo_mm) as [ms' s'|k|].
  - exists ms', s'. destruct H as ([Hok _ _] & (a' & _ & _ & Hn) & _).
    split; [reflexivity|]. split; [exact Hok|].
    destruct (Hn 6) as (f & _ & _ & Hl); [apply elem_of_vpns; vm_compute; split; congruence|].
    exists f. exact Hl.
  - destruct H as [[_ Hf]|[_ [Hf|(vpn & _ & e & He)]]].
    + vm_compute in Hf. lia.
    + vm_compute in Hf. discriminate Hf.
    + change (page_table demo_ms) with demo_pt in He. rewrite demo_lookup in He. discriminate He.
  - destruct H.
Defined.

(** [munmap_area] removes exactly the areas that contain the whole range, and
    each of these entirely: all their pages become unmapped and all their frames
    free, even those outside the range; every other area keeps its mappings and
    contents.  It never panics. *)
Theorem munmap_area_removes_containing_areas s ms start_va end_va X :
  MemorySet_ok s ms X →
  let st := VirtAddr_floor start_va in let en := VirtAddr_ceil end_va in
  wp (MemorySet_munmap_area ms start_va end_va) (λ ms' s',
      ms_step s ms s' ms' X ∧ areas ms' = not_covering st en (areas ms) ∧
      (∀ f, f ∈ areas_frames (covering st en (areas ms)) → ¬ in_use s' f) ∧
      (∀ f, f ∈ areas_frames (areas ms') → page_agree (phys s) (phys s') f) ∧
      (∀ vpn, is_vpn vpn → pt_lookup (phys s') (page_table ms') vpn =
         if decide (vpn ∈ areas_vpns (covering st en (areas ms))) then None
         else pt_lookup (phys s) (page_table ms) vpn)) no_panic s.
Proof.
  intros Hok st en. eapply wp_mono; [by apply munmap_area_spec| |done].
  intros ms' s' (Hstep & Hpt & Har & Hct & Hl). split_and!; [done..| |done|done].
  intros f Hf. apply (mm_step_freed _ _ _ _ _ (mss_step _ _ _ _ _ Hstep)); unfold ms_frames.
  - rewrite (covering_perm st en (areas ms)), areas_frames_app, !elem_of_app. auto.
  - pose proof (ms_owns _ _ _ _ Hok) as [Hnd _].
    rewrite (covering_perm st en (areas ms)), areas_frames_app in Hnd. subst st en.
    rewrite <-Har in Hnd.
    apply NoDup_app in Hnd as (_ & Hd1 & (_ & Hd2 & _)%NoDup_app).
    rewrite Hpt, elem_of_app. intros [H1|H2]; [|by apply (Hd2 f)].
    apply (Hd1 f H1). apply elem_of_app. by left.
Qed.

Lemma munmap_area_removes_containing_areas_witness :
  ∃ ms s ms' s', demo_run = Done ms s ∧
    MemorySet_munmap_area ms 0x6000 0x7000 s = Done ms' s' ∧ areas ms' = [] ∧
    pt_lookup (phys s') (page_table ms') 5 = None.
Proof.
  destruct demo_run_ok as (ms & s & a & Hrun & Hok & Har & Hr & _).
  destruct (wp_cases _ _ _ _ (munmap_area_removes_containing_areas s ms 0x6000 0x7000 ∅ Hok))
    as [(ms' & s' & Hrun' & _ & Har' & _ & _ & Hl)|(k & _ & [])].
  assert (Hc : covers (VirtAddr_floor 0x6000) (VirtAddr_ceil 0x7000) a = true).
  { unfold covers, MapArea_get_end, MapArea_get_start. rewrite Hr. reflexivity. }
  exists ms, s, ms', s'. split; [exact Hrun|]. split; [exact Hrun'|]. split.
  - rewrite Har', Har. unfold not_covering. rewrite filter_cons, decide_False by congruence. reflexivity.
  - rewrite Hl by (vm_compute; split; congruence). rewrite decide_True; [reflexivity|].
    rewrite Har. unfold covering. rewrite filter_cons, decide_True by exact Hc.
    apply elem_of_areas_vpns. exists a. split; [apply list_elem_of_here|].
    rewrite Hr. apply elem_of_vpns. simpl. lia.
Defined.

(** Moving the program break keeps the invariant and preserves the heap's
    contents: for an area that starts at [start], [append_to] (new end above) and
    [shrink_to] (new end below) make it end at the page that covers [new_end],
    keep the frame of every page that stays and its bytes, give the new pages zeroed
    frames, and leave the other areas alone; [shrink_to] never panics,
    [append_to] only when frames run out or the heap meets a mapped page. *)
Theorem program_break_moves s ms start new_end i a X :
  MemorySet_ok s ms X → find_area (VirtAddr_floor start) (areas ms) = Some (i, a) →
  (range_r (vpn_range a) ≤ VirtAddr_ceil new_end ≤ 2 ^ 27 →
    wp (MemorySet_append_to ms start new_end) (λ r s', fst r = true ∧
        resized s ms i a (VirtAddr_ceil new_end) s' (snd r) X)
      (map_range_error s (page_table ms)
        (vpns (mkSimpleRange (range_r (vpn_range a)) (VirtAddr_ceil new_end)))) s) ∧
  (range_l (vpn_range a) ≤ VirtAddr_ceil new_end ≤ range_r (vpn_range a) →
    wp (MemorySet_shrink_to ms start new_end) (λ r s', fst r = true ∧
        resized s ms i a (VirtAddr_ceil new_end) s' (snd r) X) no_panic s).
Proof.
  intros Hok Hfind. split; intros Hn; [by apply append_to_spec|by apply shrink_to_spec].
Qed.

Lemma program_break_moves_witness :
  ∃ ms s r s', demo_run = Done ms s ∧ MemorySet_append_to ms 0x5000 0xa123 s = Done r s' ∧
    fst r = true ∧ MemorySet_ok s' (snd r) ∅ ∧
    ∃ r2 s2, MemorySet_shrink_to ms 0x5000 0x6000 s = Done r2 s2 ∧ MemorySet_ok s2 (snd r2) ∅.
Proof.
  destruct demo_run_ok as (ms & s & a & Hrun & Hok & Har & Hr & _ & _ & Hfree).
  assert (Hfind : find_area (VirtAddr_floor 0x5000) (areas ms) = Some (0%nat, a)).
  { rewrite Har. unfold find_area. simpl. rewrite decide_True; [reflexivity|].
    unfold SimpleRange_get_start. rewrite Hr. reflexivity. }
  destruct (program_break_moves s ms 0x5000 0xa123 0 a ∅ Hok Hfind) as [Happ _].
  destruct (program_break_moves s ms 0x5000 0x6000 0 a ∅ Hok Hfind) as [_ Hshr].
  rewrite Hr in Happ, Hshr.
  destruct (wp_cases _ _ _ _ (Happ ltac:(vm_compute; split; congruence)))
    as [(r & s' & Hrun' & Ht & [[Hok' _ _] _ _])|(k & _ & [[_ Hf]|[_ (v & Hv & Hm)]])].
  - destruct (wp_cases _ _ _ _ (Hshr ltac:(vm_compute; split; congruence)))
      as [(r2 & s2 & Hrun2 & _ & [[Hok2 _ _] _ _])|(k & _ & [])].
    exists ms, s, r, s'. split; [exact Hrun|]. split; [exact Hrun'|]. split; [exact Ht|].
    split; [exact Hok'|]. exists r2, s2. split; [exact Hrun2|exact Hok2].
  - exfalso. rewrite length_vpns in Hf. change (Z.to_nat _) with 3%nat in Hf. lia.
  - exfalso. apply elem_of_vpns in Hv. change (8 ≤ v < 11) in Hv.
    rewrite (ms_lookup_other _ _ _ _ Hok) in Hm.
    + rewrite lookup_empty in Hm. destruct Hm as [? [=]].
    + unfold is_vpn. lia.
    + rewrite Har. intros (b & Hb & Hbv)%elem_of_areas_vpns.
      apply list_elem_of_singleton in Hb as ->. rewrite Hr in Hbv.
      apply elem_of_vpns in Hbv. simpl in Hbv. lia.
Defined.

(** C17: life cycle of an address space.  Creating one with the trampoline mapped
    succeeds when three frames are free.  After any sequence of insertions,
    removals and resizings the invariant holds, the trampoline is still mapped,
    every frame that belonged to others is untouched; and dropping the address
    space never panics and gives back exactly the frames it took, no more, no
    less. *)
Theorem address_space_lifecycle `{LinkerSymbols} s0 :
  strampoline_ok → mm_wf s0 →
  wp (ms ← MemorySet_new_bare; MemorySet_map_trampoline ms) (λ ms s1,
    ∀ s2 ms', rtc as_step (s1, ms) (s2, ms') →
      MemorySet_ok s2 ms' trampoline_map ∧
      pt_lookup (phys s2) (page_table ms') TRAMPOLINE_VPN = Some trampoline_pte ∧
      (∀ f, in_use s0 f → (f ∉ ms_frames ms') ∧ page_agree (phys s0) (phys s2) f) ∧
      wp (MemorySet_drop ms') (λ _ s3, mm_wf s3 ∧ phys s3 = phys s2 ∧
          free_frames s3 = free_frames s0 ∧ ∀ f, in_use s3 f ↔ in_use s0 f) no_panic s2)
    (λ k, k = UnwrapNone ∧ (free_frames s0 < 3)%nat) s0.
Proof.
  intros Hst Hmm. eapply wp_mono; [by apply create_spec| |done].
  intros ms s1 (Hok & _ & Hstep & _) s2 ms' Hsteps.
  pose proof (as_steps_sound _ _ _ Hsteps Hok) as [Hok2 Hstep2 _]. simpl in Hok2, Hstep2.
  pose proof (mm_step_trans _ _ _ _ _ _ Hstep Hstep2) as Hall.
  split_and!; [done| | |].
  - rewrite (ms_lookup_other _ _ _ _ Hok2); [apply lookup_singleton_eq| |].
    + vm_compute. split; congruence.
    + apply (ms_extra _ _ _ _ Hok2). unfold trampoline_map. rewrite lookup_singleton_eq. by eexists.
  - intros f Hf. destruct (step_other _ _ _ _ Hall f Hf) as (_ & ? & ?); [apply not_elem_of_nil|done].
  - eapply wp_mono; [apply MemorySet_drop_spec; [by eapply ms_mm|by eapply ms_owns]| |done].
    intros [] s3 [Hphys Hdrop].
    pose proof (mm_step_trans _ _ _ _ _ _ Hall Hdrop) as Hround.
    split_and!; [by eapply step_wf|done| |].
    + pose proof (step_count _ _ _ _ Hround) as Hc. simpl in Hc. lia.
    + intros f. split.
      * intros Hf. destruct (step_no_leak _ _ _ _ Hround f Hf) as [?%not_elem_of_nil|[? _]]; done.
      * intros Hf. apply (step_other _ _ _ _ Hround f Hf). apply not_elem_of_nil.
Qed.

Definition demo_symbols : LinkerSymbols :=
  {| stext := 0x80200000; etext := 0x80210000; srodata := 0x80210000; erodata := 0x80218000;
     sdata := 0x80218000; edata := 0x80300000; sbss_with_stack := 0x80300000; ebss := 0x80500000;
     ekernel := 0x80500000; strampoline := 0x80201000 |}.

Lemma address_space_lifecycle_witness :
  ∃ ms s1, (ms ← MemorySet_new_bare; @MemorySet_map_trampoline demo_symbols ms) demo_boot = Done ms s1 ∧
    wp (MemorySet_drop ms) (λ _ s3, free_frames s3 = 63%nat) no_panic s1.
Proof.
  destruct (wp_cases _ _ _ _ (@address_space_lifecycle demo_symbols demo_boot
    ltac:(split; [vm_compute; split; congruence|reflexivity]) demo_boot_wf))
    as [(ms & s1 & Hrun & Hlife)|(k & _ & _ & Hf)].
  - exists ms, s1. split; [exact Hrun|].
    destruct (Hlife s1 ms (rtc_refl _ _)) as (_ & _ & _ & Hdrop).
    eapply wp_mono; [exact Hdrop| |exact (λ k H, H)].
    intros a s3 (_ & _ & Hfree & _). exact Hfree.
  - exfalso. vm_compute in Hf. lia.
Defined.

(** C18: isolation.  Whatever sequence of operations runs on one address space,
    another one whose frames are disjoint keeps its invariant, every one of its
    translations and the contents of every one of its pages and tables, and the
    two stay disjoint. *)
Theorem address_spaces_isolated s msA msB XA XB s' msA' :
  MemorySet_ok s msA XA → MemorySet_ok s msB XB →
  (∀ f, f ∈ ms_frames msB → f ∉ ms_frames msA) →
  rtc as_step (s, msA) (s', msA') →
  MemorySet_ok s' msB XB ∧
  (∀ vpn, pt_lookup (phys s') (page_table msB) vpn = pt_lookup (phys s) (page_table msB) vpn) ∧
  (∀ f, f ∈ ms_frames msB → (f ∉ ms_frames msA') ∧ page_agree (phys s) (phys s') f).
Proof.
  intros HA HB Hdis Hsteps. pose proof (as_steps_sound _ _ _ Hsteps HA) as [_ Hstep _].
  by eapply mm_step_isolates.
Qed.

Lemma address_spaces_isolated_witness :
  ∃ s msA msB s' msA', MemorySet_insert_framed_area msA 0x5000 0x8000 MapPermission_R s = Done msA' s' ∧
    MemorySet_ok s' msB ∅ ∧ pt_lookup (phys s') (page_table msB) 5 = None ∧
    is_Some (pt_lookup (phys s') (page_table msA') 5).
Proof.
  destruct (wp_cases _ _ _ _ (new_bare_spec demo_mm (ms_mm _ _ _ _ demo_ms_ok)))
    as [(msA & s & _ & HA & HAar & HAst & Hlen)|(k & _ & _ & Hf)]; [|discriminate Hf].
  destruct (mm_step_isolates _ _ _ _ (page_table demo_ms) (areas demo_ms) ∅ demo_ms_ok HAst
    (λ f _, not_elem_of_nil f)) as (HB & HBl & HBd).
  pose proof (step_count _ _ _ _ HAst) as Hc. rewrite Hlen in Hc.
  change (free_frames demo_mm) with 62%nat in Hc. simpl in Hc.
  destruct (wp_cases _ _ _ _ (insert_framed_area_spec s msA 0x5000 0x8000 MapPermission_R ∅ HA
    ltac:(lia) ltac:(lia) ltac:(vm_compute; split; congruence)))
    as [(msA' & s' & Hrun & a & a' & Hr & _ & _ & Hpu)|(k & _ & [[_ Hf]|[_ [Hf|(v & Hin & e & He)]]])].
  - destruct (address_spaces_isolated s msA demo_ms ∅ ∅ s' msA' HA HB (λ f Hf, proj1 (HBd f Hf)))
      as (HB' & HBl' & _).
    { apply rtc_once. apply (step_insert s msA 0x5000 0x8000 MapPermission_R); [lia|lia| |exact Hrun].
      vm_compute; split; congruence. }
    exists s, msA, demo_ms, s', msA'. split; [exact Hrun|]. split; [exact HB'|]. split.
    + rewrite HBl', HBl. apply demo_lookup.
    + eapply ms_ok_mapped; [apply (mss_ok _ _ _ _ _ (pushed_step _ _ _ _ _ _ _ Hpu))|].
      rewrite (pushed_areas _ _ _ _ _ _ _ Hpu). apply elem_of_areas_vpns. exists a'.
      split; [apply elem_of_app; right; apply list_elem_of_here|].
      rewrite (pushed_range _ _ _ _ _ _ _ Hpu), Hr. apply elem_of_vpns. vm_compute. split; congruence.
  - exfalso. change (Z.to_nat _) with 3%nat in Hf. lia.
  - exfalso. vm_compute in Hf. discriminate Hf.
  - exfalso. apply elem_of_vpns in Hin. change (5 ≤ v < 8) in Hin.
    rewrite (ms_lookup_other _ _ _ _ HA) in He; [rewrite lookup_empty in He; discriminate He| |].
    + unfold is_vpn. lia.
    + rewrite HAar. apply not_elem_of_nil.
Defined.
