(* ===== verification/UserSpace.v ===== *)
(** * The bytes of an address space

    What a program sees through its page table: [user_byte s ms va] is the byte at
    the virtual address [va].  The kernel writes to user memory through physical
    slices; [user_store] says what such a write looks like from the virtual side. *)
From S2P Require Import Prelude Config Machine Address FrameAllocator Ownership.
From S2P Require Import PageTable PageTree PageTableSpec MemorySet MapAreaSpec MemorySetSpec.

(** The physical address behind a virtual one, through the page table. *)
Definition user_addr (m : memory) (pt : PageTable) (va : Z) : option Z :=
  (λ e, PTE_ppn e * 4096 + va mod 4096) <$> pt_lookup m pt (va / 4096).
Definition user_byte (s : mm) (ms : MemorySet) (va : Z) : option byte :=
  phys s <$> user_addr (phys s) (page_table ms) va.

(** The frame an area of the list has for a page. *)
Definition ms_frame (al : list MapArea) (vpn f : Z) : Prop :=
  ∃ a, a ∈ al ∧ data_frames a !! vpn = Some f.

(** User address spaces have framed areas only. *)
Definition framed (ms : MemorySet) : Prop := Forall (λ a, map_type a = Framed) (areas ms).

(** ** Pages and frames correspond *)

Lemma ms_frame_in al vpn f : ms_frame al vpn f → f ∈ areas_frames al.
Proof.
  intros (a & Ha & Hf). apply elem_of_areas_frames. exists a. split; [done|].
  apply elem_of_area_frames. by exists vpn.
Qed.

Lemma framed_frame s ms X vpn :
  MemorySet_ok s ms X → framed ms → vpn ∈ areas_vpns (areas ms) → ∃ f, ms_frame (areas ms) vpn f.
Proof.
  intros Hok Hfr (a & Ha & Hv)%elem_of_areas_vpns.
  assert (Ht : map_type a = Framed) by (by apply (proj1 (Forall_forall _ _) Hfr)).
  destruct (proj2 (area_dom _ (ms_areas _ _ _ _ Hok a Ha) vpn)) as [f Hf]; [done|].
  exists f, a. by split.
Qed.

Section Pages.
Context (s : mm) (ms : MemorySet) (X : gmap Z Z).
Context (Hok : MemorySet_ok s ms X).

Lemma ms_frame_ppn vpn f : ms_frame (areas ms) vpn f → is_ppn f.
Proof.
  intros Hf%ms_frame_in. eapply owns_is_ppn; [by eapply ms_mm|by eapply ms_owns|].
  apply elem_of_app. by right.
Qed.

Lemma ms_frame_vpn vpn f : ms_frame (areas ms) vpn f → vpn ∈ areas_vpns (areas ms) ∧ is_vpn vpn.
Proof.
  intros (a & Ha & Hf).
  assert (is_Some (data_frames a !! vpn)) as [_ Hv]%(area_dom _ (ms_areas _ _ _ _ Hok a Ha)) by eauto.
  assert (vpn ∈ areas_vpns (areas ms)) by (apply elem_of_areas_vpns; eauto).
  split; [done|]. by eapply areas_vpns_is_vpn.
Qed.

Lemma ms_frame_lookup vpn f :
  ms_frame (areas ms) vpn f →
  ∃ e, pt_lookup (phys s) (page_table ms) vpn = Some e ∧ PTE_ppn e = f.
Proof.
  intros Hfr. pose proof (ms_frame_ppn _ _ Hfr) as Hp. destruct Hfr as (a & Ha & Hf).
  pose proof (ms_areas _ _ _ _ Hok a Ha) as Hwf.
  assert (is_Some (data_frames a !! vpn)) as [Ht Hv]%(area_dom _ Hwf) by eauto.
  rewrite (ms_lookup_area _ _ _ _ Hok a) by done. unfold area_pte, area_ppn. rewrite Ht, Hf.
  eexists. split; [done|]. apply PTE_ppn_new; [done|]. apply lor_V_range, Hwf.
Qed.

Lemma user_addr_frame va f :
  ms_frame (areas ms) (va / 4096) f →
  user_addr (phys s) (page_table ms) va = Some (f * 4096 + va mod 4096).
Proof. intros (e & He & <-)%ms_frame_lookup. unfold user_addr. by rewrite He. Qed.

Lemma ms_frame_fun vpn f f' :
  ms_frame (areas ms) vpn f → ms_frame (areas ms) vpn f' → f = f'.
Proof. intros (e & He & <-)%ms_frame_lookup (e' & He' & <-)%ms_frame_lookup. congruence. Qed.

Lemma area_frames_inj (d : gmap Z Z) v v' f :
  NoDup (map_to_list d).*2 → d !! v = Some f → d !! v' = Some f → v = v'.
Proof.
  intros Hnd Hv Hv'. destruct (decide (v = v')) as [|Hne]; [done|exfalso].
  rewrite (area_frames_delete d v f Hv) in Hnd. apply NoDup_cons in Hnd as [Hn _].
  apply Hn, list_elem_of_fmap. exists (v', f). split; [done|].
  apply elem_of_map_to_list. by rewrite lookup_delete_ne.
Qed.

Lemma ms_frame_inj v v' f : ms_frame (areas ms) v f → ms_frame (areas ms) v' f → v = v'.
Proof.
  intros (a & Ha & Hv) (a' & Ha' & Hv').
  assert (Hnd : NoDup (areas_frames (areas ms))).
  { pose proof (ms_owns _ _ _ _ Hok) as [Hnd _]. by apply NoDup_app in Hnd as (_ & _ & ?). }
  apply elem_of_Permutation in Ha as [al Hal]. rewrite Hal in Ha', Hnd.
  rewrite areas_frames_cons in Hnd. apply NoDup_app in Hnd as (Hnd & Hdis & _).
  apply elem_of_cons in Ha' as [->|Ha']; [by eapply area_frames_inj|].
  destruct (Hdis f).
  - apply elem_of_area_frames. by exists v.
  - apply elem_of_areas_frames. exists a'. split; [done|]. apply elem_of_area_frames. by exists v'.
Qed.

(** ** Writing within a page *)

Lemma ms_frame_not_table v f : ms_frame (areas ms) v f → f ∉ frames (page_table ms).
Proof.
  intros Hf%ms_frame_in Hin. pose proof (ms_owns _ _ _ _ Hok) as [Hnd _].
  apply NoDup_app in Hnd as (_ & Hd & _). by apply (Hd f).
Qed.

Lemma store_page_agree m f o l g :
  0 ≤ o → o + Z.of_nat (length l) ≤ 4096 → g ≠ f →
  page_agree m (store_bytes m (f * 4096 + o) l) g.
Proof. intros. apply mem_agree_sym, store_bytes_agree. lia. Qed.

Lemma user_store va l f :
  ms_frame (areas ms) (va / 4096) f → va mod 4096 + Z.of_nat (length l) ≤ 4096 →
  let s' := {| phys := store_bytes (phys s) (f * 4096 + va mod 4096) l;
               FRAME_ALLOCATOR := FRAME_ALLOCATOR s |} in
  ms_step s ms s' ms X ∧
  (∀ g, g ≠ f → page_agree (phys s) (phys s') g) ∧
  (∀ va' f', ms_frame (areas ms) (va' / 4096) f' → user_byte s' ms va' =
    if decide (va ≤ va' < va + Z.of_nat (length l)) then l !! Z.to_nat (va' - va)
    else user_byte s ms va').
Proof.
  intros Hf Hl s'. assert (Ho : 0 ≤ va mod 4096 < 4096) by (apply Z.mod_pos_bound; lia).
  assert (Hag : ∀ g, g ≠ f → page_agree (phys s) (phys s') g)
    by (intros g Hg; apply store_page_agree; [lia..|done]).
  assert (Hstep : mm_step s (ms_frames ms) s' (ms_frames ms)).
  { apply mm_step_write; [by eapply ms_mm|by eapply ms_owns|done|]. intros g _ Hg. apply Hag.
    intros ->. apply Hg, elem_of_app. right. by eapply ms_frame_in. }
  assert (Hok' : MemorySet_ok s' ms X).
  { eapply ms_ok_agree; [exact Hok|by eapply step_wf|by eapply step_owns|].
    intros g Hg. apply Hag. intros ->. by eapply ms_frame_not_table. }
  assert (Hlk : ∀ v, pt_lookup (phys s') (page_table ms) v = pt_lookup (phys s) (page_table ms) v).
  { intros v. apply pt_lookup_pages_agree; [by eapply ms_tree|].
    intros g Hg. apply Hag. intros ->. by eapply ms_frame_not_table. }
  split; [by split|]. split; [done|]. intros va' f' Hf'.
  unfold user_byte, user_addr. rewrite Hlk.
  destruct (ms_frame_lookup _ _ Hf') as (e & He & Hp). rewrite He. simpl. rewrite Hp.
  case_decide as Hin.
  - assert (Hv : va' / 4096 = va / 4096) by zsolve.
    rewrite Hv in Hf'. rewrite (ms_frame_fun _ _ _ Hf' Hf).
    destruct (lookup_lt_is_Some_2 l (Z.to_nat (va' - va))) as [b Hb]; [lia|].
    rewrite Hb. f_equal. apply store_bytes_in; [zsolve|].
    replace (f * 4096 + va' mod 4096 - (f * 4096 + va mod 4096)) with (va' - va) by zsolve. done.
  - f_equal. apply store_bytes_out. destruct (decide (f' = f)) as [->|Hne]; [|zsolve].
    pose proof (ms_frame_inj _ _ _ Hf Hf') as Hv. zsolve.
Qed.

End Pages.
