(* ===== verification/UserMemory.v ===== *)
(** * Access to user memory from the kernel ([src/mm/page_table.rs], second half)

    System calls receive user virtual addresses and a [satp] token.  The routines
    of this file walk the user's page table page by page and return slices of
    physical memory, or write through them.  A [&'static mut [u8]] is its physical
    address and length; memory a kernel pointer points to is a function from the
    offset to the byte.  Loops carry fuel: [len / PAGE_SIZE + 3] iterations are
    enough for every execution that returns or panics
    ([translated_byte_buffer_flattens]); a string has no length, so
    [translated_str] takes its fuel as an argument. *)
From S2P Require Import Prelude Config Machine Address FrameAllocator Ownership.
From S2P Require Import PageTable PageTree PageTableSpec MemorySet MapAreaSpec MemorySetSpec.
From S2P Require Import AddressSpace UserSpace.

Record ByteSlice : Set := mkByteSlice { bs_addr : Z; bs_len : Z }.

(** [&mut ppn.get_bytes_array()[a..b]], for [b] at most the page size. *)
Definition page_slice {S} (ppn : PhysPageNum) (a b : Z) : M S ByteSlice :=
  if a <=? b then mret {| bs_addr := PhysPageNum_get_bytes_array ppn + a; bs_len := b - a |}
  else panic IndexOutOfBounds.

(** The page, the offsets in it and the next address of one iteration. *)
(* src: src/src/mm/page_table.rs 230-250 translated_byte_buffer *)
Definition chunk (page_table : PageTable) (start end_ : Z) : M mm (PhysPageNum * Z * Z * VirtAddr) :=
  let start_va := VirtAddr_from_usize start in
  let vpn := VirtAddr_floor start_va in
  o ← PageTable_translate page_table vpn;
  e ← unwrap o;
  let ppn := PTE_ppn e in
  let vpn := VirtPageNum_step vpn in
  let end_va := Z.min (VirtAddr_from_VirtPageNum vpn) (VirtAddr_from_usize end_) in
  let stop := if VirtAddr_page_offset end_va =? 0 then PAGE_SIZE
              else VirtAddr_page_offset end_va in
  mret (ppn, VirtAddr_page_offset start_va, stop, end_va).

(* src: src/src/mm/page_table.rs 229-253 translated_byte_buffer *)
Fixpoint translated_byte_buffer_loop (fuel : nat) (page_table : PageTable) (end_ start : Z)
    (v : list ByteSlice) : M mm (list ByteSlice) :=
  match fuel with
  | O => out_of_fuel
  | S fuel =>
      if start <? end_ then
        '(ppn, a, b, end_va) ← chunk page_table start end_;
        sl ← page_slice ppn a b;
        translated_byte_buffer_loop fuel page_table end_ end_va (vec_push v sl)
      else mret v
  end.

Definition loop_fuel (len : Z) : nat := S (S (S (Z.to_nat (len / PAGE_SIZE)))).

(* src: src/src/mm/page_table.rs 222-254 translated_byte_buffer *)
Definition translated_byte_buffer (token ptr len : Z) : M mm (list ByteSlice) :=
  let page_table := PageTable_from_token token in
  let start := ptr in
  let end_ := start +u len in
  translated_byte_buffer_loop (loop_fuel len) page_table end_ start [].

(** [data] gives the bytes at the kernel pointer. *)
(* src: src/src/mm/page_table.rs 264-291 translated_and_write_bytes *)
Fixpoint write_bytes_loop (fuel : nat) (page_table : PageTable) (data : Z → byte)
    (end_ start write_cnt : Z) : M mm unit :=
  match fuel with
  | O => out_of_fuel
  | S fuel =>
      if start <? end_ then
        '(ppn, a, b, end_va) ← chunk page_table start end_;
        let bytes := data <$> seqZ write_cnt (b - a) in
        set_phys (λ m, store_bytes m (PhysPageNum_get_bytes_array ppn + a) bytes);;
        write_bytes_loop fuel page_table data end_ end_va (write_cnt +u Z.of_nat (length bytes))
      else mret tt
  end.

(* src: src/src/mm/page_table.rs 257-292 translated_and_write_bytes *)
Definition translated_and_write_bytes (token ptr : Z) (data : Z → byte) (len : Z) : M mm unit :=
  let page_table := PageTable_from_token token in
  let start := ptr in
  let end_ := start +u len in
  write_bytes_loop (loop_fuel len) page_table data end_ start 0.

(* src: src/src/mm/page_table.rs 295-299 check_map_area_mapping *)
Definition check_map_area_mapping (token : Z) (map_area : MapArea) : M mm bool :=
  MapArea_check_mapping map_area (PageTable_from_token token).

(* src: src/src/mm/page_table.rs 302-306 check_map_area_unmapping *)
Definition check_map_area_unmapping (token : Z) (map_area : MapArea) : M mm bool :=
  MapArea_check_unmapping map_area (PageTable_from_token token).

(* src: src/src/mm/page_table.rs 314-326 translated_str *)
Fixpoint translated_str_loop (fuel : nat) (page_table : PageTable) (va : Z) (string : list byte)
    : M mm (list byte) :=
  match fuel with
  | O => out_of_fuel
  | S fuel =>
      o ← PageTable_translate_va page_table (VirtAddr_from_usize va);
      pa ← unwrap o;
      p ← PhysAddr_get_mut pa;
      ch ← gets (λ s, phys s p);
      if bool_decide (ch = Corelib.Init.Byte.x00) then mret string
      else translated_str_loop fuel page_table (va +u 1) (vec_push string ch)
  end.

(** Each byte becomes the character with that code. *)
(* src: src/src/mm/page_table.rs 309-329 translated_str *)
Definition translated_str (fuel : nat) (token ptr : Z) : M mm (list byte) :=
  translated_str_loop fuel (PageTable_from_token token) ptr [].

(** The address of the [T] behind the reference. *)
(* src: src/src/mm/page_table.rs 332-340 translated_refmut *)
Definition translated_refmut (token ptr : Z) : M mm Z :=
  let page_table := PageTable_from_token token in
  o ← PageTable_translate_va page_table (VirtAddr_from_usize ptr);
  pa ← unwrap o;
  PhysAddr_get_mut pa.

(* src: src/src/mm/page_table.rs 343-346 UserBuffer *)
Record UserBuffer : Set := mkUserBuffer { buffers : list ByteSlice }.

(* src: src/src/mm/page_table.rs 350-352 UserBuffer::new *)
Definition UserBuffer_new (l : list ByteSlice) : UserBuffer := {| buffers := l |}.

(* src: src/src/mm/page_table.rs 355-361 UserBuffer::len *)
Definition UserBuffer_len (self : UserBuffer) : Z :=
  foldl (λ total b, total +u bs_len b) 0 (buffers self).

(** The physical addresses of a slice. *)
Definition slice_addrs (sl : ByteSlice) : list Z := seqZ (bs_addr sl) (bs_len sl).

(** ** A page table rebuilt from its token *)

Lemma from_token_translate pt vpn :
  is_ppn (root_ppn pt) →
  PageTable_translate (PageTable_from_token (PageTable_token pt)) vpn = PageTable_translate pt vpn.
Proof.
  intros H. unfold PageTable_translate, PageTable_find_pte. by rewrite from_token_root.
Qed.

Lemma from_token_find_vpn pt vpn :
  is_ppn (root_ppn pt) →
  PageTable_find_vpn (PageTable_from_token (PageTable_token pt)) vpn = PageTable_find_vpn pt vpn.
Proof.
  intros H. unfold PageTable_find_vpn, PageTable_find_pte. by rewrite from_token_root.
Qed.

Lemma from_token_translate_va pt va :
  is_ppn (root_ppn pt) →
  PageTable_translate_va (PageTable_from_token (PageTable_token pt)) va = PageTable_translate_va pt va.
Proof.
  intros H. unfold PageTable_translate_va, PageTable_find_pte. by rewrite from_token_root.
Qed.

(** ** One iteration *)

(** Where an iteration that starts at [start] stops. *)
Definition chunk_end (start end_ : Z) : Z := Z.min ((start / 4096 + 1) * 4096) end_.

Lemma chunk_end_bounds start end_ :
  start < end_ → start < chunk_end start end_ ≤ end_ ∧
  start mod 4096 + (chunk_end start end_ - start) ≤ 4096 ∧
  (chunk_end start end_ < end_ → chunk_end start end_ / 4096 = start / 4096 + 1).
Proof. intros. unfold chunk_end. zsolve. Qed.

Lemma chunk_eq s pt start end_ e :
  is_ppn (root_ppn pt) → 0 ≤ start < end_ → end_ < 2 ^ 39 →
  pt_lookup (phys s) pt (start / 4096) = Some e →
  chunk (PageTable_from_token (PageTable_token pt)) start end_ s =
    Done (PTE_ppn e, start mod 4096, start mod 4096 + (chunk_end start end_ - start),
          chunk_end start end_) s.
Proof.
  intros Hroot Hs He Hl. unfold chunk. rewrite !VirtAddr_from_usize_mod.
  rewrite (Z.mod_small start), (Z.mod_small end_) by lia.
  change (VirtAddr_floor start) with (start / 4096).
  unfold mbind at 1, M_bind. rewrite from_token_translate by done.
  rewrite (translate_lookup s pt _ e) by done. cbn [unwrap mbind M_bind mret M_ret].
  unfold VirtPageNum_step. rewrite usize_add_small by zsolve.
  rewrite VirtAddr_from_VirtPageNum_mul by zsolve. fold (chunk_end start end_).
  rewrite !VirtAddr_page_offset_mod. unfold PAGE_SIZE.
  replace (if chunk_end start end_ mod 4096 =? 0 then 4096 else chunk_end start end_ mod 4096)
    with (start mod 4096 + (chunk_end start end_ - start)); [done|].
  unfold chunk_end. case_match eqn:Heq; [apply Z.eqb_eq in Heq|apply Z.eqb_neq in Heq]; zsolve.
Qed.

(** ** Buffers *)

Definition pages_mapped (s : mm) (pt : PageTable) (start end_ : Z) : Prop :=
  ∀ va, start ≤ va < end_ → is_Some (pt_lookup (phys s) pt (va / 4096)).

(** The virtual addresses of a slice within a page. *)
Lemma user_addr_chunk m pt start n e :
  pt_lookup m pt (start / 4096) = Some e → start mod 4096 + n ≤ 4096 →
  user_addr m pt <$> seqZ start n = Some <$> seqZ (PTE_ppn e * 4096 + start mod 4096) n.
Proof.
  intros He Hn. apply list_eq. intros i. rewrite !list_lookup_fmap.
  destruct (decide (Z.of_nat i < n)) as [Hi|Hi].
  - rewrite !lookup_seqZ_lt by lia. simpl. f_equal. unfold user_addr.
    replace ((start + Z.of_nat i) / 4096) with (start / 4096) by zsolve. rewrite He. simpl.
    f_equal. zsolve.
  - rewrite !lookup_seqZ_ge by lia. done.
Qed.

Lemma byte_buffer_loop_spec n s pt end_ start v fuel :
  is_ppn (root_ppn pt) → 0 ≤ start ≤ end_ → end_ < 2 ^ 39 → pages_mapped s pt start end_ →
  (start < end_ → end_ ≤ (start / 4096 + Z.of_nat n) * 4096) → (n < fuel)%nat →
  ∃ v', translated_byte_buffer_loop fuel (PageTable_from_token (PageTable_token pt)) end_ start v s
          = Done (v ++ v') s ∧
    Some <$> (v' ≫= slice_addrs) = user_addr (phys s) pt <$> seqZ start (end_ - start) ∧
    Forall (λ sl, 0 < bs_len sl ≤ 4096 ∧ bs_addr sl mod 4096 + bs_len sl ≤ 4096) v'.
Proof.
  intros Hroot. revert start v fuel.
  induction n as [|n IH]; intros start v [|fuel] Hs He Hmap Hn Hf; try lia;
    cbn [translated_byte_buffer_loop]; destruct (Z.ltb_spec start end_) as [Hlt|Hge].
  1: { specialize (Hn Hlt). zsolve. }
  1,3: exists []; rewrite app_nil_r; replace (end_ - start) with 0 by lia;
       split_and!; [done|done|constructor].
  destruct (Hmap start) as [e Hl]; [lia|]. pose proof (chunk_end_bounds start end_ Hlt) as (H1 & H2 & H3).
  unfold mbind at 1, M_bind. rewrite (chunk_eq s pt start end_ e) by (done || lia).
  set (next := chunk_end start end_) in *. unfold page_slice.
  rewrite (proj2 (Z.leb_le _ _)) by lia. unfold PhysPageNum_get_bytes_array.
  rewrite PhysAddr_from_PhysPageNum_mul by apply PTE_ppn_is_ppn.
  set (sl := {| bs_addr := _; bs_len := _ |}).
  destruct (IH next (vec_push v sl) fuel) as (v' & Hrun & Haddr & Hall);
    [lia|done|intros va Hva; apply Hmap; lia| |lia|].
  { intros Hlt'. specialize (Hn Hlt). rewrite H3 by done. lia. }
  exists (sl :: v'). split_and!.
  - unfold mbind, M_bind. cbn [mret M_ret]. rewrite Hrun. unfold vec_push. by rewrite <-app_assoc.
  - replace (end_ - start) with ((next - start) + (end_ - next)) by lia.
    rewrite seqZ_app by lia. replace (start + (next - start)) with next by lia.
    rewrite fmap_app, <-Haddr, (user_addr_chunk _ _ _ _ e) by (done || lia).
    cbn [mbind list_bind]. rewrite fmap_app. do 2 f_equal. unfold slice_addrs, sl. simpl. f_equal; lia.
  - constructor; [|done]. unfold sl. simpl. zsolve.
Qed.

Lemma loop_fuel_enough ptr len :
  0 ≤ ptr → 0 ≤ len →
  ptr + len ≤ (ptr / 4096 + Z.of_nat (S (S (Z.to_nat (len / PAGE_SIZE))))) * 4096.
Proof. intros. unfold PAGE_SIZE. zsolve. Qed.

Lemma UserBuffer_len_sum v :
  Forall (λ sl, 0 ≤ bs_len sl) v → Z.of_nat (length (v ≫= slice_addrs)) < 2 ^ 64 →
  UserBuffer_len (UserBuffer_new v) = Z.of_nat (length (v ≫= slice_addrs)).
Proof.
  intros Hall Hlt. unfold UserBuffer_len. simpl.
  assert (H : ∀ acc, 0 ≤ acc → acc + Z.of_nat (length (v ≫= slice_addrs)) < 2 ^ 64 →
    foldl (λ total b, total +u bs_len b) acc v = acc + Z.of_nat (length (v ≫= slice_addrs))).
  { clear Hlt. induction Hall as [|sl v Hsl _ IH]; intros acc Hacc Hlt; [simpl; lia|].
    assert (Hlen : length ((sl :: v) ≫= slice_addrs) =
      (Z.to_nat (bs_len sl) + length (v ≫= slice_addrs))%nat).
    { rewrite bind_cons, length_app. f_equal. apply length_seqZ. }
    rewrite Hlen in *. simpl. rewrite usize_add_small by lia. rewrite IH by lia. lia. }
  apply (H 0); lia.
Qed.

Lemma byte_buffer_spec s pt ptr len :
  is_ppn (root_ppn pt) → 0 ≤ ptr → 0 ≤ len → ptr + len < 2 ^ 39 →
  pages_mapped s pt ptr (ptr + len) →
  ∃ v, translated_byte_buffer (PageTable_token pt) ptr len s = Done v s ∧
    Some <$> (v ≫= slice_addrs) = user_addr (phys s) pt <$> seqZ ptr len ∧
    Forall (λ sl, 0 < bs_len sl ≤ 4096 ∧ bs_addr sl mod 4096 + bs_len sl ≤ 4096) v.
Proof.
  intros Hroot Hp Hl Hb Hmap. unfold translated_byte_buffer. rewrite usize_add_small by lia.
  destruct (byte_buffer_loop_spec (S (S (Z.to_nat (len / PAGE_SIZE)))) s pt (ptr + len) ptr []
    (loop_fuel len)) as (v & Hrun & Haddr & Hall); try done; [lia|intros _|unfold loop_fuel; lia|].
  { by apply loop_fuel_enough. }
  exists v. replace (ptr + len - ptr) with len in Haddr by lia. by split_and!.
Qed.

(** Past the end of the SV39 space the loop never returns: [VirtAddr::from] masks
    the end address, so [start] can never reach it. *)
Lemma byte_buffer_loop_stuck fuel pt end_ start v s v' s' :
  0 ≤ start → 2 ^ 39 ≤ end_ < 2 ^ 64 → start < end_ →
  translated_byte_buffer_loop fuel pt end_ start v s ≠ Done v' s'.
Proof.
  intros Hs He Hlt. revert start v s Hs Hlt.
  induction fuel as [|fuel IH]; intros start v s Hs Hlt; cbn [translated_byte_buffer_loop]; [done|].
  rewrite (proj2 (Z.ltb_lt _ _)) by done. unfold mbind at 1, M_bind, chunk.
  set (end_va := Z.min _ _).
  assert (Hend : 0 ≤ end_va < end_).
  { unfold end_va. rewrite (VirtAddr_from_usize_mod end_). unfold VirtAddr_from_VirtPageNum.
    assert (0 ≤ VirtPageNum_step (VirtAddr_floor (VirtAddr_from_usize start)) <<u PAGE_SIZE_BITS)
      by apply is_usize_wrap64.
    pose proof (Z.mod_pos_bound end_ (2 ^ 39)). lia. }
  unfold mbind, M_bind. destruct (PageTable_translate _ _ s) as [[e|] s1|k|]; [|done..].
  simpl. unfold page_slice. destruct (_ <=? _); [|done]. simpl. apply IH; lia.
Qed.

(** ** Writing *)

Definition user_range (ms : MemorySet) (start end_ : Z) : Prop :=
  ∀ va, start ≤ va < end_ → va / 4096 ∈ areas_vpns (areas ms).

(** The state in which the bytes [start, end_) of the address space were
    overwritten, [data i] going to [start + i], and nothing else changed. *)
Record user_written (s : mm) (ms : MemorySet) (X : gmap Z Z) (start end_ : Z) (data : Z → byte)
    (s' : mm) : Prop := {
  uw_step : ms_step s ms s' ms X;
  uw_bytes va : va / 4096 ∈ areas_vpns (areas ms) → user_byte s' ms va =
    if decide (start ≤ va < end_) then Some (data (va - start)) else user_byte s ms va;
}.

Lemma ms_step_user_trans s ms X start mid end_ data s1 s2 :
  start ≤ mid ≤ end_ →
  user_written s ms X start mid data s1 →
  user_written s1 ms X mid end_ (λ i, data (mid - start + i)) s2 →
  user_written s ms X start end_ data s2.
Proof.
  intros Hm [[Hok1 Hst1 _] Hb1] [[Hok2 Hst2 _] Hb2].
  split; [split; [done|by eapply mm_step_trans|done]|]. intros va Hva.
  rewrite Hb2, Hb1 by done. repeat case_decide; try lia; [|done..]. do 2 f_equal. lia.
Qed.

Lemma token_root s ms X : MemorySet_ok s ms X → is_ppn (root_ppn (page_table ms)).
Proof. intros Hok. eapply pt_ok_root_ppn, ms_ok_pt_ok, Hok. Qed.

Lemma wp_chunk s ms X start end_ f (Q : _ → mm → Prop) E :
  MemorySet_ok s ms X → 0 ≤ start < end_ → end_ < 2 ^ 39 → ms_frame (areas ms) (start / 4096) f →
  Q (f, start mod 4096, start mod 4096 + (chunk_end start end_ - start), chunk_end start end_) s →
  wp (chunk (PageTable_from_token (MemorySet_token ms)) start end_) Q E s.
Proof.
  intros Hok Hs He Hf HQ. destruct (ms_frame_lookup _ _ _ Hok _ _ Hf) as (e & Hl & Hp).
  unfold wp, MemorySet_token. rewrite (chunk_eq s (page_table ms) start end_ e); try done.
  - by rewrite Hp.
  - by eapply token_root.
Qed.

Lemma write_chunk s ms X start n f data :
  MemorySet_ok s ms X → framed ms → ms_frame (areas ms) (start / 4096) f →
  0 ≤ n → start mod 4096 + n ≤ 4096 →
  user_written s ms X start (start + n) data
    {| phys := store_bytes (phys s) (f * 4096 + start mod 4096) (data <$> seqZ 0 n);
       FRAME_ALLOCATOR := FRAME_ALLOCATOR s |}.
Proof.
  intros Hok Hfr Hf Hn Hl. set (l := data <$> seqZ 0 n).
  assert (Hlen : Z.of_nat (length l) = n) by (unfold l; rewrite length_fmap, length_seqZ; lia).
  destruct (user_store s ms X Hok start l f Hf ltac:(lia)) as (Hst & _ & Hb).
  split; [exact Hst|]. intros va Hva.
  destruct (framed_frame _ _ _ _ Hok Hfr Hva) as [f' Hf']. rewrite (Hb va f' Hf'), Hlen.
  case_decide as Hin; [|done]. unfold l. rewrite list_lookup_fmap, lookup_seqZ_lt by lia.
  simpl. do 2 f_equal. lia.
Qed.

Lemma write_bytes_loop_spec n s ms X end_ start cnt data fuel :
  MemorySet_ok s ms X → framed ms → 0 ≤ start ≤ end_ → end_ < 2 ^ 39 →
  0 ≤ cnt < 2 ^ 40 → user_range ms start end_ →
  (start < end_ → end_ ≤ (start / 4096 + Z.of_nat n) * 4096) → (n < fuel)%nat →
  cnt + (end_ - start) < 2 ^ 40 →
  wp (write_bytes_loop fuel (PageTable_from_token (MemorySet_token ms)) data end_ start cnt)
    (λ _ s', user_written s ms X start end_ (λ i, data (cnt + i)) s') no_panic s.
Proof.
  intros Hok Hfr. revert s start cnt fuel Hok.
  induction n as [|n IH]; intros s start cnt [|fuel] Hok Hs He Hc Hmap Hn Hf Hcnt; try lia;
    cbn [write_bytes_loop]; destruct (Z.ltb_spec start end_) as [Hlt|Hge].
  1: { specialize (Hn Hlt). zsolve. }
  1,3: wp_step; split; [split; [done|apply mm_step_refl; [by eapply ms_mm|by eapply ms_owns]|done]|];
       intros va _; rewrite decide_False by lia; done.
  destruct (framed_frame _ _ _ _ Hok Hfr (Hmap start ltac:(lia))) as [f Hf'].
  pose proof (chunk_end_bounds start end_ Hlt) as (H1 & H2 & H3).
  wp_step. eapply wp_chunk; [done|lia|done|done|].
  set (next := chunk_end start end_) in *. unfold PhysPageNum_get_bytes_array.
  rewrite PhysAddr_from_PhysPageNum_mul by (by eapply ms_frame_ppn).
  replace (start mod 4096 + (next - start) - start mod 4096) with (next - start) by lia.
  wp_step. unfold set_phys. wp_step.
  assert (Hseq : data <$> seqZ cnt (next - start) = (λ i, data (cnt + i)) <$> seqZ 0 (next - start)).
  { apply list_eq. intros i. rewrite !list_lookup_fmap.
    destruct (decide (Z.of_nat i < next - start)); [rewrite !lookup_seqZ_lt by lia|rewrite !lookup_seqZ_ge by lia];
      simpl; do 2 f_equal; lia. }
  rewrite length_fmap, length_seqZ, usize_add_small by lia. rewrite Hseq.
  pose proof (write_chunk s ms X start (next - start) f (λ i, data (cnt + i)) Hok Hfr Hf'
    ltac:(lia) ltac:(lia)) as Hw. replace (start + (next - start)) with next in Hw by lia.
  set (s1 := {| phys := _; FRAME_ALLOCATOR := _ |}) in *.
  eapply wp_mono; [apply (IH s1 next)| |done].
  - apply Hw.
  - lia.
  - done.
  - lia.
  - intros va Hva. apply Hmap. lia.
  - intros Hlt'. specialize (Hn Hlt). rewrite H3 by done. lia.
  - lia.
  - lia.
  - intros [] s' Hw'. eapply (ms_step_user_trans s ms X start next end_); [lia|done|].
    destruct Hw' as [Hst Hb]. split; [done|]. intros va Hva. rewrite Hb by done.
    case_decide; [|done]. do 2 f_equal. lia.
Qed.

Lemma write_bytes_spec s ms X ptr data len :
  MemorySet_ok s ms X → framed ms → 0 ≤ ptr → 0 ≤ len → ptr + len < 2 ^ 39 →
  user_range ms ptr (ptr + len) →
  wp (translated_and_write_bytes (MemorySet_token ms) ptr data len)
    (λ _ s', user_written s ms X ptr (ptr + len) data s') no_panic s.
Proof.
  intros Hok Hfr Hp Hl Hb Hmap. unfold translated_and_write_bytes. rewrite usize_add_small by lia.
  eapply wp_mono; [apply (write_bytes_loop_spec (S (S (Z.to_nat (len / PAGE_SIZE)))))| |done];
    try done; try lia; [intros _; by apply loop_fuel_enough|unfold loop_fuel; lia].
Qed.

(** ** Single addresses and strings *)

Lemma translate_va_eq s pt va e :
  is_ppn (root_ppn pt) → pt_lookup (phys s) pt (va / 4096) = Some e →
  PageTable_translate_va (PageTable_from_token (PageTable_token pt)) va s =
    Done (Some (PTE_ppn e * 4096 + va mod 4096)) s.
Proof.
  intros Hroot Hl. rewrite from_token_translate_va by done.
  unfold PageTable_translate_va, mbind, M_bind. change (VirtAddr_floor va) with (va / 4096).
  rewrite find_pte_eq by done. apply pt_lookup_Some in Hl as (p & Hp & -> & _). rewrite Hp. simpl.
  unfold read_pte, gets. simpl. fold (entry (phys s) p (leaf (va / 4096))).
  set (e := entry _ _ _). pose proof (PTE_ppn_is_ppn e) as He. unfold is_ppn in He.
  rewrite (PhysAddr_from_PhysPageNum_mul (PTE_ppn e)) by done. rewrite VirtAddr_page_offset_mod.
  rewrite usize_add_small, PhysAddr_from_usize_mod, Z.mod_small by zsolve. done.
Qed.

Lemma user_addr_Some m pt va a :
  user_addr m pt va = Some a ↔
  ∃ e, pt_lookup m pt (va / 4096) = Some e ∧ a = PTE_ppn e * 4096 + va mod 4096.
Proof. unfold user_addr. rewrite fmap_Some. naive_solver. Qed.

Lemma refmut_eq s pt ptr a :
  is_ppn (root_ppn pt) → 0 ≤ ptr < 2 ^ 39 → user_addr (phys s) pt ptr = Some a → a ≠ 0 →
  translated_refmut (PageTable_token pt) ptr s = Done a s.
Proof.
  intros Hroot Hp (e & He & ->)%user_addr_Some Hne. unfold translated_refmut, mbind, M_bind.
  rewrite VirtAddr_from_usize_mod, Z.mod_small by done. rewrite (translate_va_eq s pt ptr e) by done.
  simpl. unfold PhysAddr_get_mut. by rewrite (proj2 (Z.eqb_neq _ _)).
Qed.

Definition user_string (s : mm) (ms : MemorySet) (ptr : Z) (str : list byte) : Prop :=
  (∀ i b, str !! i = Some b → b ≠ Corelib.Init.Byte.x00 ∧ user_byte s ms (ptr + Z.of_nat i) = Some b) ∧
  user_byte s ms (ptr + Z.of_nat (length str)) = Some Corelib.Init.Byte.x00.

Lemma str_loop_step s ms va string fuel b :
  is_ppn (root_ppn (page_table ms)) → 0 ≤ va < 2 ^ 39 →
  user_byte s ms va = Some b → user_addr (phys s) (page_table ms) va ≠ Some 0 →
  translated_str_loop (S fuel) (PageTable_from_token (MemorySet_token ms)) va string s =
    if decide (b = Corelib.Init.Byte.x00) then Done string s
    else translated_str_loop fuel (PageTable_from_token (MemorySet_token ms)) (va + 1)
           (vec_push string b) s.
Proof.
  intros Hroot Hva (a & Ha & ->)%fmap_Some Hnz. pose proof Ha as (e & He & Heq)%user_addr_Some.
  cbn [translated_str_loop]. unfold mbind, M_bind.
  rewrite VirtAddr_from_usize_mod, Z.mod_small by done. unfold MemorySet_token.
  rewrite (translate_va_eq s (page_table ms) va e) by done. rewrite <-Heq. simpl.
  unfold PhysAddr_get_mut. rewrite (proj2 (Z.eqb_neq a 0)) by congruence.
  rewrite usize_add_small by lia. unfold gets, mret, M_ret.
  case_decide as Hc; [by rewrite bool_decide_true|by rewrite bool_decide_false].
Qed.

Lemma str_loop_spec s ms str ptr acc fuel :
  is_ppn (root_ppn (page_table ms)) → 0 ≤ ptr → ptr + Z.of_nat (length str) < 2 ^ 39 →
  (∀ va, ptr ≤ va ≤ ptr + Z.of_nat (length str) →
    user_addr (phys s) (page_table ms) va ≠ Some 0) →
  user_string s ms ptr str → (length str < fuel)%nat →
  translated_str_loop fuel (PageTable_from_token (MemorySet_token ms)) ptr acc s = Done (acc ++ str) s.
Proof.
  intros Hroot. revert ptr acc fuel.
  induction str as [|b str IH]; intros ptr acc [|fuel] Hp Hb Hnz [Hs Hz] Hf; cbn [length] in *; try lia.
  - rewrite Z.add_0_r in Hz. rewrite (str_loop_step s ms ptr _ _ _ Hroot ltac:(lia) Hz) by (apply Hnz; lia).
    by rewrite app_nil_r.
  - destruct (Hs 0%nat b) as [Hb0 Hb1]; [done|]. rewrite Z.add_0_r in Hb1.
    rewrite (str_loop_step s ms ptr _ _ _ Hroot ltac:(lia) Hb1) by (apply Hnz; lia).
    rewrite decide_False by done. rewrite IH; [|lia|lia|intros va Hva; apply Hnz; lia| |lia].
    + unfold vec_push. by rewrite <-app_assoc.
    + split.
      * intros i c Hc. replace (ptr + 1 + Z.of_nat i) with (ptr + Z.of_nat (S i)) by lia. by apply Hs.
      * rewrite <-Hz. f_equal. lia.
Qed.

(** ** Checking ranges *)

Lemma any_vpn_eq test pt l s :
  is_ppn (root_ppn pt) →
  any_vpn test (PageTable_from_token (PageTable_token pt)) l s =
    Done (existsb (λ v, test (bool_decide (is_Some (pt_lookup (phys s) pt v)))) l) s.
Proof.
  intros Hroot. induction l as [|v l IH]; [done|]. cbn [any_vpn existsb].
  unfold mbind, M_bind. rewrite from_token_find_vpn, find_vpn_eq by done.
  destruct (test _); [done|]. by rewrite IH.
Qed.

Lemma check_mapping_spec s pt a :
  is_ppn (root_ppn pt) →
  ∃ b, check_map_area_mapping (PageTable_token pt) a s = Done b s ∧
    (b = true ↔ ∃ vpn, vpn ∈ vpns (vpn_range a) ∧ is_Some (pt_lookup (phys s) pt vpn)).
Proof.
  intros Hroot. unfold check_map_area_mapping, MapArea_check_mapping. rewrite any_vpn_eq by done.
  eexists. split; [done|]. rewrite existsb_exists. unfold id.
  setoid_rewrite bool_decide_eq_true. setoid_rewrite list_elem_of_In. done.
Qed.

Lemma check_unmapping_spec s pt a :
  is_ppn (root_ppn pt) →
  ∃ b, check_map_area_unmapping (PageTable_token pt) a s = Done b s ∧
    (b = true ↔ ∃ vpn, vpn ∈ vpns (vpn_range a) ∧ pt_lookup (phys s) pt vpn = None).
Proof.
  intros Hroot. unfold check_map_area_unmapping, MapArea_check_unmapping. rewrite any_vpn_eq by done.
  eexists. split; [done|]. rewrite existsb_exists. setoid_rewrite negb_true_iff.
  setoid_rewrite bool_decide_eq_false. setoid_rewrite <-eq_None_not_Some.
  setoid_rewrite list_elem_of_In. done.
Qed.

Lemma user_addr_nonzero s ms X va :
  MemorySet_ok s ms X → framed ms → 0 ∉ ms_frames ms → va / 4096 ∈ areas_vpns (areas ms) →
  ∃ a, user_addr (phys s) (page_table ms) va = Some a ∧ a ≠ 0.
Proof.
  intros Hok Hfr Hz Hva. destruct (framed_frame _ _ _ _ Hok Hfr Hva) as [f Hf].
  eexists. split; [by apply (user_addr_frame _ _ _ Hok)|].
  pose proof (ms_frame_ppn _ _ _ Hok _ _ Hf) as Hp. unfold is_ppn in Hp.
  assert (f ≠ 0).
  { intros ->. apply Hz, elem_of_app. right. by eapply ms_frame_in. }
  zsolve.
Qed.

(** ** Properties *)

(** [translated_byte_buffer] returns and never panics on a mapped user buffer:
    the slices it returns, taken in order, are exactly the physical bytes behind
    the virtual addresses [ptr, ptr + len), each slice stays within one page, and
    [UserBuffer::len] of them is [len]. *)
Theorem translated_byte_buffer_flattens s pt ptr len :
  pt_ok s pt → 0 ≤ ptr → 0 ≤ len → ptr + len < 2 ^ 39 → pages_mapped s pt ptr (ptr + len) →
  wp (translated_byte_buffer (PageTable_token pt) ptr len) (λ v s', s' = s ∧
      Some <$> (v ≫= slice_addrs) = user_addr (phys s) pt <$> seqZ ptr len ∧
      Forall (λ sl, 0 < bs_len sl ∧ bs_addr sl mod 4096 + bs_len sl ≤ 4096) v ∧
      UserBuffer_len (UserBuffer_new v) = len) no_panic s.
Proof.
  intros Hok Hp Hl Hb Hmap. pose proof (pt_ok_root_ppn _ _ Hok) as Hroot.
  destruct (byte_buffer_spec s pt ptr len Hroot Hp Hl Hb Hmap) as (v & Hrun & Haddr & Hall).
  unfold wp. rewrite Hrun.
  assert (Hlen : Z.of_nat (length (v ≫= slice_addrs)) = len).
  { apply (f_equal length) in Haddr. rewrite !length_fmap, length_seqZ in Haddr. lia. }
  split_and!; [done..| |].
  - eapply Forall_impl; [exact Hall|]. simpl. naive_solver.
  - rewrite UserBuffer_len_sum; [done| |lia]. eapply Forall_impl; [exact Hall|]. simpl. lia.
Qed.

Lemma demo_run_user : ∃ ms s, demo_run = Done ms s ∧ MemorySet_ok s ms ∅ ∧ framed ms ∧
  user_range ms 0x5000 0x8000 ∧ 0 ∉ ms_frames ms.
Proof.
  destruct demo_run_ok as (ms & s & a & Hrun & Hok & Har & Hr & Hty & Hz & _).
  exists ms, s. split_and!; [exact Hrun|exact Hok| | |exact Hz].
  - unfold framed. rewrite Har. by repeat constructor.
  - intros va Hva. rewrite Har. apply elem_of_areas_vpns. exists a.
    split; [apply list_elem_of_here|]. rewrite Hr. apply elem_of_vpns. simpl. zsolve.
Qed.

Lemma translated_byte_buffer_flattens_witness :
  ∃ ms s v, demo_run = Done ms s ∧
    translated_byte_buffer (MemorySet_token ms) 0x5ff0 0x1020 s = Done v s ∧
    UserBuffer_len (UserBuffer_new v) = 0x1020.
Proof.
  destruct demo_run_user as (ms & s & Hrun & Hok & Hfr & Hrange & _).
  destruct (wp_cases _ _ _ _ (translated_byte_buffer_flattens s (page_table ms) 0x5ff0 0x1020
    (ms_ok_pt_ok _ _ _ _ Hok) ltac:(lia) ltac:(lia) ltac:(lia)
    (λ va Hva, ms_ok_mapped _ _ _ _ _ Hok (Hrange va ltac:(lia)))))
    as [(v & s' & Hrun' & -> & _ & _ & Hlen)|(k & _ & [])].
  exists ms, s, v. split; [exact Hrun|]. split; [exact Hrun'|exact Hlen].
Defined.

(** C37: a buffer that reaches the end of the 39-bit address space is never
    returned: whatever the page table and however long the loop runs, it does not
    finish normally (the end address is masked to 39 bits, so [start] stays below
    [end]). *)
Theorem byte_buffer_beyond_sv39_never_returns s pt ptr len :
  0 ≤ ptr → 0 < len → 2 ^ 39 ≤ ptr + len < 2 ^ 64 →
  (∀ v s', translated_byte_buffer (PageTable_token pt) ptr len s ≠ Done v s') ∧
  ∀ fuel v s', translated_byte_buffer_loop fuel (PageTable_from_token (PageTable_token pt))
    (ptr +u len) ptr [] s ≠ Done v s'.
Proof.
  intros Hp Hl He. rewrite usize_add_small by lia.
  assert (H : ∀ fuel v s', translated_byte_buffer_loop fuel (PageTable_from_token (PageTable_token pt))
    (ptr + len) ptr [] s ≠ Done v s') by (intros; apply byte_buffer_loop_stuck; lia).
  split; [|exact H]. intros v s'. unfold translated_byte_buffer. rewrite usize_add_small by lia.
  apply H.
Qed.

Lemma byte_buffer_beyond_sv39_never_returns_witness :
  2 ^ 39 ≤ 2 ^ 39 + 1 ∧
  ¬ (∃ v s', translated_byte_buffer (PageTable_token demo_pt) (2 ^ 39) 1 demo_mm = Done v s').
Proof.
  split; [lia|]. intros (v & s' & Hrun).
  apply (proj1 (byte_buffer_beyond_sv39_never_returns demo_mm demo_pt (2 ^ 39) 1
    ltac:(lia) ltac:(lia) ltac:(lia)) v s' Hrun).
Defined.

(** C22: writing to user memory and reading it back.  [translated_and_write_bytes]
    to a buffer of a user address space returns without panicking; afterwards the
    user sees exactly the given bytes in the buffer and his old bytes everywhere
    else, no mapping and no frame of another owner changed, and the slices
    [translated_byte_buffer] gives for the buffer hold the data. *)
Theorem translated_write_then_read s ms X ptr data len :
  MemorySet_ok s ms X → framed ms → 0 ≤ ptr → 0 ≤ len → ptr + len < 2 ^ 39 →
  user_range ms ptr (ptr + len) →
  wp (translated_and_write_bytes (MemorySet_token ms) ptr data len) (λ _ s',
      user_written s ms X ptr (ptr + len) data s' ∧
      wp (translated_byte_buffer (MemorySet_token ms) ptr len) (λ v s'', s'' = s' ∧
          phys s' <$> (v ≫= slice_addrs) = data <$> seqZ 0 len) no_panic s') no_panic s.
Proof.
  intros Hok Hfr Hp Hl Hb Hmap. eapply wp_mono; [by apply write_bytes_spec| |done].
  intros [] s' Hw. split; [done|]. pose proof Hw as [[Hok' _ _] Hbytes].
  destruct (byte_buffer_spec s' (page_table ms) ptr len) as (v & Hrun & Haddr & _);
    [by eapply token_root|done..|intros va Hva; eapply ms_ok_mapped; [done|by apply Hmap]|].
  unfold wp, MemorySet_token. rewrite Hrun. split; [done|].
  apply list_eq. intros i. rewrite !list_lookup_fmap.
  apply (f_equal (lookup i)) in Haddr. rewrite !list_lookup_fmap in Haddr.
  destruct (decide (Z.of_nat i < len)) as [Hi|Hi].
  - rewrite lookup_seqZ_lt in Haddr by lia. rewrite lookup_seqZ_lt by lia.
    destruct ((v ≫= slice_addrs) !! i) as [a|]; simpl in *; [|done].
    specialize (Hbytes (ptr + Z.of_nat i) (Hmap (ptr + Z.of_nat i) ltac:(lia))).
    rewrite decide_True in Hbytes by lia. unfold user_byte in Hbytes.
    injection Haddr as Haddr. rewrite <-Haddr in Hbytes. simpl in Hbytes.
    rewrite Hbytes. do 2 f_equal. lia.
  - rewrite lookup_seqZ_ge in Haddr by lia. rewrite lookup_seqZ_ge by lia.
    by destruct ((v ≫= slice_addrs) !! i).
Qed.

(** The string [hi] and its terminator. *)
Definition demo_str : list byte := [Corelib.Init.Byte.x68; Corelib.Init.Byte.x69].
Definition demo_data (i : Z) : byte := default Corelib.Init.Byte.x00 (demo_str !! Z.to_nat i).

Lemma translated_write_then_read_witness :
  ∃ ms s s', demo_run = Done ms s ∧
    translated_and_write_bytes (MemorySet_token ms) 0x5fff demo_data 3 s = Done tt s' ∧
    user_byte s' ms 0x6000 = Some Corelib.Init.Byte.x69.
Proof.
  destruct demo_run_user as (ms & s & Hrun & Hok & Hfr & Hrange & _).
  destruct (wp_cases _ _ _ _ (translated_write_then_read s ms ∅ 0x5fff demo_data 3 Hok Hfr
    ltac:(lia) ltac:(lia) ltac:(lia) (λ va Hva, Hrange va ltac:(lia))))
    as [([] & s' & Hrun' & [_ Hb] & _)|(k & _ & [])].
  exists ms, s, s'. split; [exact Hrun|]. split; [exact Hrun'|].
  rewrite Hb by (apply Hrange; lia). reflexivity.
Defined.

(** [translated_str] reads the user's string up to the first zero byte, across
    pages, and nothing else: it returns with any fuel above the length and changes
    nothing. *)
Theorem translated_str_reads_string s ms X ptr str fuel :
  MemorySet_ok s ms X → framed ms → 0 ∉ ms_frames ms →
  0 ≤ ptr → ptr + Z.of_nat (length str) < 2 ^ 39 →
  user_range ms ptr (ptr + Z.of_nat (length str) + 1) → user_string s ms ptr str →
  (length str < fuel)%nat →
  translated_str fuel (MemorySet_token ms) ptr s = Done str s.
Proof.
  intros Hok Hfr Hz Hp Hb Hmap Hs Hf. apply (str_loop_spec s ms str ptr []); try done.
  - by eapply token_root.
  - intros va Hva. destruct (user_addr_nonzero s ms X va Hok Hfr Hz) as (a & -> & ?); [|congruence].
    apply Hmap. lia.
Qed.

Lemma translated_str_reads_string_witness :
  ∃ ms s s', demo_run = Done ms s ∧
    translated_and_write_bytes (MemorySet_token ms) 0x5fff demo_data 3 s = Done tt s' ∧
    translated_str 10 (MemorySet_token ms) 0x5fff s' = Done demo_str s'.
Proof.
  destruct demo_run_user as (ms & s & Hrun & Hok & Hfr & Hrange & Hz).
  destruct (wp_cases _ _ _ _ (write_bytes_spec s ms ∅ 0x5fff demo_data 3 Hok Hfr
    ltac:(lia) ltac:(lia) ltac:(lia) (λ va Hva, Hrange va ltac:(lia))))
    as [([] & s' & Hrun' & [[Hok' _ _] Hb])|(k & _ & [])].
  exists ms, s, s'. split; [exact Hrun|]. split; [exact Hrun'|].
  apply (translated_str_reads_string s' ms ∅ 0x5fff demo_str 10 Hok' Hfr Hz).
  - lia.
  - simpl. lia.
  - intros va Hva. apply Hrange. simpl in Hva. lia.
  - split.
    + intros i b Hi.
      assert (Hi2 : (i < 2)%nat) by (apply lookup_lt_Some in Hi; exact Hi).
      rewrite Hb by (apply Hrange; zsolve).
      destruct i as [|[|i]]; [| |lia]; injection Hi as <-; (split; [congruence|reflexivity]).
    + rewrite Hb by (apply Hrange; simpl; lia). reflexivity.
  - simpl. lia.
Defined.
