(* ===== verification/Fork.v ===== *)
(** * Copying an address space ([MemorySet::from_existed_user])

    [fork] gives the child a new address space with the same areas and a copy of
    every page.  The loop over the areas is followed with the relation [forked]. *)
From S2P Require Import Prelude Config Machine Address FrameAllocator Ownership.
From S2P Require Import PageTable PageTree PageTableSpec MemorySet MapAreaSpec MemorySetSpec.
From S2P Require Import AddressSpace UserSpace.

(** Two areas with the same pages, type and permissions. *)
Record same_area (a a' : MapArea) : Prop := {
  same_range : vpn_range a' = vpn_range a;
  same_type : map_type a' = map_type a;
  same_perm : map_perm a' = map_perm a;
}.

(** What a user sees of a page depends on the page's frame and on the mapping. *)
Lemma user_byte_agree s s' ms ms' va f :
  pt_lookup (phys s') (page_table ms') (va / 4096) = pt_lookup (phys s) (page_table ms) (va / 4096) →
  user_addr (phys s) (page_table ms) va = Some (f * 4096 + va mod 4096) →
  page_agree (phys s) (phys s') f → user_byte s' ms' va = user_byte s ms va.
Proof.
  intros Hl Ha Hag. unfold user_byte, user_addr in *. rewrite Hl.
  destruct (pt_lookup (phys s) (page_table ms) (va / 4096)) as [e|]; [|done]. simpl in *.
  injection Ha as Ha. f_equal. symmetry. rewrite Ha. apply Hag. zsolve.
Qed.

Lemma pushed_user_byte s ms a s' ms' a' X va :
  MemorySet_ok s ms X → framed ms → pushed s ms a s' ms' a' X →
  va / 4096 ∈ areas_vpns (areas ms) → user_byte s' ms' va = user_byte s ms va.
Proof.
  intros Hok Hfr Hp Hva. destruct (framed_frame _ _ _ _ Hok Hfr Hva) as [f Hf].
  pose proof (ms_frame_vpn _ _ _ Hok _ _ Hf) as [_ Hv].
  eapply user_byte_agree; [|by apply (user_addr_frame _ _ _ Hok)|].
  - eapply pushed_lookup_old; [done..|]. intros Hin.
    destruct (mss_ok _ _ _ _ _ (pushed_step _ _ _ _ _ _ _ Hp)) as [_ _ _ _ Hnd _ _ _].
    rewrite (pushed_areas _ _ _ _ _ _ _ Hp), areas_vpns_app in Hnd.
    apply NoDup_app in Hnd as (_ & Hd & _). apply (Hd (va / 4096)); [done|].
    rewrite areas_vpns_cons, (pushed_range _ _ _ _ _ _ _ Hp). apply elem_of_app. by left.
  - apply (pushed_old _ _ _ _ _ _ _ Hp). by eapply ms_frame_in.
Qed.

Lemma isolated_user_byte s s' O O' ms X va :
  MemorySet_ok s ms X → framed ms → mm_step s O s' O' → (∀ f, f ∈ ms_frames ms → f ∉ O) →
  va / 4096 ∈ areas_vpns (areas ms) → user_byte s' ms va = user_byte s ms va.
Proof.
  intros Hok Hfr Hstep Hdis Hva. destruct (framed_frame _ _ _ _ Hok Hfr Hva) as [f Hf].
  destruct (mm_step_isolates _ _ _ _ _ _ _ Hok Hstep Hdis) as (_ & Hl & Hag).
  eapply user_byte_agree; [apply Hl|by apply (user_addr_frame _ _ _ Hok)|].
  apply Hag, elem_of_app. right. by eapply ms_frame_in.
Qed.

(** ** Copying one page *)

Lemma wp_translate_frame s ms X vpn f (Q : _ → mm → Prop) E :
  MemorySet_ok s ms X → ms_frame (areas ms) vpn f →
  (∀ e, PTE_ppn e = f → Q (Some e) s) → wp (MemorySet_translate ms vpn) Q E s.
Proof.
  intros Hok Hf HQ. destruct (ms_frame_lookup _ _ _ Hok _ _ Hf) as (e & He & Hp).
  unfold wp, MemorySet_translate. erewrite translate_lookup; [by apply HQ| |done].
  by eapply pt_ok_root_ppn, ms_ok_pt_ok.
Qed.

Lemma copy_vpn_spec s P XP C XC vpn fp fc :
  MemorySet_ok s P XP → MemorySet_ok s C XC →
  ms_frame (areas P) vpn fp → ms_frame (areas C) vpn fc →
  wp (copy_vpn P C vpn) (λ _ s', ms_step s C s' C XC ∧
      ∀ va f, ms_frame (areas C) (va / 4096) f →
        user_byte s' C va = if decide (va / 4096 = vpn) then user_byte s P va else user_byte s C va)
    no_panic s.
Proof.
  intros HP HC Hfp Hfc. unfold copy_vpn. wp_step. eapply wp_translate_frame; [done..|].
  intros e He. do 2 wp_step. wp_step. eapply wp_translate_frame; [done..|].
  intros e' He'. do 2 wp_step. unfold copy_page, set_phys. wp_step.
  unfold PhysPageNum_get_bytes_array. rewrite He, He'.
  pose proof (ms_frame_ppn _ _ _ HP _ _ Hfp). pose proof (ms_frame_ppn _ _ _ HC _ _ Hfc).
  rewrite !PhysAddr_from_PhysPageNum_mul by done.
  assert (Hn : Z.of_nat (Z.to_nat PAGE_SIZE) = 4096) by done.
  generalize dependent (Z.to_nat PAGE_SIZE). intros n Hn.
  set (l := load_bytes (phys s) (fp * 4096) n).
  assert (Hlen : Z.of_nat (length l) = 4096) by (unfold l; by rewrite length_load_bytes).
  assert (Hd : vpn * 4096 / 4096 = vpn) by zsolve. assert (Hm : (vpn * 4096) mod 4096 = 0) by zsolve.
  destruct (user_store s C XC HC (vpn * 4096) l fc) as (Hst & _ & Hb); [by rewrite Hd|rewrite Hm, Hlen; lia|].
  rewrite Hm, Z.add_0_r in Hst, Hb. split; [exact Hst|].
  intros va f Hf. rewrite (Hb va f Hf), Hlen.
  case_decide as Hin; [rewrite decide_True by zsolve|rewrite decide_False by zsolve; done].
  assert (Hv : va / 4096 = vpn) by zsolve.
  unfold user_byte. rewrite (user_addr_frame _ _ _ HP va fp) by (by rewrite Hv).
  unfold l. rewrite lookup_load_bytes by zsolve. simpl. do 2 f_equal. zsolve.
Qed.

(** ** Copying one area *)

(** The child [C] in the state [s'] is a copy of the areas [al] of the parent [P]
    as it was in the state [s]. *)
Record forked (s : mm) (P : MemorySet) (X : gmap Z Z) (al : list MapArea)
    (s' : mm) (C : MemorySet) : Prop := {
  fk_ok : MemorySet_ok s' C X;
  fk_step : mm_step s [] s' (ms_frames C);
  fk_areas : Forall2 same_area al (areas C);
  fk_bytes va : va / 4096 ∈ areas_vpns al → user_byte s' C va = user_byte s P va;
}.

Lemma same_areas_vpns al al' : Forall2 same_area al al' → areas_vpns al' = areas_vpns al.
Proof.
  induction 1 as [|a a' al al' [Hr _ _] _ IH]; [done|]. by rewrite !areas_vpns_cons, IH, Hr.
Qed.

Lemma same_areas_framed al C :
  Forall2 same_area al (areas C) → Forall (λ a, map_type a = Framed) al → framed C.
Proof.
  unfold framed. induction 1 as [|a a' al al' [_ Ht _] _ IH]; inversion_clear 1; constructor;
    [congruence|auto].
Qed.

Section CopyArea.
Context (s : mm) (P : MemorySet) (XP X : gmap Z Z).
Context (HP : MemorySet_ok s P XP) (HPf : framed P).

(** The parent is as it was, whatever frames the child has taken so far. *)
Lemma parent_kept s' C :
  mm_step s [] s' (ms_frames C) →
  MemorySet_ok s' P XP ∧ (∀ f, f ∈ ms_frames P → f ∉ ms_frames C) ∧
  ∀ va, va / 4096 ∈ areas_vpns (areas P) → user_byte s' P va = user_byte s P va.
Proof.
  intros Hstep. assert (Hnil : ∀ f, f ∈ ms_frames P → f ∉ []) by (intros; apply not_elem_of_nil).
  destruct (mm_step_isolates _ _ _ _ _ _ _ HP Hstep Hnil) as (Hok & _ & Hd).
  split_and!; [done|intros f Hf; by apply Hd|]. intros va Hva. by eapply isolated_user_byte.
Qed.

(** The pages of [rest] are still to be copied. *)
Record copying (al : list MapArea) (a : MapArea) (C : MemorySet) (n : nat) (rest : list Z) (s' : mm)
    : Prop := {
  cp_ok : MemorySet_ok s' C X;
  cp_step : mm_step s [] s' (ms_frames C);
  cp_free : free_frames s' = n;
  cp_bytes va : va / 4096 ∈ areas_vpns (al ++ [a]) → va / 4096 ∉ rest →
    user_byte s' C va = user_byte s P va;
}.

Lemma copy_pages_spec al a C n l s' :
  framed C → areas_vpns (areas C) = areas_vpns (al ++ [a]) →
  (∀ v, v ∈ l → v ∈ areas_vpns (al ++ [a])) →
  (∀ v, v ∈ areas_vpns (al ++ [a]) → v ∈ areas_vpns (areas P)) →
  copying al a C n l s' →
  wp (forM (copy_vpn P C) l) (λ _ s'', copying al a C n [] s'') no_panic s'.
Proof.
  intros HCf Hvp Hl HinP Hcp. unfold forM.
  eapply wp_mono; [apply (wp_foldM _ (λ rest _ s'', (∀ v, v ∈ rest → v ∈ areas_vpns (al ++ [a])) ∧
    copying al a C n rest s''))|naive_solver|done]; [done|].
  clear l s' Hl Hcp. intros v rest [] s' [Hl [Hok Hstep Hfree Hb]].
  destruct (parent_kept _ _ Hstep) as (HP' & Hdis & HPb).
  assert (Hva : v ∈ areas_vpns (al ++ [a])) by (apply Hl; by left).
  destruct (framed_frame _ _ _ v HP' HPf ltac:(auto)) as [fp Hfp].
  destruct (framed_frame _ _ _ v Hok HCf ltac:(by rewrite Hvp)) as [fc Hfc].
  eapply wp_mono; [by apply (copy_vpn_spec s' P XP C X v fp fc)| |done].
  intros [] s'' [[Hok'' Hst'' _] Hb'']. split; [intros w Hw; apply Hl; by right|].
  split; [done|by eapply mm_step_trans| |].
  - pose proof (step_count _ _ _ _ Hst''). lia.
  - intros va Hin Hnin. rewrite <-Hvp in Hin.
    destruct (framed_frame _ _ _ _ Hok HCf Hin) as [f Hf]. rewrite (Hb'' va f Hf).
    case_decide as Heq; [apply HPb; subst v; auto|]. rewrite Hvp in Hin.
    apply Hb; [done|]. intros [?|?]%elem_of_cons; done.
Qed.

(** One iteration of the loop over the areas of the parent. *)
Definition copy_area (C : MemorySet) (a : MapArea) : M mm MemorySet :=
  new_area ← MapArea_from_another a;
  C' ← MemorySet_push C new_area None;
  forM (copy_vpn P C') (vpns (vpn_range a));;
  mret C'.

Lemma from_another_spec {T} a (t : T) :
  area_wf a → wp (MapArea_from_another a) (λ b t', t' = t ∧ area_fresh b ∧ same_area a b) no_panic t.
Proof.
  intros [Hb Hp _]. unfold MapArea_from_another, SimpleRange_get_start, SimpleRange_get_end.
  wp_step. apply wp_SimpleRange_new; [lia|]. wp_step. rewrite <-range_eta.
  split_and!; [done|by split|by split].
Qed.

Lemma area_type_P a : a ∈ areas P → map_type a = Framed.
Proof. apply (proj1 (Forall_forall _ _) HPf). Qed.

Lemma copy_area_spec al a rest s' C :
  (∀ v, is_Some (X !! v) → is_vpn v → v ∉ areas_vpns (areas P)) →
  areas P = al ++ a :: rest → forked s P X al s' C →
  wp (copy_area C a) (λ C' s'', forked s P X (al ++ [a]) s'' C' ∧
      (free_frames s' ≤ free_frames s'' + 3 * length (vpns (vpn_range a)))%nat)
    (λ k, k = UnwrapNone ∧ (free_frames s' < 3 * length (vpns (vpn_range a)))%nat) s'.
Proof.
  intros HX HPa [Hok Hstep Har Hb].
  assert (HaP : a ∈ areas P) by (rewrite HPa; apply elem_of_app; right; by left).
  pose proof (ms_areas _ _ _ _ HP a HaP) as Hwf.
  assert (HvP : ∀ v, v ∈ areas_vpns (al ++ [a]) → v ∈ areas_vpns (areas P)).
  { intros v. rewrite HPa, !areas_vpns_app, !areas_vpns_cons, !elem_of_app.
    intros [?|[?|?%not_elem_of_nil]]; auto. done. }
  assert (Hdis : ∀ v, v ∈ areas_vpns al → v ∉ vpns (vpn_range a)).
  { pose proof (ms_disjoint _ _ _ _ HP) as Hnd. rewrite HPa, areas_vpns_app, areas_vpns_cons in Hnd.
    apply NoDup_app in Hnd as (_ & Hd & _). intros v H1 H2. apply (Hd v H1), elem_of_app. by left. }
  assert (HCf : framed C).
  { eapply same_areas_framed; [done|]. apply Forall_forall. intros b Hin. apply area_type_P.
    rewrite HPa. apply elem_of_app. by left. }
  unfold copy_area. eapply wp_call; [by apply from_another_spec|done|].
  intros b s1 (-> & Hfresh & Hsame). wp_step.
  eapply wp_mono; [by apply push_none_spec| |].
  - intros C' s1 [b' Hpu]. rewrite <-(same_range _ _ Hsame) in *.
    pose proof (pushed_step _ _ _ _ _ _ _ Hpu) as [Hok1 Hst1 _].
    assert (Har1 : Forall2 same_area (al ++ [a]) (areas C')).
    { rewrite (pushed_areas _ _ _ _ _ _ _ Hpu). apply Forall2_app; [done|].
      constructor; [|constructor]. destruct Hsame as [H1 H2 H3].
      split; [by rewrite (pushed_range _ _ _ _ _ _ _ Hpu)|by rewrite (pushed_type _ _ _ _ _ _ _ Hpu)|
              by rewrite (pushed_perm _ _ _ _ _ _ _ Hpu)]. }
    assert (HC'f : framed C').
    { eapply same_areas_framed; [done|]. apply Forall_forall. intros c Hc. apply area_type_P.
      rewrite HPa. apply elem_of_app in Hc as [?|Hc]; apply elem_of_app; [by left|right].
      apply list_elem_of_singleton in Hc as ->. by left. }
    eapply wp_call; [apply (copy_pages_spec al a C' (free_frames s1))|done|]; [done| |..].
    + by apply same_areas_vpns.
    + intros v Hv. rewrite areas_vpns_app, areas_vpns_cons, !elem_of_app.
      rewrite (same_range _ _ Hsame) in Hv. auto.
    + done.
    + split; [done|by eapply mm_step_trans|done|]. intros va Hin Hnin.
      rewrite areas_vpns_app, areas_vpns_cons, !elem_of_app in Hin.
      destruct Hin as [Hin|[Hin|Hin%not_elem_of_nil]]; [|by rewrite (same_range _ _ Hsame) in Hnin|done].
      rewrite (pushed_user_byte _ _ _ _ _ _ _ _ Hok HCf Hpu); [by apply Hb|].
      by rewrite (same_areas_vpns _ _ Har).
    + intros [] s2 [Hok2 Hst2 Hfr2 Hb2]. wp_step. split.
      * split; [done..|]. intros va Hva. apply Hb2; [done|apply not_elem_of_nil].
      * rewrite Hfr2. apply (pushed_cost _ _ _ _ _ _ _ Hpu).
  - rewrite (same_range _ _ Hsame). intros k [?|[-> (v & Hv & e & He)]]; [done|exfalso].
    assert (Hvv : is_vpn v) by (by apply (proj1 (Forall_forall _ _) (area_wf_vpns _ Hwf))).
    rewrite (ms_lookup_other _ _ _ _ Hok) in He; [|done|].
    + apply (HX v); [by eexists|done|]. apply HvP.
      rewrite areas_vpns_app, areas_vpns_cons, !elem_of_app. auto.
    + rewrite (same_areas_vpns _ _ Har). intros Hin. by apply (Hdis v).
Qed.

Lemma copy_areas_spec s' C :
  (∀ v, is_Some (X !! v) → is_vpn v → v ∉ areas_vpns (areas P)) →
  forked s P X [] s' C →
  wp (foldM copy_area C (areas P)) (λ C' s'', forked s P X (areas P) s'' C' ∧
      (free_frames s' ≤ free_frames s'' + 3 * length (areas_vpns (areas P)))%nat)
    (λ k, k = UnwrapNone ∧ (free_frames s' < 3 * length (areas_vpns (areas P)))%nat) s'.
Proof.
  intros HX Hfk.
  eapply wp_mono; [apply (wp_foldM _ (λ rest C' s'', ∃ al, areas P = al ++ rest ∧
    forked s P X al s'' C' ∧ (free_frames s' ≤ free_frames s'' + 3 * length (areas_vpns al))%nat))| |intros k Hk; exact Hk].
  - exists []. split_and!; [done..|lia].
  - intros a rest C1 s1 (al & HPa & Hfk1 & Hfree).
    assert (Hlen : length (areas_vpns (areas P)) =
      (length (areas_vpns al) + (length (vpns (vpn_range a)) + length (areas_vpns rest)))%nat)
      by (by rewrite HPa, areas_vpns_app, areas_vpns_cons, !length_app).
    eapply wp_mono; [by apply (copy_area_spec al a rest)| |].
    + intros C2 s2 [Hfk2 Hfree2]. exists (al ++ [a]). rewrite <-app_assoc. split_and!; [done..|].
      rewrite areas_vpns_app, areas_vpns_cons, !length_app. simpl. lia.
    + intros k [-> Hf]. split; [done|lia].
  - intros C' s'' (al & HPa & Hfk' & Hc). rewrite app_nil_r in HPa. by rewrite HPa.
Qed.

End CopyArea.

(** A small user address space with the trampoline and the pages 5 to 7. *)
#[local] Existing Instance demo_symbols.
Definition demo_user : outcome mm MemorySet :=
  (ms ← (ms ← MemorySet_new_bare; MemorySet_map_trampoline ms);
   MemorySet_insert_framed_area ms 0x5000 0x8000
     (Z.lor (Z.lor MapPermission_R MapPermission_W) MapPermission_U)) demo_boot.

Lemma demo_strampoline : strampoline_ok.
Proof. split; [vm_compute; split; congruence|done]. Qed.

Lemma demo_user_ok : ∃ P s, demo_user = Done P s ∧ MemorySet_ok s P trampoline_map ∧ framed P ∧
  areas_vpns (areas P) = [5; 6; 7] ∧ (30 ≤ free_frames s)%nat.
Proof.
  assert (H : wp (ms ← (ms ← MemorySet_new_bare; MemorySet_map_trampoline ms);
     MemorySet_insert_framed_area ms 0x5000 0x8000
       (Z.lor (Z.lor MapPermission_R MapPermission_W) MapPermission_U)) (λ P s,
     MemorySet_ok s P trampoline_map ∧ framed P ∧ areas_vpns (areas P) = [5; 6; 7] ∧
     (30 ≤ free_frames s)%nat) no_panic demo_boot).
  2: { apply wp_no_panic in H as (P & s & Hrun & H). exists P, s. by split. }
  eapply wp_call; [apply create_spec; [apply demo_strampoline|apply demo_boot_wf]| |].
  { intros k [_ Hf]. vm_compute in Hf. lia. }
  intros ms s (Hok & Har & Hstep & Hlen).
  pose proof (step_count _ _ _ _ Hstep) as Hc. change (free_frames demo_boot) with 63%nat in Hc.
  simpl in Hc. assert (Hv : areas_vpns (areas ms) = []) by (by rewrite Har).
  eapply wp_mono; [apply insert_framed_area_spec; [done|lia|lia|vm_compute; split; congruence]| |].
  - intros P s' (a & a' & Hr & Hty & _ & Hpu). split_and!.
    + apply Hpu.
    + unfold framed. rewrite (pushed_areas _ _ _ _ _ _ _ Hpu), Har. constructor; [|constructor].
      by rewrite (pushed_type _ _ _ _ _ _ _ Hpu).
    + rewrite (pushed_areas _ _ _ _ _ _ _ Hpu), areas_vpns_app, Hv, areas_vpns_cons.
      by rewrite (pushed_range _ _ _ _ _ _ _ Hpu), Hr.
    + pose proof (pushed_cost _ _ _ _ _ _ _ Hpu) as Hcost. rewrite Hr, length_vpns in Hcost.
      change (Z.to_nat _) with 3%nat in Hcost. lia.
  - intros k [[_ Hf]|[_ [Hf|(v & Hin & e & He)]]].
    + change (Z.to_nat _) with 3%nat in Hf. lia.
    + by vm_compute in Hf.
    + apply elem_of_vpns in Hin. change (5 ≤ v < 8) in Hin.
      rewrite (ms_lookup_other _ _ _ _ Hok) in He; [unfold trampoline_map in He; rewrite lookup_singleton_ne in He|..].
      * done.
      * unfold TRAMPOLINE_VPN. lia.
      * unfold is_vpn. lia.
      * rewrite Hv. apply not_elem_of_nil.
Qed.

Lemma from_existed_user_spec `{LinkerSymbols} s P :
  strampoline_ok → MemorySet_ok s P trampoline_map → framed P →
  wp (MemorySet_from_existed_user P) (λ C s',
      MemorySet_ok s' C trampoline_map ∧ Forall2 same_area (areas P) (areas C) ∧
      (∀ va, va / 4096 ∈ areas_vpns (areas P) → user_byte s' C va = user_byte s P va) ∧
      mm_step s [] s' (ms_frames C) ∧
      MemorySet_ok s' P trampoline_map ∧ (∀ f, f ∈ ms_frames P → f ∉ ms_frames C) ∧
      (∀ va, va / 4096 ∈ areas_vpns (areas P) → user_byte s' P va = user_byte s P va) ∧
      (free_frames s ≤ free_frames s' + 6 + 3 * length (areas_vpns (areas P)))%nat)
    (λ k, k = UnwrapNone ∧ (free_frames s < 6 + 3 * length (areas_vpns (areas P)))%nat) s.
Proof.
  intros Hst HP Hfr. unfold MemorySet_from_existed_user.
  eapply wp_call; [by apply new_bare_spec; eapply ms_mm| |].
  { intros k [-> ?]. split; [done|lia]. }
  intros bare s1 (Hok1 & Har1 & Hstep1 & Hlen1).
  eapply wp_call; [apply map_trampoline_spec; [done..|rewrite Har1; apply not_elem_of_nil]| |].
  { intros k [-> ?]. split; [done|]. pose proof (step_count _ _ _ _ Hstep1). simpl in *. lia. }
  intros C0 s2 ([Hok2 Hstep2 _] & Har2 & Hlen2).
  eapply wp_mono; [apply (copy_areas_spec s P trampoline_map trampoline_map HP Hfr s2 C0)| |].
  - intros v Hv _. by apply (ms_extra _ _ _ _ HP).
  - split; [done|by eapply mm_step_trans|rewrite Har2, Har1; constructor|].
    by intros va ?%not_elem_of_nil.
  - intros C s' [[Hok Hstep Har Hb] Hcost].
    destruct (parent_kept s P trampoline_map HP Hfr s' C Hstep) as (HP' & Hdis & HPb).
    split_and!; try done. pose proof (step_count _ _ _ _ Hstep1). pose proof (step_count _ _ _ _ Hstep2).
    simpl in *. lia.
  - intros k [-> Hf]. split; [done|]. pose proof (step_count _ _ _ _ Hstep1).
    pose proof (step_count _ _ _ _ Hstep2). simpl in *. lia.
Qed.

(** ** Properties *)

(** [from_existed_user] makes an exact, independent copy.  With enough frames
    it returns an address space with the same areas, permissions and types in the
    same order, in which every user address reads the byte it reads in the parent;
    its frames are all new, so the parent and every other owner are untouched; it
    satisfies the invariant with the trampoline mapped.  The only panic is for want
    of frames. *)
Theorem from_existed_user_copies `{LinkerSymbols} s P :
  strampoline_ok → MemorySet_ok s P trampoline_map → framed P →
  wp (MemorySet_from_existed_user P) (λ C s',
      MemorySet_ok s' C trampoline_map ∧ Forall2 same_area (areas P) (areas C) ∧
      (∀ va, va / 4096 ∈ areas_vpns (areas P) → user_byte s' C va = user_byte s P va) ∧
      mm_step s [] s' (ms_frames C) ∧
      MemorySet_ok s' P trampoline_map ∧ (∀ f, f ∈ ms_frames P → f ∉ ms_frames C) ∧
      (∀ va, va / 4096 ∈ areas_vpns (areas P) → user_byte s' P va = user_byte s P va) ∧
      (free_frames s ≤ free_frames s' + 6 + 3 * length (areas_vpns (areas P)))%nat)
    (λ k, k = UnwrapNone ∧ (free_frames s < 6 + 3 * length (areas_vpns (areas P)))%nat) s.
Proof. apply from_existed_user_spec. Qed.

Lemma from_existed_user_copies_witness :
  ∃ P s C s', demo_user = Done P s ∧ MemorySet_from_existed_user P s = Done C s' ∧
    user_byte s' C 0x6123 = user_byte s P 0x6123.
Proof.
  destruct demo_user_ok as (P & s & Hrun & Hok & Hfr & Hv & Hfree).
  destruct (wp_cases _ _ _ _ (from_existed_user_copies s P demo_strampoline Hok Hfr))
    as [(C & s' & Hrun' & _ & _ & Hb & _)|(k & _ & _ & Hf)].
  - exists P, s, C, s'. split; [exact Hrun|]. split; [exact Hrun'|]. apply Hb. rewrite Hv.
    change (0x6123 / 4096) with 6. apply list_elem_of_further, list_elem_of_here.
  - exfalso. rewrite Hv in Hf. simpl in Hf. lia.
Defined.
