(* ===== verification/KernelSpace.v ===== *)
(** * The kernel's own address space ([MemorySet::new_kernel], [remap_test])

    [new_kernel] maps the sections of the kernel image, the free memory behind it
    and the device registers, each page to the physical page of the same number.
    The section boundaries are the linker symbols; [linker.ld] aligns every section
    to a page and puts one after the other, which is the hypothesis [linker_layout]. *)
From S2P Require Import Prelude Config Machine Address FrameAllocator Ownership.
From S2P Require Import PageTable PageTree PageTableSpec MemorySet MapAreaSpec MemorySetSpec.
From S2P Require Import AddressSpace Fork.

Section KernelSpace.
Context `{LinkerSymbols}.

(** Start, end and permissions of everything [new_kernel] maps. *)
Definition kernel_sections : list (Z * Z * Z) :=
  [ (stext, etext, Z.lor MapPermission_R MapPermission_X);
    (srodata, erodata, MapPermission_R);
    (sdata, edata, MapPermission_R);
    (sbss_with_stack, ebss, Z.lor MapPermission_R MapPermission_W);
    (ekernel, MEMORY_END, Z.lor MapPermission_R MapPermission_W);
    (0x10001000, 0x10002000, Z.lor MapPermission_R MapPermission_W) ].

Definition sec_range (sec : Z * Z * Z) : SimpleRange := page_range sec.1.1 sec.1.2.
Definition secs_vpns (secs : list (Z * Z * Z)) : list Z := secs ≫= (λ sec, vpns (sec_range sec)).

(** What [linker.ld] guarantees: the sections lie one after the other from
    [BASE_ADDRESS], each bounded by [. = ALIGN(4K)]; the image fits into memory. *)
Record linker_layout : Prop := {
  ll_base : 0x80200000 ≤ stext;
  ll_order : stext ≤ etext ≤ srodata ∧ srodata ≤ erodata ≤ sdata ∧ sdata ≤ edata ≤ sbss_with_stack ∧
    sbss_with_stack ≤ ebss ≤ ekernel ∧ ekernel ≤ MEMORY_END;
  ll_aligned : Forall (λ x, x mod 4096 = 0) [stext; srodata; sdata; sbss_with_stack; ekernel];
}.

Definition sections_ok : Prop :=
  Forall (λ sec, 0 ≤ sec.1.1 ≤ sec.1.2 ∧ sec.1.2 ≤ MEMORY_END ∧ is_perm sec.2) kernel_sections ∧
  NoDup (secs_vpns kernel_sections).

Lemma secs_vpns_app l1 l2 : secs_vpns (l1 ++ l2) = secs_vpns l1 ++ secs_vpns l2.
Proof. unfold secs_vpns. apply bind_app. Qed.

Fixpoint ascending (b : Z) (secs : list (Z * Z * Z)) : Prop :=
  match secs with
  | [] => True
  | sec :: rest => b ≤ range_l (sec_range sec) ∧ range_l (sec_range sec) ≤ range_r (sec_range sec) ∧
                   ascending (range_r (sec_range sec)) rest
  end.

(** Page ranges one after the other hold no page twice. *)
Lemma ascending_NoDup secs b :
  ascending b secs → NoDup (secs_vpns secs) ∧ ∀ v, v ∈ secs_vpns secs → b ≤ v.
Proof.
  revert b. induction secs as [|sec rest IH]; intros b.
  { intros _. split; [constructor|]. by intros v ?%not_elem_of_nil. }
  intros (Hb & Hlr & Hrest). destruct (IH _ Hrest) as [Hnd Hlb].
  change (secs_vpns (sec :: rest)) with (vpns (sec_range sec) ++ secs_vpns rest). split.
  - apply NoDup_app. split_and!; [apply vpns_NoDup| |done].
    intros v Hv%elem_of_vpns Hv'%Hlb. lia.
  - intros v [Hv%elem_of_vpns|Hv%Hlb]%elem_of_app; lia.
Qed.

Lemma layout_sections_ok : linker_layout → sections_ok.
Proof.
  intros [Hb (H1 & H2 & H3 & H4 & H5) Ha]. unfold MEMORY_END in *.
  rewrite !Forall_cons in Ha. destruct Ha as (A1 & A2 & A3 & A4 & A5 & _). split.
  - unfold kernel_sections, MEMORY_END, is_perm.
    repeat (apply Forall_cons; split; [split_and!; simpl; first [lia|vm_compute; congruence]|]).
    constructor.
  - change (NoDup (secs_vpns (take 5 kernel_sections ++ drop 5 kernel_sections))).
    rewrite secs_vpns_app. destruct (ascending_NoDup (take 5 kernel_sections) 0x80200) as [Hnd Hlb].
    { simpl. unfold MEMORY_END. split_and!; zsolve. }
    apply NoDup_app. split_and!; [done| |].
    + intros v Hv%Hlb Hv'. change (v ∈ [65537]) in Hv'. apply list_elem_of_singleton in Hv'. lia.
    + apply NoDup_singleton.
Qed.

Record sections_mapped (s0 : mm) (secs : list (Z * Z * Z)) (s : mm) (ms : MemorySet) : Prop := {
  sm_ok : MemorySet_ok s ms trampoline_map;
  sm_step : mm_step s0 [] s (ms_frames ms);
  sm_cost : (free_frames s0 ≤ free_frames s + 3 + 3 * length (secs_vpns secs))%nat;
  sm_areas : Forall2 (λ sec a, vpn_range a = sec_range sec ∧ map_type a = Identical ∧
                                 map_perm a = sec.2) secs (areas ms);
}.

Lemma sections_vpns s0 secs s ms :
  sections_mapped s0 secs s ms → areas_vpns (areas ms) = secs_vpns secs.
Proof.
  intros [_ _ _ Har]. induction Har as [|sec a secs al (Hr & _) _ IH]; [done|].
  rewrite areas_vpns_cons, IH, Hr. done.
Qed.

(** A page of a mapped section. *)
Lemma section_lookup s0 secs s ms sec vpn :
  sections_mapped s0 secs s ms → sec ∈ secs → vpn ∈ vpns (sec_range sec) →
  pt_lookup (phys s) (page_table ms) vpn = Some (PTE_new vpn (Z.lor sec.2 PTE_V)).
Proof.
  intros [Hok _ _ Har] Hin Hv. apply list_elem_of_lookup in Hin as [i Hi].
  destruct (Forall2_lookup_l _ _ _ _ _ Har Hi) as (a & Ha & Hr & Ht & Hp).
  rewrite (ms_lookup_area _ _ _ _ Hok a); [|by eapply list_elem_of_lookup_2|by rewrite Hr].
  unfold area_pte, area_ppn. by rewrite Ht, Hp.
Qed.

(** Out of frames: each page costs at most its page tables. *)
Definition kernel_oom (s : mm) (k : panic_kind) : Prop :=
  k = UnwrapNone ∧ (free_frames s < 3 + 3 * length (secs_vpns kernel_sections))%nat.

(** The next section of [kernel_sections] to be pushed. *)
Lemma push_next_section s0 pre start end_ perm rest s ms :
  sections_ok → kernel_sections = pre ++ (start, end_, perm) :: rest →
  sections_mapped s0 pre s ms →
  wp (a ← MapArea_new (VirtAddr_from_usize start) (VirtAddr_from_usize end_) Identical perm;
      MemorySet_push ms a None) (λ ms' s', sections_mapped s0 (pre ++ [(start, end_, perm)]) s' ms')
    (kernel_oom s0) s.
Proof.
  intros [Hall Hnd] Heq Hsm. rewrite Heq in Hall, Hnd.
  apply Forall_app in Hall as [_ ((Hs & He & Hp) & _)%Forall_cons]. simpl in Hs, He, Hp.
  assert (Hlen : length (secs_vpns kernel_sections) =
    (length (secs_vpns pre) + (length (vpns (page_range start end_)) + length (secs_vpns rest)))%nat)
    by (rewrite Heq, secs_vpns_app, length_app; f_equal; apply length_app).
  rewrite secs_vpns_app in Hnd. apply NoDup_app in Hnd as (_ & Hd & _).
  assert (Hdis : ∀ v, v ∈ vpns (page_range start end_) → v ∉ secs_vpns pre).
  { intros v Hv Hin. apply (Hd v Hin). apply elem_of_app. by left. }
  clear Hd. unfold MEMORY_END in He. pose proof Hsm as [Hok Hstep Hcost Har].
  rewrite !VirtAddr_from_usize_mod, !Z.mod_small by lia.
  eapply wp_call; [apply MapArea_new_spec; [lia|lia|done]| |].
  { intros k [_ Hbad]. zsolve. }
  intros a s1 (-> & Hfr & Hl & Hr & Ht & Hpm).
  assert (Hrng : vpn_range a = page_range start end_)
    by (rewrite (range_eta (vpn_range a)), Hl, Hr; done).
  eapply wp_mono; [by apply push_none_spec| |].
  - intros ms' s' [a' Hpu]. pose proof (pushed_step _ _ _ _ _ _ _ Hpu) as [Hok' Hst' _].
    pose proof (pushed_cost _ _ _ _ _ _ _ Hpu) as Hc. rewrite Hrng in Hc.
    split; [done|by eapply mm_step_trans| |].
    + rewrite secs_vpns_app, length_app.
      change (secs_vpns [(start, end_, perm)]) with (vpns (page_range start end_) ++ []).
      rewrite app_nil_r. lia.
    + rewrite (pushed_areas _ _ _ _ _ _ _ Hpu). apply Forall2_app; [done|].
      constructor; [|constructor]. split_and!.
      * by rewrite (pushed_range _ _ _ _ _ _ _ Hpu).
      * by rewrite (pushed_type _ _ _ _ _ _ _ Hpu).
      * by rewrite (pushed_perm _ _ _ _ _ _ _ Hpu).
  - rewrite Hrng. intros k [[-> Hf]|[-> (v & Hv & e & He')]].
    { split; [done|]. rewrite Hlen. lia. }
    exfalso. pose proof (Hdis v Hv) as Hn. apply elem_of_vpns in Hv. unfold page_range in Hv. simpl in Hv.
    rewrite (ms_lookup_other _ _ _ _ Hok) in He'.
    + unfold trampoline_map in He'. rewrite lookup_singleton_ne in He'; [done|].
      unfold TRAMPOLINE_VPN. zsolve.
    + unfold is_vpn. zsolve.
    + by rewrite (sections_vpns _ _ _ _ Hsm).
Qed.

Lemma new_kernel_spec s :
  strampoline_ok → sections_ok → mm_wf s →
  wp MemorySet_new_kernel (λ ks s', sections_mapped s kernel_sections s' ks) (kernel_oom s) s.
Proof.
  intros Hst Hsec Hmm. unfold MemorySet_new_kernel.
  eapply wp_call; [by apply new_bare_spec|intros k [-> ?]; split; [done|lia]|].
  intros bare s1 (Hok1 & Har1 & Hstep1 & Hlen1).
  pose proof (step_count _ _ _ _ Hstep1) as Hc1. simpl in Hc1.
  eapply wp_call; [apply map_trampoline_spec; [done..|rewrite Har1; apply not_elem_of_nil]
    |intros k [-> ?]; split; [done|lia]|].
  intros ms0 s2 ([Hok2 Hstep2 _] & Har2 & Hlen2).
  pose proof (step_count _ _ _ _ Hstep2) as Hc2.
  assert (H0 : sections_mapped s [] s2 ms0).
  { split; [done|by eapply mm_step_trans|simpl; lia|rewrite Har2, Har1; constructor]. }
  set (pre n := take n kernel_sections).
  apply wp_assoc. eapply wp_call; [by apply (push_next_section s (pre 0%nat) _ _ _ _ _ _ Hsec eq_refl H0)|done|].
  intros ms1 s3 H1. apply wp_assoc.
  eapply wp_call; [by apply (push_next_section s (pre 1%nat) _ _ _ _ _ _ Hsec eq_refl H1)|done|].
  intros ms2 s4 H2'. apply wp_assoc.
  eapply wp_call; [by apply (push_next_section s (pre 2%nat) _ _ _ _ _ _ Hsec eq_refl H2')|done|].
  intros ms3 s5 H3. apply wp_assoc.
  eapply wp_call; [by apply (push_next_section s (pre 3%nat) _ _ _ _ _ _ Hsec eq_refl H3)|done|].
  intros ms4 s6 H4. apply wp_assoc.
  eapply wp_call; [by apply (push_next_section s (pre 4%nat) _ _ _ _ _ _ Hsec eq_refl H4)|done|].
  intros ms5 s7 H5. cbn [foldM MMIO].
  change (fst (0x10001000, 0x1000) +u snd (0x10001000, 0x1000)) with 0x10002000.
  eapply wp_call; [by apply (push_next_section s (pre 5%nat) _ _ _ _ _ _ Hsec eq_refl H5)|done|].
  intros ms6 s8 H6. wp_step. exact H6.
Qed.

(** The entries of the kernel's sections, and the page in the middle of one. *)
Lemma section_page_ppn sec vpn :
  sections_ok → sec ∈ kernel_sections → vpn ∈ vpns (sec_range sec) → is_ppn vpn ∧ is_perm sec.2.
Proof.
  intros [Hall _] Hin Hv%elem_of_vpns. rewrite Forall_forall in Hall.
  destruct (Hall sec Hin) as (H1 & H2 & Hp). split; [|done].
  unfold sec_range, page_range in Hv. simpl in Hv. unfold is_ppn, MEMORY_END in *. zsolve.
Qed.

Lemma translate_mid s0 s ms start end_ perm :
  sections_ok → sections_mapped s0 kernel_sections s ms → (start, end_, perm) ∈ kernel_sections →
  start < end_ →
  ∃ e, PageTable_translate (page_table ms)
         (VirtAddr_floor (VirtAddr_from_usize ((start +u end_) / 2))) s = Done (Some e) s ∧
       PTE_flags e = Z.lor perm PTE_V.
Proof.
  intros Hsec Hsm Hin Hlt. pose proof Hsec as [Hall _]. rewrite Forall_forall in Hall.
  destruct (Hall _ Hin) as (H1 & H2 & Hp). simpl in H1, H2, Hp. unfold MEMORY_END in H2.
  rewrite VirtAddr_from_usize_mod. set (vpn := VirtAddr_floor _).
  assert (Hv : vpn ∈ vpns (sec_range (start, end_, perm))).
  { apply elem_of_vpns. subst vpn. unfold VirtAddr_floor, sec_range, page_range, PAGE_SIZE. simpl. usolve. }
  destruct (section_page_ppn _ _ Hsec Hin Hv) as [Hppn _].
  exists (PTE_new vpn (Z.lor perm PTE_V)). split.
  - apply translate_lookup; [|by apply (section_lookup _ _ _ _ _ _ Hsm Hin)].
    eapply pt_ok_root_ppn, ms_ok_pt_ok, (sm_ok _ _ _ _ Hsm).
  - apply PTE_flags_new; [done|]. by apply lor_V_range.
Qed.

(** The steps of [remap_test]. *)
Lemma translate_unwrap {B} pt vpn s e (f : PageTableEntry → M mm B) :
  PageTable_translate pt vpn s = Done (Some e) s →
  (o ← PageTable_translate pt vpn; e ← unwrap o; f e) s = f e s.
Proof. intros He. unfold mbind, M_bind. by rewrite He. Qed.

Lemma assert_true {B} s (k : M mm B) : (assert_ (negb false);; k) s = k s.
Proof. done. Qed.

(** ** Properties *)

(** The kernel's address space, built over the layout of [linker.ld], maps every page
    of its sections, of the free memory and of the device registers to the physical page
    with the same number, with the permissions of its section; the trampoline is mapped at
    the top and nothing else is mapped. No page is both writable and executable. The
    pages of [.data] are not writable. [new_kernel] can panic only for lack of frames. *)
Theorem kernel_space_identity_mapped s :
  strampoline_ok → linker_layout → mm_wf s →
  wp MemorySet_new_kernel (λ ks s',
    MemorySet_ok s' ks trampoline_map ∧
    (∀ sec vpn, sec ∈ kernel_sections → vpn ∈ vpns (sec_range sec) →
      pt_lookup (phys s') (page_table ks) vpn = Some (PTE_new vpn (Z.lor sec.2 PTE_V))) ∧
    pt_lookup (phys s') (page_table ks) TRAMPOLINE_VPN = Some trampoline_pte ∧
    (∀ vpn, is_vpn vpn → vpn ∉ secs_vpns kernel_sections → vpn ≠ TRAMPOLINE_VPN →
      pt_lookup (phys s') (page_table ks) vpn = None) ∧
    (∀ vpn e, is_vpn vpn → pt_lookup (phys s') (page_table ks) vpn = Some e →
      PTE_is_writable e && PTE_is_executable e = false) ∧
    (∀ vpn e, vpn ∈ vpns (page_range sdata edata) →
      pt_lookup (phys s') (page_table ks) vpn = Some e → PTE_is_writable e = false))
    (kernel_oom s) s.
Proof.
  intros Hst Hll Hmm. pose proof (layout_sections_ok Hll) as Hsec.
  eapply wp_mono; [by apply new_kernel_spec| |done]. intros ks s' Hsm.
  pose proof (sm_ok _ _ _ _ Hsm) as Hok. pose proof (sections_vpns _ _ _ _ Hsm) as Hvp.
  assert (Hlook := λ sec vpn, section_lookup _ _ _ _ sec vpn Hsm).
  assert (Hother : ∀ vpn, is_vpn vpn → vpn ∉ secs_vpns kernel_sections →
    pt_lookup (phys s') (page_table ks) vpn = trampoline_map !! vpn).
  { intros vpn Hv Hn. apply (ms_lookup_other _ _ _ _ Hok); [done|by rewrite Hvp]. }
  assert (Htop : TRAMPOLINE_VPN ∉ secs_vpns kernel_sections).
  { intros (sec & Hv & Hin)%list_elem_of_bind. apply elem_of_vpns in Hv as Hv'.
    destruct Hsec as [Hall _]. rewrite Forall_forall in Hall. destruct (Hall sec Hin) as (H1 & H2 & _).
    unfold sec_range, page_range, TRAMPOLINE_VPN, MEMORY_END in *. simpl in Hv'. zsolve. }
  split_and!; [done|by intros; apply Hlook| | | |].
  - rewrite Hother; [apply lookup_singleton_eq|vm_compute; split; congruence|done].
  - intros vpn Hv Hn Hne. rewrite Hother by done. by apply lookup_singleton_ne.
  - intros vpn e Hv He. destruct (decide (vpn ∈ secs_vpns kernel_sections)) as [Hin|Hn].
    + apply list_elem_of_bind in Hin as (sec & Hvs & Hin). rewrite (Hlook sec vpn Hin Hvs) in He.
      injection He as <-. destruct (section_page_ppn _ _ Hsec Hin Hvs) as [Hppn Hperm].
      unfold PTE_is_writable, PTE_is_executable. rewrite PTE_flags_new by (try done; by apply lor_V_range).
      clear -Hin. unfold kernel_sections in Hin.
      repeat (apply elem_of_cons in Hin as [->|Hin]; [reflexivity|]).
      by apply not_elem_of_nil in Hin.
    + rewrite Hother in He by done. unfold trampoline_map in He.
      apply lookup_singleton_Some in He as [_ <-]. destruct Hst as [Hst _].
      unfold PTE_is_writable, PTE_is_executable, trampoline_pte.
      rewrite PTE_flags_new; [reflexivity|unfold is_ppn; zsolve|vm_compute; split; congruence].
  - intros vpn e Hv He. assert (Hin : (sdata, edata, MapPermission_R) ∈ kernel_sections)
      by (do 2 right; left).
    rewrite (Hlook _ vpn Hin Hv) in He. injection He as <-.
    destruct (section_page_ppn _ _ Hsec Hin Hv) as [Hppn Hperm].
    unfold PTE_is_writable. by rewrite PTE_flags_new by (try done; by apply lor_V_range).
Qed.

Lemma remap_test_spec s0 s ks :
  linker_layout → stext < etext → srodata < erodata → sdata < edata →
  sections_mapped s0 kernel_sections s ks → remap_test ks s = Done tt s.
Proof.
  intros Hll H1 H2 H3 Hsm. pose proof (layout_sections_ok Hll) as Hsec.
  destruct (translate_mid _ _ _ _ _ _ Hsec Hsm ltac:(left) H1) as (e1 & E1 & F1).
  destruct (translate_mid _ _ _ _ _ _ Hsec Hsm ltac:(right; left) H2) as (e2 & E2 & F2).
  destruct (translate_mid _ _ _ _ _ _ Hsec Hsm ltac:(do 2 right; left) H3) as (e3 & E3 & F3).
  unfold remap_test. cbv zeta. rewrite (translate_unwrap _ _ _ _ _ E1).
  replace (PTE_is_writable e1) with false by (unfold PTE_is_writable; by rewrite F1).
  rewrite assert_true, (translate_unwrap _ _ _ _ _ E2).
  replace (PTE_is_writable e2) with false by (unfold PTE_is_writable; by rewrite F2).
  rewrite assert_true, (translate_unwrap _ _ _ _ _ E3).
  replace (PTE_is_executable e3) with false by (unfold PTE_is_executable; by rewrite F3). done.
Qed.

(** [remap_test], run on the kernel's address space when no section is empty, passes:
    its [unwrap]s and assertions cannot fail, and it changes nothing. *)
Theorem remap_test_passes s :
  strampoline_ok → linker_layout → stext < etext → srodata < erodata → sdata < edata → mm_wf s →
  wp MemorySet_new_kernel (λ ks s', remap_test ks s' = Done tt s') (kernel_oom s) s.
Proof.
  intros Hst Hll H1 H2 H3 Hmm. pose proof (layout_sections_ok Hll) as Hsec.
  eapply wp_mono; [by apply new_kernel_spec| |done].
  intros ks s' Hsm. exact (remap_test_spec s s' ks Hll H1 H2 H3 Hsm).
Qed.

End KernelSpace.

(** ** Witnesses: a kernel image of four pages at the end of the memory *)

Definition small_symbols : LinkerSymbols :=
  {| stext := 0x87ffb000; etext := 0x87ffc000; srodata := 0x87ffc000; erodata := 0x87ffd000;
     sdata := 0x87ffd000; edata := 0x87ffe000; sbss_with_stack := 0x87ffe000; ebss := 0x87fff000;
     ekernel := 0x87fff000; strampoline := 0x87ffb000 |}.

Lemma small_strampoline : @strampoline_ok small_symbols.
Proof. split; [vm_compute; split; congruence|reflexivity]. Qed.

Lemma small_layout : @linker_layout small_symbols.
Proof. split; [vm_compute; congruence|vm_compute; repeat split; congruence|repeat constructor]. Qed.

Lemma small_enough k : ¬ @kernel_oom small_symbols demo_boot k.
Proof.
  intros [_ Hf].
  change (free_frames demo_boot) with 63%nat in Hf.
  change (length (@secs_vpns (@kernel_sections small_symbols))) with 6%nat in Hf. lia.
Qed.

Lemma kernel_space_identity_mapped_witness :
  ∃ ks s', @MemorySet_new_kernel small_symbols demo_boot = Done ks s' ∧
    pt_lookup (phys s') (page_table ks) 0x87ffb =
      Some (PTE_new 0x87ffb (Z.lor (Z.lor MapPermission_R MapPermission_X) PTE_V)) ∧
    pt_lookup (phys s') (page_table ks) 0x87ffa = None.
Proof.
  destruct (wp_cases _ _ _ _ (@kernel_space_identity_mapped small_symbols demo_boot
    small_strampoline small_layout demo_boot_wf))
    as [(ks & s' & Hrun & _ & Hsec & _ & Hnone & _)|(k & _ & Hf)].
  - exists ks, s'. split; [exact Hrun|]. split.
    + apply (Hsec (0x87ffb000, 0x87ffc000, Z.lor MapPermission_R MapPermission_X)); [left|].
      apply elem_of_vpns. vm_compute. split; congruence.
    + apply Hnone; [vm_compute; split; congruence| |discriminate].
      change (0x87ffa ∉ [0x87ffb; 0x87ffc; 0x87ffd; 0x87ffe; 0x87fff; 65537]).
      rewrite !not_elem_of_cons. split_and!; [discriminate..|apply not_elem_of_nil].
  - destruct (small_enough k Hf).
Defined.

Lemma remap_test_passes_witness :
  ∃ ks s', @MemorySet_new_kernel small_symbols demo_boot = Done ks s' ∧
    @remap_test small_symbols ks s' = Done tt s'.
Proof.
  destruct (wp_cases _ _ _ _ (@remap_test_passes small_symbols demo_boot
    small_strampoline small_layout eq_refl eq_refl eq_refl demo_boot_wf))
    as [(ks & s' & Hrun & Htest)|(k & _ & Hf)].
  - exists ks, s'. split; [exact Hrun|exact Htest].
  - destruct (small_enough k Hf).
Defined.
