(* ===== verification/TableCost.v ===== *)
(** * What the page tables of the kernel cost

    [new_kernel] maps all of memory, page by page.  A table page is allocated only for
    a path of indices that the tree does not have yet, so the cost of a range of pages
    is the number of its paths, one for 512 pages and one for 512 of these, and not a
    number of frames per page.  With frames for the paths of its sections, [new_kernel]
    cannot run out of memory. *)
From S2P Require Import Prelude Config Machine Address FrameAllocator Ownership.
From S2P Require Import PageTable PageTree PageTableSpec MemorySet MapAreaSpec MemorySetSpec.
From S2P Require Import AddressSpace Fork KernelSpace.

(** ** Paths *)

(** The paths of [S] that lead to no table page yet. *)
Definition missing (S : list (list Z)) (m : memory) (root : Z) : nat :=
  length (filter (λ path, node m root path = None) S).

(** The table pages above a virtual page. *)
Definition covered (S : list (list Z)) (vpn : Z) : Prop := take 1 (upper vpn) ∈ S ∧ upper vpn ∈ S.

Lemma missing_mono S m root m' root' :
  (∀ path q, path ∈ S → node m root path = Some q → is_Some (node m' root' path)) →
  (missing S m' root' ≤ missing S m root)%nat.
Proof.
  unfold missing. induction S as [|path S IH]; intros Hk; [done|].
  assert (IH' := IH (λ p q Hp, Hk p q (list_elem_of_further _ _ _ Hp))). rewrite !filter_cons.
  destruct (decide (node m' root' path = None)) as [Hn'|_], (decide (node m root path = None)) as [Hn|Hn]; simpl; try lia.
  destruct (node m root path) as [q|] eqn:Hq; [|done]. destruct (Hk path q (list_elem_of_here _ _) Hq) as [r Hr]. congruence.
Qed.

Lemma missing_lt S m root m' root' path0 :
  (∀ path q, path ∈ S → node m root path = Some q → is_Some (node m' root' path)) →
  path0 ∈ S → node m root path0 = None → is_Some (node m' root' path0) →
  (missing S m' root' < missing S m root)%nat.
Proof.
  intros Hk Hin Hn Hs. apply list_elem_of_split in Hin as (S1 & S2 & ->). unfold missing.
  rewrite !filter_app, !length_app, !filter_cons, (decide_True (P := node m root path0 = None)) by done.
  rewrite (decide_False (P := node m' root' path0 = None)) by (intros E; rewrite E in Hs; by destruct Hs).
  pose proof (missing_mono S1 m root m' root'). pose proof (missing_mono S2 m root m' root'). unfold missing in *. simpl.
  assert (∀ p, p ∈ S1 → p ∈ S1 ++ path0 :: S2) by (intros; apply elem_of_app; by left).
  assert (∀ p, p ∈ S2 → p ∈ S1 ++ path0 :: S2) by (intros; apply elem_of_app; right; by right).
  assert (length (filter (λ path, node m' root' path = None) S1) ≤ length (filter (λ path, node m root path = None) S1))%nat by eauto.
  assert (length (filter (λ path, node m' root' path = None) S2) ≤ length (filter (λ path, node m root path = None) S2))%nat by eauto.
  lia.
Qed.

(** ** A page table with frames for its missing pages, and [k] more *)

Section Funded.
Context (S : list (list Z)) (k : nat).
Context (HS : Forall is_path S).

Record funded (s : mm) (pt : PageTable) : Prop := {
  fd_ok : pt_ok s pt;
  fd_frames : (missing S (phys s) (root_ppn pt) + k ≤ free_frames s)%nat;
}.

(** A level of the walk: the frame for a missing page was set aside. *)
Lemma funded_grown s pt s' pt' n path :
  funded s pt → pt_grown s pt s' pt' n → (n ≤ 1)%nat → path ∈ S →
  is_Some (node (phys s') (root_ppn pt) path) →
  (is_Some (node (phys s) (root_ppn pt) path) → n = 0%nat) → funded s' pt'.
Proof using HS.
  intros [Hok Hf] Hg Hn Hin Hs Hn0. pose proof (pt_grown_free _ _ _ _ _ Hg) as Hfree.
  split; [by eapply grown_ok|]. rewrite (grown_root _ _ _ _ _ Hg).
  assert (Hk : ∀ p q, p ∈ S → node (phys s) (root_ppn pt) p = Some q → is_Some (node (phys s') (root_ppn pt) p)).
  { intros p q Hp Hq. exists q. apply (grown_node _ _ _ _ _ Hg); [|done]. by apply (proj1 (Forall_forall _ _) HS). }
  destruct (node (phys s) (root_ppn pt) path) as [q|] eqn:Hq.
  - rewrite (Hn0 ltac:(done)) in Hfree. pose proof (missing_mono S _ _ _ _ Hk). lia.
  - pose proof (missing_lt S _ _ _ _ path Hk Hin Hq Hs). lia.
Qed.

Lemma funded_free s pt path :
  funded s pt → path ∈ S → node (phys s) (root_ppn pt) path = None → free_frames s ≠ 0%nat.
Proof.
  intros [_ Hf] Hin Hn. assert (0 < missing S (phys s) (root_ppn pt))%nat; [|lia].
  apply list_elem_of_split in Hin as (S1 & S2 & ->). unfold missing.
  rewrite filter_app, length_app, filter_cons, decide_True by done. simpl. lia.
Qed.

Lemma find_pte_create_funded s pt vpn :
  funded s pt → covered S vpn →
  wp (PageTable_find_pte_create pt vpn) (λ r s', ∃ p, fst r = Some (slot p (leaf vpn)) ∧ funded s' (snd r) ∧
      node (phys s') (root_ppn (snd r)) (upper vpn) = Some p) no_panic s.
Proof using HS.
  intros Hf [Hin1 Hin2]. unfold PageTable_find_pte_create. rewrite VirtPageNum_indexes_eq.
  set (i0 := vpn / 2 ^ 18 mod 512) in *. set (i1 := vpn / 2 ^ 9 mod 512) in *.
  assert (Hi0 : is_idx i0) by apply is_idx_mod. assert (Hi1 : is_idx i1) by apply is_idx_mod.
  assert (Hup : upper vpn = ([] ++ [i0]) ++ [i1]) by done. change (take 1 (upper vpn)) with ([] ++ [i0]) in Hin1.
  cbn [find_pte_create_loop]. cbn [lookup_total list_lookup_total Nat.eqb]. wp_step.
  apply wp_pte_ref; [eapply pt_ok_root_ppn, Hf|done|].
  apply (wp_descend (λ q pt', find_pte_create_loop [1; 2]%nat [i0; i1; vpn mod 512] q pt') s pt [] i0);
    [apply Hf|by apply is_path_snoc; split_and!; [constructor|..]; simpl; try lia|done| |].
  2: { intros H0 Hn. by apply (funded_free s pt _ Hf Hin1 Hn). }
  intros q s1 pt1 n1 Hg1 Hn1 Hq Hs1.
  assert (Hf1 : funded s1 pt1) by (eapply funded_grown; [exact Hf|exact Hg1|done|exact Hin1|by eexists|done]).
  pose proof (grown_root _ _ _ _ _ Hg1) as Hr1.
  assert (Hpath1 : is_path ([] ++ [i0])) by (split; [by apply Forall_singleton|simpl; lia]).
  cbn [find_pte_create_loop]. cbn [lookup_total list_lookup_total Nat.eqb]. wp_step.
  rewrite <-Hr1 in Hq. apply wp_pte_ref; [eapply pt_ok_node_ppn; [apply Hf1|exact Hpath1|exact Hq]|done|].
  apply (wp_descend (λ q pt', find_pte_create_loop [2]%nat [i0; i1; vpn mod 512] q pt') s1 pt1 ([] ++ [i0]) i1);
    [apply Hf1|exact (is_path_upper vpn)|done| |].
  2: { intros H0 Hn. by apply (funded_free s1 pt1 _ Hf1 Hin2 Hn). }
  intros r s2 pt2 n2 Hg2 Hn2 Hr Hs2. rewrite <-Hup in Hr, Hs2.
  assert (Hf2 : funded s2 pt2) by (eapply funded_grown; [exact Hf1|exact Hg2|done|exact Hin2|by eexists|done]).
  rewrite <-(grown_root _ _ _ _ _ Hg2) in Hr.
  cbn [find_pte_create_loop]. cbn [lookup_total list_lookup_total Nat.eqb]. wp_step.
  apply wp_pte_ref; [eapply pt_ok_node_ppn; [apply Hf2|apply is_path_upper|exact Hr]|apply is_idx_mod|].
  wp_step. by exists r.
Qed.

Lemma map_funded s pt vpn ppn flags :
  funded s pt → covered S vpn → is_vpn vpn → is_ppn ppn → 0 ≤ flags < 2 ^ 8 →
  wp (PageTable_map pt vpn ppn flags) (λ pt' s', funded s' pt') (λ e, e = AssertFailed) s.
Proof using HS.
  intros Hf Hc Hv Hp Hfl. unfold PageTable_map. eapply wp_call; [by apply find_pte_create_funded|by intros e []|].
  intros [o pt1] s1 (p & Ho & Hf1 & Hn). simpl in Ho, Hf1, Hn. subst o. do 2 wp_step. unfold read_pte. do 2 wp_step.
  wp_step. destruct (PTE_is_valid _); simpl; [done|]. do 2 wp_step. unfold write_pte, set_phys. do 2 wp_step.
  pose proof (write_leaf_spec s1 pt1 vpn p (PTE_new ppn (Z.lor flags PTE_V)) (fd_ok _ _ Hf1) Hn Hv
    (PTE_new_usize _ _ Hp (lor_V_range _ Hfl))) as Hw. destruct Hf1 as [Hok1 Hf1].
  split; [apply Hw|]. simpl. etransitivity; [|exact Hf1]. apply Nat.add_le_mono_r, missing_mono.
  intros path q Hin Hq. exists q. rewrite (node_store_leaf _ _ (pt_ok_tree _ _ Hok1) (upper vpn)); try done.
  - apply is_path_upper.
  - apply is_idx_leaf.
  - by apply (proj1 (Forall_forall _ _) HS).
Qed.

Lemma map_list_funded s a pt l :
  funded s pt → map_type a = Identical → is_perm (map_perm a) → Forall (λ v, is_vpn v ∧ covered S v) l →
  wp (foldM (λ st vpn, MapArea_map_one vpn st) (a, pt) l) (λ r s', funded s' (snd r)) (λ e, e = AssertFailed) s.
Proof using HS.
  intros Hf Ht Hp Hl. eapply wp_mono; [apply (wp_foldM _ (λ rest r s', Forall (λ v, is_vpn v ∧ covered S v) rest ∧
    fst r = a ∧ funded s' (snd r)))| |]; [done| |by intros r s' (_ & _ & ?)|done].
  intros v rest [a1 pt1] s1 ((Hv & Hc)%Forall_cons & Ha & Hf1). simpl in Ha, Hf1. subst a1. destruct Hv as [Hv Hcv].
  unfold MapArea_map_one. rewrite Ht. do 2 wp_step. rewrite perm_from_bits by done. do 2 wp_step.
  eapply wp_call; [apply map_funded; [done..| |done]|done|]; [unfold is_vpn in Hv; unfold is_ppn; lia|].
  intros pt' s' Hf'. by wp_step.
Qed.

(** A section is pushed. *)
Lemma push_funded s ms start end_ perm :
  funded s (page_table ms) → 0 ≤ start → start ≤ end_ ≤ MEMORY_END → is_perm perm →
  Forall (covered S) (vpns (page_range start end_)) →
  wp (a ← MapArea_new (VirtAddr_from_usize start) (VirtAddr_from_usize end_) Identical perm; MemorySet_push ms a None)
    (λ ms' s', funded s' (page_table ms')) (λ e, e = AssertFailed) s.
Proof using HS.
  unfold MEMORY_END. intros Hf H1 H2 Hp Hc. rewrite !VirtAddr_from_usize_mod, !Z.mod_small by lia.
  eapply wp_call; [apply MapArea_new_spec; [lia|lia|done]|by intros e [-> _]|].
  intros a s1 (-> & Hfr & Hl & Hr & Ht & Hpm).
  assert (Hrng : vpn_range a = page_range start end_) by (rewrite (range_eta (vpn_range a)), Hl, Hr; done).
  unfold MemorySet_push, MapArea_map, map_range. rewrite Hrng.
  eapply wp_call; [apply map_list_funded; [exact Hf|done|by rewrite Hpm|]|done|].
  - apply Forall_forall. intros v Hv. rewrite Forall_forall in Hc. split; [|by apply Hc].
    apply elem_of_vpns in Hv. unfold page_range in Hv. simpl in Hv. unfold is_vpn. zsolve.
  - intros [a' pt'] s' Hf'. by do 3 wp_step.
Qed.
End Funded.

(** ** The paths of a range of pages *)

Definition range_tables (r : SimpleRange) : list (list Z) :=
  ((λ i, [i mod 512]) <$> seqZ (range_l r / 2 ^ 18) ((range_r r - 1) / 2 ^ 18 - range_l r / 2 ^ 18 + 1)) ++
  ((λ j, [j / 512 mod 512; j mod 512]) <$> seqZ (range_l r / 512) ((range_r r - 1) / 512 - range_l r / 512 + 1)).

Lemma range_tables_covered r v S : v ∈ vpns r → range_tables r ⊆ S → covered S v.
Proof.
  intros Hv%elem_of_vpns Hsub. split; apply Hsub, elem_of_app; [left|right]; apply list_elem_of_fmap.
  - exists (v / 2 ^ 18). split; [done|]. apply elem_of_seqZ. zsolve.
  - exists (v / 512). split; [unfold upper; by rewrite Z.div_div by lia|]. apply elem_of_seqZ. zsolve.
Qed.

Lemma range_tables_paths r : Forall is_path (range_tables r).
Proof.
  apply Forall_app. split; apply Forall_fmap, Forall_forall; intros i _; simpl.
  - split; [|simpl; lia]. repeat constructor; apply is_idx_mod.
  - split; [|simpl; lia]. repeat constructor; apply is_idx_mod.
Qed.

Section KernelTables.
Context `{LinkerSymbols}.

(** Everything below the root of the kernel's table. *)
Definition kernel_tables : list (list Z) :=
  range_tables (mkSimpleRange TRAMPOLINE_VPN (TRAMPOLINE_VPN + 1)) ++
  (kernel_sections ≫= (λ sec, range_tables (sec_range sec))).

Lemma kernel_tables_paths : Forall is_path kernel_tables.
Proof.
  apply Forall_app. split; [apply range_tables_paths|]. apply Forall_forall. intros path (sec & Hin & _)%list_elem_of_bind.
  by apply (proj1 (Forall_forall _ _) (range_tables_paths (sec_range sec))).
Qed.

Lemma section_covered sec : sec ∈ kernel_sections → Forall (covered kernel_tables) (vpns (sec_range sec)).
Proof.
  intros Hin. apply Forall_forall. intros v Hv. eapply range_tables_covered; [exact Hv|].
  intros path Hp. apply elem_of_app. right. apply list_elem_of_bind. by exists sec.
Qed.

Lemma push_section_funded k s ms start end_ perm :
  sections_ok → (start, end_, perm) ∈ kernel_sections → funded kernel_tables k s (page_table ms) →
  wp (a ← MapArea_new (VirtAddr_from_usize start) (VirtAddr_from_usize end_) Identical perm; MemorySet_push ms a None)
    (λ ms' s', funded kernel_tables k s' (page_table ms')) (λ e, e = AssertFailed) s.
Proof.
  intros [Hall _] Hin Hf. rewrite Forall_forall in Hall. destruct (Hall _ Hin) as (H1 & H2 & Hp). simpl in H1, H2, Hp.
  apply push_funded; [apply kernel_tables_paths|done|lia|lia|done|exact (section_covered _ Hin)].
Qed.

Lemma new_kernel_funded k s :
  strampoline_ok → sections_ok → mm_wf s → (1 + length kernel_tables + k ≤ free_frames s)%nat →
  wp MemorySet_new_kernel (λ ks s', funded kernel_tables k s' (page_table ks)) (λ e, e = AssertFailed) s.
Proof.
  intros Hst Hsec Hmm Hfree. unfold MemorySet_new_kernel.
  eapply wp_call; [by apply new_bare_spec|intros e [-> H0]; lia|].
  intros bare s1 (Hok1 & Har1 & Hstep1 & Hlen1). pose proof (step_count _ _ _ _ Hstep1) as Hc1. simpl in Hc1.
  assert (H0 : funded kernel_tables k s1 (page_table bare)).
  { split; [by eapply ms_ok_pt_ok|]. unfold missing. pose proof (length_filter (λ p, node (phys s1) (root_ppn (page_table bare)) p = None) kernel_tables). lia. }
  assert (Ht : wp (MemorySet_map_trampoline bare) (λ ms s', funded kernel_tables k s' (page_table ms)) (λ e, e = AssertFailed) s1).
  { destruct Hst as [Hst Hal]. unfold MemorySet_map_trampoline, VirtPageNum_from_VirtAddr, PhysPageNum_from_PhysAddr.
    change (VirtAddr_from_usize TRAMPOLINE) with (TRAMPOLINE_VPN * 4096).
    change (VirtAddr_page_offset (TRAMPOLINE_VPN * 4096) =? 0) with true.
    change (VirtAddr_floor (TRAMPOLINE_VPN * 4096)) with TRAMPOLINE_VPN.
    rewrite PhysAddr_from_usize_mod, (Z.mod_small strampoline), PhysAddr_page_offset_mod, Hal by done.
    change (0 =? 0) with true. change (PhysAddr_floor strampoline) with (strampoline / 4096). do 8 wp_step. wp_step.
    eapply wp_mono; [apply (map_funded _ k kernel_tables_paths _ _ _ _ _ H0)| |done].
    - eapply range_tables_covered; [|intros p Hp; apply elem_of_app; left; exact Hp]. apply elem_of_vpns. simpl. lia.
    - vm_compute; split; congruence.
    - unfold is_ppn. zsolve.
    - vm_compute; split; congruence.
    - intros pt' s' Hf. by wp_step. }
  eapply wp_call; [exact Ht|done|]. clear H0. cbv beta. intros ms0 s2 H0.
  do 5 (apply wp_assoc; eapply wp_call;
    [apply (push_section_funded k); [exact Hsec|unfold kernel_sections; repeat first [left|right]|eassumption]|done|];
    cbv beta; intros ? ? ?).
  cbn [foldM MMIO]. change (fst (0x10001000, 0x1000) +u snd (0x10001000, 0x1000)) with 0x10002000.
  eapply wp_call; [apply (push_section_funded k); [exact Hsec|unfold kernel_sections; repeat first [left|right]|eassumption]|done|].
  intros ? ? ?. by wp_step.
Qed.

(** With a frame for the root and one for every path, the kernel's address space is
    made, and [k] frames are left. *)
Lemma new_kernel_fits k s :
  strampoline_ok → sections_ok → mm_wf s → (1 + length kernel_tables + k ≤ free_frames s)%nat →
  wp MemorySet_new_kernel (λ ks s', sections_mapped s kernel_sections s' ks ∧ (k ≤ free_frames s')%nat) no_panic s.
Proof.
  intros Hst Hsec Hmm Hfree. pose proof (new_kernel_funded k s Hst Hsec Hmm Hfree) as H1.
  pose proof (new_kernel_spec s Hst Hsec Hmm) as H2. unfold wp in *. destruct (MemorySet_new_kernel s) as [ks s'|e|].
  - split; [done|]. pose proof (fd_frames _ _ _ _ H1). lia.
  - subst e. by destruct H2 as [[=] _].
  - done.
Qed.
End KernelTables.

(** ** Nothing is given back

    Until the first [frame_dealloc] the allocator hands out the frames in order, which
    [dma_alloc] relies on. *)

Definition keeps {S A} (I : S → Prop) (m : M S A) : Prop := ∀ s a s', I s → m s = Done a s' → I s'.

Lemma wp_keeps {S A} (I : S → Prop) (m : M S A) Q E s :
  keeps I m → I s → wp m Q E s → wp m (λ a s', Q a s' ∧ I s') E s.
Proof. unfold wp. intros Hk Hs. destruct (m s) as [a s'| |] eqn:Hrun; [|done..]. intros HQ. split; [done|by eapply Hk]. Qed.

Lemma keeps_ret {S A} I (a : A) : keeps I (mret a : M S A).
Proof. by intros s b s' Hs [= _ <-]. Qed.

Lemma keeps_bind {S A B} I (m : M S A) (f : A → M S B) : keeps I m → (∀ a, keeps I (f a)) → keeps I (m ≫= f).
Proof.
  intros Hm Hf s b s' Hs. unfold mbind, M_bind. destruct (m s) as [a s1| |] eqn:E; [|done..]. apply Hf. by eapply Hm.
Qed.

Lemma keeps_gets {S A} I (f : S → A) : keeps I (gets f).
Proof. by intros s b s' Hs [= _ <-]. Qed.

Lemma keeps_unwrap {S A} I (o : option A) : keeps I (unwrap o : M S A).
Proof. by destruct o; intros s b s' Hs [= _ <-]. Qed.

Lemma keeps_assert {S} I b : keeps I (assert_ b : M S unit).
Proof. by destruct b; intros s a s' Hs [= _ <-]. Qed.

Lemma keeps_assoc {S A B C} I (m : M S A) (f : A → M S B) (g : B → M S C) :
  keeps I ((a ← m; f a) ≫= g) → keeps I (a ← m; f a ≫= g).
Proof. intros Hk s c s' Hs Hrun. apply (Hk s c s' Hs). revert Hrun. unfold mbind, M_bind. by destruct (m s). Qed.

Create HintDb keeps.
#[export] Hint Resolve keeps_ret keeps_gets keeps_unwrap keeps_assert : keeps.
Ltac keeps_solve := repeat first [solve [auto with keeps] | apply keeps_bind; [|intros ?] | case_match].

Definition unrecycled (s : mm) : Prop := fa_recycled (FRAME_ALLOCATOR s) = [].

Lemma frame_alloc_unrecycled : keeps unrecycled frame_alloc.
Proof.
  intros [m [cur end_ rec]] a s'. unfold unrecycled. simpl. intros ->.
  unfold frame_alloc, with_allocator, mbind, M_bind, zoom, gets. simpl.
  unfold StackFrameAllocator_alloc, mbind, M_bind, gets, modify. simpl. destruct (cur =? end_); unfold mret, M_ret; by intros [= _ <-].
Qed.

Lemma set_phys_unrecycled f : keeps unrecycled (set_phys f).
Proof. by intros s a s' Hs [= _ <-]. Qed.
#[export] Hint Resolve frame_alloc_unrecycled set_phys_unrecycled : keeps.

Lemma pte_ref_unrecycled ppn idx : keeps unrecycled (pte_ref ppn idx).
Proof. unfold pte_ref. case_match; [auto with keeps|by intros s a s']. Qed.
#[export] Hint Resolve pte_ref_unrecycled : keeps.

Lemma find_pte_create_unrecycled iters idxs ppn pt : keeps unrecycled (find_pte_create_loop iters idxs ppn pt).
Proof.
  revert ppn pt. induction iters as [|i iters IH]; intros ppn pt; cbn [find_pte_create_loop]; [auto with keeps|].
  unfold read_pte, write_pte. keeps_solve.
Qed.
#[export] Hint Resolve find_pte_create_unrecycled : keeps.

Lemma map_unrecycled pt vpn ppn flags : keeps unrecycled (PageTable_map pt vpn ppn flags).
Proof. unfold PageTable_map, PageTable_find_pte_create, read_pte, write_pte. keeps_solve. Qed.
#[export] Hint Resolve map_unrecycled : keeps.

Lemma map_identical_unrecycled a pt l :
  map_type a = Identical → keeps unrecycled (foldM (λ st vpn, MapArea_map_one vpn st) (a, pt) l).
Proof.
  intros Ht. revert pt. induction l as [|v l IH]; intros pt; cbn [foldM]; [auto with keeps|].
  intros s r s' Hs. unfold mbind at 1, M_bind at 1. unfold MapArea_map_one at 1. rewrite Ht.
  unfold mbind at 1, M_bind at 1, mret at 1, M_ret at 1. unfold mbind at 1, M_bind at 1.
  destruct (PTEFlags_from_bits (map_perm a)) as [fl|]; [|done]. unfold unwrap, mret at 1, M_ret at 1.
  unfold mbind at 1, M_bind at 1. destruct (PageTable_map pt v v fl s) as [pt' s1| |] eqn:E; [|done..].
  unfold mret, M_ret. apply (IH pt'). by eapply map_unrecycled.
Qed.

Lemma push_unrecycled ms start end_ perm :
  keeps unrecycled (a ← MapArea_new start end_ Identical perm; MemorySet_push ms a None).
Proof.
  unfold MapArea_new, SimpleRange_new. intros s r s' Hs. unfold assert_, mbind, M_bind, mret, M_ret.
  destruct (_ <=? _); [|done]. unfold MemorySet_push, MapArea_map, map_range, mbind, M_bind.
  match goal with |- context [foldM ?f (?a, ?pt) ?l s] => pose proof (map_identical_unrecycled a pt l eq_refl s) as Hm;
    destruct (foldM f (a, pt) l s) as [[a' pt'] s1| |]; [|done..] end.
  intros [= _ <-]. by eapply Hm.
Qed.

Lemma new_kernel_unrecycled `{LinkerSymbols} : keeps unrecycled MemorySet_new_kernel.
Proof.
  unfold MemorySet_new_kernel, MemorySet_new_bare, PageTable_new, MemorySet_map_trampoline.
  apply keeps_bind; [keeps_solve|intros bare]. apply keeps_bind; [|intros ms0].
  { unfold VirtPageNum_from_VirtAddr, PhysPageNum_from_PhysAddr. keeps_solve. }
  do 5 (apply keeps_assoc, keeps_bind; [apply push_unrecycled|intros ?]). cbn [foldM MMIO].
  apply keeps_bind; [apply push_unrecycled|intros ?; auto with keeps].
Qed.
