(* ===== verification/ElfLoad.v ===== *)
(** * Loading programs ([MapArea::copy_data], [MemorySet::push], [from_elf])

    What the address space of a program looks like after [MemorySet::from_elf]:
    which areas it has and which byte every user address holds. *)
From S2P Require Import Prelude Config Machine Address FrameAllocator Ownership.
From S2P Require Import PageTable PageTree PageTableSpec MemorySet MapAreaSpec MemorySetSpec.
From S2P Require Import AddressSpace UserSpace UserMemory Fork.

(** The bytes of a segment, followed by zeros. *)
Definition data_at (data : list byte) (i : Z) : byte :=
  default Corelib.Init.Byte.x00 (data !! Z.to_nat i).

(** ** Copying data into fresh pages *)

Lemma take_drop_data data start n :
  0 ≤ start → start + n ≤ Z.of_nat (length data) →
  take (Z.to_nat n) (drop (Z.to_nat start) data) = (λ j, data_at data (start + j)) <$> seqZ 0 n.
Proof.
  intros Hs Hn. apply list_eq. intros i. rewrite list_lookup_fmap.
  destruct (decide (Z.of_nat i < n)) as [Hi|Hi].
  - rewrite lookup_take_lt, lookup_drop, lookup_seqZ_lt by lia. simpl. unfold data_at.
    replace (Z.to_nat (start + (0 + Z.of_nat i))) with (Z.to_nat start + i)%nat by lia.
    by destruct (lookup_lt_is_Some_2 data (Z.to_nat start + i)) as [b ->]; [lia|].
  - rewrite lookup_take_ge, lookup_seqZ_ge by lia. done.
Qed.

Lemma copy_data_loop_spec fuel s ms X data start vpn :
  let len := Z.of_nat (length data) in
  MemorySet_ok s ms X → framed ms → 0 ≤ start ≤ len → start mod 4096 = 0 → len < 2 ^ 40 →
  (start < len ∨ len = 0) → len - start < Z.of_nat fuel * 4096 →
  (∀ v, vpn ≤ v < vpn + Z.max 1 ((len - start + 4095) / 4096) → v ∈ areas_vpns (areas ms)) →
  wp (copy_data_loop fuel (page_table ms) data start vpn) (λ _ s',
      user_written s ms X (vpn * 4096) (vpn * 4096 + (len - start)) (λ j, data_at data (start + j)) s')
    no_panic s.
Proof.
  intros len. revert s start vpn. induction fuel as [|fuel IH]; intros s start vpn Hok Hfr Hs Hal Hlen Hne Hfu Hv;
    [lia|]. cbn [copy_data_loop]. fold len. unfold PAGE_SIZE. rewrite usize_add_small by lia.
  set (n := Z.min len (start + 4096) - start).
  assert (Hn : 0 ≤ n ≤ 4096 ∧ n ≤ len - start) by lia.
  rewrite (proj2 (Z.ltb_ge (Z.min len (start + 4096)) start)) by lia.
  assert (Hvpn : vpn ∈ areas_vpns (areas ms)) by (apply Hv; lia).
  destruct (framed_frame _ _ _ _ Hok Hfr Hvpn) as [f Hf].
  wp_step. change (PageTable_translate (page_table ms) vpn) with (MemorySet_translate ms vpn).
  eapply wp_translate_frame; [done..|]. intros e He. do 2 wp_step. wp_step. unfold set_phys. wp_step.
  unfold PhysPageNum_get_bytes_array. rewrite He, PhysAddr_from_PhysPageNum_mul by (by eapply ms_frame_ppn).
  fold n. rewrite take_drop_data by lia.
  assert (Hd : vpn * 4096 / 4096 = vpn) by zsolve. assert (Hm : (vpn * 4096) mod 4096 = 0) by zsolve.
  pose proof (write_chunk s ms X (vpn * 4096) n f (λ j, data_at data (start + j)) Hok Hfr
    ltac:(by rewrite Hd) ltac:(lia) ltac:(lia)) as Hw.
  rewrite Hm, Z.add_0_r in Hw. set (s1 := {| phys := _; FRAME_ALLOCATOR := _ |}) in *.
  destruct (Z.leb_spec len (start + 4096)) as [Hend|Hmore].
  - wp_step. replace n with (len - start) in Hw by lia. exact Hw.
  - assert (n = 4096) as Hn4 by lia. rewrite Hn4 in *.
    assert (Hvv : is_vpn vpn) by (by eapply areas_vpns_is_vpn). unfold is_vpn in Hvv.
    unfold VirtPageNum_step. rewrite usize_add_small by lia.
    eapply wp_mono; [apply (IH s1 (start + 4096) (vpn + 1))| |done].
    + apply Hw.
    + done.
    + lia.
    + zsolve.
    + done.
    + by left.
    + lia.
    + intros v Hv'. apply Hv. zsolve.
    + intros [] s' Hw'. replace ((vpn + 1) * 4096) with (vpn * 4096 + 4096) in Hw' by lia.
      eapply (ms_step_user_trans s ms X _ (vpn * 4096 + 4096)); [lia|exact Hw|].
      replace (vpn * 4096 + (len - start)) with (vpn * 4096 + 4096 + (len - (start + 4096))) by lia.
      destruct Hw' as [Hst Hb]. split; [done|]. intros va Hva. rewrite Hb by done.
      case_decide; [|done]. do 2 f_equal. lia.
Qed.

(** ** Pushing an area with its contents *)

(** The area [a] was added to [ms], holding [data] followed by zeros. *)
Record loaded (s : mm) (ms : MemorySet) (a : MapArea) (data : list byte) (X : gmap Z Z)
    (s' : mm) (ms' : MemorySet) : Prop := {
  ld_area : ∃ a', areas ms' = areas ms ++ [a'] ∧ same_area a a';
  ld_step : ms_step s ms s' ms' X;
  ld_new va : va / 4096 ∈ vpns (vpn_range a) →
    user_byte s' ms' va = Some (data_at data (va - range_l (vpn_range a) * 4096));
  ld_old va : va / 4096 ∈ areas_vpns (areas ms) → user_byte s' ms' va = user_byte s ms va;
  ld_cost : (free_frames s ≤ free_frames s' + 3 * length (vpns (vpn_range a)))%nat;
}.

Lemma pushed_same s ms a s' ms' a' X : pushed s ms a s' ms' a' X → same_area a a'.
Proof. intros []. by split. Qed.

Lemma pushed_framed s ms a s' ms' a' X :
  pushed s ms a s' ms' a' X → framed ms → map_type a = Framed → framed ms'.
Proof.
  intros Hp Hfr Ht. unfold framed. rewrite (pushed_areas _ _ _ _ _ _ _ Hp).
  apply Forall_app. split; [done|]. constructor; [|constructor].
  by rewrite (pushed_type _ _ _ _ _ _ _ Hp).
Qed.

Lemma pushed_loaded s ms a s' ms' a' X :
  MemorySet_ok s ms X → framed ms → map_type a = Framed → pushed s ms a s' ms' a' X →
  loaded s ms a [] X s' ms'.
Proof.
  intros Hok Hfr Ht Hp. split.
  - exists a'. split; [apply Hp|by eapply pushed_same].
  - apply Hp.
  - intros va Hva. destruct (pushed_lookup_new _ _ _ _ _ _ _ _ Hp Ht Hva) as (f & Hf & Hz & Hl).
    pose proof (mss_ok _ _ _ _ _ (pushed_step _ _ _ _ _ _ _ Hp)) as Hok'.
    assert (Hmf : ms_frame (areas ms') (va / 4096) f).
    { exists a'. split; [|done]. rewrite (pushed_areas _ _ _ _ _ _ _ Hp). apply elem_of_app. right. by left. }
    unfold user_byte. rewrite (user_addr_frame _ _ _ Hok' _ _ Hmf). simpl. unfold data_at. simpl.
    f_equal. apply Hz. zsolve.
  - intros va Hva. by eapply pushed_user_byte.
  - apply Hp.
Qed.

(** [MapArea::map] gives what [push] stores. *)
Lemma map_pushed_spec s ms a X :
  MemorySet_ok s ms X → area_fresh a →
  wp (MapArea_map a (page_table ms)) (λ r s', pushed s ms a s'
      {| page_table := snd r; areas := areas ms ++ [fst r] |} (fst r) X)
    (map_range_error s (page_table ms) (vpns (vpn_range a))) s.
Proof.
  intros Hok Hfr. pose proof (push_none_spec s ms a X Hok Hfr) as H.
  unfold MemorySet_push, wp, mbind, M_bind in *.
  destruct (MapArea_map a (page_table ms) s) as [[a' pt'] s'|k|]; [|done..].
  destruct H as [a'' Hp]. pose proof (pushed_areas _ _ _ _ _ _ _ Hp) as Hap. simpl in Hap.
  apply app_inv_head in Hap. by injection Hap as ->.
Qed.

Lemma push_data_spec s ms a data X :
  MemorySet_ok s ms X → framed ms → area_fresh a → map_type a = Framed →
  range_l (vpn_range a) < range_r (vpn_range a) →
  Z.of_nat (length data) ≤ (range_r (vpn_range a) - range_l (vpn_range a)) * 4096 →
  wp (MemorySet_push ms a (Some data)) (λ ms' s', loaded s ms a data X s' ms')
    (map_range_error s (page_table ms) (vpns (vpn_range a))) s.
Proof.
  intros Hok Hfr Hfresh Ht Hne Hlen. pose proof (fresh_bounds _ Hfresh) as Hbd.
  unfold MemorySet_push. eapply wp_call; [by apply map_pushed_spec|done|].
  intros [a' pt'] s1 Hp. simpl in Hp. set (ms' := {| page_table := pt'; areas := _ |}) in Hp.
  pose proof (pushed_framed _ _ _ _ _ _ _ Hp Hfr Ht) as Hfr'.
  destruct (pushed_loaded _ _ _ _ _ _ _ Hok Hfr Ht Hp) as [Har Hst Hnew Hold Hcost].
  set (base := range_l (vpn_range a)) in *. unfold MapArea_copy_data.
  rewrite (pushed_type _ _ _ _ _ _ _ Hp), Ht, bool_decide_true by done.
  unfold SimpleRange_get_start. rewrite (pushed_range _ _ _ _ _ _ _ Hp). fold base.
  assert (Hin : ∀ v, v ∈ vpns (vpn_range a) → v ∈ areas_vpns (areas ms')).
  { intros v Hv. destruct Har as (b & Hb & Hs). rewrite Hb, areas_vpns_app, areas_vpns_cons.
    rewrite (same_range _ _ Hs), !elem_of_app. auto. }
  wp_step. do 2 wp_step. change pt' with (page_table ms').
  eapply wp_mono; [apply (copy_data_loop_spec _ s1 ms' X data 0 base)| |done];
    [apply Hst|done|lia|done|lia|lia|lia| |].
  { intros v Hv. apply Hin, elem_of_vpns. fold base. zsolve. }
  intros [] s2 [Hst2 Hb2]. wp_step. change ({| page_table := pt'; areas := _ |}) with ms'. split.
  - done.
  - by eapply ms_step_trans.
  - intros va Hva. rewrite Hb2 by auto. rewrite Hnew by done.
    apply elem_of_vpns in Hva. fold base in Hva.
    case_decide as Hc; [do 2 f_equal; lia|]. unfold data_at. simpl.
    rewrite (lookup_ge_None_2 data); [done|]. zsolve.
  - intros va Hva. rewrite Hb2, Hold; [|done|].
    + rewrite decide_False; [done|]. intros Hc.
      assert (Hv : va / 4096 ∈ vpns (vpn_range a)) by (apply elem_of_vpns; fold base; zsolve).
      pose proof (ms_disjoint _ _ _ _ (mss_ok _ _ _ _ _ Hst)) as Hnd.
      destruct Har as (b & Hb & Hs). rewrite Hb, areas_vpns_app, areas_vpns_cons, (same_range _ _ Hs) in Hnd.
      apply NoDup_app in Hnd as (_ & Hd & _). apply (Hd _ Hva), elem_of_app. by left.
    + destruct Har as (b & -> & _). rewrite areas_vpns_app, elem_of_app. by left.
  - pose proof (step_count _ _ _ _ (mss_step _ _ _ _ _ Hst2)). lia.
Qed.

(** ** Layouts *)

(** A part of an address space: its pages, its permissions and its bytes. *)
Record segment : Type := mkSegment {
  seg_range : SimpleRange;
  seg_perm : Z;
  seg_data : list byte;
}.

Definition segs_vpns (segs : list segment) : list Z := segs ≫= (λ g, vpns (seg_range g)).

Definition seg_area (g : segment) (a : MapArea) : Prop :=
  vpn_range a = seg_range g ∧ map_type a = Framed ∧ map_perm a = seg_perm g.

(** The new address space [ms], made since the state [s0], consists of the
    segments [segs] and of nothing else. *)
Record laid_out `{LinkerSymbols} (s0 : mm) (segs : list segment) (s : mm) (ms : MemorySet) : Prop := {
  lo_ok : MemorySet_ok s ms trampoline_map;
  lo_step : mm_step s0 [] s (ms_frames ms);
  lo_areas : Forall2 seg_area segs (areas ms);
  lo_bytes g va : g ∈ segs → va / 4096 ∈ vpns (seg_range g) →
    user_byte s ms va = Some (data_at (seg_data g) (va - range_l (seg_range g) * 4096));
  lo_cost : (free_frames s0 ≤ free_frames s + 3 + 3 * length (segs_vpns segs))%nat;
}.

Lemma segs_vpns_snoc segs g : segs_vpns (segs ++ [g]) = segs_vpns segs ++ vpns (seg_range g).
Proof. unfold segs_vpns. rewrite bind_app. simpl. by rewrite app_nil_r. Qed.

Lemma seg_areas_vpns segs al : Forall2 seg_area segs al → areas_vpns al = segs_vpns segs.
Proof.
  induction 1 as [|g a segs al (Hr & _) _ IH]; [done|]. rewrite areas_vpns_cons, IH, Hr. done.
Qed.

Lemma seg_areas_framed segs ms : Forall2 seg_area segs (areas ms) → framed ms.
Proof. unfold framed. induction 1 as [|g a segs al (_ & Ht & _) _ IH]; by constructor. Qed.

Section Layout.
Context `{LinkerSymbols} (s0 : mm).

(** What running out of frames means for a layout. *)
Definition layout_error (segs : list segment) (k : panic_kind) : Prop :=
  k = UnwrapNone ∧ (free_frames s0 < 3 + 3 * length (segs_vpns segs))%nat.

Lemma layout_error_mono segs segs' k :
  (length (segs_vpns segs) ≤ length (segs_vpns segs'))%nat → layout_error segs k → layout_error segs' k.
Proof. intros Hl [-> ?]. split; [done|lia]. Qed.

(** Pages that are neither laid out nor the trampoline are unmapped. *)
Lemma laid_out_unmapped segs s ms v :
  laid_out s0 segs s ms → is_vpn v → v ∉ segs_vpns segs → v ≠ TRAMPOLINE_VPN →
  pt_lookup (phys s) (page_table ms) v = None.
Proof.
  intros [Hok _ Har _ _] Hv Hn Ht. rewrite (ms_lookup_other _ _ _ _ Hok); [|done|].
  - by apply lookup_singleton_ne.
  - by rewrite (seg_areas_vpns _ _ Har).
Qed.

Lemma laid_out_loaded segs s ms a data s' ms' :
  laid_out s0 segs s ms → map_type a = Framed → loaded s ms a data trampoline_map s' ms' →
  laid_out s0 (segs ++ [mkSegment (vpn_range a) (map_perm a) data]) s' ms'.
Proof.
  intros [Hok Hstep Har Hb Hc] Ht [(a' & Hareas & [Hr Hty Hp]) [Hok' Hstep' _] Hnew Hold Hcost].
  split.
  - done.
  - by eapply mm_step_trans.
  - rewrite Hareas. apply Forall2_app; [done|]. constructor; [|constructor].
    split_and!; simpl; congruence.
  - intros g va [Hg|Hg]%elem_of_app Hva.
    + rewrite Hold; [by apply Hb|]. rewrite (seg_areas_vpns _ _ Har). apply list_elem_of_bind. eauto.
    + apply list_elem_of_singleton in Hg as ->. by apply Hnew.
  - rewrite segs_vpns_snoc, length_app. simpl. lia.
Qed.

(** One [push] of the loader. *)
Lemma push_segment segs s ms a (d : option (list byte)) :
  laid_out s0 segs s ms → area_fresh a → map_type a = Framed →
  range_r (vpn_range a) ≤ TRAMPOLINE_VPN →
  (∀ v, v ∈ vpns (vpn_range a) → v ∉ segs_vpns segs) →
  (∀ data, d = Some data → range_l (vpn_range a) < range_r (vpn_range a) ∧
     Z.of_nat (length data) ≤ (range_r (vpn_range a) - range_l (vpn_range a)) * 4096) →
  let g := mkSegment (vpn_range a) (map_perm a) (default [] d) in
  wp (MemorySet_push ms a d) (λ ms' s', laid_out s0 (segs ++ [g]) s' ms')
    (layout_error (segs ++ [g])) s.
Proof.
  intros Hlo Hfresh Ht Hend Hdis Hd g. pose proof Hlo as [Hok Hstep Har Hb Hc].
  pose proof (seg_areas_framed _ _ Har) as Hfr.
  assert (HE : ∀ k, map_range_error s (page_table ms) (vpns (vpn_range a)) k → layout_error (segs ++ [g]) k).
  { intros k [[-> Hf]|[-> (v & Hv & e & He)]]; [split; [done|]|exfalso].
    - rewrite segs_vpns_snoc, length_app. simpl. lia.
    - pose proof (Hdis v Hv) as Hn. apply elem_of_vpns in Hv. destruct (fresh_bounds _ Hfresh).
      rewrite (laid_out_unmapped segs s ms v) in He; [done|done| |done|].
      + unfold is_vpn, TRAMPOLINE_VPN in *. lia.
      + lia. }
  destruct d as [data|].
  - destruct (Hd data eq_refl) as [Hne Hlen].
    eapply wp_mono; [by apply push_data_spec| |exact HE].
    intros ms' s' Hl. by apply (laid_out_loaded segs s ms a data).
  - eapply wp_mono; [by apply push_none_spec| |exact HE].
    intros ms' s' [a' Hp]. apply (laid_out_loaded segs s ms a []); [done..|]. by eapply pushed_loaded.
Qed.

End Layout.

(** ** Program headers *)

#[global] Instance PhType_eq_dec : EqDecision PhType.
Proof. solve_decision. Defined.

(** All program headers, when they can be read. *)
Definition elf_headers (elf : ElfFile) : option (list ProgramHeader) :=
  mapM (elf_program_header elf) (seq 0 (elf_ph_count elf)).

Definition loads (phs : list ProgramHeader) : list ProgramHeader :=
  filter (λ ph, ph_type ph = Some PhLoad) phs.

Definition ph_range (ph : ProgramHeader) : SimpleRange :=
  page_range (ph_virtual_addr ph) (ph_virtual_addr ph + ph_mem_size ph).

(** The bytes of a segment in the file. *)
Definition ph_data (elf_data : list byte) (ph : ProgramHeader) : list byte :=
  take (Z.to_nat (ph_file_size ph)) (drop (Z.to_nat (ph_offset ph)) elf_data).

Definition ph_segment (elf_data : list byte) (ph : ProgramHeader) : segment :=
  mkSegment (ph_range ph) (ph_map_perm ph) (ph_data elf_data ph).

(** A loadable segment that makes sense: at least one page below the end of the
    address space, file bytes inside the file and not more than its pages hold. *)
Record load_ok (elf_data : list byte) (ph : ProgramHeader) : Prop := {
  lk_vaddr : 0 ≤ ph_virtual_addr ph ∧ 0 ≤ ph_mem_size ph ∧
    ph_virtual_addr ph + ph_mem_size ph ≤ TRAMPOLINE_VPN * 4096;
  lk_pages : range_l (ph_range ph) < range_r (ph_range ph);
  lk_file : 0 ≤ ph_offset ph ∧ 0 ≤ ph_file_size ph ∧
    ph_offset ph + ph_file_size ph ≤ Z.of_nat (length elf_data) ∧ Z.of_nat (length elf_data) < 2 ^ 40;
  lk_fits : ph_file_size ph ≤ (range_r (ph_range ph) - range_l (ph_range ph)) * 4096;
}.

(** The page after the last loaded segment, where the guard page is. *)
Definition last_end (lds : list ProgramHeader) : Z := foldl (λ _ ph, range_r (ph_range ph)) 0 lds.

Definition elf_stack_top (lds : list ProgramHeader) : Z := (last_end lds + 3) * 4096.

Definition rwu : Z := Z.lor (Z.lor MapPermission_R MapPermission_W) MapPermission_U.

(** The layout [from_elf] gives: the segments, a guard page, two pages of stack,
    an empty heap on top of it, and the trap context below the trampoline. *)
Definition elf_layout (elf_data : list byte) (lds : list ProgramHeader) : list segment :=
  (ph_segment elf_data <$> lds) ++
  [ mkSegment (mkSimpleRange (last_end lds + 1) (last_end lds + 3)) rwu [];
    mkSegment (mkSimpleRange (last_end lds + 3) (last_end lds + 3)) rwu [];
    mkSegment (mkSimpleRange (TRAMPOLINE_VPN - 1) TRAMPOLINE_VPN)
      (Z.lor MapPermission_R MapPermission_W) [] ].

(** The body of the loop once the header is known. *)
Definition load_header (elf_data : list byte) (st : MemorySet * VirtPageNum) (ph : ProgramHeader)
    : M mm (MemorySet * VirtPageNum) :=
  load_segment {| elf_magic := []; elf_ph_count := 0; elf_program_header := λ _, Some ph;
                  elf_entry_point := 0 |} elf_data st 0.

Lemma foldM_headers elf elf_data i n phs st s :
  mapM (elf_program_header elf) (seq i n) = Some phs →
  foldM (load_segment elf elf_data) st (seq i n) s = foldM (load_header elf_data) st phs s.
Proof.
  revert i phs st s. induction n as [|n IH]; intros i phs st s Hm; simpl in Hm; [by injection Hm as <-|].
  destruct (elf_program_header elf i) as [ph|] eqn:Hph; [|done]. simpl in Hm.
  destruct (mapM _ (seq (S i) n)) as [phs'|] eqn:Hm'; [|done]. injection Hm as <-.
  cbn [seq foldM]. unfold mbind, M_bind.
  assert (Hstep : load_segment elf elf_data st i s = load_header elf_data st ph s).
  { unfold load_header, load_segment. destruct st as [ms mx]. by rewrite Hph. }
  rewrite Hstep. destruct (load_header elf_data st ph s); [by apply IH|done..].
Qed.

Lemma ph_map_perm_is_perm ph : is_perm (ph_map_perm ph).
Proof.
  unfold ph_map_perm. destruct (ph_is_read ph), (ph_is_write ph), (ph_is_execute ph);
    vm_compute; split; congruence.
Qed.

Lemma VirtAddr_from_usize_id v : 0 ≤ v < 2 ^ 39 → VirtAddr_from_usize v = v.
Proof. intros. rewrite VirtAddr_from_usize_mod. by apply Z.mod_small. Qed.

Lemma loads_snoc pre ph :
  loads (pre ++ [ph]) = loads pre ++ (if decide (ph_type ph = Some PhLoad) then [ph] else []).
Proof. unfold loads. rewrite filter_app, filter_cons. by case_decide. Qed.

Lemma last_end_snoc lds ph : last_end (lds ++ [ph]) = range_r (ph_range ph).
Proof. unfold last_end. by rewrite foldl_app. Qed.

Section LoadHeaders.
Context `{LinkerSymbols} (s0 : mm) (elf_data : list byte).

Let segs (phs : list ProgramHeader) : list segment := ph_segment elf_data <$> loads phs.

Lemma load_header_spec pre ph s ms :
  laid_out s0 (segs pre) s ms → is_Some (ph_type ph) →
  (ph_type ph = Some PhLoad → load_ok elf_data ph ∧
     ∀ v, v ∈ vpns (ph_range ph) → v ∉ segs_vpns (segs pre)) →
  wp (load_header elf_data (ms, last_end (loads pre)) ph) (λ r s',
      laid_out s0 (segs (pre ++ [ph])) s' (fst r) ∧ snd r = last_end (loads (pre ++ [ph])))
    (layout_error s0 (segs (pre ++ [ph]))) s.
Proof.
  intros Hlo [ty Hty] Hld. unfold load_header, load_segment. cbn [elf_program_header].
  do 2 wp_step. rewrite Hty. do 2 wp_step. unfold segs. rewrite loads_snoc. destruct ty.
  2: { rewrite decide_False by congruence. rewrite app_nil_r. by wp_step. }
  rewrite decide_True by done. destruct (Hld Hty) as [[Hva Hpg Hfile Hfit] Hdis].
  rewrite fmap_app, last_end_snoc. simpl fmap. unfold ph_range, page_range, TRAMPOLINE_VPN in *. simpl in Hpg, Hfit.
  set (v := ph_virtual_addr ph) in *. set (n := ph_mem_size ph) in *.
  rewrite !usize_add_small by lia. rewrite !VirtAddr_from_usize_id by lia.
  eapply wp_call; [apply MapArea_new_spec; [lia|lia|apply ph_map_perm_is_perm]| |].
  { intros k [_ Hbad]. lia. }
  intros a s1 (-> & Hfr & Hl & Hr & Ht & Hp).
  assert (Hrng : vpn_range a = ph_range ph)
    by (rewrite (range_eta (vpn_range a)), Hl, Hr; done).
  unfold slice.
  rewrite (proj2 (Z.leb_le (ph_offset ph) _)), (proj2 (Z.leb_le _ (Z.of_nat _))) by lia. simpl andb.
  do 2 wp_step. replace (ph_offset ph + ph_file_size ph - ph_offset ph) with (ph_file_size ph) by lia.
  fold (ph_data elf_data ph).
  assert (Hseg : mkSegment (vpn_range a) (map_perm a) (ph_data elf_data ph) = ph_segment elf_data ph)
    by (unfold ph_segment; by rewrite Hrng, Hp).
  wp_step. eapply wp_mono; [apply (push_segment s0 (segs pre) s ms a (Some (ph_data elf_data ph)))| |].
  - done.
  - done.
  - done.
  - rewrite Hr. unfold TRAMPOLINE_VPN. zsolve.
  - intros w. rewrite Hrng. apply Hdis.
  - intros data [= <-]. rewrite Hl, Hr. split; [done|]. unfold ph_data.
    rewrite length_take, length_drop. lia.
  - intros ms' s'. simpl. rewrite Hseg. intros Hlo'. wp_step. split; [done|].
    unfold SimpleRange_get_end. by rewrite Hr.
  - simpl. by rewrite Hseg.
Qed.

Lemma load_headers_spec phs s ms :
  laid_out s0 [] s ms → Forall (λ ph, is_Some (ph_type ph)) phs →
  Forall (load_ok elf_data) (loads phs) → NoDup (segs_vpns (segs phs)) →
  wp (foldM (load_header elf_data) (ms, 0) phs) (λ r s',
      laid_out s0 (segs phs) s' (fst r) ∧ snd r = last_end (loads phs))
    (layout_error s0 (segs phs)) s.
Proof.
  intros Hlo Htys Hlds Hnd.
  eapply wp_mono; [apply (wp_foldM _ (λ rest r s', ∃ pre, phs = pre ++ rest ∧
    laid_out s0 (segs pre) s' (fst r) ∧ snd r = last_end (loads pre)) (layout_error s0 (segs phs)))| |done].
  - exists []. by split_and!.
  - intros ph rest [ms1 mx] s1 (pre & Hphs & Hlo1 & Hmx). simpl in Hlo1, Hmx. subst mx.
    assert (Hsplit : segs phs = segs (pre ++ [ph]) ++ segs rest).
    { unfold segs, loads. rewrite Hphs. rewrite <-fmap_app, <-filter_app, <-app_assoc. done. }
    rewrite Hsplit in Hnd. unfold segs_vpns in Hnd. rewrite bind_app in Hnd.
    apply NoDup_app in Hnd as (Hnd & _ & _).
    eapply wp_mono; [apply (load_header_spec pre); [done| |]| |].
    + apply (proj1 (Forall_forall _ _) Htys). rewrite Hphs. apply elem_of_app. right. by left.
    + intros Hty. split.
      * apply (proj1 (Forall_forall _ _) Hlds). unfold loads. apply list_elem_of_filter. split; [done|].
        rewrite Hphs. apply elem_of_app. right. by left.
      * unfold segs in Hnd. rewrite loads_snoc, decide_True, fmap_app in Hnd by done.
        rewrite bind_app in Hnd. apply NoDup_app in Hnd as (_ & Hd & _).
        intros v Hv Hin. apply (Hd v Hin). simpl. by rewrite app_nil_r.
    + intros [ms2 mx] s2 [Hlo2 Hmx]. exists (pre ++ [ph]). by rewrite <-app_assoc.
    + intros k. apply layout_error_mono. rewrite Hsplit. unfold segs_vpns.
      rewrite bind_app, length_app. lia.
  - intros r s' (pre & Hphs & H1 & H2). rewrite app_nil_r in Hphs. by subst pre.
Qed.

End LoadHeaders.

Lemma last_end_bounds elf_data lds :
  Forall (load_ok elf_data) lds → 0 ≤ last_end lds ≤ TRAMPOLINE_VPN.
Proof.
  destruct lds as [|ph lds _] using rev_ind; [vm_compute; split; congruence|].
  intros [_ Hph]%Forall_app. rewrite last_end_snoc. apply Forall_cons in Hph as [[Hva _ _ _] _].
  unfold ph_range, page_range, TRAMPOLINE_VPN in *. simpl. zsolve.
Qed.

(** A new, empty area is added without data. *)
Lemma push_new_segment `{LinkerSymbols} s0 segs s ms start_va end_va perm l r :
  laid_out s0 segs s ms → is_perm perm → start_va = l * 4096 → end_va = r * 4096 →
  0 ≤ l ≤ r → r ≤ TRAMPOLINE_VPN →
  (∀ v, l ≤ v < r → v ∉ segs_vpns segs) →
  let g := mkSegment (mkSimpleRange l r) perm [] in
  wp (a ← MapArea_new start_va end_va Framed perm; MemorySet_push ms a None)
    (λ ms' s', laid_out s0 (segs ++ [g]) s' ms') (layout_error s0 (segs ++ [g])) s.
Proof.
  intros Hlo Hp -> -> Hl Hr Hdis g. unfold TRAMPOLINE_VPN in Hr.
  eapply wp_call; [apply MapArea_new_spec; [lia|lia|done]| |].
  { intros k [_ Hbad]. zsolve. }
  intros a s1 (-> & Hfr & Hal & Har & Ht & Hpm).
  replace (l * 4096 / 4096) with l in Hal by zsolve.
  replace ((r * 4096 + 4095) / 4096) with r in Har by zsolve.
  assert (Hseg : mkSegment (vpn_range a) (map_perm a) [] = g)
    by (unfold g; rewrite (range_eta (vpn_range a)), Hal, Har, Hpm; done).
  pose proof (push_segment s0 segs s ms a None Hlo Hfr Ht) as Hpush. simpl in Hpush.
  rewrite Hseg in Hpush. apply Hpush; [rewrite Har; unfold TRAMPOLINE_VPN; lia| |done].
  intros v Hv%elem_of_vpns. apply Hdis. lia.
Qed.

Lemma elf_layout_split elf_data lds g1 g2 g3 :
  elf_layout elf_data lds = (ph_segment elf_data <$> lds) ++ [g1; g2; g3] →
  elf_layout elf_data lds = ((((ph_segment elf_data <$> lds) ++ [g1]) ++ [g2]) ++ [g3]).
Proof. intros ->. by rewrite <-!app_assoc. Qed.

(** The stack, the heap and the trap context, after the segments. *)
Lemma from_elf_tail `{LinkerSymbols} s0 elf_data lds s ms (entry : Z) :
  laid_out s0 (ph_segment elf_data <$> lds) s ms → 0 ≤ last_end lds →
  elf_stack_top lds ≤ (TRAMPOLINE_VPN - 1) * 4096 →
  NoDup (segs_vpns (elf_layout elf_data lds)) →
  let max_end_va := VirtAddr_from_VirtPageNum (last_end lds) in
  let user_stack_bottom := max_end_va +u PAGE_SIZE in
  let user_stack_top := user_stack_bottom +u USER_STACK_SIZE in
  wp (stack ← MapArea_new (VirtAddr_from_usize user_stack_bottom)
                (VirtAddr_from_usize user_stack_top) Framed rwu;
      ms2 ← MemorySet_push ms stack None;
      heap ← MapArea_new (VirtAddr_from_usize user_stack_top) (VirtAddr_from_usize user_stack_top)
               Framed rwu;
      ms3 ← MemorySet_push ms2 heap None;
      trap ← MapArea_new (VirtAddr_from_usize TRAP_CONTEXT_BASE) (VirtAddr_from_usize TRAMPOLINE)
               Framed (Z.lor MapPermission_R MapPermission_W);
      ms4 ← MemorySet_push ms3 trap None;
      mret (ms4, user_stack_top, entry))
    (λ r s', laid_out s0 (elf_layout elf_data lds) s' r.1.1 ∧
       r.1.2 = elf_stack_top lds ∧ r.2 = entry)
    (layout_error s0 (elf_layout elf_data lds)) s.
Proof.
  intros Hlo He Htop Hnd max_end_va bot top. set (e := last_end lds) in *.
  unfold elf_stack_top, TRAMPOLINE_VPN in Htop. fold e in Htop.
  assert (Hbot : bot = (e + 1) * 4096).
  { unfold bot, max_end_va. rewrite VirtAddr_from_VirtPageNum_mul by lia.
    unfold PAGE_SIZE. rewrite usize_add_small by lia. lia. }
  assert (Htop' : top = (e + 3) * 4096).
  { unfold top. rewrite Hbot. unfold USER_STACK_SIZE. rewrite usize_add_small by lia. lia. }
  clearbody bot top. subst bot top.
  rewrite (VirtAddr_from_usize_id ((e + 1) * 4096)), (VirtAddr_from_usize_id ((e + 3) * 4096)) by lia.
  pose proof (elf_layout_split elf_data lds _ _ _ eq_refl) as Hsplit. rewrite Hsplit in Hnd.
  fold e in Hsplit, Hnd. set (g1 := mkSegment (mkSimpleRange (e + 1) (e + 3)) rwu []) in *.
  set (g2 := mkSegment (mkSimpleRange (e + 3) (e + 3)) rwu []) in *.
  set (g3 := mkSegment (mkSimpleRange (TRAMPOLINE_VPN - 1) TRAMPOLINE_VPN) _ []) in *.
  set (segs := ph_segment elf_data <$> lds) in *.
  rewrite !segs_vpns_snoc in Hnd. apply NoDup_app in Hnd as (Hnd & Hd3 & _).
  apply NoDup_app in Hnd as (Hnd & _ & _). apply NoDup_app in Hnd as (_ & Hd1 & _).
  assert (Hrwu : is_perm rwu) by (vm_compute; split; congruence).
  assert (HE : ∀ segs1 segs2 k, elf_layout elf_data lds = segs1 ++ segs2 →
    layout_error s0 segs1 k → layout_error s0 (elf_layout elf_data lds) k).
  { intros segs1 segs2 k ->. apply layout_error_mono. unfold segs_vpns. rewrite bind_app, length_app. lia. }
  apply wp_assoc. eapply wp_call; [apply (push_new_segment s0 segs s ms _ _ rwu (e + 1) (e + 3)); try done; try lia| |].
  { unfold TRAMPOLINE_VPN. lia. }
  { intros v Hv Hin. apply (Hd1 v Hin), elem_of_vpns. simpl. lia. }
  { intros k. eapply HE. rewrite Hsplit, <-!app_assoc. done. }
  intros ms2 s2 Hlo2. apply wp_assoc.
  eapply wp_call; [apply (push_new_segment s0 _ s2 ms2 _ _ rwu (e + 3) (e + 3) Hlo2); try done; try lia| |].
  { unfold TRAMPOLINE_VPN. lia. }
  { intros k. eapply HE. rewrite Hsplit, <-!app_assoc. done. }
  intros ms3 s3 Hlo3. apply wp_assoc.
  eapply wp_call; [apply (push_new_segment s0 _ s3 ms3 _ _ _ (TRAMPOLINE_VPN - 1) TRAMPOLINE_VPN Hlo3)| |].
  { split; vm_compute; congruence. }
  { reflexivity. }
  { reflexivity. }
  { split; vm_compute; congruence. }
  { reflexivity. }
  { intros v Hv Hin. rewrite !segs_vpns_snoc in Hin. apply (Hd3 v Hin), elem_of_vpns. done. }
  { intros k. by rewrite Hsplit. }
  intros ms4 s4 Hlo4. wp_step. simpl. rewrite Hsplit. by split_and!.
Qed.

Lemma from_elf_spec `{LinkerSymbols} ElfFile_new elf_data elf phs s :
  strampoline_ok → mm_wf s →
  ElfFile_new elf_data = Some elf → elf_magic elf = [0x7f; 0x45; 0x4c; 0x46] →
  elf_headers elf = Some phs → Forall (λ ph, is_Some (ph_type ph)) phs →
  Forall (load_ok elf_data) (loads phs) →
  elf_stack_top (loads phs) ≤ (TRAMPOLINE_VPN - 1) * 4096 →
  NoDup (segs_vpns (elf_layout elf_data (loads phs))) →
  wp (MemorySet_from_elf ElfFile_new elf_data) (λ r s',
      laid_out s (elf_layout elf_data (loads phs)) s' r.1.1 ∧
      r.1.2 = elf_stack_top (loads phs) ∧ r.2 = elf_entry_point elf)
    (layout_error s (elf_layout elf_data (loads phs))) s.
Proof.
  intros Hst Hmm Helf Hmagic Hphs Htys Hlds Htop Hnd. unfold MemorySet_from_elf.
  eapply wp_call; [by apply new_bare_spec| |].
  { intros k [-> ?]. split; [done|lia]. }
  intros bare s1 (Hok1 & Har1 & Hstep1 & Hlen1).
  pose proof (step_count _ _ _ _ Hstep1) as Hc1. rewrite Hlen1 in Hc1. simpl in Hc1.
  eapply wp_call; [apply map_trampoline_spec; [done..|rewrite Har1; apply not_elem_of_nil]| |].
  { intros k [-> ?]. split; [done|lia]. }
  intros ms s2 ([Hok2 Hstep2 _] & Har2 & Hlen2).
  pose proof (step_count _ _ _ _ Hstep2) as Hc2.
  assert (Hlo : laid_out s [] s2 ms).
  { split; [done|by eapply mm_step_trans|rewrite Har2, Har1; constructor| |simpl; lia].
    by intros g va ?%not_elem_of_nil. }
  rewrite Helf. do 2 wp_step. rewrite Hmagic, bool_decide_true by done. do 2 wp_step.
  assert (Hsegs : NoDup (segs_vpns (ph_segment elf_data <$> loads phs))).
  { unfold elf_layout, segs_vpns in Hnd. rewrite bind_app in Hnd. by apply NoDup_app in Hnd as (? & _). }
  wp_step. unfold wp. rewrite (foldM_headers elf elf_data 0 _ phs) by exact Hphs.
  pose proof (load_headers_spec s elf_data phs s2 ms Hlo Htys Hlds Hsegs) as Hload. unfold wp in Hload.
  destruct (foldM (load_header elf_data) (ms, 0) phs s2) as [[ms1 mx] s3|k|]; [| |done].
  - destruct Hload as [Hlo1 Hmx]. simpl in Hlo1, Hmx. subst mx.
    apply from_elf_tail; [done| |done..]. by apply (last_end_bounds elf_data).
  - revert Hload. apply layout_error_mono. unfold elf_layout, segs_vpns.
    rewrite bind_app, length_app. lia.
Qed.

(** A program with one executable page, which holds the bytes [1; 2; 3]. *)
Definition demo_ph : ProgramHeader :=
  {| ph_type := Some PhLoad; ph_virtual_addr := 0; ph_mem_size := 0x1000; ph_offset := 1;
     ph_file_size := 3; ph_is_read := true; ph_is_write := false; ph_is_execute := true |}.
Definition demo_elf : ElfFile :=
  {| elf_magic := [0x7f; 0x45; 0x4c; 0x46]; elf_ph_count := 1;
     elf_program_header := λ i, if (i =? 0)%nat then Some demo_ph else None;
     elf_entry_point := 0 |}.
Definition demo_elf_data : list byte :=
  [Corelib.Init.Byte.x7f; Corelib.Init.Byte.x01; Corelib.Init.Byte.x02; Corelib.Init.Byte.x03] ++
  replicate 4 Corelib.Init.Byte.x00.

(** ** Properties *)

(** C19: [from_elf] loads a well-formed ELF file: the address space it returns
    consists of the loadable segments in file order, a guard page, two stack pages,
    an empty heap area, the trap context and the trampoline, and of nothing else,
    with the permissions of the headers (and [U] for all but trap context and
    trampoline); every address of a segment holds the file's bytes from the start
    of its first page on and zeros after them, stack and trap context are zero; the
    stack pointer is the top of the stack; all frames are new, so no other owner
    notices.  It panics only when frames run out. *)
Theorem from_elf_loads `{LinkerSymbols} ElfFile_new elf_data elf phs s :
  strampoline_ok → mm_wf s →
  ElfFile_new elf_data = Some elf → elf_magic elf = [0x7f; 0x45; 0x4c; 0x46] →
  elf_headers elf = Some phs → Forall (λ ph, is_Some (ph_type ph)) phs →
  Forall (load_ok elf_data) (loads phs) →
  elf_stack_top (loads phs) ≤ (TRAMPOLINE_VPN - 1) * 4096 →
  NoDup (segs_vpns (elf_layout elf_data (loads phs))) →
  wp (MemorySet_from_elf ElfFile_new elf_data) (λ r s',
      laid_out s (elf_layout elf_data (loads phs)) s' r.1.1 ∧
      r.1.2 = elf_stack_top (loads phs) ∧ r.2 = elf_entry_point elf)
    (layout_error s (elf_layout elf_data (loads phs))) s.
Proof. apply from_elf_spec. Qed.

Lemma demo_load_ok : load_ok demo_elf_data demo_ph.
Proof.
  split.
  - split_and!; vm_compute; congruence.
  - vm_compute. congruence.
  - split_and!; vm_compute; congruence.
  - vm_compute. congruence.
Qed.

Lemma from_elf_loads_witness :
  ∃ ms s', @MemorySet_from_elf demo_symbols (λ _, Some demo_elf) demo_elf_data demo_boot
             = Done (ms, 0x4000, 0) s' ∧
    user_byte s' ms 2 = Some Corelib.Init.Byte.x03 ∧ user_byte s' ms 3 = Some Corelib.Init.Byte.x00.
Proof.
  destruct (wp_cases _ _ _ _ (@from_elf_loads demo_symbols (λ _, Some demo_elf) demo_elf_data demo_elf
    [demo_ph] demo_boot demo_strampoline demo_boot_wf eq_refl eq_refl eq_refl
    ltac:(constructor; [eexists; reflexivity|constructor])
    ltac:(constructor; [exact demo_load_ok|constructor])
    ltac:(vm_compute; congruence)
    ltac:(apply (bool_decide_unpack _); vm_compute; exact I)))
    as [([[ms sp] en] & s' & Hrun & Hlo & Hsp & Hen)|(k & _ & _ & Hf)].
  - simpl in Hlo, Hsp, Hen. exists ms, s'. split; [rewrite Hrun, Hsp, Hen; reflexivity|].
    assert (Hin : ph_segment demo_elf_data demo_ph ∈ elf_layout demo_elf_data (loads [demo_ph]))
      by apply list_elem_of_here.
    split; rewrite (lo_bytes _ _ _ _ Hlo _ _ Hin) by (apply elem_of_vpns; vm_compute; split; congruence);
      reflexivity.
  - exfalso. vm_compute in Hf. lia.
Defined.
