(* ===== verification/Pid.v ===== *)
(** * Process identifiers and kernel stacks ([src/task/pid.rs])

    The global [PID_ALLOCATOR] and [KERNEL_SPACE] are fields of the state
    [kmem], next to the memory management state.  A [PidHandle] is the number it
    holds; dropping it gives the number back.  A [KernelStack] is its process's
    pid; its two pages are an area of the kernel address space. *)
From S2P Require Import Prelude Config Machine Address FrameAllocator Ownership.
From S2P Require Import PageTable PageTree PageTableSpec MemorySet MapAreaSpec MemorySetSpec.
From S2P Require Import AddressSpace UserSpace UserMemory Fork.

Abbreviation PidHandle := Z (only parsing).

(* src: src/src/task/pid.rs 14-17 PidAllocator *)
Record PidAllocator : Set := mkPidAllocator {
  pa_current : Z;
  pa_recycled : list Z;
}.

(* src: src/src/task/pid.rs 21-26 PidAllocator::new *)
Definition PidAllocator_new : PidAllocator := {| pa_current := 0; pa_recycled := [] |}.

(* src: src/src/task/pid.rs 29-36 PidAllocator::alloc *)
Definition PidAllocator_alloc : M PidAllocator PidHandle :=
  self ← gets id;
  match vec_pop (pa_recycled self) with
  | Some (pid, rest) =>
      modify (λ a, {| pa_current := pa_current a; pa_recycled := rest |});;
      mret pid
  | None =>
      modify (λ a, {| pa_current := pa_current a +u 1; pa_recycled := pa_recycled a |});;
      cur ← gets pa_current;
      mret (cur -u 1)
  end.

(* src: src/src/task/pid.rs 39-48 PidAllocator::dealloc *)
Definition PidAllocator_dealloc (pid : Z) : M PidAllocator unit :=
  self ← gets id;
  assert_ (pid <? pa_current self);;
  assert_ (negb (existsb (Z.eqb pid) (pa_recycled self)));;
  modify (λ a, {| pa_current := pa_current a; pa_recycled := vec_push (pa_recycled a) pid |}).

(* src: src/src/task/pid.rs 51-54 PID_ALLOCATOR *)
Record kmem : Type := mkKmem {
  km_mm : mm;
  KERNEL_SPACE : MemorySet;
  PID_ALLOCATOR : PidAllocator;
}.

Definition with_pids {A} (m : M PidAllocator A) : M kmem A :=
  zoom PID_ALLOCATOR (λ p k, {| km_mm := km_mm k; KERNEL_SPACE := KERNEL_SPACE k; PID_ALLOCATOR := p |}) m.

Definition with_mm {A} (m : M mm A) : M kmem A :=
  zoom km_mm (λ s k, {| km_mm := s; KERNEL_SPACE := KERNEL_SPACE k; PID_ALLOCATOR := PID_ALLOCATOR k |}) m.

(** [KERNEL_SPACE.exclusive_access().f(...)] for an [f] that updates the set. *)
Definition with_kernel_space (f : MemorySet → M mm MemorySet) : M kmem unit :=
  ms ← gets KERNEL_SPACE;
  ms' ← with_mm (f ms);
  modify (λ k, {| km_mm := km_mm k; KERNEL_SPACE := ms'; PID_ALLOCATOR := PID_ALLOCATOR k |}).

(* src: src/src/task/pid.rs 57-59 pid_alloc *)
Definition pid_alloc : M kmem PidHandle := with_pids PidAllocator_alloc.

(* src: src/src/task/pid.rs 61-65 PidHandle::drop *)
Definition PidHandle_drop (self : PidHandle) : M kmem unit := with_pids (PidAllocator_dealloc self).

(* src: src/src/task/pid.rs 67-70 KernelStack *)
Record KernelStack : Set := mkKernelStack { ks_pid : Z }.

(* src: src/src/task/pid.rs 72-76 kernel_stack_position *)
Definition pid_kernel_stack_position (app_id : Z) : Z * Z :=
  let top := TRAMPOLINE -u app_id *u (KERNEL_STACK_SIZE + PAGE_SIZE) in
  let bottom := top -u KERNEL_STACK_SIZE in
  (bottom, top).

(* src: src/src/task/pid.rs 80-90 KernelStack::new *)
Definition KernelStack_new (pid_handle : PidHandle) : M kmem KernelStack :=
  let pid := pid_handle in
  let '(kernel_stack_bottom, kernel_stack_top) := pid_kernel_stack_position pid in
  with_kernel_space (λ ms, MemorySet_insert_framed_area ms
    (VirtAddr_from_usize kernel_stack_bottom) (VirtAddr_from_usize kernel_stack_top)
    (Z.lor MapPermission_R MapPermission_W));;
  mret {| ks_pid := pid_handle |}.

(* src: src/src/task/pid.rs 107-110 KernelStack::get_top *)
Definition KernelStack_get_top (self : KernelStack) : Z :=
  let '(_, kernel_stack_top) := pid_kernel_stack_position (ks_pid self) in
  kernel_stack_top.

(** A store of the kernel goes through its page table; a fault there ends in the panic of
    [trap_from_kernel]. *)
Definition kernel_store (va : Z) (x : byte) : M kmem unit :=
  k ← gets id;
  match user_addr (phys (km_mm k)) (page_table (KERNEL_SPACE k)) (VirtAddr_from_usize va) with
  | Some pa => with_mm (set_phys (λ m, store_bytes m pa [x]))
  | None => panic ExplicitPanic
  end.

(** [value] is the bytes of the [T]. *)
(* src: src/src/task/pid.rs 94-104 KernelStack::push_on_top *)
Definition KernelStack_push_on_top (self : KernelStack) (value : list byte) : M kmem Z :=
  let kernel_stack_top := KernelStack_get_top self in
  let ptr_mut := kernel_stack_top -u Z.of_nat (length value) in
  forM (λ p, kernel_store (ptr_mut +u p.1) p.2) (zip (seqZ 0 (Z.of_nat (length value))) value);;
  mret ptr_mut.

(* src: src/src/task/pid.rs 114-122 KernelStack::drop *)
Definition KernelStack_drop (self : KernelStack) : M kmem unit :=
  let '(kernel_stack_bottom, _) := pid_kernel_stack_position (ks_pid self) in
  let kernel_stack_bottom_va := VirtAddr_from_usize kernel_stack_bottom in
  vpn ← VirtPageNum_from_VirtAddr kernel_stack_bottom_va;
  with_kernel_space (λ ms, MemorySet_remove_area_with_start_vpn ms vpn).

(** ** The allocator *)

Record pids_wf (a : PidAllocator) : Prop := {
  pw_nodup : NoDup (pa_recycled a);
  pw_below p : p ∈ pa_recycled a → 0 ≤ p < pa_current a;
  pw_current : 0 ≤ pa_current a < 2 ^ 64;
}.

(** The pids that processes hold. *)
Definition pid_live (a : PidAllocator) (p : Z) : Prop :=
  0 ≤ p < pa_current a ∧ p ∉ pa_recycled a.

Lemma existsb_eqb_elem p l : existsb (Z.eqb p) l = true ↔ p ∈ l.
Proof.
  rewrite existsb_exists. split.
  - intros (q & Hq & ->%Z.eqb_eq). by apply list_elem_of_In.
  - intros Hp. exists p. rewrite Z.eqb_refl. split; [by apply list_elem_of_In|done].
Qed.

Lemma pid_alloc_spec a :
  pids_wf a → pa_current a < 2 ^ 64 - 1 →
  wp PidAllocator_alloc (λ p a', pids_wf a' ∧ 0 ≤ p ≤ pa_current a ∧ ¬ pid_live a p ∧
      (∀ q, pid_live a' q ↔ q = p ∨ pid_live a q) ∧ pa_current a' ≤ pa_current a + 1) no_panic a.
Proof.
  intros [Hnd Hlt Hc] Hmax. unfold PidAllocator_alloc. do 2 wp_step. unfold id.
  destruct (vec_pop (pa_recycled a)) as [[p rest]|] eqn:Hpop.
  - apply vec_pop_Some in Hpop. do 2 wp_step. wp_step. rewrite Hpop in Hnd, Hlt.
    apply NoDup_app in Hnd as (Hnd & Hd & _).
    assert (Hp : 0 ≤ p < pa_current a) by (apply Hlt, elem_of_app; right; by left).
    assert (Hpr : p ∉ rest) by (intros Hin; apply (Hd p Hin); by left).
    split_and!; try lia.
    + split; simpl; [done| |done]. intros q Hq. apply Hlt, elem_of_app. by left.
    + intros [_ Hn]. apply Hn. rewrite Hpop. apply elem_of_app. right. by left.
    + intros q. unfold pid_live. simpl. rewrite Hpop, elem_of_app, list_elem_of_singleton.
      destruct (decide (q = p)) as [->|]; [|naive_solver]. split; [by left|done].
    + simpl. lia.
  - apply vec_pop_None in Hpop. do 2 wp_step. do 2 wp_step. wp_step. simpl. rewrite Hpop in *.
    rewrite usize_add_small by lia. replace (pa_current a + 1 -u 1) with (pa_current a) by usolve.
    split_and!; try lia.
    + split; simpl; [constructor| |lia]. by intros p ?%not_elem_of_nil.
    + intros [? _]. lia.
    + intros q. unfold pid_live. simpl. rewrite Hpop.
      pose proof (not_elem_of_nil q). split.
      * intros [? _]. destruct (decide (q = pa_current a)); [by left|right]. split; [lia|done].
      * intros [->|[? _]]; (split; [lia|apply not_elem_of_nil]).
Qed.

Lemma pid_dealloc_spec a p :
  pids_wf a → 0 ≤ p →
  wp (PidAllocator_dealloc p) (λ _ a', pids_wf a' ∧ pid_live a p ∧ pa_current a' = pa_current a ∧
      ∀ q, pid_live a' q ↔ q ≠ p ∧ pid_live a q)
    (λ k, k = AssertFailed ∧ ¬ pid_live a p) a.
Proof.
  intros [Hnd Hlt Hc] Hp. unfold PidAllocator_dealloc. do 3 wp_step. unfold id.
  apply wp_assert; [intros Hcur%Z.ltb_lt|intros Hcur%Z.ltb_ge; split; [done|intros [? _]; lia]].
  wp_step. apply wp_assert; intros Hr.
  - assert (Hn : p ∉ pa_recycled a) by (intros Hin%existsb_eqb_elem; by rewrite Hin in Hr).
    wp_step. split_and!; [|by split|done|].
    + split; simpl; [| |done].
      * unfold vec_push. apply NoDup_app. split_and!; [done| |apply NoDup_singleton].
        intros q Hq ->%list_elem_of_singleton. done.
      * intros q [?|?%list_elem_of_singleton]%elem_of_app; [by apply Hlt|]. by subst.
    + intros q. unfold pid_live. simpl. unfold vec_push.
      rewrite elem_of_app, list_elem_of_singleton. naive_solver.
  - split; [done|]. intros [_ Hn]. apply Hn, existsb_eqb_elem. by apply negb_false_iff.
Qed.

(** ** Stack positions *)

(** The pages of the stack of process [p], counted down from the trampoline with a
    guard page in between. *)
Definition stack_range (p : Z) : SimpleRange :=
  mkSimpleRange (TRAMPOLINE_VPN - 3 * p - 2) (TRAMPOLINE_VPN - 3 * p).

(** Pids whose stack and guard page lie above the memory that the kernel maps onto
    itself. *)
Definition pid_fits (p : Z) : Prop := 0 ≤ p ∧ MEMORY_END / 4096 + 3 * p + 3 ≤ TRAMPOLINE_VPN.

Lemma pid_fits_bounds p : pid_fits p → 0 ≤ p ∧ 3 * p + 557059 ≤ TRAMPOLINE_VPN.
Proof. intros [H1 H2]. change (MEMORY_END / 4096) with 557056 in H2. lia. Qed.

Lemma pid_fits_mono p q : 0 ≤ p → p ≤ q → pid_fits q → pid_fits p.
Proof. unfold pid_fits. lia. Qed.

Lemma stack_position_eq p :
  pid_fits p →
  pid_kernel_stack_position p =
    (2 ^ 64 - 4096 - p * 12288 - 8192, 2 ^ 64 - 4096 - p * 12288).
Proof.
  intros Hp%pid_fits_bounds. unfold TRAMPOLINE_VPN in Hp. unfold pid_kernel_stack_position. unfold_config.
  assert (Hmul : p *u (4096 * 2 + 4096) = p * 12288) by usolve. rewrite Hmul.
  assert (Htop : usize_MAX - 4096 + 1 -u p * 12288 = 2 ^ 64 - 4096 - p * 12288) by usolve.
  rewrite Htop. f_equal. usolve.
Qed.

Lemma stack_va_eq p :
  pid_fits p →
  let '(bottom, top) := pid_kernel_stack_position p in
  VirtAddr_from_usize bottom = (TRAMPOLINE_VPN - 3 * p - 2) * 4096 ∧
  VirtAddr_from_usize top = (TRAMPOLINE_VPN - 3 * p) * 4096.
Proof.
  intros Hp. rewrite stack_position_eq by done. apply pid_fits_bounds in Hp. unfold TRAMPOLINE_VPN in *.
  rewrite !VirtAddr_from_usize_mod. split; zsolve.
Qed.

Lemma stack_ranges_disjoint p q v :
  p ≠ q → v ∈ vpns (stack_range p) → v ∉ vpns (stack_range q).
Proof. rewrite !elem_of_vpns. unfold stack_range. simpl. lia. Qed.

(** ** The kernel address space with the stacks of the live processes

    [base] are the areas mapped at boot (all below [low]); each live pid has an
    area with its two stack pages. *)

Record stack_area (p : Z) (a : MapArea) : Prop := {
  sa_range : vpn_range a = stack_range p;
  sa_type : map_type a = Framed;
  sa_perm : map_perm a = Z.lor MapPermission_R MapPermission_W;
}.

Record kspace_ok (k : kmem) (X : gmap Z Z) (base : list MapArea) (live : list Z) : Prop := {
  kso_ok : MemorySet_ok (km_mm k) (KERNEL_SPACE k) X;
  kso_areas : ∃ stks, areas (KERNEL_SPACE k) ≡ₚ base ++ stks ∧ Forall2 stack_area live stks;
  kso_live : NoDup live;
  kso_fits p : p ∈ live → pid_fits p;
  kso_base a p : a ∈ base → pid_fits p → range_r (vpn_range a) < range_l (stack_range p);
  kso_extra p v : pid_fits p → v ∈ vpns (stack_range p) → X !! v = None;
}.

Lemma stack_vpn p v : pid_fits p → v ∈ vpns (stack_range p) → is_vpn v.
Proof.
  intros Hp%pid_fits_bounds. rewrite elem_of_vpns. unfold stack_range, is_vpn, TRAMPOLINE_VPN in *.
  simpl. lia.
Qed.

Lemma stacks_vpns live stks v :
  Forall2 stack_area live stks → v ∈ areas_vpns stks ↔ ∃ p, p ∈ live ∧ v ∈ vpns (stack_range p).
Proof.
  induction 1 as [|p a live stks [Hr _ _] _ IH].
  - split; [by intros ?%not_elem_of_nil|]. by intros (p & ?%not_elem_of_nil & _).
  - rewrite areas_vpns_cons, elem_of_app, IH, Hr. setoid_rewrite elem_of_cons. naive_solver.
Qed.

(** The stack of a pid that is not live is unmapped. *)
Lemma kspace_unmapped k X base live p v :
  kspace_ok k X base live → pid_fits p → p ∉ live → v ∈ vpns (stack_range p) →
  pt_lookup (phys (km_mm k)) (page_table (KERNEL_SPACE k)) v = None.
Proof.
  intros [Hok (stks & Har & Hst) Hnd Hfit Hbase Hex] Hp Hlive Hv.
  rewrite (ms_lookup_other _ _ _ _ Hok); [by eapply Hex|by eapply stack_vpn|].
  rewrite Har, areas_vpns_app, elem_of_app, (stacks_vpns _ _ _ Hst).
  intros [(a & Ha & Hav)%elem_of_areas_vpns|(q & Hq & Hqv)].
  - pose proof (Hbase a p Ha Hp). apply elem_of_vpns in Hav, Hv. lia.
  - apply (stack_ranges_disjoint p q v); [congruence|done..].
Qed.

Lemma wp_with_kernel_space f (Q : unit → kmem → Prop) E k :
  wp (f (KERNEL_SPACE k)) (λ ms' s', Q tt {| km_mm := s'; KERNEL_SPACE := ms';
      PID_ALLOCATOR := PID_ALLOCATOR k |}) E (km_mm k) →
  wp (with_kernel_space f) Q E k.
Proof.
  intros H. unfold with_kernel_space, with_mm. do 3 wp_step. apply wp_zoom.
  eapply wp_mono; [exact H| |done]. intros ms' s' HQ. by wp_step.
Qed.

(** Every page outside the stack of [p] is mapped as it was, and the frames that stay
    with the kernel keep their contents. *)
Record other_pages (k k' : kmem) (p : Z) : Prop := {
  op_lookup v : is_vpn v → v ∉ vpns (stack_range p) →
    pt_lookup (phys (km_mm k')) (page_table (KERNEL_SPACE k')) v =
    pt_lookup (phys (km_mm k)) (page_table (KERNEL_SPACE k)) v;
  op_bytes f : f ∈ areas_frames (areas (KERNEL_SPACE k)) → f ∈ areas_frames (areas (KERNEL_SPACE k')) →
    page_agree (phys (km_mm k)) (phys (km_mm k')) f;
}.

(** What stack operations leave alone. *)
Record stack_step (k k' : kmem) (X : gmap Z Z) (p : Z) : Prop := {
  ss_pids : PID_ALLOCATOR k' = PID_ALLOCATOR k;
  ss_step : ms_step (km_mm k) (KERNEL_SPACE k) (km_mm k') (KERNEL_SPACE k') X;
  ss_other : other_pages k k' p;
}.

(** A page of a live stack has a frame. *)
Lemma stack_frame k X base live q v :
  kspace_ok k X base live → q ∈ live → v ∈ vpns (stack_range q) → ∃ f, ms_frame (areas (KERNEL_SPACE k)) v f.
Proof.
  intros [Hok (stks & Har & Hst) _ _ _ _] Hq Hv.
  assert (Hin : v ∈ areas_vpns stks) by (apply (stacks_vpns _ _ _ Hst); eauto).
  apply elem_of_areas_vpns in Hin as (a & Ha & Hav).
  assert (Hty : map_type a = Framed).
  { apply list_elem_of_lookup in Ha as [i Hi]. destruct (Forall2_lookup_r _ _ _ _ _ Hst Hi) as (r & _ & [_ ? _]). done. }
  assert (Ha' : a ∈ areas (KERNEL_SPACE k)) by (rewrite Har; apply elem_of_app; by right).
  destruct (proj2 (area_dom _ (ms_areas _ _ _ _ Hok a Ha') v)) as [f Hf]; [done|]. exists f, a. by split.
Qed.

(** The bytes of the stacks of the other processes. *)
Definition stacks_kept (k k' : kmem) (live : list Z) : Prop := ∀ q va,
  q ∈ live → va / 4096 ∈ vpns (stack_range q) →
  user_byte (km_mm k') (KERNEL_SPACE k') va = user_byte (km_mm k) (KERNEL_SPACE k) va.

Lemma other_stacks_kept k k' X base live live' p :
  kspace_ok k X base live → kspace_ok k' X base live' → other_pages k k' p →
  ∀ l, (∀ q, q ∈ l → q ∈ live ∧ q ∈ live' ∧ q ≠ p) → stacks_kept k k' l.
Proof.
  intros Hks Hks' [Hlk Hby] l Hl q va Hq Hva. destruct (Hl q Hq) as (Hql & Hql' & Hne).
  pose proof (kso_fits _ _ _ _ Hks q Hql) as Hfit.
  destruct (stack_frame _ _ _ _ _ _ Hks Hql Hva) as [f Hf], (stack_frame _ _ _ _ _ _ Hks' Hql' Hva) as [f' Hf'].
  assert (Heq : pt_lookup (phys (km_mm k')) (page_table (KERNEL_SPACE k')) (va / 4096) =
    pt_lookup (phys (km_mm k)) (page_table (KERNEL_SPACE k)) (va / 4096)).
  { apply Hlk; [by eapply stack_vpn|]. intros Hp. by apply (stack_ranges_disjoint q p (va / 4096)). }
  destruct (ms_frame_lookup _ _ _ (kso_ok _ _ _ _ Hks) _ _ Hf) as (e & He & Hef).
  destruct (ms_frame_lookup _ _ _ (kso_ok _ _ _ _ Hks') _ _ Hf') as (e' & He' & Hef').
  assert (f' = f) as -> by congruence.
  eapply user_byte_agree; [exact Heq|by apply (user_addr_frame _ _ _ (kso_ok _ _ _ _ Hks))|].
  apply Hby; by eapply ms_frame_in.
Qed.

Lemma stack_page_range p :
  pid_fits p →
  let '(bottom, top) := pid_kernel_stack_position p in
  page_range (VirtAddr_from_usize bottom) (VirtAddr_from_usize top) = stack_range p.
Proof.
  intros Hp. pose proof (stack_va_eq p Hp) as H.
  destruct (pid_kernel_stack_position p) as [bottom top]. destruct H as [-> ->].
  unfold page_range, stack_range. f_equal; zsolve.
Qed.

Lemma KernelStack_new_spec k X base live p :
  kspace_ok k X base live → pid_fits p → p ∉ live →
  wp (KernelStack_new p) (λ st k', st = mkKernelStack p ∧ kspace_ok k' X base (p :: live) ∧
      stack_step k k' X p ∧
      ∀ v, v ∈ vpns (stack_range p) → ∃ f, page_zero (phys (km_mm k')) f ∧
        pt_lookup (phys (km_mm k')) (page_table (KERNEL_SPACE k')) v =
          Some (PTE_new f (Z.lor (Z.lor MapPermission_R MapPermission_W) PTE_V)))
    (λ e, e = UnwrapNone ∧ (free_frames (km_mm k) < 6)%nat) k.
Proof.
  intros Hks Hp Hlive. unfold KernelStack_new.
  pose proof (stack_page_range p Hp) as Hpr. pose proof (stack_va_eq p Hp) as Hva.
  destruct (pid_kernel_stack_position p) as [bottom top]. destruct Hva as [Hbot Htop].
  pose proof Hks as [Hok (stks & Har & Hst) Hnd Hfit Hbase Hex].
  wp_step. apply wp_with_kernel_space.
  eapply wp_mono; [apply insert_framed_area_spec; [done| | |]| |].
  - rewrite Hbot. apply pid_fits_bounds in Hp. unfold TRAMPOLINE_VPN in *. lia.
  - rewrite Htop. apply pid_fits_bounds in Hp. unfold TRAMPOLINE_VPN in *. lia.
  - vm_compute. split; congruence.
  - intros ms' s' (a & a' & Hr & Hty & Hpm & Hpu). rewrite Hpr in Hr. wp_step.
    split; [done|]. split; [|split].
    + split; simpl; [apply Hpu| |by constructor|by intros q [->|?]%elem_of_cons; auto|done|done].
      exists (a' :: stks). split.
      * rewrite (pushed_areas _ _ _ _ _ _ _ Hpu), Har, <-app_assoc, <-Permutation_cons_append. done.
      * constructor; [|done]. split.
        -- by rewrite (pushed_range _ _ _ _ _ _ _ Hpu).
        -- by rewrite (pushed_type _ _ _ _ _ _ _ Hpu).
        -- by rewrite (pushed_perm _ _ _ _ _ _ _ Hpu).
    + split; simpl; [done|apply Hpu|]. split; simpl; [intros v Hv Hn; eapply pushed_lookup_old; [done..|by rewrite Hr]|].
      intros f Hf _. by apply (pushed_old _ _ _ _ _ _ _ Hpu).
    + simpl. intros v Hv. rewrite <-Hr in Hv.
      destruct (pushed_lookup_new _ _ _ _ _ _ _ _ Hpu Hty Hv) as (f & _ & Hz & Hl).
      rewrite Hpm in Hl. eauto.
  - rewrite Hpr. intros e [[-> Hf]|[-> [Hbad|(v & Hv & e' & He)]]]; [| |exfalso].
    + split; [done|]. unfold stack_range in Hf. simpl in Hf. lia.
    + unfold stack_range in Hbad. simpl in Hbad. lia.
    + by rewrite (kspace_unmapped k X base live p v) in He.
Qed.

Lemma KernelStack_drop_spec k X base live p :
  kspace_ok k X base live → p ∈ live →
  wp (KernelStack_drop (mkKernelStack p)) (λ _ k', ∃ live', live ≡ₚ p :: live' ∧
      kspace_ok k' X base live' ∧ stack_step k k' X p ∧
      ∀ v, v ∈ vpns (stack_range p) →
        pt_lookup (phys (km_mm k')) (page_table (KERNEL_SPACE k')) v = None) no_panic k.
Proof.
  intros [Hok (stks & Har & Hst) Hnd Hfit Hbase Hex] Hlive. pose proof (Hfit p Hlive) as Hp.
  unfold KernelStack_drop. cbn [ks_pid]. pose proof (stack_va_eq p Hp) as Hva.
  destruct (pid_kernel_stack_position p) as [bottom top]. destruct Hva as [-> _].
  set (b := TRAMPOLINE_VPN - 3 * p - 2). unfold VirtPageNum_from_VirtAddr.
  rewrite VirtAddr_page_offset_mod. replace ((b * 4096) mod 4096) with 0 by zsolve.
  change (0 =? 0) with true. do 4 wp_step.
  replace (VirtAddr_floor (b * 4096)) with b by (unfold VirtAddr_floor, PAGE_SIZE; zsolve).
  apply wp_with_kernel_space.
  eapply wp_mono; [by apply (remove_area_spec _ _ b X)| |done].
  intros ms' s' [Hstep Hcase]. destruct (find_area b (areas (KERNEL_SPACE k))) as [[i a]|] eqn:Hfind.
  2: { exfalso. apply list_find_None in Hfind. 
       assert (∃ a, a ∈ stks ∧ stack_area p a) as (a & Ha & [Hr _ _]).
       { apply list_elem_of_split in Hlive as (l1 & l2 & ->).
         apply Forall2_app_inv_l in Hst as (s1 & s2 & _ & Hst & ->).
         apply Forall2_cons_inv_l in Hst as (a & s2' & Ha & _ & ->).
         exists a. split; [apply elem_of_app; right; by left|done]. }
       apply (proj1 (Forall_forall _ _) Hfind a).
       - rewrite Har. apply elem_of_app. by right.
       - unfold SimpleRange_get_start. by rewrite Hr. }
  destruct Hcase as (Hpt & Har' & [_ _ Hct Hl]). pose proof Hfind as (Hi & Hstart & _)%list_find_Some.
  assert (Ha : a ∈ areas (KERNEL_SPACE k)) by (by eapply list_elem_of_lookup_2).
  pose proof (area_bounds _ (ms_areas _ _ _ _ Hok a Ha)) as Hab. unfold SimpleRange_get_start in Hstart.
  assert (Has : a ∈ stks).
  { rewrite Har in Ha. apply elem_of_app in Ha as [Hba|?]; [|done].
    pose proof (Hbase a p Hba Hp). unfold stack_range in *. simpl in *. lia. }
  apply list_elem_of_split in Has as (s1 & s2 & ->).
  apply Forall2_app_inv_r in Hst as (l1 & l2 & Hst1 & Hst2 & ->).
  apply Forall2_cons_inv_r in Hst2 as (q & l2' & [Hr Hty Hpm] & Hst2 & ->).
  assert (q = p) as -> by (rewrite Hr in Hstart; unfold stack_range in Hstart; simpl in Hstart; lia).
  exists (l1 ++ l2'). split; [by rewrite Permutation_middle|].
  rewrite <-Permutation_middle in Hnd. apply NoDup_cons in Hnd as [_ Hnd].
  assert (Hsub : ∀ q, q ∈ l1 ++ l2' → q ∈ l1 ++ p :: l2').
  { intros q. rewrite <-Permutation_middle. by right. }
  split_and!.
  - split; simpl; [apply Hstep| |done|auto|done|done].
    exists (s1 ++ s2). split; [|by apply Forall2_app].
    rewrite Har'. apply (Permutation_cons_inv (a := a)). rewrite <-(vec_remove_perm _ _ _ Hi), Har.
    by rewrite !Permutation_middle.
  - split; simpl; [done|done|]. split; simpl; [|intros f _ Hf; by apply Hct].
    intros v Hv Hn. rewrite Hpt, Hl by done. by rewrite decide_False by (by rewrite Hr).
  - simpl. intros v Hv. rewrite Hpt, Hl by (by eapply stack_vpn).
    by rewrite decide_True by (by rewrite Hr).
Qed.

(** ** Allocator histories *)

(** The allocator states reachable from [PidAllocator::new], with the pids handed
    out and not given back, and the number of allocations. *)
Inductive pid_reach : PidAllocator → list Z → nat → Prop :=
| reach_new : pid_reach PidAllocator_new [] 0
| reach_alloc a live n p a' :
    pid_reach a live n → PidAllocator_alloc a = Done p a' → pid_reach a' (p :: live) (S n)
| reach_dealloc a live n p a' :
    pid_reach a live n → 0 ≤ p → PidAllocator_dealloc p a = Done tt a' →
    pid_reach a' (filter (λ q, q ≠ p) live) n.

Lemma pid_reach_inv a live n :
  pid_reach a live n → Z.of_nat n < 2 ^ 64 →
  pids_wf a ∧ NoDup live ∧ (∀ p, p ∈ live ↔ pid_live a p) ∧ pa_current a ≤ Z.of_nat n.
Proof.
  induction 1 as [|a live n p a' _ IH Hrun|a live n p a' _ IH Hp Hrun]; intros Hn.
  - split_and!; [split; simpl; [constructor|by intros p ?%not_elem_of_nil|lia]|constructor| |done].
    intros p. split; [by intros ?%not_elem_of_nil|]. intros [? _]. simpl in *. lia.
  - destruct IH as (Hwf & Hnd & Hlive & Hcur); [lia|].
    destruct (wp_elim _ _ _ _ _ _ (pid_alloc_spec a Hwf ltac:(lia)) Hrun)
      as (Hwf' & _ & Hnew & Huse & Hcur').
    split_and!; [done|constructor; [by rewrite Hlive|done]| |lia].
    intros q. by rewrite elem_of_cons, Huse, Hlive.
  - destruct (IH Hn) as (Hwf & Hnd & Hlive & Hcur).
    destruct (wp_elim _ _ _ _ _ _ (pid_dealloc_spec a p Hwf Hp) Hrun) as (Hwf' & _ & Hcur' & Huse).
    split_and!; [done|by apply NoDup_filter| |lia].
    intros q. by rewrite list_elem_of_filter, Huse, Hlive.
Qed.

(** Pids and kernel stacks together. *)
Record kproc (k : kmem) (X : gmap Z Z) (base : list MapArea) (live : list Z) : Prop := {
  kp_space : kspace_ok k X base live;
  kp_pids : pids_wf (PID_ALLOCATOR k);
  kp_live p : p ∈ live ↔ pid_live (PID_ALLOCATOR k) p;
}.

(** The two resources [TaskControlBlock::new] and [fork] take for a process, and
    what dropping the [TaskControlBlock] does with them (fields in order). *)
Definition process_slot_new : M kmem (PidHandle * KernelStack) :=
  pid_handle ← pid_alloc;
  kernel_stack ← KernelStack_new pid_handle;
  mret (pid_handle, kernel_stack).
Definition process_slot_drop (slot : PidHandle * KernelStack) : M kmem unit :=
  PidHandle_drop slot.1;; KernelStack_drop slot.2.

Lemma kspace_ok_pids k X base live pa :
  kspace_ok k X base live →
  kspace_ok {| km_mm := km_mm k; KERNEL_SPACE := KERNEL_SPACE k; PID_ALLOCATOR := pa |} X base live.
Proof. intros []. by split. Qed.

(** The two pages of the stack of [p], readable, writable and zeroed. *)
Definition stack_fresh (k : kmem) (p : Z) : Prop := ∀ v, v ∈ vpns (stack_range p) →
  ∃ f, page_zero (phys (km_mm k)) f ∧ pt_lookup (phys (km_mm k)) (page_table (KERNEL_SPACE k)) v =
    Some (PTE_new f (Z.lor (Z.lor MapPermission_R MapPermission_W) PTE_V)).

Lemma slot_new_spec k X base live :
  kproc k X base live → pid_fits (pa_current (PID_ALLOCATOR k)) →
  wp process_slot_new (λ slot k', (slot.1 ∉ live) ∧ slot.2 = mkKernelStack slot.1 ∧
      kproc k' X base (slot.1 :: live) ∧
      ms_step (km_mm k) (KERNEL_SPACE k) (km_mm k') (KERNEL_SPACE k') X ∧
      other_pages k k' slot.1 ∧ stack_fresh k' slot.1)
    (λ e, e = UnwrapNone ∧ (free_frames (km_mm k) < 6)%nat) k.
Proof.
  intros [Hks Hpw Hlive] Hbound. unfold process_slot_new, pid_alloc, with_pids. wp_step. apply wp_zoom.
  eapply wp_mono; [apply pid_alloc_spec; [done|]| |done].
  { apply pid_fits_bounds in Hbound. unfold TRAMPOLINE_VPN in *. lia. }
  intros p pa (Hpw' & Hp & Hnew & Huse & _). rewrite <-Hlive in Hnew.
  eapply wp_call; [apply (KernelStack_new_spec _ X base live p); [by apply kspace_ok_pids| |done]|done|].
  { eapply pid_fits_mono; [| |exact Hbound]; lia. }
  intros st k' (-> & Hks' & [Hpids Hst [Hlk Hby]] & Hnewp). simpl in Hpids, Hst. wp_step. simpl.
  split_and!; [done|done| |done|by split|exact Hnewp]. split; [done|by rewrite Hpids|].
  intros q. by rewrite Hpids, elem_of_cons, Huse, Hlive.
Qed.

Lemma process_slot_new_spec k X base live :
  kproc k X base live → pid_fits (pa_current (PID_ALLOCATOR k)) →
  wp process_slot_new (λ slot k', (slot.1 ∉ live) ∧ slot.2 = mkKernelStack slot.1 ∧
      kproc k' X base (slot.1 :: live) ∧
      ms_step (km_mm k) (KERNEL_SPACE k) (km_mm k') (KERNEL_SPACE k') X)
    (λ e, e = UnwrapNone ∧ (free_frames (km_mm k) < 6)%nat) k.
Proof. intros. eapply wp_mono; [by apply slot_new_spec| |done]. by intros slot k' (? & ? & ? & ? & _). Qed.

Lemma slot_drop_spec k X base live p :
  kproc k X base live → p ∈ live →
  wp (process_slot_drop (p, mkKernelStack p)) (λ _ k', ∃ live', live ≡ₚ p :: live' ∧
      kproc k' X base live' ∧
      ms_step (km_mm k) (KERNEL_SPACE k) (km_mm k') (KERNEL_SPACE k') X ∧ other_pages k k' p ∧
      ∀ v, v ∈ vpns (stack_range p) → pt_lookup (phys (km_mm k')) (page_table (KERNEL_SPACE k')) v = None)
    no_panic k.
Proof.
  intros [Hks Hpw Hlive] Hp. unfold process_slot_drop, PidHandle_drop, with_pids. wp_step. apply wp_zoom.
  eapply wp_mono; [apply pid_dealloc_spec; [done|]| |].
  - by apply (kso_fits _ _ _ _ Hks).
  - intros [] pa (Hpw' & _ & _ & Huse). simpl.
    eapply wp_mono; [by apply (KernelStack_drop_spec _ X base live p); [apply kspace_ok_pids|]| |done].
    intros [] k' (live' & Hperm & Hks' & [Hpids Hst [Hlk Hby]] & Hgone). simpl in Hpids, Hst.
    exists live'. split_and!; [done| |done|by split|exact Hgone]. split; [done|by rewrite Hpids|].
    intros q. rewrite Hpids, Huse, <-Hlive, Hperm, elem_of_cons.
    pose proof (kso_live _ _ _ _ Hks) as Hnd. rewrite Hperm in Hnd. apply NoDup_cons in Hnd as [Hn _].
    split; [|naive_solver]. intros Hq. split; [|by right]. by intros ->.
  - intros e [_ Hn]. apply Hn. by apply Hlive.
Qed.

Lemma process_slot_drop_spec k X base live p :
  kproc k X base live → p ∈ live →
  wp (process_slot_drop (p, mkKernelStack p)) (λ _ k', ∃ live', live ≡ₚ p :: live' ∧
      kproc k' X base live' ∧
      ms_step (km_mm k) (KERNEL_SPACE k) (km_mm k') (KERNEL_SPACE k') X) no_panic k.
Proof.
  intros. eapply wp_mono; [by apply (slot_drop_spec k X base live)| |done].
  intros [] k' (live' & ? & ? & ? & _). by exists live'.
Qed.

(** ** Properties *)

(** Pids are unique.  In every state the allocator can reach, the pids handed
    out and not returned are pairwise different, allocation returns one that is
    not among them without panicking, and returning a pid succeeds exactly when it
    is one of them (a double return or a pid never given out panics). *)
Theorem pid_allocator_unique a live n :
  pid_reach a live n → Z.of_nat n < 2 ^ 64 - 1 →
  NoDup live ∧
  (∃ p a', PidAllocator_alloc a = Done p a' ∧ p ∉ live) ∧
  (∀ p, p ∈ live → ∃ a', PidAllocator_dealloc p a = Done tt a') ∧
  (∀ p, 0 ≤ p → p ∉ live → PidAllocator_dealloc p a = Panic AssertFailed).
Proof.
  intros Hreach Hn. destruct (pid_reach_inv a live n Hreach) as (Hwf & Hnd & Hlive & Hcur); [lia|].
  split_and!; [done| | |].
  - destruct (wp_no_panic _ _ _ (pid_alloc_spec a Hwf ltac:(lia))) as (p & a' & Hrun & _ & _ & Hnew & _).
    exists p, a'. by rewrite Hlive.
  - intros p Hp%Hlive. pose proof Hp as [[Hp0 _] _].
    destruct (wp_cases _ _ _ _ (pid_dealloc_spec a p Hwf Hp0)) as [([] & a' & ? & _)|(k & _ & _ & ?)];
      [eauto|done].
  - intros p Hp0 Hp. rewrite Hlive in Hp.
    destruct (wp_cases _ _ _ _ (pid_dealloc_spec a p Hwf Hp0)) as [([] & a' & _ & _ & ? & _)|(k & -> & -> & _)];
      done.
Qed.

Lemma pid_allocator_unique_witness :
  ∃ a, pid_reach a [1] 2 ∧ PidAllocator_dealloc 0 a = Panic AssertFailed ∧
       PidAllocator_alloc a = Done 0 {| pa_current := 2; pa_recycled := [] |}.
Proof.
  exists {| pa_current := 2; pa_recycled := [0] |}.
  assert (Hr : pid_reach {| pa_current := 2; pa_recycled := [0] |} [1] 2).
  { eapply (reach_dealloc {| pa_current := 2; pa_recycled := [] |} [1; 0] 2 0); [|lia|reflexivity].
    eapply (reach_alloc {| pa_current := 1; pa_recycled := [] |} [0] 1 1); [|reflexivity].
    eapply (reach_alloc _ [] 0 0); [apply reach_new|reflexivity]. }
  destruct (pid_allocator_unique _ _ _ Hr ltac:(lia)) as (_ & _ & _ & Hbad).
  split; [exact Hr|]. split; [|reflexivity].
  apply Hbad; [lia|]. intros H%list_elem_of_singleton. discriminate H.
Defined.

(** C36: kernel stacks never touch.  For pids that fit in the address space, the
    stack of each is two whole pages below the trampoline and more than a page above
    the memory that is identity mapped, and between the stacks
    of two processes there is at least one page that belongs to neither, so an
    overflow hits an unmapped guard page. *)
Theorem kernel_stacks_guarded p q :
  pid_fits p → pid_fits q → p ≠ q →
  let '(bot_p, top_p) := pid_kernel_stack_position p in
  let '(bot_q, top_q) := pid_kernel_stack_position q in
  let va := VirtAddr_from_usize in
  va top_p - va bot_p = KERNEL_STACK_SIZE ∧ va bot_p mod PAGE_SIZE = 0 ∧ MEMORY_END + PAGE_SIZE ≤ va bot_p ∧
  va top_p ≤ va TRAMPOLINE ∧
  (va top_p + PAGE_SIZE ≤ va bot_q ∨ va top_q + PAGE_SIZE ≤ va bot_p).
Proof.
  intros Hp Hq Hne. pose proof (stack_va_eq p Hp) as H1. pose proof (stack_va_eq q Hq) as H2.
  destruct (pid_kernel_stack_position p) as [bp tp]. destruct (pid_kernel_stack_position q) as [bq tq].
  cbv zeta. destruct H1 as [-> ->]. destruct H2 as [-> ->].
  change (VirtAddr_from_usize TRAMPOLINE) with (TRAMPOLINE_VPN * 4096).
  apply pid_fits_bounds in Hp, Hq. unfold TRAMPOLINE_VPN, KERNEL_STACK_SIZE, PAGE_SIZE in *.
  change MEMORY_END with (557056 * 4096).
  split_and!; zsolve.
Qed.

Lemma kernel_stacks_guarded_witness :
  VirtAddr_from_usize (snd (pid_kernel_stack_position 1)) + PAGE_SIZE ≤
    VirtAddr_from_usize (fst (pid_kernel_stack_position 0)).
Proof.
  assert (H0 : pid_fits 0) by (split; vm_compute; congruence).
  assert (H1 : pid_fits 1) by (split; vm_compute; congruence).
  pose proof (kernel_stacks_guarded 0 1 H0 H1 ltac:(lia)) as H.
  destruct H as (_ & _ & _ & _ & [H|H]); [|exact H].
  exfalso. revert H. vm_compute. intros H. apply H. reflexivity.
Defined.

(** C25: the kernel resources of a process.  As long as the next pid leaves room for its
    stack in the address space ([pid_fits]), taking a pid and a kernel stack for a new
    process gives a pid no live process has and maps the two pages of its stack, zeroed,
    readable and writable, into the kernel address space; every other page there is
    mapped as before, and every byte of the stacks of the live processes is as it was.
    Dropping them never panics: then every page of the kernel address space is mapped as
    before the process was made, and the other stacks still have their bytes.  Both keep
    the invariant that the stacks mapped are those of the live pids.  The only panic is
    for want of frames (fewer than six are free). *)
Theorem process_slot_lifecycle k X base live :
  kproc k X base live → pid_fits (pa_current (PID_ALLOCATOR k)) →
  let lookup := λ k, pt_lookup (phys (km_mm k)) (page_table (KERNEL_SPACE k)) in
  wp process_slot_new (λ slot k', (slot.1 ∉ live) ∧ kproc k' X base (slot.1 :: live) ∧
      ms_step (km_mm k) (KERNEL_SPACE k) (km_mm k') (KERNEL_SPACE k') X ∧ stack_fresh k' slot.1 ∧
      (∀ v, is_vpn v → v ∉ vpns (stack_range slot.1) → lookup k' v = lookup k v) ∧ stacks_kept k k' live ∧
      wp (process_slot_drop slot) (λ _ k'', (∃ live', live' ≡ₚ live ∧ kproc k'' X base live') ∧
        ms_step (km_mm k) (KERNEL_SPACE k) (km_mm k'') (KERNEL_SPACE k'') X ∧
        (∀ v, is_vpn v → lookup k'' v = lookup k v) ∧ stacks_kept k k'' live) no_panic k')
    (λ e, e = UnwrapNone ∧ (free_frames (km_mm k) < 6)%nat) k.
Proof.
  intros Hkp Hb lookup. eapply wp_mono; [by apply slot_new_spec| |done].
  intros [p st] k' (Hnew & Hst & Hkp' & Hstep & Hop & Hfresh). simpl in *. subst st.
  assert (Hne : ∀ q, q ∈ live → q ≠ p) by (by intros q Hq ->).
  assert (Hkept : stacks_kept k k' live).
  { eapply other_stacks_kept; [apply Hkp|apply Hkp'|exact Hop|]. intros q Hq. split_and!; [done|by right|by apply Hne]. }
  split_and!; [done..|exact (op_lookup _ _ _ Hop)|done|].
  eapply wp_mono; [apply (slot_drop_spec k' X base (p :: live) p Hkp'); by left| |done].
  intros [] k'' (live' & Hperm & Hkp'' & Hstep' & Hop' & Hgone). apply Permutation_cons_inv in Hperm. split_and!.
  - exists live'. by split.
  - by eapply ms_step_trans.
  - intros v Hv. destruct (decide (v ∈ vpns (stack_range p))) as [Hin|Hn].
    + unfold lookup. rewrite Hgone by done. symmetry.
      apply (kspace_unmapped k X base live p v); [apply Hkp| |done|done].
      apply (kso_fits _ _ _ _ (kp_space _ _ _ _ Hkp')). by left.
    + unfold lookup. by rewrite (op_lookup _ _ _ Hop'), (op_lookup _ _ _ Hop).
  - assert (Hkept' : stacks_kept k' k'' live).
    { eapply other_stacks_kept; [apply Hkp'|apply Hkp''|exact Hop'|]. intros q Hq.
      split_and!; [by right|by rewrite <-Hperm|by apply Hne]. }
    intros q va Hq Hva. by rewrite (Hkept' q va), (Hkept q va).
Qed.

(** A kernel without areas of its own. *)
Definition demo_kmem : kmem :=
  {| km_mm := demo_mm; KERNEL_SPACE := demo_ms; PID_ALLOCATOR := PidAllocator_new |}.

Lemma demo_kproc : kproc demo_kmem ∅ [] [].
Proof.
  split.
  - split; [exact demo_ms_ok|exists []; split; [done|constructor]|constructor| | |].
    + by intros p ?%not_elem_of_nil.
    + by intros a p ?%not_elem_of_nil.
    + intros p v _ _. apply lookup_empty.
  - split; simpl; [constructor|by intros p ?%not_elem_of_nil|lia].
  - intros p. split; [by intros ?%not_elem_of_nil|]. intros [? _]. simpl in *. lia.
Qed.

Lemma process_slot_lifecycle_witness :
  ∃ slot k' k'', process_slot_new demo_kmem = Done slot k' ∧ process_slot_drop slot k' = Done tt k'' ∧
    kproc k'' ∅ [] [].
Proof.
  destruct (wp_cases _ _ _ _ (process_slot_lifecycle demo_kmem ∅ [] [] demo_kproc ltac:(split; vm_compute; congruence)))
    as [(slot & k' & Hrun & _ & _ & _ & _ & _ & _ & Hdrop)|(e & _ & _ & Hf)].
  - destruct (wp_cases _ _ _ _ Hdrop) as [([] & k'' & Hrun' & (live' & Hl & Hkp) & _)|(e & _ & [])].
    exists slot, k', k''. split; [exact Hrun|]. split; [exact Hrun'|].
    apply Permutation_nil_r in Hl. rewrite Hl in Hkp. exact Hkp.
  - exfalso. change (free_frames (km_mm demo_kmem)) with 62%nat in Hf. lia.
Defined.
