(* ===== verification/Driver.v ===== *)
(** * The block device driver ([src/drivers/block])

    [VirtioHal] lends physical memory to the third-party VirtIO driver: contiguous runs
    of frames for its queues, and the two directions of address translation.  The driver
    itself, [VirtIOBlk], is the class of the same name: the sizes of the queues it asks
    memory for when it is made, the device it makes of them, and the transfer of blocks.
    What is assumed of it, that a block reads back as it was written, is [VirtIOBlkLaws].  [VirtIOBlock] is the
    implementation of the trait [BlockDevice] of the file system on top of it. *)
From S2P Require Import Prelude Config Machine Address FrameAllocator Ownership.
From S2P Require Import PageTable PageTree PageTableSpec MemorySet MapAreaSpec MemorySetSpec.
From S2P Require Import AddressSpace UserSpace UserMemory KernelSpace TableCost Pid.
From coqutil Require Import Byte.

(** ** Memory for the queues *)

(* src: src/src/drivers/block/virtio_blk.rs 17-19 QUEUE_FRAMES *)
Record hal : Type := mkHal { hal_mem : kmem; QUEUE_FRAMES : list FrameTracker }.

Definition hal_mm (h : hal) : mm := km_mm (hal_mem h).
Definition with_hal {A} (m : M mm A) : M hal A :=
  zoom hal_mem (λ k h, {| hal_mem := k; QUEUE_FRAMES := QUEUE_FRAMES h |}) (with_mm m).

(* src: src/src/mm/memory_set.rs 597-599 kernel_token *)
Definition kernel_token : M kmem Z := gets (λ k, MemorySet_token (KERNEL_SPACE k)).

(* src: src/src/drivers/block/virtio_blk.rs 54-61 VirtioHal::dma_alloc *)
Fixpoint dma_alloc_loop (idx : list Z) (ppn_base : PhysPageNum) : M hal PhysPageNum :=
  match idx with
  | [] => mret ppn_base
  | i :: idx =>
      o ← with_hal frame_alloc;
      frame ← unwrap o;
      let ppn_base := if i =? 0 then frame else ppn_base in
      assert_ (frame =? ppn_base +u i);;
      modify (λ h, {| hal_mem := hal_mem h; QUEUE_FRAMES := vec_push (QUEUE_FRAMES h) frame |});;
      dma_alloc_loop idx ppn_base
  end.

(* src: src/src/drivers/block/virtio_blk.rs 52-65 VirtioHal::dma_alloc *)
Definition dma_alloc (pages : Z) : M hal Z :=
  ppn_base ← dma_alloc_loop (seqZ 0 pages) 0;
  mret (PhysAddr_from_PhysPageNum ppn_base).

(* src: src/src/drivers/block/virtio_blk.rs 72-75 VirtioHal::dma_dealloc *)
Fixpoint dma_dealloc_loop (pages : nat) (ppn_base : PhysPageNum) : M hal unit :=
  match pages with
  | O => mret tt
  | S pages => with_hal (frame_dealloc ppn_base);; dma_dealloc_loop pages (PhysPageNum_step ppn_base)
  end.

(* src: src/src/drivers/block/virtio_blk.rs 67-77 VirtioHal::dma_dealloc *)
Definition dma_dealloc (pa pages : Z) : M hal Z :=
  ppn_base ← PhysPageNum_from_PhysAddr (PhysAddr_from_usize pa);
  dma_dealloc_loop (Z.to_nat pages) ppn_base;;
  mret 0.

(* src: src/src/drivers/block/virtio_blk.rs 79-81 VirtioHal::phys_to_virt *)
Definition phys_to_virt (addr : Z) : Z := addr.

(* src: src/src/drivers/block/virtio_blk.rs 83-88 VirtioHal::virt_to_phys *)
Definition virt_to_phys (vaddr : Z) : M hal Z :=
  token ← zoom hal_mem (λ k h, {| hal_mem := k; QUEUE_FRAMES := QUEUE_FRAMES h |}) kernel_token;
  o ← with_hal (PageTable_translate_va (PageTable_from_token token) (VirtAddr_from_usize vaddr));
  unwrap o.

(** ** The device *)

Class VirtIOBlk := {
  vdev : Type;
  vblk_queues : list Z;
  vblk_new : Z → list Z → option vdev;
  vblk_read_block : Z → nat → vdev → option (list byte) * vdev;
  vblk_write_block : Z → list byte → vdev → option unit * vdev;
}.

Section Device.
Context `{VirtIOBlk}.

(* src: src/src/drivers/block/virtio_blk.rs 13-13 VIRTIO0 *)
Definition VIRTIO0 : Z := 0x10001000.

(** [VirtIOBlk::new] calls [H::dma_alloc] for its queues and is given their addresses. *)
(* src: src/src/drivers/block/virtio_blk.rs 40-46 VirtIOBlock::new *)
Definition VirtIOBlock_new : M hal vdev :=
  queues ← foldM (λ l pages, pa ← dma_alloc pages; mret (vec_push l pa)) [] vblk_queues;
  unwrap (vblk_new VIRTIO0 queues).

(* src: src/src/drivers/block/virtio_blk.rs 22-27 VirtIOBlock::read_block *)
Definition VirtIOBlock_read_block (block_id : Z) (buf_len : nat) : M vdev (list byte) :=
  r ← gets (vblk_read_block block_id buf_len);
  modify (λ _, r.2);;
  unwrap r.1.

(* src: src/src/drivers/block/virtio_blk.rs 29-34 VirtIOBlock::write_block *)
Definition VirtIOBlock_write_block (block_id : Z) (buf : list byte) : M vdev unit :=
  r ← gets (vblk_write_block block_id buf);
  modify (λ _, r.2);;
  unwrap r.1.

(** [i as u8]. *)
Definition as_u8 (i : Z) : byte := byte.of_Z i.

(* src: src/src/drivers/block/mod.rs 24-31 block_device_test *)
Definition block_device_test_iter (i : Z) : M vdev unit :=
  let write_buffer := replicate 512 (as_u8 i) in
  VirtIOBlock_write_block i write_buffer;;
  read_buffer ← VirtIOBlock_read_block i 512;
  assert_ (bool_decide (write_buffer = read_buffer)).

(* src: src/src/drivers/block/mod.rs 19-33 block_device_test *)
Definition block_device_test : M vdev unit := forM block_device_test_iter (seqZ 0 512).
End Device.

(** ** The queues *)

Definition set_hal_mm (s : mm) (h : hal) : hal :=
  {| hal_mem := {| km_mm := s; KERNEL_SPACE := KERNEL_SPACE (hal_mem h); PID_ALLOCATOR := PID_ALLOCATOR (hal_mem h) |};
     QUEUE_FRAMES := QUEUE_FRAMES h |}.

Lemma wp_with_hal {A} (m : M mm A) (Q : A → hal → Prop) E h :
  wp m (λ a s', Q a (set_hal_mm s' h)) E (hal_mm h) → wp (with_hal m) Q E h.
Proof. intros Hm. apply wp_zoom. by apply wp_zoom. Qed.

Abbreviation allocator h := (FRAME_ALLOCATOR (hal_mm h)).

(** With nothing recycled, frames come in order. *)
Lemma frame_alloc_next s :
  mm_wf s → fa_recycled (FRAME_ALLOCATOR s) = [] →
  wp frame_alloc (λ o s', ∀ f, o = Some f →
    f = fa_current (FRAME_ALLOCATOR s) ∧ fa_recycled (FRAME_ALLOCATOR s') = [] ∧
    fa_current (FRAME_ALLOCATOR s') = fa_current (FRAME_ALLOCATOR s) + 1) no_panic s.
Proof.
  intros [_ _ [Hb1 Hb2]] Hrec. unfold frame_alloc, with_allocator. wp_step. apply wp_zoom.
  simpl fa_alloc. unfold StackFrameAllocator_alloc. do 2 wp_step. simpl. rewrite Hrec. simpl.
  set (cur := fa_current _) in *. destruct (Z.eqb_spec cur (fa_end (FRAME_ALLOCATOR s))) as [|Hne].
  { do 2 wp_step. by intros f [=]. }
  do 4 wp_step. wp_step. unfold FrameTracker_new, set_phys. do 5 wp_step. simpl. intros f [= <-]. simpl. fold cur.
  assert (Hc : cur +u 1 = cur + 1) by (apply usize_add_small; lia). rewrite Hc. split_and!; [|done|done].
  unfold PhysPageNum_from_usize, usize_sub. change (Z.shiftl 1 PPN_WIDTH_SV39 - 1) with (Z.ones 44).
  rewrite Z.land_ones by lia. replace (cur + 1 - 1) with cur by lia. rewrite wrap64_small by usolve. apply Z.mod_small. lia.
Qed.

(** The frames that the loop took, from the [i]-th on. *)
Record dma_taken (h : hal) (base i n : Z) (h' : hal) : Prop := {
  dt_queue : QUEUE_FRAMES h' = QUEUE_FRAMES h ++ seqZ (base + i) n;
  dt_step : mm_step (hal_mm h) [] (hal_mm h') (seqZ (base + i) n);
  dt_zero f : f ∈ seqZ (base + i) n → page_zero (phys (hal_mm h')) f;
  dt_space : KERNEL_SPACE (hal_mem h') = KERNEL_SPACE (hal_mem h) ∧ PID_ALLOCATOR (hal_mem h') = PID_ALLOCATOR (hal_mem h);
}.

Lemma dma_taken_cons h h1 base i n h' s1 f :
  fresh_frame (hal_mm h) f s1 → f = base + i → 0 ≤ n →
  h1 = {| hal_mem := hal_mem (set_hal_mm s1 h); QUEUE_FRAMES := vec_push (QUEUE_FRAMES h) f |} →
  dma_taken h1 base (i + 1) n h' → dma_taken h base i (n + 1) h'.
Proof.
  intros Hfr Hf Hn Hh1 [Hq Hst Hz Hsp]. replace (base + (i + 1)) with (Z.succ f) in * by lia.
  assert (Hseq : seqZ (base + i) (n + 1) = f :: seqZ (Z.succ f) n).
  { rewrite seqZ_cons by lia. rewrite <-Hf. do 2 f_equal. lia. }
  assert (Hst1 : mm_step (hal_mm h) [] s1 [f]) by (apply mm_step_alloc; [done|split; [constructor|set_solver]]).
  assert (Hmm : hal_mm h1 = s1) by (by subst h1). rewrite Hmm in Hst.
  assert (Hst2 : mm_step s1 [f] (hal_mm h') (f :: seqZ (Z.succ f) n)).
  { pose proof (mm_step_frame _ _ _ _ [f] Hst (step_owns _ _ _ _ Hst1)) as Hfm.
    rewrite (Permutation_app_comm (seqZ _ _)) in Hfm. exact Hfm. }
  split; rewrite ?Hseq.
  - rewrite Hq, Hh1. simpl. unfold vec_push. by rewrite <-app_assoc.
  - by eapply mm_step_trans.
  - intros g [->|Hg]%elem_of_cons; [|by apply Hz].
    destruct (step_other _ _ _ _ Hst f) as (_ & _ & Hag).
    + apply (fresh_in_use _ _ _ Hfr). by left.
    + apply not_elem_of_nil.
    + intros x Hx. rewrite <-(Hag x) by lia. by apply (fresh_zero _ _ _ Hfr).
  - by subst h1.
Qed.

Lemma dma_loop_spec (R : Prop) n i base h :
  mm_wf (hal_mm h) → 0 ≤ i → 0 ≤ base < 2 ^ 44 → i + Z.of_nat n < 2 ^ 44 →
  R ∨ (fa_recycled (allocator h) = [] ∧ (0 < i → base + i = fa_current (allocator h))) →
  wp (dma_alloc_loop (seqZ i (Z.of_nat n)) base) (λ base' h',
      (0 < i ∨ n = 0%nat → base' = base) ∧ is_ppn base' ∧ dma_taken h base' i (Z.of_nat n) h')
    (λ k, (k = UnwrapNone ∧ (free_frames (hal_mm h) < n)%nat) ∨ (k = AssertFailed ∧ R)) h.
Proof.
  revert i base h. induction n as [|n IH]; intros i base h Hwf Hi Hb Hin Hord.
  { rewrite seqZ_nil by lia. cbn [dma_alloc_loop]. wp_step. split_and!; [done|exact Hb|].
    split; rewrite ?seqZ_nil by lia; [by rewrite app_nil_r| |by intros f ?%elem_of_nil|done].
    apply mm_step_refl; [done|]. split; [constructor|by intros f ?%elem_of_nil]. }
  rewrite seqZ_cons by lia. replace (Z.pred (Z.of_nat (S n))) with (Z.of_nat n) by lia.
  cbn [dma_alloc_loop]. wp_step. apply wp_with_hal. unfold wp at 1.
  pose proof (frame_alloc_spec (hal_mm h) Hwf) as Hfa. unfold wp in Hfa.
  destruct (frame_alloc (hal_mm h)) as [[f|] s1| |] eqn:Hrun; [| |done..].
  2: { cbv beta iota. wp_step. destruct Hfa as [_ Hz]. left. split; [done|lia]. }
  cbv beta iota. do 2 wp_step. set (base1 := if i =? 0 then f else base).
  assert (Hb1 : 0 ≤ base1 < 2 ^ 44 ∧ (0 < i → base1 = base)).
  { unfold base1. destruct (Z.eqb_spec i 0); [|done]. split; [apply (fresh_ppn _ _ _ Hfa)|lia]. }
  assert (Hnext : fa_recycled (allocator h) = [] → f = fa_current (allocator h) ∧ fa_recycled (FRAME_ALLOCATOR s1) = [] ∧
    fa_current (FRAME_ALLOCATOR s1) = fa_current (allocator h) + 1).
  { intros Hrec. exact (wp_elim _ _ _ _ _ _ (frame_alloc_next (hal_mm h) Hwf Hrec) Hrun f eq_refl). }
  rewrite usize_add_small by lia. wp_step. unfold assert_. destruct (Z.eqb_spec f (base1 + i)) as [Heq|Hne].
  - do 2 wp_step. wp_step. eapply wp_mono; [apply (IH (Z.succ i) base1); try lia|..].
    + apply Hfa.
    + destruct Hord as [?|[Hrec Ho]]; [by left|right]. destruct (Hnext Hrec) as (? & ? & ?). split; [done|]. intros _.
      change (base1 + Z.succ i = fa_current (FRAME_ALLOCATOR s1)). lia.
    + intros base' h' (H1 & H2 & Ht). rewrite H1 in * by lia. split_and!; [intros [?|?]; [by apply Hb1|lia]|apply Hb1|].
      replace (Z.of_nat (S n)) with (Z.of_nat n + 1) by lia. eapply dma_taken_cons; [exact Hfa|exact Heq|lia|reflexivity|exact Ht].
    + intros k [[-> Hf]|?]; [left|by right]. split; [done|]. pose proof (fresh_free _ _ _ Hfa) as Hff.
      change (free_frames s1 < n)%nat in Hf. lia.
  - wp_step. right. split; [done|]. destruct Hord as [?|[Hrec Ho]]; [done|]. exfalso. apply Hne.
    destruct (Hnext Hrec) as (-> & _). unfold base1. destruct (Z.eqb_spec i 0) as [->|Hi0]; [lia|]. symmetry. apply Ho. lia.
Qed.

Lemma dma_alloc_spec pages h :
  mm_wf (hal_mm h) → 0 ≤ pages < 2 ^ 44 →
  wp (dma_alloc pages) (λ pa h', ∃ base, is_ppn base ∧ pa = base * 4096 ∧ dma_taken h base 0 pages h')
    (λ k, (k = UnwrapNone ∧ Z.of_nat (free_frames (hal_mm h)) < pages) ∨
          (k = AssertFailed ∧ fa_recycled (allocator h) ≠ [])) h.
Proof.
  intros Hwf Hp. unfold dma_alloc. rewrite <-(Z2Nat.id pages) by lia. set (n := Z.to_nat pages).
  eapply wp_call; [apply (dma_loop_spec (fa_recycled (allocator h) ≠ []) n 0 0 h); [done|lia|lia|unfold n; lia|]|..].
  - destruct (fa_recycled (allocator h)) eqn:Hrec; [right|by left]. split; [done|lia].
  - intros k [[-> Hf]|?]; [left|by right]. split; [done|lia].
  - intros base h' (_ & Hb & Ht). wp_step. exists base. split_and!; [done| |done].
    by apply PhysAddr_from_PhysPageNum_mul.
Qed.

(** The frames are given back one by one. *)
Lemma dma_dealloc_loop_spec n base h O :
  mm_wf (hal_mm h) → owns (hal_mm h) (seqZ base (Z.of_nat n) ++ O) → 0 ≤ base → base + Z.of_nat n < 2 ^ 64 →
  wp (dma_dealloc_loop n base) (λ _ h', QUEUE_FRAMES h' = QUEUE_FRAMES h ∧
    mm_step (hal_mm h) (seqZ base (Z.of_nat n) ++ O) (hal_mm h') O) no_panic h.
Proof.
  revert base h. induction n as [|n IH]; intros base h Hwf Hown Hb Hlt; cbn [dma_dealloc_loop].
  { rewrite seqZ_nil in * by lia. wp_step. split; [done|by apply mm_step_refl]. }
  rewrite seqZ_cons in * by lia. replace (Z.pred (Z.of_nat (S n))) with (Z.of_nat n) in * by lia.
  wp_step. apply wp_with_hal. eapply wp_mono; [by apply mm_step_dealloc| |done]. intros [] s1 [_ Hst].
  replace (PhysPageNum_step base) with (Z.succ base) by (unfold PhysPageNum_step; rewrite usize_add_small; lia).
  eapply wp_mono; [apply IH; [by eapply step_wf|by eapply step_owns|lia|lia]| |done].
  intros [] h' [Hq Hst']. split; [done|]. by eapply mm_step_trans.
Qed.

Lemma dma_dealloc_spec base pages h O :
  mm_wf (hal_mm h) → is_ppn base → 0 ≤ pages < 2 ^ 44 → owns (hal_mm h) (seqZ base pages ++ O) →
  wp (dma_dealloc (base * 4096) pages) (λ r h', r = 0 ∧ QUEUE_FRAMES h' = QUEUE_FRAMES h ∧
    mm_step (hal_mm h) (seqZ base pages ++ O) (hal_mm h') O) no_panic h.
Proof.
  intros Hwf Hb Hp Hown. unfold is_ppn in Hb. unfold dma_dealloc.
  rewrite PhysAddr_from_usize_mod, Z.mod_small by lia. unfold PhysPageNum_from_PhysAddr.
  assert (Hoff : PhysAddr_page_offset (base * 4096) = 0 ∧ PhysAddr_floor (base * 4096) = base).
  { split.
    - unfold PhysAddr_page_offset. change (PAGE_SIZE - 1) with (Z.ones 12). rewrite Z.land_ones by lia. zsolve.
    - unfold PhysAddr_floor. change PAGE_SIZE with 4096. zsolve. }
  destruct Hoff as [-> ->]. change (0 =? 0) with true. do 4 wp_step. wp_step. rewrite <-(Z2Nat.id pages) in Hown |- * by lia.
  rewrite Nat2Z.id. eapply wp_mono; [by apply (dma_dealloc_loop_spec _ _ _ O); try lia| |done].
  intros [] h' [Hq Hst]. by wp_step.
Qed.

(** *** All the queues of the device *)

Lemma dma_alloc_unrecycled pages : keeps (λ h, unrecycled (hal_mm h)) (dma_alloc pages).
Proof.
  apply keeps_bind; [|intros ?; apply keeps_ret]. generalize (seqZ 0 pages). intros idx. generalize 0.
  induction idx as [|i idx IH]; intros base; cbn [dma_alloc_loop]; [apply keeps_ret|].
  apply keeps_bind; [|intros o; apply keeps_bind; [apply keeps_unwrap|intros f]].
  - intros h a h' Hh. unfold with_hal, with_mm, zoom. fold (hal_mm h).
    destruct (frame_alloc (hal_mm h)) as [o s'| |] eqn:E; [|done..]. intros [= _ <-]. by apply (frame_alloc_unrecycled _ _ _ Hh E).
  - apply keeps_bind; [apply keeps_assert|intros _]. apply keeps_bind; [by intros h a h' Hh [= _ <-]|intros _; apply IH].
Qed.

(** The frames [taken] by the driver, since [h]. *)
Record queues_taken (h : hal) (taken : list Z) (h' : hal) : Prop := {
  qt_queue : QUEUE_FRAMES h' = QUEUE_FRAMES h ++ taken;
  qt_step : mm_step (hal_mm h) [] (hal_mm h') taken;
  qt_space : KERNEL_SPACE (hal_mem h') = KERNEL_SPACE (hal_mem h) ∧ PID_ALLOCATOR (hal_mem h') = PID_ALLOCATOR (hal_mem h);
}.

Lemma queues_taken_trans h h1 h2 l1 l2 :
  queues_taken h l1 h1 → queues_taken h1 l2 h2 → queues_taken h (l1 ++ l2) h2.
Proof.
  intros [Hq1 Hst1 [Hk1 Hp1]] [Hq2 Hst2 [Hk2 Hp2]]. split; [by rewrite Hq2, Hq1, app_assoc| |by rewrite Hk2, Hp2].
  pose proof (mm_step_frame _ _ _ _ l1 Hst2 (step_owns _ _ _ _ Hst1)) as Hfm.
  rewrite (Permutation_app_comm l1). eapply mm_step_trans; [exact Hst1|exact Hfm].
Qed.

Definition queue_pages `{VirtIOBlk} : Z := foldr Z.add 0 vblk_queues.

Lemma queues_spec l q h :
  mm_wf (hal_mm h) → unrecycled (hal_mm h) → Forall (λ pages, 0 ≤ pages < 2 ^ 44) l →
  wp (foldM (λ l pages, pa ← dma_alloc pages; mret (vec_push l pa)) q l) (λ _ h', ∃ taken, queues_taken h taken h' ∧
      Z.of_nat (length taken) = foldr Z.add 0 l)
    (λ e, e = UnwrapNone ∧ Z.of_nat (free_frames (hal_mm h)) < foldr Z.add 0 l) h.
Proof.
  revert q h. induction l as [|pages l IH]; intros q h Hwf Hun Hl; cbn [foldM foldr].
  { wp_step. exists []. split; [|done]. split; [by rewrite app_nil_r| |done].
    apply mm_step_refl; [done|]. split; [constructor|by intros f ?%elem_of_nil]. }
  apply Forall_cons in Hl as [Hp Hl].
  assert (Hpos : 0 ≤ foldr Z.add 0 l) by (clear -Hl; induction Hl; simpl; lia).
  do 2 apply wp_bind. unfold wp at 1.
  pose proof (dma_alloc_spec pages h Hwf Hp) as Hd. unfold wp in Hd.
  destruct (dma_alloc pages h) as [pa h1|e|] eqn:E; [| |done].
  2: { destruct Hd as [[-> Hf]|[_ Hr]]; [split; [done|lia]|by destruct (Hr Hun)]. }
  destruct Hd as (base & _ & _ & [Hq Hst _ Hsp]). rewrite Z.add_0_r in Hq, Hst.
  assert (Ht1 : queues_taken h (seqZ base pages) h1) by (by split).
  wp_step. eapply wp_mono; [apply (IH _ h1); [by eapply step_wf|by apply (dma_alloc_unrecycled pages h pa)|done]|..].
  - intros q' h2 (t2 & Ht2 & Hn). exists (seqZ base pages ++ t2). split; [by eapply queues_taken_trans|].
    rewrite length_app, length_seqZ. lia.
  - intros e [-> Hf]. split; [done|]. pose proof (step_count _ _ _ _ Hst) as Hc. simpl in Hc. rewrite length_seqZ in Hc. lia.
Qed.

Lemma block_device_spec `{VirtIOBlk} h :
  mm_wf (hal_mm h) → unrecycled (hal_mm h) → Forall (λ pages, 0 ≤ pages < 2 ^ 44) vblk_queues →
  wp VirtIOBlock_new (λ dev h', ∃ taken queues, queues_taken h taken h' ∧ Z.of_nat (length taken) = queue_pages ∧
      vblk_new VIRTIO0 queues = Some dev)
    (λ e, e = UnwrapNone ∧ (Z.of_nat (free_frames (hal_mm h)) < queue_pages ∨ ∃ queues, vblk_new VIRTIO0 queues = None)) h.
Proof.
  intros Hwf Hun Hl. unfold VirtIOBlock_new. eapply wp_call; [by apply queues_spec|intros e [-> ?]; by auto|].
  intros queues h' (taken & Ht & Hn). apply wp_unwrap; [|intros ?; by eauto]. intros dev Hd. by exists taken, queues.
Qed.

(** ** Addresses *)

Lemma virt_to_phys_spec h X a va :
  MemorySet_ok (hal_mm h) (KERNEL_SPACE (hal_mem h)) X → a ∈ areas (KERNEL_SPACE (hal_mem h)) →
  map_type a = Identical → 0 ≤ va < 2 ^ 39 → va / 4096 ∈ vpns (vpn_range a) →
  wp (virt_to_phys va) (λ pa h', pa = va ∧ h' = h) no_panic h.
Proof.
  intros Hok Ha Ht Hva Hin. unfold virt_to_phys, kernel_token. wp_step. apply wp_zoom. wp_step.
  replace {| hal_mem := hal_mem h; QUEUE_FRAMES := QUEUE_FRAMES h |} with h by (by destruct h). wp_step. apply wp_with_hal.
  pose proof (ms_areas _ _ _ _ Hok a Ha) as Hwf.
  assert (Hppn : is_ppn (va / 4096)) by (unfold is_ppn; zsolve).
  pose proof (ms_lookup_area _ _ _ _ Hok a (va / 4096) Ha Hin) as Hl. unfold area_pte, area_ppn in Hl. rewrite Ht in Hl.
  rewrite VirtAddr_from_usize_mod, Z.mod_small by done. unfold wp at 1. unfold MemorySet_token.
  rewrite (translate_va_eq _ _ va _ (token_root _ _ _ Hok) Hl). wp_step. split; [|by destruct h as [[]]].
  rewrite PTE_ppn_new by (done || apply lor_V_range, Hwf). zsolve.
Qed.

(** ** The device test *)

(** What is assumed of the driver: blocks of 512 bytes that read back as written. *)
Class VirtIOBlkLaws `{VirtIOBlk} := {
  vblk_block : vdev → Z → option (list byte);
  vblk_write_ok d i l : is_Some (vblk_block d i) → length l = 512%nat →
    (vblk_write_block i l d).1 = Some tt ∧ vblk_block (vblk_write_block i l d).2 i = Some l ∧
    ∀ j, j ≠ i → vblk_block (vblk_write_block i l d).2 j = vblk_block d j;
  vblk_read_ok d i l : vblk_block d i = Some l → length l = 512%nat →
    (vblk_read_block i 512 d).1 = Some l ∧ ∀ j, vblk_block (vblk_read_block i 512 d).2 j = vblk_block d j;
}.

Section Test.
Context `{VirtIOBlk} `{!VirtIOBlkLaws}.

Lemma test_iter_spec i d :
  is_Some (vblk_block d i) →
  wp (block_device_test_iter i) (λ _ d', ∀ j, vblk_block d' j =
    if decide (j = i) then Some (replicate 512 (as_u8 i)) else vblk_block d j) no_panic d.
Proof.
  intros Hi. unfold block_device_test_iter. set (l := replicate 512 (as_u8 i)).
  assert (Hl : length l = 512%nat) by (apply length_replicate).
  destruct (vblk_write_ok d i l Hi Hl) as (Hw1 & Hw2 & Hw3).
  unfold VirtIOBlock_write_block. do 4 wp_step. wp_step. rewrite Hw1. wp_step.
  set (d1 := (vblk_write_block i l d).2) in *. destruct (vblk_read_ok d1 i l Hw2 Hl) as (Hr1 & Hr2).
  unfold VirtIOBlock_read_block. do 4 wp_step. wp_step. rewrite Hr1. wp_step.
  rewrite bool_decide_true by done. wp_step. intros j. rewrite Hr2. case_decide as Hj; [by rewrite Hj|by apply Hw3].
Qed.

Lemma test_loop_spec idx d :
  (∀ i, i ∈ idx → is_Some (vblk_block d i)) →
  wp (forM block_device_test_iter idx) (λ _ d', ∀ j, vblk_block d' j =
    if decide (j ∈ idx) then Some (replicate 512 (as_u8 j)) else vblk_block d j) no_panic d.
Proof.
  unfold forM in *. revert d. induction idx as [|i idx IH]; intros d Hd; cbn [foldM].
  { wp_step. intros j. by rewrite decide_False by apply not_elem_of_nil. }
  wp_step. eapply wp_mono; [apply test_iter_spec, Hd; by left| |done]. intros [] d1 H1.
  eapply wp_mono; [apply IH| |done].
  - intros j Hj. rewrite H1. case_decide; [by eexists|]. apply Hd. by right.
  - intros [] d2 H2 j. rewrite H2, H1. destruct (decide (j ∈ idx)) as [Hj|Hj].
    + by rewrite decide_True by (by right).
    + destruct (decide (j = i)) as [->|Hne]; [by rewrite decide_True by left|].
      rewrite decide_False; [done|]. by intros [?|?]%elem_of_cons.
Qed.
End Test.

(** ** Properties *)

(** C31: memory for the device queues.  [dma_alloc] returns the address of a run of
    contiguous, zeroed frames that nobody used before, and disturbs nobody; it panics
    only when there are not enough frames or when the allocator has recycled frames (it
    then hands out frames in another order and the assertion can fail).  [dma_dealloc]
    of that run succeeds and gives every frame back, but [QUEUE_FRAMES] keeps the
    trackers of the freed frames. *)
Theorem dma_alloc_dealloc pages h :
  mm_wf (hal_mm h) → 0 ≤ pages < 2 ^ 44 →
  wp (dma_alloc pages) (λ pa h', ∃ base, pa = base * 4096 ∧ dma_taken h base 0 pages h' ∧
      wp (dma_dealloc pa pages) (λ r h2, r = 0 ∧ mm_step (hal_mm h) [] (hal_mm h2) [] ∧
        QUEUE_FRAMES h2 = QUEUE_FRAMES h ++ seqZ base pages) no_panic h')
    (λ k, (k = UnwrapNone ∧ Z.of_nat (free_frames (hal_mm h)) < pages) ∨
          (k = AssertFailed ∧ fa_recycled (allocator h) ≠ [])) h.
Proof.
  intros Hwf Hp. eapply wp_mono; [by apply dma_alloc_spec| |done].
  intros pa h' (base & Hb & -> & Ht). exists base. split; [done|]. split; [done|]. destruct Ht as [Hq Hst Hz Hs].
  rewrite Z.add_0_r in *.
  eapply wp_mono; [apply (dma_dealloc_spec base pages h' []); [by eapply step_wf|done|done|]| |done].
  - rewrite app_nil_r. by eapply step_owns.
  - intros r h2 (-> & Hq2 & Hst2). rewrite app_nil_r in Hst2. split_and!; [done|by eapply mm_step_trans|]. by rewrite Hq2, Hq.
Qed.

(** The kernel's addresses are physical addresses.  For an address in an area that
    the kernel space maps identically (its sections and all the memory the frame
    allocator manages), [virt_to_phys] succeeds with that very address, and changes
    nothing; so it inverts [phys_to_virt] there. *)
Theorem virt_to_phys_identity h X a pa :
  MemorySet_ok (hal_mm h) (KERNEL_SPACE (hal_mem h)) X → a ∈ areas (KERNEL_SPACE (hal_mem h)) →
  map_type a = Identical → 0 ≤ pa < 2 ^ 39 → pa / 4096 ∈ vpns (vpn_range a) →
  virt_to_phys (phys_to_virt pa) h = Done pa h.
Proof.
  intros Hok Ha Ht Hpa Hin. pose proof (virt_to_phys_spec h X a pa Hok Ha Ht Hpa Hin) as Hwp.
  unfold phys_to_virt. unfold wp in Hwp. by destruct (virt_to_phys pa h) as [? ?| |]; [destruct Hwp as [-> ->]|..].
Qed.

(** [block_device_test] passes on every device whose first 512 blocks read back as
    they were written, and leaves in block [i] the byte [i mod 256], 512 times, and all
    other blocks as they were. *)
Theorem block_device_test_passes `{VirtIOBlk} `{!VirtIOBlkLaws} d :
  (∀ i, 0 ≤ i < 512 → is_Some (vblk_block d i)) →
  wp block_device_test (λ _ d', ∀ j, vblk_block d' j =
    if decide (0 ≤ j < 512) then Some (replicate 512 (as_u8 j)) else vblk_block d j) no_panic d.
Proof.
  intros Hd. eapply wp_mono; [apply test_loop_spec; intros i Hi%elem_of_seqZ; apply Hd; lia| |done].
  intros [] d' Hj j. rewrite Hj. pose proof (elem_of_seqZ 0 512 j) as Hs. repeat case_decide; try done; exfalso; naive_solver lia.
Qed.

(** ** Witnesses *)

Definition demo_hal : hal := {|
  hal_mem := {| km_mm := {| phys := λ _, Corelib.Init.Byte.xff; FRAME_ALLOCATOR := {| fa_current := 3; fa_end := 10; fa_recycled := [] |} |};
                KERNEL_SPACE := {| page_table := {| root_ppn := 0; frames := [] |}; areas := [] |};
                PID_ALLOCATOR := PidAllocator_new |};
  QUEUE_FRAMES := [] |}.

Lemma demo_hal_wf : mm_wf (hal_mm demo_hal).
Proof. split; [constructor|by intros f ?%elem_of_nil|]. simpl. lia. Qed.

Lemma dma_alloc_dealloc_witness :
  ∃ h' h2, dma_alloc 2 demo_hal = Done (3 * 4096) h' ∧ QUEUE_FRAMES h' = [3; 4] ∧
    dma_dealloc (3 * 4096) 2 h' = Done 0 h2 ∧ mm_step (hal_mm demo_hal) [] (hal_mm h2) [].
Proof.
  destruct (wp_cases _ _ _ _ (dma_alloc_dealloc 2 demo_hal demo_hal_wf ltac:(lia)))
    as [(pa & h' & Hrun & base & -> & Ht & Hde)|(k & _ & [[_ Hf]|[_ Hf]])].
  - assert (Hb : match dma_alloc 2 demo_hal with Done pa _ => pa =? 3 * 4096 | _ => false end = true) by reflexivity.
    rewrite Hrun in Hb. apply Z.eqb_eq in Hb. assert (base = 3) by lia.
    subst base. destruct (wp_cases _ _ _ _ Hde) as [(r & h2 & Hrun2 & -> & Hst & _)|(k & _ & [])].
    exists h', h2. split; [exact Hrun|]. split; [|split; [exact Hrun2|exact Hst]]. exact (dt_queue _ _ _ _ _ Ht).
  - vm_compute in Hf. discriminate Hf.
  - by destruct Hf.
Defined.

(** With a recycled frame the run is broken. *)
Theorem dma_alloc_recycled_panics :
  dma_alloc 2 (set_hal_mm {| phys := λ _, Corelib.Init.Byte.x00;
    FRAME_ALLOCATOR := {| fa_current := 5; fa_end := 10; fa_recycled := [3] |} |} demo_hal) = Panic AssertFailed.
Proof. reflexivity. Qed.

Lemma virt_to_phys_identity_witness :
  ∃ h, QUEUE_FRAMES h = [] ∧ virt_to_phys (phys_to_virt 0x87ffb123) h = Done 0x87ffb123 h.
Proof.
  destruct (wp_cases _ _ _ _ (@new_kernel_spec small_symbols demo_boot small_strampoline
    (@layout_sections_ok small_symbols small_layout) demo_boot_wf)) as [(ks & s' & _ & Hsm)|(k & _ & Hf)].
  - destruct (Forall2_lookup_l _ _ _ 0%nat _ (sm_areas _ _ _ _ Hsm) eq_refl) as (a & Ha & Hr & Ht & _).
    exists {| hal_mem := {| km_mm := s'; KERNEL_SPACE := ks; PID_ALLOCATOR := PidAllocator_new |}; QUEUE_FRAMES := [] |}.
    split; [reflexivity|]. apply (virt_to_phys_identity _ (@trampoline_map small_symbols) a).
    + exact (sm_ok _ _ _ _ Hsm).
    + exact (list_elem_of_lookup_2 _ _ _ Ha).
    + exact Ht.
    + lia.
    + rewrite Hr. apply elem_of_vpns. vm_compute. split; congruence.
  - destruct (small_enough k Hf).
Defined.

(** A disk of as many blocks as one likes. *)
Definition ram_disk : VirtIOBlk := {|
  vdev := Z → option (list byte); vblk_queues := [2];
  vblk_new _ _ := Some (λ _, Some (replicate 512 Corelib.Init.Byte.x00));
  vblk_read_block i n d := (take n <$> d i, d);
  vblk_write_block i l d := ((λ _, tt) <$> d i, λ j, if decide (j = i) then (λ _, l) <$> d i else d j) |}.

Definition ram_disk_laws : @VirtIOBlkLaws ram_disk.
Proof.
  refine (@Build_VirtIOBlkLaws ram_disk (λ d i, d i) _ _).
  - intros d i l [x Hx] _. simpl. rewrite Hx. split_and!; [done|by rewrite decide_True|]. intros j Hj. by rewrite decide_False.
  - intros d i l Hd Hl. simpl. rewrite Hd. split; [|done]. cbn [fmap option_fmap option_map]. by rewrite <-Hl, firstn_all.
Defined.

Lemma block_device_test_passes_witness :
  wp (@block_device_test ram_disk) (λ _ d', (d' : Z → option (list byte)) 300 = Some (replicate 512 (as_u8 44)))
    no_panic (λ _, Some []).
Proof.
  eapply wp_mono; [apply (@block_device_test_passes ram_disk ram_disk_laws (λ _, Some [])); intros i _; by eexists| |by intros k []].
  intros [] d' Hd. exact (Hd 300).
Defined.
