(* ===== verification/Context.v ===== *)
(** * Task and trap contexts ([src/task/context.rs], [src/trap/context.rs])

    A [TaskContext] is what [__switch] saves of a kernel thread.  A [TrapContext]
    is the [repr(C)] structure that [trap.S] fills: 37 words of 8 bytes at the
    start of the page [trap_cx_ppn]; the kernel reaches it by its physical address,
    the user program never.  The CSR [sstatus] read when a context is made is an
    argument; so are the addresses of [trap_return] and [trap_handler]. *)
From S2P Require Import Prelude Config Machine Address FrameAllocator Ownership.
From S2P Require Import PageTable PageTree PageTableSpec MemorySet MapAreaSpec MemorySetSpec.
From S2P Require Import AddressSpace UserSpace.
From coqutil Require Import Word.LittleEndianList.

(* src: src/src/task/context.rs 8-15 TaskContext *)
Record TaskContext : Set := mkTaskContext { tc_ra : Z; tc_sp : Z; tc_s : list Z }.

(* src: src/src/task/context.rs 19-25 TaskContext::zero_init *)
Definition TaskContext_zero_init : TaskContext :=
  {| tc_ra := 0; tc_sp := 0; tc_s := replicate 12 0 |}.

(* src: src/src/task/context.rs 28-34 TaskContext::goto_trap_return *)
Definition TaskContext_goto_trap_return (trap_return kstack_ptr : Z) : TaskContext :=
  {| tc_ra := trap_return; tc_sp := kstack_ptr; tc_s := replicate 12 0 |}.

(* src: src/src/trap/context.rs 6-19 TrapContext *)
Record TrapContext : Set := mkTrapContext {
  cx_x : list Z;
  cx_sstatus : Z;
  cx_sepc : Z;
  cx_kernel_satp : Z;
  cx_kernel_sp : Z;
  cx_trap_handler : Z;
}.

(* src: src/src/trap/context.rs 23-25 TrapContext::set_sp *)
Definition TrapContext_set_sp (sp : Z) (cx : TrapContext) : TrapContext :=
  {| cx_x := <[2%nat := sp]> (cx_x cx); cx_sstatus := cx_sstatus cx; cx_sepc := cx_sepc cx;
     cx_kernel_satp := cx_kernel_satp cx; cx_kernel_sp := cx_kernel_sp cx;
     cx_trap_handler := cx_trap_handler cx |}.

(** [sstatus.set_spp(SPP::User)] clears bit 8. *)
Definition set_spp_user (sstatus : Z) : Z := Z.clearbit sstatus 8.

(* src: src/src/trap/context.rs 28-50 TrapContext::app_init_context *)
Definition TrapContext_app_init_context (sstatus entry sp kernel_satp kernel_sp trap_handler : Z)
    : TrapContext :=
  let cx := {| cx_x := replicate 32 0; cx_sstatus := set_spp_user sstatus; cx_sepc := entry;
               cx_kernel_satp := kernel_satp; cx_kernel_sp := kernel_sp;
               cx_trap_handler := trap_handler |} in
  TrapContext_set_sp sp cx.

(** ** The structure in memory *)

(** The fields in the order of [repr(C)]; word [i] is at byte [8 * i]. *)
Definition cx_words (cx : TrapContext) : list Z :=
  cx_x cx ++ [cx_sstatus cx; cx_sepc cx; cx_kernel_satp cx; cx_kernel_sp cx; cx_trap_handler cx].

Definition words_cx (ws : list Z) : TrapContext :=
  {| cx_x := take 32 ws; cx_sstatus := ws !!! 32%nat; cx_sepc := ws !!! 33%nat;
     cx_kernel_satp := ws !!! 34%nat; cx_kernel_sp := ws !!! 35%nat;
     cx_trap_handler := ws !!! 36%nat |}.

(** Little-endian words at [a], [a + 8], ... *)
Definition words_bytes (ws : list Z) : list byte := ws ≫= le_split 8.
Definition load_words (m : memory) (a : Z) (n : nat) : list Z :=
  (λ i, load64 m (a + 8 * Z.of_nat i)) <$> seq 0 n.

Definition store_cx (m : memory) (a : Z) (cx : TrapContext) : memory :=
  store_bytes m a (words_bytes (cx_words cx)).
Definition load_cx (m : memory) (a : Z) : TrapContext := words_cx (load_words m a 37).

(** A context with 32 registers whose fields are machine words. *)
Record cx_ok (cx : TrapContext) : Prop := {
  cxo_regs : length (cx_x cx) = 32%nat;
  cxo_words : Forall is_usize (cx_words cx);
}.

Lemma words_cx_words cx : length (cx_x cx) = 32%nat → words_cx (cx_words cx) = cx.
Proof.
  intros H. unfold words_cx, cx_words. destruct cx as [x st se ks sp th]; simpl in *.
  rewrite !lookup_total_app_r by lia. rewrite H. simpl. f_equal. by rewrite <-H, take_app_length.
Qed.

Lemma length_words_bytes ws : length (words_bytes ws) = (8 * length ws)%nat.
Proof.
  unfold words_bytes. induction ws as [|w ws IH]; [done|]. rewrite bind_cons, length_app, IH.
  rewrite length_le_split. simpl. lia.
Qed.

Lemma words_bytes_slice ws i w :
  ws !! i = Some w → take 8 (drop (8 * i) (words_bytes ws)) = le_split 8 w.
Proof.
  revert i. induction ws as [|v ws IH]; intros [|i] Hi; [done|done|injection Hi as ->|simpl in Hi].
  - unfold words_bytes. rewrite bind_cons. rewrite Nat.mul_0_r, drop_0.
    by rewrite take_app_length' by (by rewrite length_le_split).
  - unfold words_bytes. rewrite bind_cons.
    rewrite drop_app_ge by (rewrite length_le_split; lia). rewrite length_le_split.
    replace (8 * S i - 8)%nat with (8 * i)%nat by lia. by apply IH.
Qed.

(** Reading part of what was stored. *)
Lemma load_bytes_store_bytes m a l o n :
  (o + n ≤ length l)%nat →
  load_bytes (store_bytes m a l) (a + Z.of_nat o) n = take n (drop o l).
Proof.
  intros H. apply list_eq. intros i. destruct (decide (i < n)%nat) as [Hi|Hi].
  - rewrite lookup_load_bytes, lookup_take_lt, lookup_drop by done.
    destruct (lookup_lt_is_Some_2 l (o + i)) as [b Hb]; [lia|]. rewrite Hb. f_equal.
    apply store_bytes_in; [lia|]. rewrite <-Hb. f_equal. lia.
  - rewrite lookup_take_ge by lia. apply lookup_ge_None_2. rewrite length_load_bytes. lia.
Qed.

Lemma load_words_store m a ws :
  Forall is_usize ws → load_words (store_bytes m a (words_bytes ws)) a (length ws) = ws.
Proof.
  intros Hws. apply list_eq. intros i. unfold load_words. rewrite list_lookup_fmap.
  destruct (decide (i < length ws)%nat) as [Hi|Hi].
  - rewrite lookup_seq_lt by done. simpl. destruct (lookup_lt_is_Some_2 ws i Hi) as [w Hw].
    rewrite Hw. f_equal. unfold load64.
    replace (8 * Z.of_nat i) with (Z.of_nat (8 * i)) by lia.
    rewrite load_bytes_store_bytes by (rewrite length_words_bytes; lia).
    rewrite (words_bytes_slice ws i w Hw), le_combine_split. apply Z.mod_small.
    by apply (proj1 (Forall_lookup _ _) Hws i).
  - rewrite lookup_seq_ge by lia. simpl. symmetry. apply lookup_ge_None_2. lia.
Qed.

(** Writing one word of the structure. *)
Lemma load_words_store64 m a n i v :
  (i < n)%nat → is_usize v →
  load_words (store64 m (a + 8 * Z.of_nat i) v) a n = <[i := v]> (load_words m a n).
Proof.
  intros Hi Hv. apply list_eq. intros j. unfold load_words. rewrite list_lookup_fmap.
  destruct (decide (j = i)) as [->|Hne].
  - rewrite list_lookup_insert_eq by (by rewrite length_fmap, length_seq).
    rewrite lookup_seq_lt by done. simpl. by rewrite load64_store64_eq.
  - rewrite list_lookup_insert_ne, list_lookup_fmap by done.
    destruct (decide (j < n)%nat); [|by rewrite lookup_seq_ge by lia].
    rewrite lookup_seq_lt by done. simpl. by rewrite load64_store64_ne by lia.
Qed.

Lemma length_load_words m a n : length (load_words m a n) = n.
Proof. unfold load_words. by rewrite length_fmap, length_seq. Qed.

(** The same bytes at two places. *)
Lemma load_words_shift m a m' a' n :
  (∀ x, 0 ≤ x < 8 * Z.of_nat n → m (a + x) = m' (a' + x)) → load_words m a n = load_words m' a' n.
Proof.
  intros Hag. apply list_eq. intros i. unfold load_words. rewrite !list_lookup_fmap.
  destruct (decide (i < n)%nat); [|by rewrite !lookup_seq_ge by lia].
  rewrite !lookup_seq_lt by done. simpl. f_equal. unfold load64. f_equal.
  apply list_eq. intros j. destruct (decide (j < 8)%nat).
  - rewrite !lookup_load_bytes by done. f_equal. rewrite <-!Z.add_assoc. apply Hag. lia.
  - rewrite !lookup_ge_None_2; [done|rewrite length_load_bytes; lia..].
Qed.

Lemma cx_words_length cx : length (cx_x cx) = 32%nat → length (cx_words cx) = 37%nat.
Proof. intros H. unfold cx_words. rewrite length_app, H. done. Qed.

Lemma load_store_cx m a cx : cx_ok cx → load_cx (store_cx m a cx) a = cx.
Proof.
  intros [Hr Hw]. unfold load_cx, store_cx. rewrite <-(cx_words_length cx Hr).
  rewrite load_words_store by done. by apply words_cx_words.
Qed.

Lemma store_cx_page m f cx g :
  length (cx_x cx) = 32%nat → g ≠ f → page_agree m (store_cx m (f * 4096) cx) g.
Proof.
  intros Hr Hne. unfold store_cx. replace (f * 4096) with (f * 4096 + 0) by lia.
  apply store_page_agree; [lia| |done].
  rewrite length_words_bytes, cx_words_length by done. lia.
Qed.

Lemma app_init_context_ok sstatus entry sp satp ksp th :
  is_usize sstatus → is_usize entry → is_usize sp → is_usize satp → is_usize ksp → is_usize th →
  cx_ok (TrapContext_app_init_context sstatus entry sp satp ksp th).
Proof.
  intros Hs He Hsp Hsa Hk Ht. split; [done|].
  assert (is_usize 0) by usolve.
  assert (is_usize (set_spp_user sstatus)).
  { unfold set_spp_user. rewrite Z.clearbit_spec'. unfold is_usize, usize_modulus in *.
    assert (Hb : Z.ldiff sstatus (2 ^ 8) = Z.ldiff sstatus (2 ^ 8) mod 2 ^ 64).
    { apply Z.bits_inj'. intros i Hi. destruct (decide (i < 64)).
      - by rewrite Z.mod_pow2_bits_low by lia.
      - rewrite Z.mod_pow2_bits_high by lia. rewrite Z.ldiff_spec.
        rewrite <-(Z.mod_small sstatus (2 ^ 64)) by done. by rewrite Z.mod_pow2_bits_high by lia. }
    rewrite Hb. apply Z.mod_pos_bound. lia. }
  cbn. repeat (constructor; [done|]). constructor.
Qed.

(** ** Properties *)

(** The trap context a new program starts from survives in memory: written at
    the start of a page and read back it has the program counter at the entry
    point, the stack pointer in [x2] and zero in every other register, user mode
    in [sstatus.SPP] with the other bits kept, and the kernel's page table, stack
    and handler; writing it changes no other page. *)
Theorem init_context_in_memory m f sstatus entry sp satp ksp th :
  is_usize sstatus → is_usize entry → is_usize sp → is_usize satp → is_usize ksp → is_usize th →
  let m' := store_cx m (f * 4096) (TrapContext_app_init_context sstatus entry sp satp ksp th) in
  let cx := load_cx m' (f * 4096) in
  cx_sepc cx = entry ∧ cx_kernel_satp cx = satp ∧ cx_kernel_sp cx = ksp ∧ cx_trap_handler cx = th ∧
  (∀ i, (i < 32)%nat → cx_x cx !! i = Some (if decide (i = 2%nat) then sp else 0)) ∧
  (∀ i, 0 ≤ i → Z.testbit (cx_sstatus cx) i = if decide (i = 8) then false else Z.testbit sstatus i) ∧
  (∀ g, g ≠ f → page_agree m m' g).
Proof.
  intros Hs He Hsp Hsa Hk Ht m' cx.
  assert (Hcx : cx = TrapContext_app_init_context sstatus entry sp satp ksp th)
    by (apply load_store_cx; by apply app_init_context_ok).
  rewrite Hcx. split_and!; [done..| | |].
  - intros i Hi. simpl. destruct (decide (i = 2%nat)) as [->|Hne]; [done|].
    change (<[2%nat := sp]> (replicate 32 0) !! i = Some 0).
    rewrite list_lookup_insert_ne by done. by apply lookup_replicate_2.
  - intros i Hi. simpl. unfold set_spp_user. destruct (decide (i = 8)) as [->|Hne].
    + by rewrite Z.clearbit_eq.
    + by rewrite Z.clearbit_neq by done.
  - intros g Hg. by apply store_cx_page.
Qed.

Lemma init_context_in_memory_witness :
  let m' := store_cx (λ _, Corelib.Init.Byte.xff) (7 * 4096)
              (TrapContext_app_init_context 0x120 0x10000 0x5000 (2 ^ 63 + 9) 0x7000 0x80200000) in
  cx_sepc (load_cx m' (7 * 4096)) = 0x10000 ∧ Z.testbit (cx_sstatus (load_cx m' (7 * 4096))) 8 = false.
Proof.
  pose proof (init_context_in_memory (λ _, Corelib.Init.Byte.xff) 7 0x120 0x10000 0x5000 (2 ^ 63 + 9)
    0x7000 0x80200000 ltac:(usolve) ltac:(usolve) ltac:(usolve) ltac:(usolve) ltac:(usolve) ltac:(usolve))
    as (H1 & _ & _ & _ & _ & H2 & _).
  split; [exact H1|]. rewrite H2 by lia. reflexivity.
Defined.
