(* ===== verification/Timer.v ===== *)
(** * Time ([src/timer.rs])

    The counter [time] of the processor is an argument.  Products wrap at 64 bits,
    as in the release build. *)
From S2P Require Import Prelude Config.

(* src: src/src/timer.rs 7-7 TICKS_PER_SEC *)
Definition TICKS_PER_SEC : Z := 100.
(* src: src/src/timer.rs 8-8 MSEC_PER_SEC *)
Definition MSEC_PER_SEC : Z := 1000.
(* src: src/src/timer.rs 9-9 MICRO_PER_SEC *)
Definition MICRO_PER_SEC : Z := 1000000.

(* src: src/src/timer.rs 12-14 get_time *)
Definition get_time (time : Z) : Z := time.
(* src: src/src/timer.rs 17-19 get_time_us *)
Definition get_time_us (time : Z) : Z := time *u MICRO_PER_SEC / CLOCK_FREQ.
(* src: src/src/timer.rs 22-24 get_time_ms *)
Definition get_time_ms (time : Z) : Z := time *u MSEC_PER_SEC / CLOCK_FREQ.
(** The argument of [set_timer]. *)
(* src: src/src/timer.rs 27-29 set_next_trigger *)
Definition set_next_trigger (time : Z) : Z := get_time time +u CLOCK_FREQ / TICKS_PER_SEC.

(** The structure [sys_get_time] writes. *)
(* src: src/src/syscall/process.rs 16-21 TimeVal *)
Record TimeVal : Set := mkTimeVal { sec : Z; usec : Z }.
(* src: src/src/syscall/process.rs 59-63 sys_get_time *)
Definition time_val (time : Z) : TimeVal :=
  let us := get_time_us time in
  {| sec := us / 1000000; usec := us mod 1000000 |}.

(** Ticks until the product with [MICRO_PER_SEC] overflows, about 17 days. *)
Definition time_limit : Z := 2 ^ 64 / MICRO_PER_SEC.

Lemma time_limit_eq : time_limit = 18446744073709.
Proof. reflexivity. Qed.

Lemma mul_small t c : 0 ≤ t < 18446744073709 → 0 ≤ c ≤ 1000000 → t *u c = t * c.
Proof. intros. apply wrap64_small. unfold is_usize, usize_modulus. nia. Qed.

Lemma get_time_us_eq t : 0 ≤ t < 18446744073709 → get_time_us t = t * 1000000 / 12500000.
Proof. intros. unfold get_time_us, MICRO_PER_SEC. by rewrite mul_small by lia. Qed.

Lemma get_time_ms_eq t : 0 ≤ t < 18446744073709 → get_time_ms t = t * 1000 / 12500000.
Proof. intros. unfold get_time_ms, MSEC_PER_SEC. by rewrite mul_small by lia. Qed.

Lemma set_next_trigger_eq t : 0 ≤ t < 18446744073709 → set_next_trigger t = t + 125000.
Proof. intros. unfold set_next_trigger, get_time. apply usize_add_small; [lia|done|lia]. Qed.

(** ** Properties *)

(** Until the product overflows, [get_time_us] and [get_time_ms] are the exact
    time rounded down, never run backwards, and [sys_get_time] splits the
    microseconds into seconds and a remainder below one second; the next timer
    interrupt is a hundredth of a second away. *)
Theorem time_conversions_exact t :
  0 ≤ t < time_limit →
  get_time_us t = t * 1000000 / CLOCK_FREQ ∧ get_time_ms t = t * 1000 / CLOCK_FREQ ∧
  (∀ t', 0 ≤ t' ≤ t → get_time_us t' ≤ get_time_us t ∧ get_time_ms t' ≤ get_time_ms t) ∧
  sec (time_val t) * 1000000 + usec (time_val t) = get_time_us t ∧ 0 ≤ usec (time_val t) < 1000000 ∧
  sec (time_val t) = t / CLOCK_FREQ ∧
  (set_next_trigger t - t) * TICKS_PER_SEC = CLOCK_FREQ.
Proof.
  rewrite time_limit_eq. intros Ht.
  assert (Hus : get_time_us t = t * 1000000 / 12500000) by (apply get_time_us_eq; lia).
  unfold time_val. cbn [sec usec]. rewrite Hus, get_time_ms_eq, set_next_trigger_eq by lia.
  unfold CLOCK_FREQ, TICKS_PER_SEC. split_and!; try zsolve.
  intros t' Ht'. rewrite get_time_us_eq, get_time_ms_eq by lia. split; apply Z.div_le_mono; lia.
Qed.

Lemma time_conversions_exact_witness :
  get_time_us 125000000 = 10000000 ∧ sec (time_val 125000000) = 10.
Proof.
  destruct (time_conversions_exact 125000000) as (H1 & _ & _ & _ & _ & H2 & _);
    [vm_compute; split; congruence|].
  split; [rewrite H1; reflexivity|rewrite H2; reflexivity].
Defined.

(** After [time_limit] ticks (17 days) the product wraps and the time the
    system calls report jumps back to zero. *)
Theorem time_wraps_around :
  get_time_us (time_limit + 1) < 1 ∧ get_time_us time_limit > 10 ^ 12.
Proof. split; vm_compute; reflexivity. Qed.
