(* ===== verification/Task.v ===== *)
(** * Processes ([src/task/task.rs])

    [Arc<TaskControlBlock>] is a number, the identity of the block in the store
    [TASKS]; cloning an [Arc] copies the number and [Weak] references are numbers
    too.  The immutable part of a block and its [inner] cell are one record.
    [RefCell] borrows never overlap in the modelled code, except where a definition
    says so.  [TASK_MANAGER], [PROCESSOR] and [INITPROC] are fields of the state
    [kernel].  Addresses and CSR values that the linker and the processor supply,
    and the ELF parser of the crate [xmas_elf], are the class [KernelEnv]. *)
From S2P Require Import Prelude Config Machine Address FrameAllocator Ownership.
From S2P Require Import PageTable PageTableSpec MemorySet MapAreaSpec MemorySetSpec.
From S2P Require Import Pid Context.

Class KernelEnv := {
  env_linker :: LinkerSymbols;
  ElfFile_new : list byte → option ElfFile;
  sstatus_read : Z;
  trap_return_addr : Z;
  trap_handler_addr : Z;
}.

(** [Arc<dyn File + Send + Sync>]: the two devices, or an open inode by the
    identity of its [OSInode]. *)
Inductive FileRef : Set := Stdin | Stdout | OSInodeRef (id : nat).

(* src: src/src/task/task.rs 84-95 TaskStatus *)
Inductive TaskStatus : Set := UnInit | Ready | Running | Zombie.
#[global] Instance TaskStatus_eq_dec : EqDecision TaskStatus.
Proof. solve_decision. Defined.

(* src: src/src/task/task.rs 62-71 TaskInfoInner *)
Record TaskInfoInner : Set := mkTaskInfoInner {
  syscall_times : list Z;
  first_run_time : Z;
  first_run_flag : bool;
}.

(* src: src/src/task/task.rs 75-81 TaskInfoInner::zero_init *)
Definition TaskInfoInner_zero_init : TaskInfoInner :=
  {| syscall_times := replicate (Z.to_nat MAX_SYSCALL_NUM) 0; first_run_time := 0;
     first_run_flag := true |}.

(* src: src/src/task/task.rs 29-60 TaskControlBlockInner *)
Record TaskControlBlockInner : Type := mkInner {
  trap_cx_ppn : PhysPageNum;
  base_size : Z;
  task_cx : TaskContext;
  task_status : TaskStatus;
  memory_set : MemorySet;
  parent : option nat;
  child : list nat;
  exit_code : Z;
  task_info_inner : TaskInfoInner;
  heap_bottom : Z;
  program_brk : Z;
  prio : Z;
  stride : Z;
  fd_table : list (option FileRef);
}.

(* src: src/src/task/task.rs 18-27 TaskControlBlock *)
Record TaskControlBlock : Type := mkTask {
  pid : PidHandle;
  kernel_stack : KernelStack;
  inner : TaskControlBlockInner;
}.

(* src: src/src/task/processor.rs 15-18 Processor *)
Record Processor : Set := mkProcessor {
  current : option nat;
  idle_task_cx : TaskContext;
}.

(* src: src/src/task/processor.rs 21-26 Processor::new *)
Definition Processor_new : Processor := {| current := None; idle_task_cx := TaskContext_zero_init |}.

Record kernel : Type := mkKernel {
  k_mem : kmem;
  TASKS : gmap nat TaskControlBlock;
  next_task : nat;                     (* the identity [Arc::new] gives next *)
  ready_queue : list nat;              (* [TASK_MANAGER] *)
  PROCESSOR : Processor;
  INITPROC : nat;
}.

(** ** Updates of the state *)

Definition set_k_mem (m : kmem) (k : kernel) : kernel :=
  {| k_mem := m; TASKS := TASKS k; next_task := next_task k; ready_queue := ready_queue k;
     PROCESSOR := PROCESSOR k; INITPROC := INITPROC k |}.
Definition set_TASKS (t : gmap nat TaskControlBlock) (k : kernel) : kernel :=
  {| k_mem := k_mem k; TASKS := t; next_task := next_task k; ready_queue := ready_queue k;
     PROCESSOR := PROCESSOR k; INITPROC := INITPROC k |}.
Definition set_ready_queue (q : list nat) (k : kernel) : kernel :=
  {| k_mem := k_mem k; TASKS := TASKS k; next_task := next_task k; ready_queue := q;
     PROCESSOR := PROCESSOR k; INITPROC := INITPROC k |}.
Definition set_current (o : option nat) (k : kernel) : kernel :=
  {| k_mem := k_mem k; TASKS := TASKS k; next_task := next_task k; ready_queue := ready_queue k;
     PROCESSOR := {| current := o; idle_task_cx := idle_task_cx (PROCESSOR k) |};
     INITPROC := INITPROC k |}.

Definition with_kmem {A} (m : M kmem A) : M kernel A := zoom k_mem set_k_mem m.
Definition with_frames {A} (m : M mm A) : M kernel A := with_kmem (with_mm m).

(** Following an [Arc]: it always finds its block while the program holds it. *)
Definition task (t : nat) : M kernel TaskControlBlock :=
  k ← gets TASKS; unwrap (k !! t).
Definition set_task (t : nat) (b : TaskControlBlock) : M kernel unit :=
  modify (λ k, set_TASKS (<[t := b]> (TASKS k)) k).

(* src: src/src/task/task.rs 99-101 TaskControlBlock::inner_exclusive_access *)
Definition inner_exclusive_access (t : nat) : M kernel TaskControlBlockInner :=
  b ← task t; mret (inner b).

(** Writing back through the [RefMut]. *)
Definition update_inner (t : nat) (f : TaskControlBlockInner → TaskControlBlockInner) : M kernel unit :=
  b ← task t;
  set_task t {| pid := pid b; kernel_stack := kernel_stack b; inner := f (inner b) |}.

(** [Arc::new]. *)
Definition Arc_new (b : TaskControlBlock) : M kernel nat :=
  t ← gets next_task;
  modify (λ k, {| k_mem := k_mem k; TASKS := <[t := b]> (TASKS k); next_task := S t;
                  ready_queue := ready_queue k; PROCESSOR := PROCESSOR k; INITPROC := INITPROC k |});;
  mret t.

(** Field updates of [TaskControlBlockInner]. *)
Definition set_task_status (st : TaskStatus) (i : TaskControlBlockInner) : TaskControlBlockInner :=
  mkInner (trap_cx_ppn i) (base_size i) (task_cx i) st (memory_set i) (parent i) (child i) (exit_code i)
    (task_info_inner i) (heap_bottom i) (program_brk i) (prio i) (stride i) (fd_table i).
Definition set_memory_set (ms : MemorySet) (i : TaskControlBlockInner) : TaskControlBlockInner :=
  mkInner (trap_cx_ppn i) (base_size i) (task_cx i) (task_status i) ms (parent i) (child i) (exit_code i)
    (task_info_inner i) (heap_bottom i) (program_brk i) (prio i) (stride i) (fd_table i).
Definition set_trap_cx_ppn (p : PhysPageNum) (i : TaskControlBlockInner) : TaskControlBlockInner :=
  mkInner p (base_size i) (task_cx i) (task_status i) (memory_set i) (parent i) (child i) (exit_code i)
    (task_info_inner i) (heap_bottom i) (program_brk i) (prio i) (stride i) (fd_table i).
Definition set_parent (o : option nat) (i : TaskControlBlockInner) : TaskControlBlockInner :=
  mkInner (trap_cx_ppn i) (base_size i) (task_cx i) (task_status i) (memory_set i) o (child i) (exit_code i)
    (task_info_inner i) (heap_bottom i) (program_brk i) (prio i) (stride i) (fd_table i).
Definition set_child (l : list nat) (i : TaskControlBlockInner) : TaskControlBlockInner :=
  mkInner (trap_cx_ppn i) (base_size i) (task_cx i) (task_status i) (memory_set i) (parent i) l (exit_code i)
    (task_info_inner i) (heap_bottom i) (program_brk i) (prio i) (stride i) (fd_table i).
Definition set_exit_code (c : Z) (i : TaskControlBlockInner) : TaskControlBlockInner :=
  mkInner (trap_cx_ppn i) (base_size i) (task_cx i) (task_status i) (memory_set i) (parent i) (child i) c
    (task_info_inner i) (heap_bottom i) (program_brk i) (prio i) (stride i) (fd_table i).
Definition set_task_info (ti : TaskInfoInner) (i : TaskControlBlockInner) : TaskControlBlockInner :=
  mkInner (trap_cx_ppn i) (base_size i) (task_cx i) (task_status i) (memory_set i) (parent i) (child i)
    (exit_code i) ti (heap_bottom i) (program_brk i) (prio i) (stride i) (fd_table i).
Definition set_program_brk (b : Z) (i : TaskControlBlockInner) : TaskControlBlockInner :=
  mkInner (trap_cx_ppn i) (base_size i) (task_cx i) (task_status i) (memory_set i) (parent i) (child i)
    (exit_code i) (task_info_inner i) (heap_bottom i) b (prio i) (stride i) (fd_table i).
Definition set_prio (p : Z) (i : TaskControlBlockInner) : TaskControlBlockInner :=
  mkInner (trap_cx_ppn i) (base_size i) (task_cx i) (task_status i) (memory_set i) (parent i) (child i)
    (exit_code i) (task_info_inner i) (heap_bottom i) (program_brk i) p (stride i) (fd_table i).
Definition set_stride (s : Z) (i : TaskControlBlockInner) : TaskControlBlockInner :=
  mkInner (trap_cx_ppn i) (base_size i) (task_cx i) (task_status i) (memory_set i) (parent i) (child i)
    (exit_code i) (task_info_inner i) (heap_bottom i) (program_brk i) (prio i) s (fd_table i).
Definition set_fd_table (l : list (option FileRef)) (i : TaskControlBlockInner) : TaskControlBlockInner :=
  mkInner (trap_cx_ppn i) (base_size i) (task_cx i) (task_status i) (memory_set i) (parent i) (child i)
    (exit_code i) (task_info_inner i) (heap_bottom i) (program_brk i) (prio i) (stride i) l.

(** ** [TaskControlBlockInner] *)

(** The address of the trap context. *)
(* src: src/src/task/task.rs 371-373 TaskControlBlockInner::get_trap_cx *)
Definition get_trap_cx {S} (self : TaskControlBlockInner) : M S Z :=
  PhysPageNum_get_mut (trap_cx_ppn self).

(* src: src/src/task/task.rs 376-378 TaskControlBlockInner::get_user_token *)
Definition inner_get_user_token (self : TaskControlBlockInner) : Z := MemorySet_token (memory_set self).

(* src: src/src/task/task.rs 381-383 TaskControlBlockInner::get_status *)
Definition get_status (self : TaskControlBlockInner) : TaskStatus := task_status self.

(* src: src/src/task/task.rs 386-388 TaskControlBlockInner::is_zombie *)
Definition is_zombie (self : TaskControlBlockInner) : bool := bool_decide (get_status self = Zombie).

(** The counters are [u32]. *)
(* src: src/src/task/task.rs 391-393 TaskControlBlockInner::update_syscall_times *)
Definition update_syscall_times {S} (syscall_id : Z) (self : TaskControlBlockInner)
    : M S TaskControlBlockInner :=
  let ti := task_info_inner self in
  match syscall_times ti !! Z.to_nat syscall_id with
  | Some n =>
      mret (set_task_info {| syscall_times := <[Z.to_nat syscall_id := (n + 1) mod 2 ^ 32]> (syscall_times ti);
                             first_run_time := first_run_time ti;
                             first_run_flag := first_run_flag ti |} self)
  | None => panic IndexOutOfBounds
  end.

(* src: src/src/task/task.rs 396-404 TaskControlBlockInner::mapping_address_space *)
Definition mapping_address_space (start_va end_va : VirtAddr) (map_perm : MapPermission)
    (self : TaskControlBlockInner) : M mm TaskControlBlockInner :=
  ms ← MemorySet_insert_framed_area (memory_set self) start_va end_va map_perm;
  mret (set_memory_set ms self).

(* src: src/src/task/task.rs 407-409 TaskControlBlockInner::unmapping_address_space *)
Definition unmapping_address_space (start_va end_va : VirtAddr) (self : TaskControlBlockInner)
    : M mm TaskControlBlockInner :=
  ms ← MemorySet_munmap_area (memory_set self) start_va end_va;
  mret (set_memory_set ms self).

(** The lowest free descriptor, and the table it is in. *)
(* src: src/src/task/task.rs 412-420 TaskControlBlockInner::alloc_fd *)
Definition alloc_fd (self : TaskControlBlockInner) : nat * TaskControlBlockInner :=
  match list_find (λ o : option FileRef, o = None) (fd_table self) with
  | Some (fd, _) => (fd, self)
  | None =>
      let l := vec_push (fd_table self) None in
      ((length l - 1)%nat, set_fd_table l self)
  end.

(** ** [TaskControlBlock] *)

(* src: src/src/task/task.rs 104-107 TaskControlBlock::get_user_token *)
Definition get_user_token (self : nat) : M kernel Z :=
  i ← inner_exclusive_access self; mret (MemorySet_token (memory_set i)).

(* src: src/src/task/task.rs 110-112 TaskControlBlock::get_pid *)
Definition get_pid (self : nat) : M kernel Z := b ← task self; mret (pid b).

(** [memory_set.translate(VirtAddr::from(TRAP_CONTEXT_BASE).into()).unwrap().ppn()]. *)
(* src: src/src/task/task.rs 120-123 TaskControlBlock::new *)
Definition translate_trap_cx (ms : MemorySet) : M mm PhysPageNum :=
  vpn ← VirtPageNum_from_VirtAddr (VirtAddr_from_usize TRAP_CONTEXT_BASE);
  o ← MemorySet_translate ms vpn;
  e ← unwrap o;
  mret (PTE_ppn e).

(** [*trap_cx = ...] and [trap_cx.kernel_sp = ...]. *)
Definition write_cx (p : Z) (cx : TrapContext) : M mm unit := set_phys (λ m, store_cx m p cx).
Definition write_cx_kernel_sp (p v : Z) : M mm unit := set_phys (λ m, store64 m (p + 8 * 35) v).

Section Operations.
Context `{KernelEnv}.

(* src: src/src/task/task.rs 115-174 TaskControlBlock::new *)
Definition TaskControlBlock_new (elf_data : list byte) : M kmem TaskControlBlock :=
  '(ms, user_sp, entry_point) ← with_mm (MemorySet_from_elf ElfFile_new elf_data);
  cx_ppn ← with_mm (translate_trap_cx ms);
  pid_handle ← pid_alloc;
  kstack ← KernelStack_new pid_handle;
  let kernel_stack_top := KernelStack_get_top kstack in
  let tcb := {| pid := pid_handle; kernel_stack := kstack;
    inner := {|
      trap_cx_ppn := cx_ppn;
      base_size := user_sp;
      task_cx := TaskContext_goto_trap_return trap_return_addr kernel_stack_top;
      task_status := Ready;
      memory_set := ms;
      parent := None;
      child := [];
      exit_code := 0;
      task_info_inner := TaskInfoInner_zero_init;
      heap_bottom := user_sp;
      program_brk := user_sp;
      stride := 0;
      prio := 16;
      fd_table := [Some Stdin; Some Stdout; Some Stdout] |} |} in
  trap_cx ← get_trap_cx (inner tcb);
  kernel_satp ← gets (λ k, MemorySet_token (KERNEL_SPACE k));
  with_mm (write_cx trap_cx (TrapContext_app_init_context sstatus_read entry_point user_sp
    kernel_satp kernel_stack_top trap_handler_addr));;
  mret tcb.

(** The assignment to [memory_set] drops the old address space. *)
(* src: src/src/task/task.rs 177-202 TaskControlBlock::exec *)
Definition TaskControlBlock_exec (self : nat) (elf_data : list byte) : M kernel unit :=
  '(ms, user_sp, entry_point) ← with_frames (MemorySet_from_elf ElfFile_new elf_data);
  cx_ppn ← with_frames (translate_trap_cx ms);
  b ← task self;
  with_frames (MemorySet_drop (memory_set (inner b)));;
  update_inner self (λ i, set_trap_cx_ppn cx_ppn (set_memory_set ms i));;
  i ← inner_exclusive_access self;
  trap_cx ← get_trap_cx i;
  kernel_satp ← gets (λ k, MemorySet_token (KERNEL_SPACE (k_mem k)));
  with_frames (write_cx trap_cx (TrapContext_app_init_context sstatus_read entry_point user_sp
    kernel_satp (KernelStack_get_top (kernel_stack b)) trap_handler_addr)).

(** Copying the table clones every [Arc]. *)
(* src: src/src/task/task.rs 222-229 TaskControlBlock::fork *)
Definition clone_fd_table (l : list (option FileRef)) : list (option FileRef) :=
  (λ fd, match fd with Some file => Some file | None => None end) <$> l.

(* src: src/src/task/task.rs 205-267 TaskControlBlock::fork *)
Definition TaskControlBlock_fork (self : nat) : M kernel nat :=
  parent_inner ← inner_exclusive_access self;
  ms ← with_frames (MemorySet_from_existed_user (memory_set parent_inner));
  cx_ppn ← with_frames (translate_trap_cx ms);
  pid_handle ← with_kmem pid_alloc;
  kstack ← with_kmem (KernelStack_new pid_handle);
  let kernel_stack_top := KernelStack_get_top kstack in
  let new_fd_table := clone_fd_table (fd_table parent_inner) in
  task_control_block ← Arc_new {| pid := pid_handle; kernel_stack := kstack;
    inner := {|
      trap_cx_ppn := cx_ppn;
      base_size := base_size parent_inner;
      task_cx := TaskContext_goto_trap_return trap_return_addr kernel_stack_top;
      task_status := Ready;
      memory_set := ms;
      parent := Some self;
      child := [];
      exit_code := 0;
      task_info_inner := TaskInfoInner_zero_init;
      heap_bottom := heap_bottom parent_inner;
      program_brk := program_brk parent_inner;
      stride := 0;
      prio := prio parent_inner;
      fd_table := new_fd_table |} |};
  update_inner self (λ i, set_child (vec_push (child i) task_control_block) i);;
  i ← inner_exclusive_access task_control_block;
  trap_cx ← get_trap_cx i;
  with_frames (write_cx_kernel_sp trap_cx kernel_stack_top);;
  mret task_control_block.

(* src: src/src/task/task.rs 314-366 TaskControlBlock::spwan *)
Definition TaskControlBlock_spwan (self : nat) (elf_data : list byte) : M kernel nat :=
  parent_inner ← inner_exclusive_access self;
  '(ms, user_sp, entry_point) ← with_frames (MemorySet_from_elf ElfFile_new elf_data);
  cx_ppn ← with_frames (translate_trap_cx ms);
  pid_handle ← with_kmem pid_alloc;
  kstack ← with_kmem (KernelStack_new pid_handle);
  let kernel_stack_top := KernelStack_get_top kstack in
  let new_fd_table := clone_fd_table (fd_table parent_inner) in
  task_control_block ← Arc_new {| pid := pid_handle; kernel_stack := kstack;
    inner := {|
      task_status := Ready;
      trap_cx_ppn := cx_ppn;
      base_size := user_sp;
      task_cx := TaskContext_goto_trap_return trap_return_addr kernel_stack_top;
      task_info_inner := TaskInfoInner_zero_init;
      memory_set := ms;
      parent := Some self;
      child := [];
      exit_code := 0;
      heap_bottom := user_sp;
      program_brk := user_sp;
      fd_table := new_fd_table;
      stride := 0;
      prio := 16 |} |};
  i ← inner_exclusive_access task_control_block;
  trap_cx ← get_trap_cx i;
  kernel_satp ← gets (λ k, MemorySet_token (KERNEL_SPACE (k_mem k)));
  with_frames (write_cx trap_cx (TrapContext_app_init_context sstatus_read entry_point user_sp
    kernel_satp kernel_stack_top trap_handler_addr));;
  update_inner self (λ i, set_child (vec_push (child i) task_control_block) i);;
  mret task_control_block.

End Operations.

(* src: src/src/task/task.rs 270-272 TaskControlBlock::get_task_info_inner *)
Definition get_task_info_inner (self : nat) : M kernel TaskInfoInner :=
  i ← inner_exclusive_access self; mret (task_info_inner i).

(** [size] is an [i32]. *)
(* src: src/src/task/task.rs 275-304 TaskControlBlock::change_program_brk *)
Definition change_program_brk (self : nat) (size : Z) : M kernel (option Z) :=
  i ← inner_exclusive_access self;
  let heap_bottom_ := heap_bottom i in
  let old_break := program_brk i in
  let new_brk := as_isize (program_brk i) +i size in
  if new_brk <? as_isize heap_bottom_ then mret None
  else
    '(result, ms) ←
      if size <? 0
      then with_frames (MemorySet_shrink_to (memory_set i) heap_bottom_ (as_usize new_brk))
      else with_frames (MemorySet_append_to (memory_set i) heap_bottom_ (as_usize new_brk));
    update_inner self (set_memory_set ms);;
    if (result : bool) then
      update_inner self (set_program_brk (as_usize new_brk));;
      mret (Some old_break)
    else mret None.

(* src: src/src/task/scheduler.rs 1-2 BIG_STRIDE *)
Definition BIG_STRIDE : Z := 250.

(* src: src/src/task/task.rs 307-311 TaskControlBlock::update_stride *)
Definition update_stride (self : nat) : M kernel unit :=
  i ← inner_exclusive_access self;
  if prio i =? 0 then panic DivisionByZero
  else
    let pass := BIG_STRIDE / prio i in
    update_inner self (λ i, set_stride (stride i +u pass) i).
