(* ===== verification/Scheduler.v ===== *)
(** * Scheduling ([src/task/manager.rs], [src/task/processor.rs], [src/task/mod.rs])

    The ready queue, stride scheduling, and the transitions of a process between
    running, ready and zombie.  [__switch] passes control between the idle loop and
    a process; what a routine does after it has switched away is a separate
    transition of the kernel, so [schedule] itself leaves the modelled state alone,
    and [run_tasks] is modelled by one iteration of its loop. *)
From S2P Require Import Prelude Config Machine Address FrameAllocator Ownership.
From S2P Require Import PageTable PageTableSpec MemorySet MapAreaSpec MemorySetSpec.
From S2P Require Import AddressSpace Pid Context Task.

(* src: src/src/task/manager.rs 22-24 TaskManager::add *)
Definition TaskManager_add (t : nat) : M kernel unit :=
  modify (λ k, set_ready_queue (vec_push (ready_queue k) t) k).

(** The loop over [ready_queue.iter().enumerate()], carrying [min_stride] and
    [min_stride_idx]. *)
(* src: src/src/task/manager.rs 30-36 TaskManager::fetch *)
Fixpoint fetch_loop (cur_idx : Z) (l : list nat) (min_stride min_stride_idx : Z) : M kernel (Z * Z) :=
  match l with
  | [] => mret (min_stride, min_stride_idx)
  | res :: l =>
      i ← inner_exclusive_access res;
      let current_stride := stride i in
      if current_stride <? min_stride
      then fetch_loop (cur_idx + 1) l current_stride cur_idx
      else fetch_loop (cur_idx + 1) l min_stride min_stride_idx
  end.

(* src: src/src/task/manager.rs 26-44 TaskManager::fetch *)
Definition TaskManager_fetch : M kernel (option nat) :=
  q ← gets ready_queue;
  '(_, min_stride_idx) ← fetch_loop 0 q usize_MAX usize_MAX;
  if min_stride_idx =? usize_MAX then mret None
  else
    match q !! Z.to_nat min_stride_idx with
    | None => panic IndexOutOfBounds
    | Some t =>
        update_stride t;;
        modify (set_ready_queue (vec_remove q (Z.to_nat min_stride_idx)));;
        mret (Some t)
    end.

(* src: src/src/task/manager.rs 53-55 add_task *)
Definition add_task (t : nat) : M kernel unit := TaskManager_add t.

(* src: src/src/task/manager.rs 58-60 fetch_task *)
Definition fetch_task : M kernel (option nat) := TaskManager_fetch.

(* src: src/src/task/processor.rs 35-37 Processor::take_current *)
Definition Processor_take_current : M kernel (option nat) :=
  o ← gets (λ k, current (PROCESSOR k));
  modify (set_current None);;
  mret o.

(* src: src/src/task/processor.rs 40-44 Processor::current *)
Definition Processor_current : M kernel (option nat) := gets (λ k, current (PROCESSOR k)).

(* src: src/src/task/processor.rs 48-50 take_current_task *)
Definition take_current_task : M kernel (option nat) := Processor_take_current.

(* src: src/src/task/processor.rs 53-55 current_task *)
Definition current_task : M kernel (option nat) := Processor_current.

(* src: src/src/task/processor.rs 58-62 current_user_token *)
Definition current_user_token : M kernel Z :=
  o ← current_task; t ← unwrap o;
  i ← inner_exclusive_access t;
  mret (inner_get_user_token i).

(* src: src/src/task/processor.rs 65-70 current_trap_cx *)
Definition current_trap_cx : M kernel Z :=
  o ← current_task; t ← unwrap o;
  i ← inner_exclusive_access t;
  get_trap_cx i.

(* src: src/src/task/processor.rs 73-75 current_task_info_inner *)
Definition current_task_info_inner : M kernel TaskInfoInner :=
  o ← current_task; t ← unwrap o;
  get_task_info_inner t.

(** One iteration of the loop; the task returned is the one switched to. *)
(* src: src/src/task/processor.rs 78-106 run_tasks *)
Definition run_tasks_iter : M kernel (option nat) :=
  o ← fetch_task;
  match o with
  | Some t =>
      update_inner t (set_task_status Running);;
      modify (set_current (Some t));;
      mret (Some t)
  | None => mret None
  end.

(* src: src/src/task/processor.rs 128-134 update_current_task_syscall_times *)
Definition update_current_task_syscall_times (syscall_id : Z) : M kernel unit :=
  o ← current_task; t ← unwrap o;
  i ← inner_exclusive_access t;
  i' ← update_syscall_times syscall_id i;
  update_inner t (λ _, i').

(* src: src/src/task/processor.rs 137-145 mapping_address_space_for_current_task *)
Definition mapping_address_space_for_current_task (start_va end_va : VirtAddr)
    (map_perm : MapPermission) : M kernel unit :=
  o ← current_task; t ← unwrap o;
  i ← inner_exclusive_access t;
  i' ← with_frames (mapping_address_space start_va end_va map_perm i);
  update_inner t (λ _, i').

(* src: src/src/task/processor.rs 148-152 unmapping_address_space_for_current_task *)
Definition unmapping_address_space_for_current_task (start_va end_va : VirtAddr) : M kernel unit :=
  o ← current_task; t ← unwrap o;
  i ← inner_exclusive_access t;
  i' ← with_frames (unmapping_address_space start_va end_va i);
  update_inner t (λ _, i').

(* src: src/src/task/mod.rs 37-54 suspend_current_and_run_next *)
Definition suspend_current_and_run_next : M kernel unit :=
  o ← take_current_task; t ← unwrap o;
  update_inner t (set_task_status Ready);;
  add_task t.

(* src: src/src/task/mod.rs 57-59 add_initproc *)
Definition add_initproc : M kernel unit := t ← gets INITPROC; add_task t.

(** The children are handed to [INITPROC].  The inner cells of the exiting task and
    of [INITPROC] are borrowed during the loop, so borrowing either again panics. *)
(* src: src/src/task/task.rs 435-443 exit_current_and_run_next *)
Fixpoint adopt_children (t init : nat) (l : list nat) : M kernel unit :=
  match l with
  | [] => mret tt
  | c :: l =>
      (if bool_decide (c = t ∨ c = init) then panic AlreadyBorrowed else mret tt);;
      update_inner c (set_parent (Some init));;
      update_inner init (λ i, set_child (vec_push (child i) c) i);;
      adopt_children t init l
  end.

(* src: src/src/task/task.rs 424-456 exit_current_and_run_next *)
Definition exit_current_and_run_next (code : Z) : M kernel unit :=
  o ← take_current_task; t ← unwrap o;
  update_inner t (λ i, set_exit_code code (set_task_status Zombie i));;
  init ← gets INITPROC;
  (if bool_decide (init = t) then panic AlreadyBorrowed else mret tt);;
  i ← inner_exclusive_access t;
  adopt_children t init (child i);;
  update_inner t (set_child []);;
  i ← inner_exclusive_access t;
  ms ← with_frames (MemorySet_recycle_data_pages (memory_set i));
  update_inner t (set_memory_set ms).

(** ** What [fetch] chooses *)

(** The stride of a queued task. *)
Definition task_stride (k : kernel) (t : nat) : Z :=
  match TASKS k !! t with Some b => stride (inner b) | None => 0 end.

(** [i] is the index of the first task of the queue with the least stride, and
    that stride is below the [usize::MAX] the search starts with. *)
Record first_min (k : kernel) (q : list nat) (i : nat) (t : nat) : Prop := {
  fm_lookup : q !! i = Some t;
  fm_least u : u ∈ q → task_stride k t ≤ task_stride k u;
  fm_first j u : (j < i)%nat → q !! j = Some u → task_stride k t < task_stride k u;
  fm_below : task_stride k t < usize_MAX;
}.

Definition tasks_exist (k : kernel) (q : list nat) : Prop := ∀ t, t ∈ q → is_Some (TASKS k !! t).

Lemma wp_inner k t b (Q : TaskControlBlockInner → kernel → Prop) E :
  TASKS k !! t = Some b → Q (inner b) k → wp (inner_exclusive_access t) Q E k.
Proof. intros Hb HQ. unfold inner_exclusive_access, task. do 3 wp_step. rewrite Hb. by do 2 wp_step. Qed.

Lemma wp_update_inner k t b f (Q : unit → kernel → Prop) E :
  TASKS k !! t = Some b →
  Q tt (set_TASKS (<[t := {| pid := pid b; kernel_stack := kernel_stack b; inner := f (inner b) |}]>
                     (TASKS k)) k) →
  wp (update_inner t f) Q E k.
Proof.
  intros Hb HQ. unfold update_inner, task, set_task. do 3 wp_step. rewrite Hb. by do 2 wp_step.
Qed.

(** The state of the search after the first [n] tasks. *)
Definition search_inv (k : kernel) (pre : list nat) (ms mi : Z) : Prop :=
  (ms = usize_MAX ∧ mi = usize_MAX ∧ ∀ u, u ∈ pre → usize_MAX ≤ task_stride k u) ∨
  (∃ i t, mi = Z.of_nat i ∧ ms = task_stride k t ∧ first_min k pre i t).

Lemma first_min_snoc_keep k pre i t u :
  first_min k pre i t → task_stride k t ≤ task_stride k u → first_min k (pre ++ [u]) i t.
Proof.
  intros [Hl Hle Hf Hb] Hu. pose proof (lookup_lt_Some _ _ _ Hl) as Hi. split.
  - by apply lookup_app_l_Some.
  - intros v [?|Hv]%elem_of_app; [auto|]. by apply list_elem_of_singleton in Hv as ->.
  - intros j v Hj Hv. rewrite lookup_app_l in Hv by lia. eauto.
  - done.
Qed.

Lemma first_min_snoc_new k pre u :
  task_stride k u < usize_MAX → (∀ v, v ∈ pre → task_stride k u < task_stride k v) →
  first_min k (pre ++ [u]) (length pre) u.
Proof.
  intros Hb Hlt. split.
  - by rewrite lookup_app_r, Nat.sub_diag by lia.
  - intros v [Hv|Hv]%elem_of_app; [by apply Z.lt_le_incl, Hlt|]. by apply list_elem_of_singleton in Hv as ->.
  - intros j v Hj Hv. rewrite lookup_app_l in Hv by lia. apply Hlt. by eapply list_elem_of_lookup_2.
  - done.
Qed.

Lemma fetch_loop_spec k pre l ms mi :
  tasks_exist k (pre ++ l) → search_inv k pre ms mi →
  wp (fetch_loop (Z.of_nat (length pre)) l ms mi) (λ r k', k' = k ∧
      search_inv k (pre ++ l) r.1 r.2) no_panic k.
Proof.
  revert pre ms mi. induction l as [|u l IH]; intros pre ms mi Hex Hinv; cbn [fetch_loop].
  { wp_step. by rewrite app_nil_r. }
  destruct (Hex u) as [b Hb]; [apply elem_of_app; right; by left|].
  assert (Hs : stride (inner b) = task_stride k u) by (unfold task_stride; by rewrite Hb).
  wp_step. eapply wp_inner; [done|]. rewrite Hs.
  replace (Z.of_nat (length pre) + 1) with (Z.of_nat (length (pre ++ [u])))
    by (rewrite length_app; simpl; lia).
  replace (pre ++ u :: l) with ((pre ++ [u]) ++ l) in * by (by rewrite <-app_assoc).
  destruct (Z.ltb_spec (task_stride k u) ms) as [Hlt|Hge]; apply IH; try done.
  - right. exists (length pre), u. split_and!; [done..|].
    destruct Hinv as [(-> & _ & Hall)|(i & t & _ & -> & [_ Hle _ Hbel])]; apply first_min_snoc_new; try lia.
    + intros v Hv. specialize (Hall v Hv). lia.
    + intros v Hv. specialize (Hle v Hv). lia.
  - destruct Hinv as [(-> & -> & Hall)|(i & t & -> & -> & Hfm)]; [left|right].
    + split_and!; [done..|]. intros v [?|Hv]%elem_of_app; [auto|].
      by apply list_elem_of_singleton in Hv as ->.
    + exists i, t. split_and!; [done..|]. by apply first_min_snoc_keep.
Qed.

(** The state after [fetch] has taken the task at index [i]. *)
Definition fetched (k : kernel) (i : nat) (t : nat) (b : TaskControlBlock) : kernel :=
  set_ready_queue (vec_remove (ready_queue k) i)
    (set_TASKS (<[t := {| pid := pid b; kernel_stack := kernel_stack b;
       inner := set_stride (stride (inner b) +u BIG_STRIDE / prio (inner b)) (inner b) |}]> (TASKS k)) k).

Lemma fetch_spec k :
  tasks_exist k (ready_queue k) → Z.of_nat (length (ready_queue k)) < usize_MAX →
  (∀ t b, t ∈ ready_queue k → TASKS k !! t = Some b → prio (inner b) ≠ 0) →
  wp TaskManager_fetch (λ o k',
      match o with
      | None => k' = k ∧ ∀ u, u ∈ ready_queue k → usize_MAX ≤ task_stride k u
      | Some t => ∃ i b, first_min k (ready_queue k) i t ∧ TASKS k !! t = Some b ∧ k' = fetched k i t b
      end) no_panic k.
Proof.
  intros Hex Hlen Hprio. unfold TaskManager_fetch. do 2 wp_step.
  eapply wp_call; [apply (fetch_loop_spec k [] (ready_queue k)); [done|]|done|].
  { left. split_and!; [done..|]. by intros u ?%not_elem_of_nil. }
  intros [ms mi] k' [-> Hinv]. simpl in Hinv.
  destruct Hinv as [(-> & -> & Hall)|(i & t & -> & -> & Hfm)].
  - rewrite Z.eqb_refl. by wp_step.
  - pose proof Hfm as [Hl _ _ _]. pose proof (lookup_lt_Some _ _ _ Hl) as Hi.
    assert (Hin : t ∈ ready_queue k) by (by eapply list_elem_of_lookup_2).
    destruct (Hex t Hin) as [b Hb].
    rewrite (proj2 (Z.eqb_neq _ _)) by lia. rewrite Nat2Z.id, Hl.
    unfold update_stride. wp_step. wp_step. eapply wp_inner; [done|].
    rewrite (proj2 (Z.eqb_neq _ _)) by (by eapply Hprio).
    eapply wp_update_inner; [done|]. do 3 wp_step. exists i, b. by split_and!.
Qed.

(** ** Rounds

    A round takes the chosen process to the processor and, when its time slice is
    over, suspends it again: what timer interrupts make of processes that only
    compute. *)
Definition round : M kernel (option nat) :=
  o ← run_tasks_iter;
  match o with
  | Some t => suspend_current_and_run_next;; mret (Some t)
  | None => mret None
  end.

(** [n] rounds and the processes they ran. *)
Fixpoint rounds (n : nat) : M kernel (list (option nat)) :=
  match n with
  | O => mret []
  | S n => o ← round; l ← rounds n; mret (o :: l)
  end.

Definition task_prio (k : kernel) (t : nat) : Z :=
  match TASKS k !! t with Some b => prio (inner b) | None => 1 end.
Definition pass (k : kernel) (t : nat) : Z := BIG_STRIDE / task_prio k t.

(** A ready queue that can be scheduled for [n] more rounds: priorities as
    [sys_set_prio] allows them, and strides that do not overflow meanwhile. *)
Record sched_ok (k : kernel) (n : nat) : Prop := {
  so_nodup : NoDup (ready_queue k);
  so_exist : tasks_exist k (ready_queue k);
  so_length : Z.of_nat (length (ready_queue k)) < usize_MAX;
  so_prio t : t ∈ ready_queue k → 2 ≤ task_prio k t;
  so_stride t : t ∈ ready_queue k → 0 ≤ task_stride k t < usize_MAX - 125 * Z.of_nat n;
}.

Lemma pass_bounds p : 2 ≤ p → 0 ≤ BIG_STRIDE / p ≤ 125 ∧ (p ≤ 250 → 1 ≤ BIG_STRIDE / p).
Proof.
  intros Hp. unfold BIG_STRIDE. split.
  - split; [apply Z.div_pos; lia|]. apply Z.div_le_upper_bound; lia.
  - intros. apply Z.div_le_lower_bound; lia.
Qed.

(** What a round that runs [t] does. *)
Record ran (k : kernel) (t : nat) (k' : kernel) : Prop := {
  ran_min : ∃ i, first_min k (ready_queue k) i t ∧ ready_queue k' = vec_remove (ready_queue k) i ++ [t];
  ran_stride u : task_stride k' u =
    if decide (u = t) then task_stride k u + pass k t else task_stride k u;
  ran_prio u : task_prio k' u = task_prio k u;
  ran_exist u : is_Some (TASKS k' !! u) ↔ is_Some (TASKS k !! u);
}.

Lemma round_spec k n :
  sched_ok k (S n) → ready_queue k ≠ [] →
  wp round (λ o k', ∃ t, o = Some t ∧ ran k t k') no_panic k.
Proof.
  intros [Hnd Hex Hlen Hprio Hstr] Hne. unfold round, run_tasks_iter. do 2 wp_step.
  eapply wp_mono; [apply fetch_spec; [done..|]| |done].
  { intros t b Ht Hb. specialize (Hprio t Ht). unfold task_prio in Hprio. rewrite Hb in Hprio. lia. }
  intros [t|] k' H.
  2: { exfalso. destruct H as [_ Hall]. destruct (ready_queue k) as [|u q]; [done|].
       pose proof (Hall u (list_elem_of_here _ _)). pose proof (Hstr u (list_elem_of_here _ _)). lia. }
  destruct H as (i & b & Hfm & Hb & ->). set (k1 := fetched k i t b).
  set (b1 := {| pid := pid b; kernel_stack := kernel_stack b;
    inner := set_stride (stride (inner b) +u BIG_STRIDE / prio (inner b)) (inner b) |}).
  assert (Hb1 : TASKS k1 !! t = Some b1) by (simpl; apply lookup_insert_eq).
  assert (Hin : t ∈ ready_queue k) by (eapply list_elem_of_lookup_2, fm_lookup, Hfm).
  wp_step. eapply wp_update_inner; [exact Hb1|]. wp_step. wp_step. wp_step.
  unfold suspend_current_and_run_next, take_current_task, Processor_take_current. do 2 wp_step.
  do 2 wp_step. wp_step. do 2 wp_step. cbn [current PROCESSOR set_current]. do 2 wp_step.
  wp_step. eapply wp_update_inner; [simpl; apply lookup_insert_eq|].
  unfold add_task, TaskManager_add. do 2 wp_step. exists t. split; [done|].
  assert (Hp2 : 2 ≤ task_prio k t) by auto. assert (Hs2 := Hstr t Hin).
  pose proof (pass_bounds _ Hp2) as [Hpass _].
  assert (Hps : task_prio k t = prio (inner b) ∧ task_stride k t = stride (inner b))
    by (unfold task_prio, task_stride; by rewrite Hb).
  split; simpl.
  - exists i. split; [done|]. done.
  - intros u. unfold task_stride at 1. simpl. rewrite !insert_insert_eq.
    destruct (decide (u = t)) as [->|Hu].
    + rewrite lookup_insert_eq. simpl. unfold pass. destruct Hps as [Hp' Hs'].
      rewrite Hp' in *. rewrite Hs' in *. apply usize_add_small; unfold usize_MAX in *; lia.
    + by rewrite lookup_insert_ne.
  - intros u. unfold task_prio. simpl. rewrite !insert_insert_eq.
    destruct (decide (u = t)) as [->|Hu]; [by rewrite lookup_insert_eq, Hb|by rewrite lookup_insert_ne].
  - intros u. rewrite !insert_insert_eq. destruct (decide (u = t)) as [->|Hu].
    + rewrite lookup_insert_eq, Hb. split; eauto.
    + by rewrite lookup_insert_ne.
Qed.

Lemma ran_queue k t k' : ran k t k' → ready_queue k' ≡ₚ ready_queue k.
Proof.
  intros [(i & Hfm & ->) _ _ _]. rewrite <-Permutation_cons_append. symmetry.
  apply vec_remove_perm, Hfm.
Qed.

Lemma ran_in k t k' : ran k t k' → t ∈ ready_queue k.
Proof. intros [(i & Hfm & _) _ _ _]. eapply list_elem_of_lookup_2, fm_lookup, Hfm. Qed.

Lemma ran_sched_ok k n t k' : sched_ok k (S n) → ran k t k' → sched_ok k' n.
Proof.
  intros [Hnd Hex Hlen Hprio Hstr] Hran. pose proof (ran_queue _ _ _ Hran) as Hq.
  pose proof (pass_bounds _ (Hprio t (ran_in _ _ _ Hran))) as [Hpass _].
  split.
  - by rewrite Hq.
  - intros u. rewrite Hq. intros Hu. apply (ran_exist _ _ _ Hran). auto.
  - by rewrite Hq.
  - intros u. rewrite Hq, (ran_prio _ _ _ Hran). auto.
  - intros u. rewrite Hq, (ran_stride _ _ _ Hran). intros Hu. specialize (Hstr u Hu).
    fold (pass k t) in Hpass. case_decide; lia.
Qed.

Lemma ran_nonempty k t k' : ran k t k' → ready_queue k' ≠ [].
Proof. intros [(i & _ & ->) _ _ _] H. by apply app_nil in H as [_ ?]. Qed.

(** No two strides are further apart than the longest pass. *)
Definition spread (k : kernel) : Prop :=
  ∀ t u, t ∈ ready_queue k → u ∈ ready_queue k → task_stride k t ≤ task_stride k u + 125.

Lemma ran_spread k n t k' : sched_ok k (S n) → ran k t k' → spread k → spread k'.
Proof.
  intros [_ _ _ Hprio _] Hran Hsp v w Hv Hw. rewrite (ran_queue _ _ _ Hran) in Hv, Hw.
  pose proof (ran_in _ _ _ Hran) as Ht.
  pose proof (pass_bounds _ (Hprio t Ht)) as [Hpass _]. fold (pass k t) in Hpass.
  destruct (ran_min _ _ _ Hran) as (i & Hfm & _). pose proof (fm_least _ _ _ _ Hfm) as Hle.
  rewrite !(ran_stride _ _ _ Hran).
  pose proof (Hsp v w Hv Hw). pose proof (Hle w Hw). pose proof (Hle v Hv).
  repeat case_decide; subst; lia.
Qed.

Lemma rounds_spec k n :
  sched_ok k n → ready_queue k ≠ [] → spread k →
  wp (rounds n) (λ _ k', ready_queue k' ≡ₚ ready_queue k ∧ spread k') no_panic k.
Proof.
  revert k. induction n as [|n IH]; intros k Hso Hne Hsp; cbn [rounds]; [by wp_step|].
  eapply wp_call; [by apply (round_spec k n)|done|]. intros o k1 (t & -> & Hran). wp_step.
  eapply wp_mono; [apply IH; [by eapply ran_sched_ok|by eapply ran_nonempty|by eapply ran_spread]| |done].
  intros l k' [Hq Hsp']. wp_step. split; [|done]. by rewrite Hq, (ran_queue _ _ _ Hran).
Qed.

(** ** Waiting times *)

(** How many rounds can run other processes before [u] must run. *)
Definition wait (k : kernel) (u : nat) : nat :=
  sum_list_with (λ t, Z.to_nat (task_stride k u - task_stride k t + 1)) (ready_queue k).

Lemma sum_list_with_ext_in {A} (f g : A → nat) l :
  (∀ x, x ∈ l → f x = g x) → sum_list_with f l = sum_list_with g l.
Proof.
  induction l as [|x l IH]; intros Hfg; [done|]. simpl.
  rewrite Hfg by (by left). f_equal. apply IH. intros y Hy. apply Hfg. by right.
Qed.

Lemma wait_decreases k n t k' u :
  sched_ok k (S n) → ran k t k' → t ≠ u → u ∈ ready_queue k → task_prio k t ≤ 250 →
  (wait k' u < wait k u)%nat.
Proof.
  intros [Hnd _ _ Hprio _] Hran Hne Hu Hp250.
  pose proof (pass_bounds _ (Hprio t (ran_in _ _ _ Hran))) as [_ Hpass].
  fold (pass k t) in Hpass. specialize (Hpass Hp250).
  destruct (ran_min _ _ _ Hran) as (i & Hfm & Hq). pose proof (fm_least _ _ _ _ Hfm u Hu) as Hle.
  pose proof (vec_remove_perm _ _ _ (fm_lookup _ _ _ _ Hfm)) as Hperm.
  unfold wait. rewrite (ran_queue _ _ _ Hran), Hperm. simpl.
  rewrite !(ran_stride _ _ _ Hran). rewrite (decide_False (P := u = t)), (decide_True (P := t = t)) by congruence.
  rewrite (sum_list_with_ext_in _ (λ v, Z.to_nat (task_stride k u - task_stride k v + 1))
             (vec_remove (ready_queue k) i)).
  - lia.
  - intros v Hv. assert (Hvt : v ≠ t).
    { intros ->. rewrite Hperm in Hnd. by apply NoDup_cons in Hnd as [? _]. }
    by rewrite !(ran_stride _ _ _ Hran), !decide_False by (done || by apply not_eq_sym).
Qed.

Lemma wait_positive k u : u ∈ ready_queue k → (0 < wait k u)%nat.
Proof.
  intros Hu. unfold wait. apply elem_of_Permutation in Hu as [q ->]. simpl. lia.
Qed.

Lemma rounds_run k n u :
  sched_ok k n → spread k → u ∈ ready_queue k →
  (∀ t, t ∈ ready_queue k → task_prio k t ≤ 250) → (wait k u ≤ n)%nat →
  wp (rounds n) (λ l _, Some u ∈ l) no_panic k.
Proof.
  revert k. induction n as [|n IH]; intros k Hso Hsp Hu Hp Hw.
  { pose proof (wait_positive k u Hu). lia. }
  assert (Hne : ready_queue k ≠ []) by (intros Hq; rewrite Hq in Hu; by apply not_elem_of_nil in Hu).
  cbn [rounds]. eapply wp_call; [by apply (round_spec k n)|done|]. intros o k1 (t & -> & Hran). wp_step.
  pose proof (ran_queue _ _ _ Hran) as Hq.
  assert (Hso1 : sched_ok k1 n) by (by eapply ran_sched_ok).
  assert (Hsp1 : spread k1) by (by eapply ran_spread).
  destruct (decide (t = u)) as [->|Htu].
  - eapply wp_mono; [apply rounds_spec; [done|by eapply ran_nonempty|done]| |done].
    intros l k' _. wp_step. by left.
  - eapply wp_mono; [apply (IH k1); [done|done|by rewrite Hq| |]| |done].
    + intros v. rewrite Hq, (ran_prio _ _ _ Hran). auto.
    + pose proof (wait_decreases k n t k1 u Hso Hran Htu Hu (Hp t (ran_in _ _ _ Hran))). lia.
    + intros l k' Hl. wp_step. by right.
Qed.

Lemma wait_bound k u :
  u ∈ ready_queue k → spread k → (wait k u ≤ 126 * length (ready_queue k))%nat.
Proof.
  intros Hu Hsp. unfold wait.
  assert (H : ∀ q, (∀ t, t ∈ q → task_stride k u ≤ task_stride k t + 125) →
    (sum_list_with (λ t, Z.to_nat (task_stride k u - task_stride k t + 1)) q ≤ 126 * length q)%nat).
  { induction q as [|t q IH]; intros Hq; simpl; [lia|].
    pose proof (Hq t (list_elem_of_here _ _)).
    assert (∀ v, v ∈ q → task_stride k u ≤ task_stride k v + 125) as Hq' by (intros v Hv; apply Hq; by right).
    specialize (IH Hq'). lia. }
  apply H. intros t Ht. by apply Hsp.
Qed.

(** ** Exiting *)

Definition map_inner (f : TaskControlBlockInner → TaskControlBlockInner) (b : TaskControlBlock)
    : TaskControlBlock :=
  {| pid := pid b; kernel_stack := kernel_stack b; inner := f (inner b) |}.

Lemma adopt_children_spec k t init l bi :
  TASKS k !! init = Some bi → NoDup l →
  (∀ c, c ∈ l → c ≠ t ∧ c ≠ init ∧ is_Some (TASKS k !! c)) →
  wp (adopt_children t init l) (λ _ k', ∃ T, k' = set_TASKS T k ∧
      T !! init = Some (map_inner (λ i, set_child (child i ++ l) i) bi) ∧
      (∀ v, v ≠ init → T !! v =
        (if decide (v ∈ l) then map_inner (set_parent (Some init)) else id) <$> TASKS k !! v))
    no_panic k.
Proof.
  revert k bi. induction l as [|c l IH]; intros k bi Hi Hnd Hc; cbn [adopt_children].
  { wp_step. exists (TASKS k). split; [by destruct k|]. split.
    - rewrite Hi. unfold map_inner. rewrite app_nil_r. by destruct bi as [? ? []].
    - intros v _. rewrite decide_False by apply not_elem_of_nil. by destruct (TASKS k !! v). }
  destruct (Hc c (list_elem_of_here _ _)) as (Hct & Hci & b & Hb).
  apply NoDup_cons in Hnd as [Hcl Hnd].
  wp_step. rewrite bool_decide_false by (intros [?|?]; done). do 2 wp_step.
  eapply wp_update_inner; [done|]. wp_step.
  eapply wp_update_inner; [simpl; by rewrite lookup_insert_ne by done|].
  set (k1 := set_TASKS _ _).
  eapply wp_mono; [apply (IH k1 (map_inner (λ i, set_child (vec_push (child i) c) i) bi))| |done].
  - apply lookup_insert_eq.
  - done.
  - intros d Hd. destruct (Hc d (list_elem_of_further _ _ _ Hd)) as (? & ? & ?). split_and!; [done..|].
    simpl. rewrite lookup_insert_ne by done. rewrite lookup_insert_ne; [done|]. by intros <-.
  - intros [] k' (T & -> & HTi & HT). exists T. split; [done|]. split.
    + rewrite HTi. unfold map_inner, vec_push. simpl. by rewrite <-app_assoc.
    + intros v Hv. rewrite HT by done. simpl. rewrite lookup_insert_ne by done.
      destruct (decide (v = c)) as [->|Hvc].
      * rewrite lookup_insert_eq, decide_False, decide_True by (done || by left). by rewrite Hb.
      * rewrite lookup_insert_ne by done. f_equal.
        destruct (decide (v ∈ l)) as [Hin|Hin].
        -- by rewrite decide_True by (by right).
        -- rewrite decide_False; [done|]. by intros [?|?]%elem_of_cons.
Qed.

Lemma wp_with_frames {A} (m : M mm A) (Q : A → kernel → Prop) E k :
  wp m (λ a s, Q a (set_k_mem {| km_mm := s; KERNEL_SPACE := KERNEL_SPACE (k_mem k);
      PID_ALLOCATOR := PID_ALLOCATOR (k_mem k) |} k)) E (km_mm (k_mem k)) →
  wp (with_frames m) Q E k.
Proof. intros Hm. unfold with_frames, with_kmem, with_mm. by apply wp_zoom, wp_zoom. Qed.

(** The block of a process after it has exited: a zombie without children whose
    address space has lost its pages. *)
Definition exited (code : Z) (i : TaskControlBlockInner) : TaskControlBlockInner :=
  set_memory_set {| page_table := page_table (memory_set i); areas := [] |}
    (set_child [] (set_exit_code code (set_task_status Zombie i))).

(** The globals that an exit leaves alone. *)
Definition same_globals (k k' : kernel) : Prop :=
  INITPROC k' = INITPROC k ∧ next_task k' = next_task k ∧
  KERNEL_SPACE (k_mem k') = KERNEL_SPACE (k_mem k) ∧
  PID_ALLOCATOR (k_mem k') = PID_ALLOCATOR (k_mem k).

Lemma exit_spec k t b bi code :
  current (PROCESSOR k) = Some t → TASKS k !! t = Some b → TASKS k !! INITPROC k = Some bi →
  t ≠ INITPROC k → NoDup (child (inner b)) →
  (∀ c, c ∈ child (inner b) → c ≠ t ∧ c ≠ INITPROC k ∧ is_Some (TASKS k !! c)) →
  let s := km_mm (k_mem k) in let ms := memory_set (inner b) in
  mm_wf s → owns s (ms_frames ms) →
  wp (exit_current_and_run_next code) (λ _ k',
      current (PROCESSOR k') = None ∧ ready_queue k' = ready_queue k ∧ same_globals k k' ∧
      TASKS k' !! t = Some (map_inner (exited code) b) ∧
      TASKS k' !! INITPROC k = Some (map_inner (λ i, set_child (child i ++ child (inner b)) i) bi) ∧
      (∀ v, v ≠ t → v ≠ INITPROC k → TASKS k' !! v =
        (if decide (v ∈ child (inner b)) then map_inner (set_parent (Some (INITPROC k))) else id)
          <$> TASKS k !! v) ∧
      mm_step s (ms_frames ms) (km_mm (k_mem k')) (frames (page_table ms)) ∧
      phys (km_mm (k_mem k')) = phys s) no_panic k.
Proof.
  intros Hcur Hb Hbi Hti Hnd Hch s ms Hmm Hown.
  unfold exit_current_and_run_next, take_current_task, Processor_take_current. do 2 wp_step. do 2 wp_step. wp_step. wp_step.
  rewrite Hcur. do 2 wp_step. wp_step. eapply wp_update_inner; [exact Hb|]. do 2 wp_step.
  rewrite bool_decide_false by (simpl; congruence). simpl INITPROC. wp_step. wp_step. wp_step.
  eapply wp_inner; [simpl; apply lookup_insert_eq|]. simpl child. wp_step.
  set (k1 := set_TASKS _ _).
  assert (Hk1 : ∀ v, v ≠ t → TASKS k1 !! v = TASKS k !! v)
    by (intros v Hv; simpl; by rewrite lookup_insert_ne).
  eapply wp_mono; [apply (adopt_children_spec k1 t (INITPROC k) (child (inner b)) bi)| |done].
  - by rewrite Hk1.
  - done.
  - intros c Hc. destruct (Hch c Hc) as (? & ? & ?). by rewrite Hk1.
  - intros [] k2 (T & -> & HTi & HT).
    assert (HTt : T !! t = Some (map_inner (λ i, set_exit_code code (set_task_status Zombie i)) b)).
    { rewrite HT by done. rewrite decide_False; [simpl; by rewrite lookup_insert_eq|].
      intros Hc. by destruct (Hch t Hc). }
    wp_step. eapply wp_update_inner; [exact HTt|]. wp_step.
    eapply wp_inner; [simpl; apply lookup_insert_eq|]. simpl memory_set. wp_step.
    apply wp_with_frames. eapply wp_mono; [by apply recycle_spec| |done].
    intros ms' s' (Hpt & Har & Hphys & Hstep).
    eapply wp_update_inner; [simpl; apply lookup_insert_eq|]. simpl.
    split_and!; try done.
    + rewrite insert_insert_eq, lookup_insert_eq. f_equal. unfold map_inner, exited. simpl.
      destruct ms' as [pt al]. simpl in *. by subst.
    + by rewrite !lookup_insert_ne.
    + intros v Hvt Hvi. rewrite !lookup_insert_ne by done. rewrite HT by done. by rewrite Hk1.
Qed.

Lemma exit_initproc k t b code :
  current (PROCESSOR k) = Some t → TASKS k !! t = Some b → INITPROC k = t →
  exit_current_and_run_next code k = Panic AlreadyBorrowed.
Proof.
  intros Hcur Hb Hi.
  assert (H : wp (exit_current_and_run_next code) (λ _ _, False) (λ e, e = AlreadyBorrowed) k).
  { unfold exit_current_and_run_next, take_current_task, Processor_take_current. do 2 wp_step. do 2 wp_step. wp_step. wp_step.
    rewrite Hcur. do 2 wp_step. wp_step. eapply wp_update_inner; [exact Hb|]. do 2 wp_step.
    rewrite bool_decide_true by done. wp_step. by wp_step. }
  by destruct (wp_cases _ _ _ _ H) as [(? & ? & _ & [])|(e & -> & ->)].
Qed.

(** ** Zero passes *)

Lemma starving_rounds k n t :
  sched_ok k n → t ∈ ready_queue k → 250 < task_prio k t →
  (∀ u, u ∈ ready_queue k → u ≠ t → task_stride k t < task_stride k u) →
  wp (rounds n) (λ l _, l = replicate n (Some t)) no_panic k.
Proof.
  revert k. induction n as [|n IH]; intros k Hso Ht Hp Hmin; cbn [rounds]; [by wp_step|].
  assert (Hne : ready_queue k ≠ []) by (intros Hq; rewrite Hq in Ht; by apply not_elem_of_nil in Ht).
  eapply wp_call; [by apply (round_spec k n)|done|]. intros o k1 (t' & -> & Hran).
  destruct (ran_min _ _ _ Hran) as (i & Hfm & _).
  assert (t' = t) as ->.
  { destruct (decide (t' = t)) as [|Hne']; [done|exfalso].
    pose proof (Hmin t' (ran_in _ _ _ Hran) Hne'). pose proof (fm_least _ _ _ _ Hfm t Ht). lia. }
  assert (Hpass : pass k t = 0) by (unfold pass, BIG_STRIDE; apply Z.div_small; lia).
  assert (Hsame : ∀ u, task_stride k1 u = task_stride k u).
  { intros u. rewrite (ran_stride _ _ _ Hran), Hpass. case_decide; lia. }
  wp_step. eapply wp_mono; [apply (IH k1)| |done].
  - by eapply ran_sched_ok.
  - by rewrite (ran_queue _ _ _ Hran).
  - by rewrite (ran_prio _ _ _ Hran).
  - intros u. rewrite (ran_queue _ _ _ Hran), !Hsame. auto.
  - intros l k' ->. by wp_step.
Qed.

(** A kernel with an init process 0 and two ready processes 1 and 2. *)
Definition demo_task (p st : Z) (ch : list nat) : TaskControlBlock :=
  {| pid := 0; kernel_stack := mkKernelStack 0;
     inner := {| trap_cx_ppn := 1; base_size := 0; task_cx := TaskContext_zero_init;
       task_status := Ready; memory_set := demo_ms; parent := None; child := ch; exit_code := 0;
       task_info_inner := {| syscall_times := []; first_run_time := 0; first_run_flag := true |};
       heap_bottom := 0; program_brk := 0; prio := p; stride := st; fd_table := [] |} |}.
Definition demo_kernel (p1 st1 p2 st2 : Z) : kernel :=
  {| k_mem := demo_kmem;
     TASKS := {[ 0%nat := demo_task 16 0 []; 1%nat := demo_task p1 st1 [2%nat];
                 2%nat := demo_task p2 st2 [] ]};
     next_task := 3; ready_queue := [1; 2]%nat;
     PROCESSOR := {| current := Some 1%nat; idle_task_cx := TaskContext_zero_init |};
     INITPROC := 0 |}.

Lemma demo_sched_ok p1 st1 p2 st2 n :
  2 ≤ p1 → 2 ≤ p2 → 0 ≤ st1 < usize_MAX - 125 * Z.of_nat n → 0 ≤ st2 < usize_MAX - 125 * Z.of_nat n →
  sched_ok (demo_kernel p1 st1 p2 st2) n.
Proof.
  intros. assert (Hcase : ∀ t, t ∈ ready_queue (demo_kernel p1 st1 p2 st2) → t = 1%nat ∨ t = 2%nat).
  { simpl. intros t [->|Ht]%elem_of_cons; [by left|]. right. by apply list_elem_of_singleton. }
  split.
  - simpl. repeat constructor; set_solver.
  - intros t [->| ->]%Hcase; by eexists.
  - done.
  - by intros t [->| ->]%Hcase.
  - by intros t [->| ->]%Hcase.
Qed.

Lemma demo_queue_cases p1 st1 p2 st2 t :
  t ∈ ready_queue (demo_kernel p1 st1 p2 st2) → t = 1%nat ∨ t = 2%nat.
Proof. simpl. intros [->|Ht]%elem_of_cons; [by left|]. right. by apply list_elem_of_singleton. Qed.

(** ** Properties *)

(** [fetch] takes the first task of least stride.  It never panics; the task
    it returns has the least stride of the queue, every task before it in the
    queue a larger one; it is removed, the others keep their order, its stride
    grows by [BIG_STRIDE / prio] and nothing else changes.  It returns [None] only
    when no queued task has a stride below [usize::MAX]. *)
Theorem fetch_takes_least_stride k :
  tasks_exist k (ready_queue k) → Z.of_nat (length (ready_queue k)) < usize_MAX →
  (∀ t b, t ∈ ready_queue k → TASKS k !! t = Some b → prio (inner b) ≠ 0) →
  wp TaskManager_fetch (λ o k',
      match o with
      | None => k' = k ∧ ∀ u, u ∈ ready_queue k → usize_MAX ≤ task_stride k u
      | Some t => ∃ i b, first_min k (ready_queue k) i t ∧ TASKS k !! t = Some b ∧ k' = fetched k i t b
      end) no_panic k.
Proof. apply fetch_spec. Qed.

Lemma fetch_takes_least_stride_witness :
  ∃ k', TaskManager_fetch (demo_kernel 16 7 5 3) = Done (Some 2%nat) k' ∧ ready_queue k' = [1%nat] ∧
    task_stride k' 2 = 53.
Proof.
  destruct (wp_cases _ _ _ _ (fetch_takes_least_stride (demo_kernel 16 7 5 3)
    (so_exist _ _ (demo_sched_ok 16 7 5 3 1 ltac:(lia) ltac:(lia) ltac:(done) ltac:(done)))
    ltac:(reflexivity)
    ltac:(intros t b [->| ->]%demo_queue_cases; intros [= <-]; discriminate)))
    as [([t|] & k' & Hrun & H)|(e & _ & [])].
  - destruct H as (i & b & Hfm & Hb & ->).
    assert (i = 1%nat ∧ t = 2%nat) as [-> ->].
    { pose proof (fm_lookup _ _ _ _ Hfm) as Hl. destruct i as [|[|i]]; [|by injection Hl as <-|done].
      injection Hl as <-. pose proof (fm_least _ _ _ _ Hfm 2%nat ltac:(right; left)) as Hle.
      exfalso. vm_compute in Hle. by apply Hle. }
    injection Hb as <-. eexists. split; [exact Hrun|]. split; reflexivity.
  - exfalso. destruct H as [_ Hall]. specialize (Hall 1%nat ltac:(left)). vm_compute in Hall. by apply Hall.
Defined.

(** C26: stride scheduling does not starve.  With priorities from 2 to 250 and
    strides at most one longest pass apart, every ready process runs within
    [126 * queue length] rounds, and the strides stay at most one pass apart. *)
Theorem stride_no_starvation k n u :
  sched_ok k n → spread k → u ∈ ready_queue k →
  (∀ t, t ∈ ready_queue k → task_prio k t ≤ 250) → (126 * length (ready_queue k) ≤ n)%nat →
  wp (rounds n) (λ l k', Some u ∈ l ∧ ready_queue k' ≡ₚ ready_queue k ∧ spread k') no_panic k.
Proof.
  intros Hso Hsp Hu Hp Hn. apply wp_and.
  - apply rounds_run; [done..|]. pose proof (wait_bound k u Hu Hsp). lia.
  - apply rounds_spec; [done| |done]. intros Hq. rewrite Hq in Hu. by apply not_elem_of_nil in Hu.
Qed.

Lemma stride_no_starvation_witness :
  ∃ l k', rounds 252 (demo_kernel 16 0 250 100) = Done l k' ∧ Some 2%nat ∈ l.
Proof.
  destruct (wp_cases _ _ _ _ (stride_no_starvation (demo_kernel 16 0 250 100) 252 2
    (demo_sched_ok 16 0 250 100 252 ltac:(lia) ltac:(lia) ltac:(vm_compute; split; congruence)
      ltac:(vm_compute; split; congruence))
    ltac:(intros t v [->| ->]%demo_queue_cases [->| ->]%demo_queue_cases; vm_compute; congruence)
    ltac:(right; left)
    ltac:(intros t [->| ->]%demo_queue_cases; vm_compute; congruence)
    ltac:(simpl; lia)))
    as [(l & k' & Hrun & Hin & _)|(e & _ & [])].
  exists l, k'. split; [exact Hrun|exact Hin].
Defined.

(** A priority above 250 monopolises the processor: [BIG_STRIDE / prio] is
    zero, so a process with the least stride and such a priority, which
    [sys_set_prio] accepts, is chosen in every round from then on. *)
Theorem priority_above_250_monopolises k n t :
  sched_ok k n → t ∈ ready_queue k → 250 < task_prio k t →
  (∀ u, u ∈ ready_queue k → u ≠ t → task_stride k t < task_stride k u) →
  wp (rounds n) (λ l _, l = replicate n (Some t)) no_panic k.
Proof. apply starving_rounds. Qed.

Lemma priority_above_250_monopolises_witness :
  ∃ l k', rounds 1000 (demo_kernel 251 0 16 1) = Done l k' ∧ l = replicate 1000 (Some 1%nat).
Proof.
  destruct (wp_cases _ _ _ _ (priority_above_250_monopolises (demo_kernel 251 0 16 1) 1000 1
    (demo_sched_ok 251 0 16 1 1000 ltac:(lia) ltac:(lia) ltac:(vm_compute; split; congruence)
      ltac:(vm_compute; split; congruence))
    ltac:(left) ltac:(reflexivity)
    ltac:(intros v [->| ->]%demo_queue_cases Hne; [congruence|reflexivity])))
    as [(l & k' & Hrun & Hl)|(e & _ & [])].
  exists l, k'. split; [exact Hrun|exact Hl].
Defined.

(** A process that exits becomes a zombie with its exit code, leaves the
    processor, keeps its kernel stack, pid and page tables but gives back every
    page of its address space, and hands all its children to the init process, of
    which they become children; no other process and no other frame changes.  When
    the exiting process is the init process itself the kernel panics, because its
    cell is already borrowed. *)
Theorem exit_makes_zombie k t b bi code :
  current (PROCESSOR k) = Some t → TASKS k !! t = Some b → TASKS k !! INITPROC k = Some bi →
  NoDup (child (inner b)) →
  (∀ c, c ∈ child (inner b) → c ≠ t ∧ c ≠ INITPROC k ∧ is_Some (TASKS k !! c)) →
  let s := km_mm (k_mem k) in let ms := memory_set (inner b) in
  mm_wf s → owns s (ms_frames ms) →
  if decide (t = INITPROC k) then exit_current_and_run_next code k = Panic AlreadyBorrowed
  else wp (exit_current_and_run_next code) (λ _ k',
      current (PROCESSOR k') = None ∧ ready_queue k' = ready_queue k ∧ same_globals k k' ∧
      TASKS k' !! t = Some (map_inner (exited code) b) ∧
      TASKS k' !! INITPROC k = Some (map_inner (λ i, set_child (child i ++ child (inner b)) i) bi) ∧
      (∀ v, v ≠ t → v ≠ INITPROC k → TASKS k' !! v =
        (if decide (v ∈ child (inner b)) then map_inner (set_parent (Some (INITPROC k))) else id)
          <$> TASKS k !! v) ∧
      mm_step s (ms_frames ms) (km_mm (k_mem k')) (frames (page_table ms)) ∧
      phys (km_mm (k_mem k')) = phys s) no_panic k.
Proof.
  intros. case_decide; [by eapply exit_initproc|by apply exit_spec].
Qed.

Lemma exit_makes_zombie_witness :
  ∃ k', exit_current_and_run_next 5 (demo_kernel 16 0 16 0) = Done tt k' ∧
    TASKS k' !! 1%nat = Some (map_inner (exited 5) (demo_task 16 0 [2%nat])) ∧
    TASKS k' !! 0%nat = Some (demo_task 16 0 [2%nat]).
Proof.
  pose proof (exit_makes_zombie (demo_kernel 16 0 16 0) 1 (demo_task 16 0 [2%nat]) (demo_task 16 0 []) 5
    eq_refl eq_refl eq_refl (NoDup_singleton _)
    ltac:(intros c Hc; apply list_elem_of_singleton in Hc as ->; split_and!; [done|done|by eexists])
    (ms_mm _ _ _ _ demo_ms_ok) (ms_owns _ _ _ _ demo_ms_ok)) as H.
  rewrite decide_False in H by discriminate.
  destruct (wp_cases _ _ _ _ H) as [([] & k' & Hrun & _ & _ & _ & H1 & H0 & _)|(e & _ & [])].
  exists k'. split; [exact Hrun|]. split; [exact H1|]. exact H0.
Defined.

(** [alloc_fd] returns the lowest descriptor that is not open, growing the
    table by one closed entry only when all are open; the entry it returns is
    closed and no other entry changes. *)
Lemma alloc_fd_spec i :
  let '(fd, i') := alloc_fd i in
  fd_table i' !! fd = Some None ∧
  (∀ j, (j < fd)%nat → ∃ f, fd_table i !! j = Some (Some f)) ∧
  (∀ j, (j < length (fd_table i))%nat → fd_table i' !! j = fd_table i !! j) ∧
  length (fd_table i') = Nat.max (length (fd_table i)) (S fd) ∧
  i' = set_fd_table (fd_table i') i.
Proof.
  unfold alloc_fd. destruct (list_find _ (fd_table i)) as [[fd o]|] eqn:Hf.
  - apply list_find_Some in Hf as (Hl & -> & Hfirst). pose proof (lookup_lt_Some _ _ _ Hl).
    split_and!; [done| |done|lia|by destruct i].
    intros j Hj. destruct (lookup_lt_is_Some_2 (fd_table i) j) as [[f|] Hjo]; [lia|eauto|].
    by destruct (Hfirst j None Hjo Hj).
  - apply list_find_None in Hf. unfold vec_push. simpl. rewrite length_app. simpl.
    replace (length (fd_table i) + 1 - 1)%nat with (length (fd_table i)) by lia.
    split_and!; [|intros j Hj|intros j Hj|lia|done].
    + by rewrite lookup_app_r, Nat.sub_diag by lia.
    + destruct (lookup_lt_is_Some_2 (fd_table i) j Hj) as [[f|] Hjo]; [eauto|].
      by destruct (proj1 (Forall_lookup _ _) Hf j None Hjo).
    + by apply lookup_app_l.
Qed.
