(* ===== verification/SyscallProcess.v ===== *)
(** * System calls on processes and memory ([src/syscall/process.rs])

    One definition per handler, on the state [kernel]; results are [isize] values.
    [sys_exec] and [sys_spawn] read the program from a file and are kept with the
    file layer.  The [trace!] lines only format text.  The memory image of
    [TaskInfo], which has Rust's unspecified layout, and the clock are arguments. *)
From S2P Require Import Prelude Config Machine Address FrameAllocator Ownership.
From S2P Require Import PageTable PageTableSpec MemorySet MapAreaSpec MemorySetSpec.
From S2P Require Import UserSpace UserMemory Pid Context Timer Task Scheduler.
From coqutil Require Import Byte Word.LittleEndianList.

(** [current_task().unwrap()]. *)
Definition current_task_unwrap : M kernel nat := o ← current_task; unwrap o.

(** The bytes behind a pointer to a local structure. *)
Definition bytes_at (l : list byte) (i : Z) : byte := default Corelib.Init.Byte.x00 (l !! Z.to_nat i).

(** ** Time and statistics *)

(* src: src/src/syscall/process.rs 53-76 sys_get_time *)
Definition sys_get_time (time ts : Z) : M kernel Z :=
  let tv_inner := time_val time in
  let tv_bytes := le_split 8 (sec tv_inner) ++ le_split 8 (usec tv_inner) in
  token ← current_user_token;
  with_frames (translated_and_write_bytes token ts (bytes_at tv_bytes) (Z.of_nat (length tv_bytes)));;
  mret 0.

(* src: src/src/syscall/process.rs 25-32 TaskInfo *)
Record TaskInfo : Set := mkTaskInfo {
  ti_status : TaskStatus;
  ti_syscall_times : list Z;
  ti_time : Z;
}.

(* src: src/src/syscall/process.rs 79-98 sys_task_info *)
Definition sys_task_info (TaskInfo_repr : TaskInfo → list byte) (time ti : Z) : M kernel Z :=
  current_task_info ← current_task_info_inner;
  let task_info := {| ti_status := Running; ti_syscall_times := syscall_times current_task_info;
                      ti_time := get_time_ms time -u first_run_time current_task_info |} in
  let ti_bytes := TaskInfo_repr task_info in
  token ← current_user_token;
  with_frames (translated_and_write_bytes token ti (bytes_at ti_bytes) (Z.of_nat (length ti_bytes)));;
  mret 0.

(** ** Memory *)

(** The permissions [sys_mmap] derives from [port]. *)
(* src: src/src/syscall/process.rs 111-123 sys_mmap *)
Definition mmap_perm (port : Z) : MapPermission :=
  let map_perm := MapPermission_U in
  let map_perm := if Z.land port 1 =? 1 then Z.lor map_perm MapPermission_R else map_perm in
  let map_perm := if Z.land port 2 =? 2 then Z.lor map_perm MapPermission_W else map_perm in
  if Z.land port 4 =? 4 then Z.lor map_perm MapPermission_X else map_perm.

(* src: src/src/syscall/process.rs 100-135 sys_mmap *)
Definition sys_mmap (start len port : Z) : M kernel Z :=
  if (Z.land port 7 =? 0) || negb (Z.land port (Z.lnot 7) =? 0)
     || negb (Z.land start (PAGE_SIZE - 1) =? 0)
  then mret (-1)
  else
    let end_ := start +u len in
    let start_va := VirtAddr_from_usize start in
    let end_va := VirtAddr_from_usize end_ in
    let map_perm := mmap_perm port in
    map_area ← MapArea_new start_va end_va Framed map_perm;
    token ← current_user_token;
    mapped ← with_frames (check_map_area_mapping token map_area);
    if (mapped : bool) then mret (-1)
    else
      mapping_address_space_for_current_task start_va end_va map_perm;;
      mret 0.

(* src: src/src/syscall/process.rs 137-156 sys_munmap *)
Definition sys_munmap (start len : Z) : M kernel Z :=
  if negb (start mod PAGE_SIZE =? 0) then mret (-1)
  else
    let start_va := VirtAddr_from_usize start in
    let end_va := VirtAddr_from_usize (start +u len) in
    map_area ← MapArea_new start_va end_va Framed MapPermission_U;
    token ← current_user_token;
    unmapped ← with_frames (check_map_area_unmapping token map_area);
    if (unmapped : bool) then mret (-1)
    else
      unmapping_address_space_for_current_task start_va end_va;;
      mret 0.

(* src: src/src/syscall/process.rs 231-243 sys_sbrk *)
Definition sys_sbrk (size : Z) : M kernel Z :=
  t ← current_task_unwrap;
  o ← change_program_brk t size;
  match o with
  | Some old_brk => mret (as_isize old_brk)
  | None => mret (-1)
  end.

(** ** Processes *)

(** [schedule] does not return to a process that has exited. *)
(* src: src/src/syscall/process.rs 35-43 sys_exit *)
Definition sys_exit (code : Z) : M kernel unit := exit_current_and_run_next code.

(** The result [0] is delivered when the process is resumed. *)
(* src: src/src/syscall/process.rs 46-50 sys_yield *)
Definition sys_yield : M kernel Z := suspend_current_and_run_next;; mret 0.

(** [trap_cx.x[10] = v]. *)
Definition write_cx_a0 (p v : Z) : M mm unit := set_phys (λ m, store64 m (p + 8 * 10) v).

(* src: src/src/syscall/process.rs 158-171 sys_fork *)
Definition sys_fork `{KernelEnv} : M kernel Z :=
  current_task ← current_task_unwrap;
  new_task ← TaskControlBlock_fork current_task;
  new_pid ← get_pid new_task;
  i ← inner_exclusive_access new_task;
  trap_cx ← get_trap_cx i;
  with_frames (write_cx_a0 trap_cx 0);;
  add_task new_task;;
  mret (as_isize new_pid).

(** Strong references to a block held by the kernel's data structures.  A process
    also holds its own [Arc] in local variables of a system call in progress; a
    zombie has none. *)
Definition strong_refs (k : kernel) (c : nat) : nat :=
  let count l := length (filter (λ t, t = c) l) in
  (count (map_to_list (TASKS k) ≫= λ p, child (inner p.2)) + count (ready_queue k) +
   count (option_list (current (PROCESSOR k))) + (if decide (c = INITPROC k) then 1 else 0))%nat.

(** [child.iter().any(...)] and [child.iter().enumerate().find(...)]. *)
(* src: src/src/syscall/process.rs 202-206 sys_waitpid *)
Fixpoint any_child (pid_ : Z) (l : list nat) : M kernel bool :=
  match l with
  | [] => mret false
  | p :: l =>
      n ← get_pid p;
      if (n =? as_usize pid_) || (pid_ =? -1) then mret true else any_child pid_ l
  end.

(* src: src/src/syscall/process.rs 211-213 sys_waitpid *)
Fixpoint find_zombie (pid_ : Z) (idx : nat) (l : list nat) : M kernel (option nat) :=
  match l with
  | [] => mret None
  | p :: l =>
      i ← inner_exclusive_access p;
      n ← get_pid p;
      if is_zombie i && ((pid_ =? -1) || (n =? as_usize pid_)) then mret (Some idx)
      else find_zombie pid_ (S idx) l
  end.

(** Dropping the last [Arc] of a block drops its fields in order. *)
Definition TaskControlBlock_drop (c : nat) : M kernel unit :=
  b ← task c;
  with_kmem (PidHandle_drop (pid b));;
  with_kmem (KernelStack_drop (kernel_stack b));;
  with_frames (MemorySet_drop (memory_set (inner b)));;
  modify (λ k, set_TASKS (delete c (TASKS k)) k).

(** [exit_code] is an [i32], written through [translated_refmut]. *)
(* src: src/src/syscall/process.rs 191-228 sys_waitpid *)
Definition sys_waitpid (pid_ exit_code_ptr : Z) : M kernel Z :=
  t ← current_task_unwrap;
  i ← inner_exclusive_access t;
  any ← any_child pid_ (child i);
  if negb any then mret (-1)
  else
    pair ← find_zombie pid_ 0 (child i);
    match pair with
    | Some idx =>
        c ← unwrap (child i !! idx);
        update_inner t (λ i, set_child (vec_remove (child i) idx) i);;
        n ← gets (λ k, S (strong_refs k c));
        assert_ (bool_decide (n = 1%nat));;
        found_pid ← get_pid c;
        ci ← inner_exclusive_access c;
        p ← with_frames (translated_refmut (MemorySet_token (memory_set i)) exit_code_ptr);
        with_frames (set_phys (λ m, store_bytes m p (le_split 4 (exit_code ci))));;
        TaskControlBlock_drop c;;
        mret (as_isize found_pid)
    | None => mret (-2)
    end.

(* src: src/src/syscall/process.rs 246-250 sys_getpid *)
Definition sys_getpid : M kernel Z :=
  t ← current_task_unwrap; n ← get_pid t; mret (as_isize n).

(* src: src/src/syscall/process.rs 315-328 sys_set_prio *)
Definition sys_set_prio (prio_ : Z) : M kernel Z :=
  if prio_ <=? 1 then mret (-1)
  else
    t ← current_task_unwrap;
    update_inner t (set_prio (as_usize prio_));;
    mret prio_.
