(* ===== verification/KernelInv.v ===== *)
(** * The invariant of the whole kernel

    [mem_part] describes who owns the frames of the machine: the kernel's address
    space, the processes of the store, and the values that a routine holds while it
    works (the list [F]).  Every frame in use has exactly one owner, so no frame is
    shared or lost.  [sched_inv] describes the process table: the ready queue holds
    the ready processes, the processor the running one, every process but the first
    is the child of exactly one process.  [kernel_ok] is both. *)
From S2P Require Import Prelude Config Machine Address FrameAllocator Ownership.
From S2P Require Import PageTable PageTree PageTableSpec MemorySet MapAreaSpec MemorySetSpec.
From S2P Require Import AddressSpace UserSpace Pid Context Task Scheduler.

(** What the boot fixes: the areas of the kernel's image; the frames that are never
    given to anyone else, which are those below the pool (frame 0 is one of them) and the
    queues of the block device; the root of the kernel's page table. *)
Record layout : Type := mkLayout { lay_base : list MapArea; lay_image : list Z; lay_root : Z }.

(** The page of the trap context. *)
Definition TRAP_VPN : Z := TRAMPOLINE_VPN - 1.

Abbreviation tasks := (gmap nat TaskControlBlock).

Definition task_frames (b : TaskControlBlock) : list Z := ms_frames (memory_set (inner b)).
Definition tasks_frames (T : tasks) : list Z := map_to_list T ≫= λ p, task_frames p.2.
Definition tasks_pids (T : tasks) : list Z := (λ p, pid p.2) <$> map_to_list T.
Definition tasks_children (T : tasks) : list nat := map_to_list T ≫= λ p, child (inner p.2).

Definition set_km_mm (s : mm) (m : kmem) : kmem :=
  {| km_mm := s; KERNEL_SPACE := KERNEL_SPACE m; PID_ALLOCATOR := PID_ALLOCATOR m |}.

(** ** Sums over the store *)

Section Sums.
Context {A : Type} (g : TaskControlBlock → list A).

Lemma bind_tasks_delete (T : tasks) t b :
  T !! t = Some b →
  (map_to_list T ≫= λ p, g p.2) ≡ₚ g b ++ (map_to_list (delete t T) ≫= λ p, g p.2).
Proof. intros Hb. rewrite <-(map_to_list_delete T t b Hb). done. Qed.

Lemma bind_tasks_insert (T : tasks) t b :
  T !! t = None →
  (map_to_list (<[t := b]> T) ≫= λ p, g p.2) ≡ₚ g b ++ (map_to_list T ≫= λ p, g p.2).
Proof. intros Hb. by rewrite (map_to_list_insert T t b Hb). Qed.

Lemma bind_tasks_update (T : tasks) t b b' :
  T !! t = Some b →
  (map_to_list (<[t := b']> T) ≫= λ p, g p.2) ≡ₚ
  g b' ++ (map_to_list (delete t T) ≫= λ p, g p.2).
Proof.
  intros Hb. rewrite <-insert_delete_eq. apply bind_tasks_insert. apply lookup_delete_eq.
Qed.

Lemma elem_of_bind_tasks (T : tasks) x :
  x ∈ (map_to_list T ≫= λ p, g p.2) ↔ ∃ t b, T !! t = Some b ∧ x ∈ g b.
Proof.
  rewrite list_elem_of_bind. split.
  - intros ([t b] & Hx & Hin%elem_of_map_to_list). eauto.
  - intros (t & b & Hb & Hx). exists (t, b). by rewrite elem_of_map_to_list.
Qed.

Lemma bind_tasks_same (T : tasks) t b b' :
  T !! t = Some b → g b' = g b →
  (map_to_list (<[t := b']> T) ≫= λ p, g p.2) ≡ₚ (map_to_list T ≫= λ p, g p.2).
Proof.
  intros Hb Hg. rewrite (bind_tasks_update T t b b' Hb), (bind_tasks_delete T t b Hb). by rewrite Hg.
Qed.

Lemma bind_tasks_ext (T T' : tasks) :
  (∀ u, g <$> T !! u = g <$> T' !! u) →
  (map_to_list T ≫= λ p, g p.2) = (map_to_list T' ≫= λ p, g p.2).
Proof.
  intros Heq.
  assert (Hf : ∀ T : tasks, (map_to_list T ≫= λ p, g p.2) = map_to_list (g <$> T : gmap nat (list A)) ≫= snd).
  { intros T0. rewrite map_to_list_fmap.
    induction (map_to_list T0) as [|p l IH]; [done|]. by rewrite fmap_cons, !bind_cons, IH. }
  rewrite !Hf. do 2 f_equal. apply map_eq. intros u. by rewrite !lookup_fmap.
Qed.
End Sums.

Lemma tasks_pids_bind T : tasks_pids T = map_to_list T ≫= λ p, [pid p.2].
Proof. unfold tasks_pids. induction (map_to_list T) as [|p l IH]; [done|]. by rewrite bind_cons, fmap_cons, IH. Qed.

(** ** Memory *)

Section Memory.
Context `{LinkerSymbols}.

(** The area of the trap context: it holds the frame [f], and user mode has no
    access to it. *)
Definition trap_page (al : list MapArea) (f : Z) : Prop :=
  ∃ a, a ∈ al ∧ data_frames a !! TRAP_VPN = Some f ∧ map_perm a = Z.lor MapPermission_R MapPermission_W.

Lemma trap_page_frame al f : trap_page al f → ms_frame al TRAP_VPN f.
Proof. intros (a & Ha & Hf & _). by exists a. Qed.

Lemma trap_page_intro s ms X a :
  MemorySet_ok s ms X → framed ms → a ∈ areas ms → TRAP_VPN ∈ vpns (vpn_range a) →
  map_perm a = Z.lor MapPermission_R MapPermission_W → ∃ f, trap_page (areas ms) f.
Proof.
  intros Hok Hfr Ha Hv Hp. assert (Ht : map_type a = Framed) by (by apply (proj1 (Forall_forall _ _) Hfr)).
  destruct (proj2 (area_dom _ (ms_areas _ _ _ _ Hok a Ha) TRAP_VPN)) as [f Hf]; [done|]. by exists f, a.
Qed.

(** A process that is not a zombie: a well-formed address space without identity
    mappings, and the trap context in the frame of its page. *)
Record live_ok (s : mm) (i : TaskControlBlockInner) : Prop := {
  lo_ms : MemorySet_ok s (memory_set i) trampoline_map;
  lo_framed : framed (memory_set i);
  lo_trap : trap_page (areas (memory_set i)) (trap_cx_ppn i);
}.

(** A zombie keeps only its page tables. *)
Record task_mem_ok (s : mm) (b : TaskControlBlock) : Prop := {
  tmo_stack : kernel_stack b = mkKernelStack (pid b);
  tmo_space : if decide (task_status (inner b) = Zombie) then areas (memory_set (inner b)) = []
              else live_ok s (inner b);
}.

Definition all_frames (L : layout) (m : kmem) (T : tasks) : list Z :=
  ms_frames (KERNEL_SPACE m) ++ tasks_frames T ++ lay_image L.

Record mem_part (L : layout) (m : kmem) (live : list Z) (T : tasks) (F : list Z) : Prop := {
  mp_proc : kproc m trampoline_map (lay_base L) live;
  mp_owns : owns (km_mm m) (F ++ all_frames L m T);
  mp_all f : in_use (km_mm m) f → f ∈ F ++ all_frames L m T;
  mp_null : 0 ∈ lay_image L;
  mp_root : root_ppn (page_table (KERNEL_SPACE m)) = lay_root L;
  mp_tasks t b : T !! t = Some b → task_mem_ok (km_mm m) b;
}.

Definition mem_inv (L : layout) (m : kmem) (T : tasks) : Prop :=
  ∃ live, mem_part L m live T [] ∧ live ≡ₚ tasks_pids T.

Lemma mp_wf L m live T F : mem_part L m live T F → mm_wf (km_mm m).
Proof. intros Hmp. eapply ms_mm, kso_ok, kp_space, mp_proc, Hmp. Qed.

Lemma task_frames_in T t b f : T !! t = Some b → f ∈ task_frames b → f ∈ tasks_frames T.
Proof. intros. apply elem_of_bind_tasks. eauto. Qed.

Lemma task_mem_isolated s O s' O' b :
  task_mem_ok s b → mm_step s O s' O' → (∀ f, f ∈ task_frames b → f ∉ O) → task_mem_ok s' b.
Proof.
  intros [Hst Hsp] Hstep Hdis. split; [done|]. case_decide; [done|]. destruct Hsp as [Hok Hfr Htr].
  split; [|done..]. by destruct (mm_step_isolates _ _ _ _ _ _ _ Hok Hstep Hdis).
Qed.

Lemma kproc_isolated m X base live O s' O' :
  kproc m X base live → mm_step (km_mm m) O s' O' →
  (∀ f, f ∈ ms_frames (KERNEL_SPACE m) → f ∉ O) → kproc (set_km_mm s' m) X base live.
Proof.
  intros [[Hok Har Hl Hfit Hb Hx] Hpw Hlive] Hstep Hdis. split; [|done..]. split; try done.
  by destruct (mm_step_isolates _ _ _ _ _ _ _ Hok Hstep Hdis).
Qed.

(** A step on frames that the routine holds. *)
Lemma mp_step L m live T O R s' O' :
  mem_part L m live T (O ++ R) → mm_step (km_mm m) O s' O' →
  mem_part L (set_km_mm s' m) live T (O' ++ R).
Proof.
  intros [Hp Hown Hall Hz Hroot Ht] Hstep. rewrite <-app_assoc in Hown.
  pose proof (mm_step_frame _ _ _ _ _ Hstep Hown) as Hfs.
  apply owns_app in Hown as (_ & _ & Hdis). unfold all_frames in Hdis.
  split; [| | |done|done|].
  - eapply kproc_isolated; [done|exact Hstep|]. intros f Hf HO. apply (Hdis f HO). set_solver.
  - rewrite <-app_assoc. by eapply step_owns.
  - intros f Hf. rewrite <-app_assoc. destruct (step_no_leak _ _ _ _ Hfs f Hf) as [?|[Hu Hn]]; [done|].
    apply Hall in Hu. rewrite <-app_assoc in Hu. done.
  - intros t b Hb. eapply task_mem_isolated; [by eapply Ht|exact Hstep|].
    intros f Hf HO. apply (Hdis f HO). pose proof (task_frames_in _ _ _ _ Hb Hf). set_solver.
Qed.

Lemma mp_step_all L m live T O s' O' :
  mem_part L m live T O → mm_step (km_mm m) O s' O' → mem_part L (set_km_mm s' m) live T O'.
Proof.
  intros Hmp Hstep. rewrite <-(app_nil_r O'). apply mp_step with (O := O); [|done].
  by rewrite app_nil_r.
Qed.

(** A step of the kernel's address space. *)
Lemma mp_kernel_step L m live T F m' live' X :
  mem_part L m live T F → ms_step (km_mm m) (KERNEL_SPACE m) (km_mm m') (KERNEL_SPACE m') X →
  kproc m' trampoline_map (lay_base L) live' → mem_part L m' live' T F.
Proof.
  intros [Hp Hown Hall Hz Hroot Ht] [_ Hstep Hr'] Hp'.
  assert (Hperm : ∀ m, F ++ all_frames L m T ≡ₚ ms_frames (KERNEL_SPACE m) ++ F ++ tasks_frames T ++ lay_image L)
    by (intros; unfold all_frames; solve_Permutation).
  rewrite Hperm in Hown. pose proof (mm_step_frame _ _ _ _ _ Hstep Hown) as Hfs.
  apply owns_app in Hown as (_ & _ & Hdis).
  split; [done| | |done|by rewrite Hr'|].
  - rewrite Hperm. by eapply step_owns.
  - intros f Hf. rewrite Hperm. destruct (step_no_leak _ _ _ _ Hfs f Hf) as [?|[Hu Hn]]; [done|].
    apply Hall in Hu. by rewrite Hperm in Hu.
  - intros t b Hb. eapply task_mem_isolated; [by eapply Ht|exact Hstep|].
    intros f Hf HO. apply (Hdis f HO). pose proof (task_frames_in _ _ _ _ Hb Hf). set_solver.
Qed.

(** Taking a process out of the store and putting one in. *)
Lemma mp_take L m live T F t b :
  mem_part L m live T F → T !! t = Some b →
  mem_part L m live (delete t T) (task_frames b ++ F).
Proof.
  intros [Hp Hown Hall Hz Hroot Ht] Hb.
  assert (Hperm : F ++ all_frames L m T ≡ₚ (task_frames b ++ F) ++ all_frames L m (delete t T)).
  { unfold all_frames, tasks_frames at 1. rewrite (bind_tasks_delete task_frames T t b Hb).
    fold (tasks_frames (delete t T)). solve_Permutation. }
  split; [done|by rewrite <-Hperm|intros f; rewrite <-Hperm; apply Hall|done|done|].
  intros u bu [_ Hu]%lookup_delete_Some. by eapply Ht.
Qed.

Lemma mp_put L m live T F t b :
  mem_part L m live T (task_frames b ++ F) → T !! t = None → task_mem_ok (km_mm m) b →
  mem_part L m live (<[t := b]> T) F.
Proof.
  intros [Hp Hown Hall Hz Hroot Ht] Hn Hb.
  assert (Hperm : F ++ all_frames L m (<[t := b]> T) ≡ₚ (task_frames b ++ F) ++ all_frames L m T).
  { unfold all_frames, tasks_frames at 1. rewrite (bind_tasks_insert task_frames T t b Hn).
    fold (tasks_frames T). solve_Permutation. }
  split; [done|by rewrite Hperm|intros f; rewrite Hperm; apply Hall|done|done|].
  intros u bu [[<- <-]|[_ Hu]]%lookup_insert_Some; [done|by eapply Ht].
Qed.

(** What the routine holds is nobody else's. *)
Lemma mp_held_kernel L m live T F f :
  mem_part L m live T F → f ∈ F → f ∉ ms_frames (KERNEL_SPACE m).
Proof. intros [_ (_ & _ & Hd)%owns_app _ _ _ _] Hf Hk. apply (Hd f Hf), elem_of_app. by left. Qed.

Lemma mp_held_task L m live T F f t b :
  mem_part L m live T F → f ∈ F → T !! t = Some b → f ∉ task_frames b.
Proof.
  intros [_ (_ & _ & Hd)%owns_app _ _ _ _] Hf Hb Hk. apply (Hd f Hf).
  unfold all_frames. rewrite !elem_of_app. right. left. by eapply task_frames_in.
Qed.

Lemma mp_held_nonzero L m live T F f : mem_part L m live T F → f ∈ F → f ≠ 0.
Proof.
  intros [_ (_ & _ & Hd)%owns_app _ Hz _] Hf ->. apply (Hd 0 Hf).
  unfold all_frames. rewrite !elem_of_app. by right; right.
Qed.

Lemma mp_task_nonzero L m live T F t b f :
  mem_part L m live T F → T !! t = Some b → f ∈ task_frames b → f ≠ 0.
Proof.
  intros Hmp Hb Hf. eapply mp_held_nonzero; [by apply (mp_take _ _ _ _ _ _ _ Hmp Hb)|].
  apply elem_of_app. by left.
Qed.

(** Two blocks that do not differ in what concerns memory. *)
Record same_mem (b b' : TaskControlBlock) : Prop := {
  sme_pid : pid b' = pid b;
  sme_stack : kernel_stack b' = kernel_stack b;
  sme_set : memory_set (inner b') = memory_set (inner b);
  sme_trap : trap_cx_ppn (inner b') = trap_cx_ppn (inner b);
  sme_zombie : task_status (inner b') = Zombie ↔ task_status (inner b) = Zombie;
}.

Lemma same_mem_ok s b b' : same_mem b b' → task_mem_ok s b → task_mem_ok s b'.
Proof.
  intros [Hp Hk Hs Ht Hz] [Hst Hsp]. split; [by rewrite Hk, Hp|].
  destruct (decide (task_status (inner b) = Zombie)); case_decide; try tauto; [by rewrite Hs|].
  destruct Hsp as [H1 H2 H3]. split; by rewrite ?Hs, ?Ht.
Qed.

Lemma tasks_pids_same T t b b' :
  T !! t = Some b → pid b' = pid b → tasks_pids (<[t := b']> T) ≡ₚ tasks_pids T.
Proof.
  intros Hb Hp. rewrite !tasks_pids_bind. eapply (bind_tasks_same (λ b, [pid b])); [done|]. by rewrite Hp.
Qed.

Lemma mp_same L m live T F t b b' :
  mem_part L m live T F → T !! t = Some b → same_mem b b' →
  mem_part L m live (<[t := b']> T) F.
Proof.
  intros Hmp Hb Hsame. rewrite <-insert_delete_eq.
  eapply mp_put; [|apply lookup_delete_eq|eapply same_mem_ok; [done|by eapply mp_tasks]].
  unfold task_frames. rewrite (sme_set _ _ Hsame). by apply (mp_take _ _ _ _ _ _ _ Hmp Hb).
Qed.

Lemma mem_inv_same L m T t b b' :
  mem_inv L m T → T !! t = Some b → same_mem b b' → mem_inv L m (<[t := b']> T).
Proof.
  intros (live & Hmp & Hl) Hb Hsame. exists live. split; [by eapply mp_same|].
  rewrite Hl. symmetry. eapply tasks_pids_same; [done|apply Hsame].
Qed.

(** Many blocks change at once. *)
Definition same_mem_tasks (T T' : tasks) : Prop := ∀ u,
  match T !! u, T' !! u with
  | Some b, Some b' => same_mem b b'
  | None, None => True
  | _, _ => False
  end.

Lemma same_mem_tasks_fmap {A} (g : TaskControlBlock → A) T T' :
  same_mem_tasks T T' → (∀ b b', same_mem b b' → g b' = g b) → ∀ u, g <$> T' !! u = g <$> T !! u.
Proof.
  intros Hs Hg u. specialize (Hs u). destruct (T !! u), (T' !! u); try done. simpl. f_equal. by apply Hg.
Qed.

Lemma mem_inv_ext L m T T' : same_mem_tasks T T' → mem_inv L m T → mem_inv L m T'.
Proof.
  intros Hs (live & [Hp Hown Hall Hz Hroot Ht] & Hl). exists live.
  assert (Hfr : tasks_frames T' = tasks_frames T).
  { apply (bind_tasks_ext task_frames), same_mem_tasks_fmap; [done|]. intros b b' Hb.
    unfold task_frames. by rewrite (sme_set _ _ Hb). }
  split.
  - split; [done|unfold all_frames; by rewrite Hfr|unfold all_frames; by rewrite Hfr|done|done|].
    intros t b' Hb'. specialize (Hs t). rewrite Hb' in Hs. destruct (T !! t) as [b|] eqn:E; [|done].
    eapply same_mem_ok; [done|by eapply Ht].
  - rewrite Hl, !tasks_pids_bind. erewrite (bind_tasks_ext (λ b, [pid b]) T' T); [done|].
    apply same_mem_tasks_fmap; [done|]. intros b b' Hb. by rewrite (sme_pid _ _ Hb).
Qed.

(** A process changes its own address space. *)
Lemma mem_inv_local L m T t b b' s' :
  mem_inv L m T → T !! t = Some b → mm_step (km_mm m) (task_frames b) s' (task_frames b') →
  pid b' = pid b → task_mem_ok s' b' → mem_inv L (set_km_mm s' m) (<[t := b']> T).
Proof.
  intros (live & Hmp & Hl) Hb Hstep Hpid Hok. exists live. split.
  - rewrite <-insert_delete_eq. eapply mp_put; [|apply lookup_delete_eq|done].
    eapply mp_step; [by apply mp_take|done].
  - rewrite Hl. symmetry. by eapply tasks_pids_same.
Qed.

End Memory.

(** ** The process table *)

Record sched_inv (T : tasks) (queue : list nat) (cur : option nat) (init next : nat) : Prop := {
  si_fresh t : is_Some (T !! t) → (init ≤ t < next)%nat;
  si_ready t : t ∈ queue ↔ ∃ b, T !! t = Some b ∧ task_status (inner b) = Ready;
  si_queue : NoDup queue;
  si_running t : cur = Some t ↔ ∃ b, T !! t = Some b ∧ task_status (inner b) = Running;
  si_init : ∃ b, T !! init = Some b ∧ task_status (inner b) ≠ Zombie;
  si_children : NoDup (tasks_children T);
  si_child c : c ∈ tasks_children T ↔ is_Some (T !! c) ∧ c ≠ init;
  si_parent t b c : T !! t = Some b → c ∈ child (inner b) →
    (t < c)%nat ∧ ∃ bc, T !! c = Some bc ∧ parent (inner bc) = Some t;
  si_zombie t b : T !! t = Some b → task_status (inner b) = Zombie → child (inner b) = [];
  si_prio t b : T !! t = Some b → 2 ≤ prio (inner b) < 2 ^ 64 ∧ task_status (inner b) ≠ UnInit;
}.

(** Changes that concern neither status nor family. *)
Record same_family (b b' : TaskControlBlock) : Prop := {
  sf_child : child (inner b') = child (inner b);
  sf_parent : parent (inner b') = parent (inner b);
  sf_prio : 2 ≤ prio (inner b') < 2 ^ 64;
}.

Lemma insert_is_Some (T : tasks) t b b' u :
  T !! t = Some b → is_Some (<[t := b']> T !! u) ↔ is_Some (T !! u).
Proof.
  intros Hb. destruct (decide (u = t)) as [->|]; [|by rewrite lookup_insert_ne].
  rewrite lookup_insert_eq, Hb. split; eauto.
Qed.

Lemma insert_exists (P : TaskControlBlock → Prop) (T : tasks) t b' u :
  (∃ bu, <[t := b']> T !! u = Some bu ∧ P bu) ↔
  (u = t ∧ P b') ∨ (u ≠ t ∧ ∃ bu, T !! u = Some bu ∧ P bu).
Proof.
  destruct (decide (u = t)) as [->|].
  - rewrite lookup_insert_eq. naive_solver.
  - rewrite lookup_insert_ne by done. naive_solver.
Qed.

(** The parts of the invariant that a change of status does not touch. *)
Lemma sched_update T q cur init next t b b' q' cur' :
  sched_inv T q cur init next → T !! t = Some b → same_family b b' →
  task_status (inner b') ≠ UnInit → task_status (inner b') ≠ Zombie →
  NoDup q' →
  (∀ u, u ∈ q' ↔ (u = t ∧ task_status (inner b') = Ready) ∨ (u ≠ t ∧ u ∈ q)) →
  (∀ u, cur' = Some u ↔ (u = t ∧ task_status (inner b') = Running) ∨ (u ≠ t ∧ cur = Some u)) →
  sched_inv (<[t := b']> T) q' cur' init next.
Proof.
  intros [Hf Hr Hq Hrun Hi Hcn Hc Hp Hz Hpr] Hb [Hsc Hsp Hspr] Hnu Hnz Hq' Hready Hcur.
  assert (Hch : tasks_children (<[t := b']> T) ≡ₚ tasks_children T)
    by (by apply (bind_tasks_same (λ b, child (inner b)) T t b b')).
  split.
  - intros u. rewrite (insert_is_Some _ _ _ _ _ Hb). apply Hf.
  - intros u. rewrite (insert_exists (λ b, task_status (inner b) = Ready)), Hready, Hr. done.
  - done.
  - intros u. rewrite (insert_exists (λ b, task_status (inner b) = Running)), Hcur, Hrun. done.
  - destruct Hi as (bi & Hbi & Hni). apply (insert_exists (λ b, task_status (inner b) ≠ Zombie)).
    destruct (decide (init = t)); [by left|right]. eauto.
  - by rewrite Hch.
  - intros c. rewrite Hch, Hc, (insert_is_Some _ _ _ _ _ Hb). done.
  - intros u bu c Hu Hin. assert (∃ bu', T !! u = Some bu' ∧ c ∈ child (inner bu')) as (bu' & Hu' & Hin').
    { apply lookup_insert_Some in Hu as [[<- <-]|[_ Hu]]; [|eauto]. exists b. by rewrite <-Hsc. }
    destruct (Hp u bu' c Hu' Hin') as (Hlt & bc & Hbc & Hpar). split; [done|].
    apply (insert_exists (λ b, parent (inner b) = Some u)).
    destruct (decide (c = t)) as [->|]; [left|right; eauto]. split; [done|].
    rewrite Hsp. congruence.
  - intros u bu [[<- <-]|[_ Hu]]%lookup_insert_Some; [done|by eapply Hz].
  - intros u bu [[<- <-]|[_ Hu]]%lookup_insert_Some; [done|by eapply Hpr].
Qed.

(** A process that keeps its status. *)
Lemma sched_same T q cur init next t b b' :
  sched_inv T q cur init next → T !! t = Some b → same_family b b' →
  task_status (inner b') = task_status (inner b) → task_status (inner b) ≠ Zombie →
  sched_inv (<[t := b']> T) q cur init next.
Proof.
  intros Hsi Hb Hsf Hst Hnz. rewrite <-Hst in Hnz.
  eapply sched_update; [done..|rewrite Hst; by eapply (si_prio _ _ _ _ _ Hsi)|done| | |].
  - apply Hsi.
  - intros u. destruct (decide (u = t)) as [->|]; [|tauto]. rewrite (si_ready _ _ _ _ _ Hsi), Hst. naive_solver.
  - intros u. destruct (decide (u = t)) as [->|]; [|tauto]. rewrite (si_running _ _ _ _ _ Hsi), Hst. naive_solver.
Qed.

(** The running process is put back into the queue. *)
Lemma sched_suspend T q init next t b b' :
  sched_inv T q (Some t) init next → T !! t = Some b → same_family b b' →
  task_status (inner b') = Ready → sched_inv (<[t := b']> T) (vec_push q t) None init next.
Proof.
  intros Hsi Hb Hsf Hst.
  assert (Hnq : t ∉ q).
  { rewrite (si_ready _ _ _ _ _ Hsi). destruct (proj1 (si_running _ _ _ _ _ Hsi t) eq_refl) as (b0 & ? & ?).
    intros (b1 & ? & ?). congruence. }
  eapply sched_update; [done..|by rewrite Hst|by rewrite Hst| | |].
  - apply NoDup_app. split_and!; [apply Hsi| |apply NoDup_singleton].
    intros u Hu ->%list_elem_of_singleton. done.
  - intros u. unfold vec_push. rewrite elem_of_app, list_elem_of_singleton.
    destruct (decide (u = t)) as [->|]; tauto.
  - intros u. rewrite Hst. naive_solver.
Qed.

(** A process of the queue is taken to the processor. *)
Lemma sched_run T q init next i t b b' :
  sched_inv T q None init next → q !! i = Some t → T !! t = Some b → same_family b b' →
  task_status (inner b') = Running → sched_inv (<[t := b']> T) (vec_remove q i) (Some t) init next.
Proof.
  intros Hsi Hi Hb Hsf Hst. pose proof (si_queue _ _ _ _ _ Hsi) as Hnd.
  rewrite (vec_remove_perm _ _ _ Hi), NoDup_cons in Hnd. destruct Hnd as [Hn Hnd].
  eapply sched_update; [done..|by rewrite Hst|by rewrite Hst|done| |].
  - intros u. assert (Hu : u ∈ q ↔ u = t ∨ u ∈ vec_remove q i)
      by (rewrite (vec_remove_perm q i t Hi) at 1; apply elem_of_cons).
    rewrite Hst, Hu. naive_solver.
  - intros u. rewrite Hst. naive_solver.
Qed.

(** A new ready process, child of the running one. *)
Lemma sched_new T q p init next bp b' :
  sched_inv T q (Some p) init next → T !! p = Some bp →
  task_status (inner b') = Ready → child (inner b') = [] → parent (inner b') = Some p →
  2 ≤ prio (inner b') < 2 ^ 64 →
  sched_inv (<[p := map_inner (λ i, set_child (vec_push (child i) next) i) bp]> (<[next := b']> T))
    (vec_push q next) (Some p) init (S next).
Proof.
  intros [Hf Hr Hq Hrun Hi Hcn Hc Hp Hz Hpr] Hbp Hst Hch Hpar Hprio.
  assert (Hnew : T !! next = None).
  { destruct (T !! next) eqn:E; [|done]. destruct (Hf next) as [_ ?]; [eauto|lia]. }
  assert (Hne : p ≠ next) by congruence.
  set (bp' := map_inner _ bp).
  assert (HT : ∀ u, <[p := bp']> (<[next := b']> T) !! u =
    if decide (u = p) then Some bp' else if decide (u = next) then Some b' else T !! u).
  { intros u. destruct (decide (u = p)) as [->|]; [apply lookup_insert_eq|].
    rewrite lookup_insert_ne by done. case_decide; [subst; apply lookup_insert_eq|].
    by apply lookup_insert_ne. }
  assert (Hsome : ∀ u, is_Some (<[p := bp']> (<[next := b']> T) !! u) ↔ is_Some (T !! u) ∨ u = next).
  { intros u. assert (is_Some (T !! p)) by eauto. rewrite HT. repeat case_decide; subst; naive_solver. }
  assert (Hchild : tasks_children (<[p := bp']> (<[next := b']> T)) ≡ₚ next :: tasks_children T).
  { unfold tasks_children. rewrite (bind_tasks_update (λ b, child (inner b)) _ p bp bp')
      by (by rewrite lookup_insert_ne).
    rewrite delete_insert_ne by done.
    rewrite (bind_tasks_insert (λ b, child (inner b)) (delete p T)) by (by rewrite lookup_delete_ne).
    rewrite (bind_tasks_delete (λ b, child (inner b)) T p bp Hbp).
    subst bp'. simpl. unfold vec_push. rewrite Hch. solve_Permutation. }
  assert (Hpst : task_status (inner bp) = Running).
  { destruct (proj1 (Hrun p) eq_refl) as (b0 & ? & ?). congruence. }
  split.
  - intros u. rewrite Hsome. intros [Hu| ->]; [pose proof (Hf u Hu); lia|].
    destruct (Hf p) as [? ?]; [eauto|lia].
  - intros u. unfold vec_push. rewrite elem_of_app, list_elem_of_singleton, HT, Hr.
    repeat case_decide; subst; simpl; naive_solver.
  - apply NoDup_app. split_and!; [done| |apply NoDup_singleton].
    intros u Hu ->%list_elem_of_singleton. apply Hr in Hu as (? & ? & _). congruence.
  - intros u. rewrite HT. repeat case_decide; subst; simpl; [naive_solver| |apply Hrun].
    split; [congruence|]. intros (? & [= <-] & ?). congruence.
  - destruct Hi as (bi & Hbi & Hni). rewrite HT. repeat case_decide; subst; simpl; [|congruence|eauto].
    exists bp'. split; [done|]. simpl. congruence.
  - rewrite Hchild. constructor; [|done]. rewrite Hc. intros [[? ?] _]. congruence.
  - intros c. rewrite Hchild, elem_of_cons, Hc, Hsome. split; [|naive_solver].
    intros [->|[? ?]]; [|naive_solver]. split; [by right|]. intros ->.
    destruct Hi as (? & ? & _). congruence.
  - intros u bu c. rewrite HT. intros Hu Hin.
    assert (c = next ∧ u = p ∨ c ≠ next ∧ ∃ bu', T !! u = Some bu' ∧ c ∈ child (inner bu')) as Hcase.
    { repeat case_decide; subst; simplify_eq; [|by rewrite Hch in Hin; apply not_elem_of_nil in Hin|].
      - simpl in Hin. apply elem_of_app in Hin as [Hin|Hin]; [|apply list_elem_of_singleton in Hin; subst; by left].
        right. split; [|eauto]. intros ->. destruct (Hp _ _ _ Hbp Hin) as (_ & ? & ? & _). congruence.
      - right. split; [|eauto]. intros ->. destruct (Hp _ _ _ Hu Hin) as (_ & ? & ? & _). congruence. }
    destruct Hcase as [[-> ->]|[Hcn' (bu' & Hu' & Hin')]].
    + split; [destruct (Hf p); [eauto|lia]|]. exists b'. split; [|done].
      rewrite HT. by rewrite decide_False, decide_True.
    + destruct (Hp _ _ _ Hu' Hin') as (Hlt & bc & Hbc & Hpc). split; [done|]. rewrite HT.
      destruct (decide (c = p)) as [->|]; [|rewrite decide_False by done; eauto].
      exists bp'. split; [done|]. simpl. congruence.
  - intros u bu. rewrite HT. repeat case_decide; subst; simpl; [..|apply Hz]; intros [= <-] ?; simpl in *; congruence.
  - intros u bu. rewrite HT. repeat case_decide; subst; simpl; [| |apply Hpr]; intros [= <-].
    + by apply (Hpr _ _ Hbp).
    + split; [done|congruence].
Qed.

(** The table after the exit of [t]. *)
Record exit_tasks (T : tasks) (t init : nat) (b bi : TaskControlBlock) (code : Z) (T' : tasks) : Prop := {
  et_self : T' !! t = Some (map_inner (exited code) b);
  et_init : T' !! init = Some (map_inner (λ i, set_child (child i ++ child (inner b)) i) bi);
  et_other v : v ≠ t → v ≠ init → T' !! v =
    (if decide (v ∈ child (inner b)) then map_inner (set_parent (Some init)) else id) <$> T !! v;
}.

Lemma exit_children T t init b bi code T' :
  exit_tasks T t init b bi code T' → T !! t = Some b → T !! init = Some bi → t ≠ init →
  tasks_children T' ≡ₚ tasks_children T.
Proof.
  intros [Ht Hi Ho] Hb Hbi Hne.
  set (T1 := <[t := map_inner (exited code) b]>
    (<[init := map_inner (λ i, set_child (child i ++ child (inner b)) i) bi]> T)).
  unfold tasks_children at 1. rewrite (bind_tasks_ext (λ b, child (inner b)) T' T1).
  - unfold T1, tasks_children. rewrite (bind_tasks_update (λ b, child (inner b)) _ t b)
      by (by rewrite lookup_insert_ne).
    rewrite delete_insert_ne by done.
    rewrite (bind_tasks_update (λ b, child (inner b)) _ init bi) by (by rewrite lookup_delete_ne).
    rewrite (bind_tasks_delete (λ b, child (inner b)) T t b Hb).
    rewrite (bind_tasks_delete (λ b, child (inner b)) (delete t T) init bi) by (by rewrite lookup_delete_ne).
    simpl. solve_Permutation.
  - intros u. unfold T1. destruct (decide (u = t)) as [->|Hut]; [by rewrite Ht, lookup_insert_eq|].
    rewrite lookup_insert_ne by done. destruct (decide (u = init)) as [->|Hui]; [by rewrite Hi, lookup_insert_eq|].
    rewrite lookup_insert_ne, Ho by done. destruct (T !! u) as [bu|]; [|done]. simpl. by case_decide.
Qed.

Lemma exit_lookup T t init b bi code T' :
  exit_tasks T t init b bi code T' → T !! t = Some b → T !! init = Some bi →
  ∀ u bu', T' !! u = Some bu' → ∃ bu, T !! u = Some bu ∧ prio (inner bu') = prio (inner bu) ∧
    (u ≠ t → task_status (inner bu') = task_status (inner bu)) ∧
    parent (inner bu') =
      (if decide (u ∈ child (inner b) ∧ u ≠ t ∧ u ≠ init) then Some init else parent (inner bu)).
Proof.
  intros [Ht Hi Ho] Hb Hbi u bu' Hu.
  destruct (decide (u = t)) as [->|Hut].
  { exists b. rewrite Ht in Hu. injection Hu as <-. rewrite decide_False by tauto. by split_and!. }
  destruct (decide (u = init)) as [->|Hui].
  { exists bi. rewrite Hi in Hu. injection Hu as <-. rewrite decide_False by tauto. by split_and!. }
  rewrite Ho in Hu by done. destruct (T !! u) as [bu|]; [|done]. exists bu.
  injection Hu as <-. case_decide; [rewrite decide_True by tauto|rewrite decide_False by tauto]; by split_and!.
Qed.

Lemma exit_is_Some T t init b bi code T' :
  exit_tasks T t init b bi code T' → T !! t = Some b → T !! init = Some bi →
  ∀ u, is_Some (T' !! u) ↔ is_Some (T !! u).
Proof.
  intros [Ht Hi Ho] Hb Hbi u.
  destruct (decide (u = t)) as [->|]; [rewrite Ht, Hb; split; eauto|].
  destruct (decide (u = init)) as [->|]; [rewrite Hi, Hbi; split; eauto|].
  rewrite Ho by done. destruct (T !! u); split; intros [? ?]; try done; eauto.
Qed.

Lemma exit_status T t init b bi code T' st :
  exit_tasks T t init b bi code T' → T !! t = Some b → T !! init = Some bi → st ≠ Zombie → ∀ u,
  (∃ bu, T' !! u = Some bu ∧ task_status (inner bu) = st) ↔
  u ≠ t ∧ ∃ bu, T !! u = Some bu ∧ task_status (inner bu) = st.
Proof.
  intros Het Hb Hbi Hst u. split.
  - intros (bu' & Hu & Hs). assert (Hut : u ≠ t).
    { intros ->. rewrite (et_self _ _ _ _ _ _ _ Het) in Hu. injection Hu as <-. by subst st. }
    destruct (exit_lookup _ _ _ _ _ _ _ Het Hb Hbi u bu' Hu) as (bu & HT & _ & Hst' & _).
    split; [done|]. exists bu. by rewrite <-Hst'.
  - intros (Hut & bu & HT & Hs).
    destruct (proj2 (exit_is_Some _ _ _ _ _ _ _ Het Hb Hbi u)) as [bu' Hu]; [eauto|].
    destruct (exit_lookup _ _ _ _ _ _ _ Het Hb Hbi u bu' Hu) as (bu0 & HT0 & _ & Hst' & _).
    exists bu'. split; [done|]. rewrite Hst' by done. congruence.
Qed.

(** The children of a process after the exit of [t]. *)
Lemma exit_child_cases T t init b bi code T' u bu c :
  exit_tasks T t init b bi code T' → T !! t = Some b → T !! init = Some bi →
  T' !! u = Some bu → c ∈ child (inner bu) →
  (u = init ∧ c ∈ child (inner b)) ∨ (u ≠ t ∧ ∃ bu0, T !! u = Some bu0 ∧ c ∈ child (inner bu0)).
Proof.
  intros [Ht Hi Ho] Hb Hbi Hu Hc.
  destruct (decide (u = t)) as [->|Hut].
  { rewrite Ht in Hu. injection Hu as <-. by apply not_elem_of_nil in Hc. }
  destruct (decide (u = init)) as [->|Hui].
  { rewrite Hi in Hu. injection Hu as <-. simpl in Hc. apply elem_of_app in Hc as [?|?]; [right|left]; eauto. }
  right. split; [done|]. rewrite Ho in Hu by done. destruct (T !! u) as [bu0|]; [|done].
  exists bu0. split; [done|]. injection Hu as <-. by case_decide.
Qed.

Lemma children_disjoint (T : tasks) t u b bu c :
  NoDup (tasks_children T) → T !! t = Some b → T !! u = Some bu → u ≠ t →
  c ∈ child (inner b) → c ∉ child (inner bu).
Proof.
  intros Hnd Hb Hu Hne Hc Hc'. unfold tasks_children in Hnd.
  rewrite (bind_tasks_delete (λ b, child (inner b)) T t b Hb) in Hnd.
  apply NoDup_app in Hnd as (_ & Hd & _). apply (Hd c Hc).
  apply (elem_of_bind_tasks (λ b, child (inner b))). exists u, bu. by rewrite lookup_delete_ne.
Qed.

Lemma sched_exit T q t init next b bi code T' :
  sched_inv T q (Some t) init next → T !! t = Some b → T !! init = Some bi → t ≠ init →
  exit_tasks T t init b bi code T' → sched_inv T' q None init next.
Proof.
  intros Hsi Hb Hbi Hne Het. pose proof Hsi as [Hf Hr Hq Hrun Hi Hcn Hc Hp Hz Hpr].
  pose proof (exit_children _ _ _ _ _ _ _ Het Hb Hbi Hne) as Hch.
  assert (Hsome := exit_is_Some _ _ _ _ _ _ _ Het Hb Hbi).
  assert (Hrt : task_status (inner b) = Running).
  { destruct (proj1 (Hrun t) eq_refl) as (b0 & ? & ?). congruence. }
  split.
  - intros u. rewrite Hsome. apply Hf.
  - intros u. rewrite (exit_status _ _ _ _ _ _ _ Ready Het Hb Hbi) by done. rewrite Hr. split; [|tauto].
    intros (bu & Hu & Hs). split; [|eauto]. intros ->. congruence.
  - done.
  - intros u. rewrite (exit_status _ _ _ _ _ _ _ Running Het Hb Hbi) by done. rewrite <-Hrun. naive_solver.
  - destruct Hi as (bi' & Hbi' & Hni). rewrite Hbi in Hbi'. injection Hbi' as <-.
    eexists. split; [apply Het|done].
  - by rewrite Hch.
  - intros c. by rewrite Hch, Hc, Hsome.
  - intros u bu c Hu Hin.
    destruct (exit_child_cases _ _ _ _ _ _ _ _ _ _ Het Hb Hbi Hu Hin) as [[-> Hcb]|(Hut & bu0 & Hu0 & Hin0)].
    + destruct (Hp t b c Hb Hcb) as (Hlt & bc & Hbc & _).
      assert (Hci : c ≠ init). { apply Hc. apply (elem_of_bind_tasks (λ b, child (inner b))). eauto. }
      split; [destruct (Hf c); [eauto|lia]|].
      destruct (proj2 (Hsome c)) as [bc' Hbc']; [eauto|]. exists bc'. split; [done|].
      destruct (exit_lookup _ _ _ _ _ _ _ Het Hb Hbi c bc' Hbc') as (bc0 & _ & _ & _ & ->).
      apply decide_True. split_and!; [done|lia|done].
    + destruct (Hp u bu0 c Hu0 Hin0) as (Hlt & bc & Hbc & Hpc). split; [done|].
      destruct (proj2 (Hsome c)) as [bc' Hbc']; [eauto|]. exists bc'. split; [done|].
      destruct (exit_lookup _ _ _ _ _ _ _ Het Hb Hbi c bc' Hbc') as (bc0 & Hbc0 & _ & _ & ->).
      rewrite decide_False; [congruence|]. intros (Hcb & _).
      by apply (children_disjoint T t u b bu0 c Hcn Hb Hu0 Hut Hcb).
  - intros u bu Hu Hs. destruct (decide (u = t)) as [->|Hut].
    { rewrite (et_self _ _ _ _ _ _ _ Het) in Hu. by injection Hu as <-. }
    destruct (exit_lookup _ _ _ _ _ _ _ Het Hb Hbi u bu Hu) as (bu0 & Hu0 & _ & Hst & _).
    rewrite Hst in Hs by done. pose proof (Hz u bu0 Hu0 Hs) as Hnil.
    destruct (child (inner bu)) as [|c l] eqn:Ec; [done|exfalso].
    assert (Hin : c ∈ child (inner bu)) by (rewrite Ec; by left).
    destruct (exit_child_cases _ _ _ _ _ _ _ _ _ _ Het Hb Hbi Hu Hin) as [[-> _]|(_ & bu1 & Hu1 & Hin1)].
    + destruct Hi as (bi' & Hbi' & Hni). congruence.
    + rewrite Hu0 in Hu1. injection Hu1 as <-. rewrite Hnil in Hin1. by apply not_elem_of_nil in Hin1.
  - intros u bu Hu. destruct (exit_lookup _ _ _ _ _ _ _ Het Hb Hbi u bu Hu) as (bu0 & Hu0 & Hprio & Hst & _).
    rewrite Hprio. destruct (Hpr u bu0 Hu0) as [? ?]. split; [done|].
    destruct (decide (u = t)) as [->|]; [|by rewrite Hst].
    rewrite (et_self _ _ _ _ _ _ _ Het) in Hu. by injection Hu as <-.
Qed.

(** The table after [p] has reaped its child [c]. *)
Definition reaped (T : tasks) (p : nat) (bp : TaskControlBlock) (idx c : nat) : tasks :=
  delete c (<[p := map_inner (λ i, set_child (vec_remove (child i) idx) i) bp]> T).

Lemma reaped_children T p bp idx c bc :
  T !! p = Some bp → child (inner bp) !! idx = Some c → T !! c = Some bc → p ≠ c →
  child (inner bc) = [] → tasks_children T ≡ₚ c :: tasks_children (reaped T p bp idx c).
Proof.
  intros Hp Hidx Hc Hne Hnil. unfold reaped. rewrite delete_insert_ne by done. unfold tasks_children.
  rewrite (bind_tasks_delete (λ b, child (inner b)) T c bc Hc), Hnil. simpl.
  rewrite (bind_tasks_update (λ b, child (inner b)) (delete c T) p bp) by (by rewrite lookup_delete_ne).
  rewrite (bind_tasks_delete (λ b, child (inner b)) (delete c T) p bp) by (by rewrite lookup_delete_ne).
  simpl. by rewrite (vec_remove_perm _ _ _ Hidx) at 1.
Qed.

Lemma reaped_lookup T p bp idx c u bu :
  T !! p = Some bp → reaped T p bp idx c !! u = Some bu →
  u ≠ c ∧ ∃ bu0, T !! u = Some bu0 ∧ task_status (inner bu) = task_status (inner bu0) ∧
    parent (inner bu) = parent (inner bu0) ∧ prio (inner bu) = prio (inner bu0) ∧
    child (inner bu) = if decide (u = p) then vec_remove (child (inner bp)) idx else child (inner bu0).
Proof.
  unfold reaped. intros Hp [Hne Hu]%lookup_delete_Some. split; [done|].
  apply lookup_insert_Some in Hu as [[<- <-]|[Hn Hu]]; [exists bp|exists bu].
  - by rewrite decide_True.
  - by rewrite decide_False.
Qed.

Lemma reaped_lookup_rev T p bp idx c u bu0 :
  u ≠ c → T !! p = Some bp → T !! u = Some bu0 →
  ∃ bu, reaped T p bp idx c !! u = Some bu ∧ task_status (inner bu) = task_status (inner bu0) ∧
    parent (inner bu) = parent (inner bu0).
Proof.
  intros Hne Hp Hu. unfold reaped. rewrite lookup_delete_ne by done.
  destruct (decide (u = p)) as [->|]; [|rewrite lookup_insert_ne by done; eauto].
  rewrite lookup_insert_eq. rewrite Hp in Hu. injection Hu as <-. eauto.
Qed.

Lemma sched_reap T q p init next bp idx c bc :
  sched_inv T q (Some p) init next → T !! p = Some bp → child (inner bp) !! idx = Some c →
  T !! c = Some bc → task_status (inner bc) = Zombie →
  sched_inv (reaped T p bp idx c) q (Some p) init next.
Proof.
  intros Hsi Hbp Hidx Hbc Hzc. pose proof Hsi as [Hf Hr Hq Hrun Hi Hcn Hc Hp Hz Hpr].
  assert (Hin : c ∈ child (inner bp)) by (by eapply list_elem_of_lookup_2).
  destruct (Hp p bp c Hbp Hin) as (Hlt & _).
  assert (Hpc : p ≠ c) by lia.
  pose proof (reaped_children T p bp idx c bc Hbp Hidx Hbc Hpc (Hz c bc Hbc Hzc)) as Hch.
  assert (Hcn' := Hcn). rewrite Hch, NoDup_cons in Hcn'. destruct Hcn' as [Hcnot Hcn'].
  assert (Hst : ∀ st u, st ≠ Zombie →
    (∃ bu, reaped T p bp idx c !! u = Some bu ∧ task_status (inner bu) = st) ↔
    (∃ bu, T !! u = Some bu ∧ task_status (inner bu) = st)).
  { intros st u Hst. split.
    - intros (bu & Hu & <-). destruct (reaped_lookup _ _ _ _ _ _ _ Hbp Hu) as (_ & bu0 & ? & -> & _). eauto.
    - intros (bu0 & Hu & <-). assert (u ≠ c) by (intros ->; congruence).
      destruct (reaped_lookup_rev T p bp idx c u bu0) as (bu & ? & ? & _); eauto. }
  assert (Hsome : ∀ u, is_Some (reaped T p bp idx c !! u) ↔ u ≠ c ∧ is_Some (T !! u)).
  { intros u. split.
    - intros [bu Hu]. destruct (reaped_lookup _ _ _ _ _ _ _ Hbp Hu) as (? & bu0 & ? & _). eauto.
    - intros [? [bu0 Hu]]. destruct (reaped_lookup_rev T p bp idx c u bu0) as (bu & ? & _); eauto. }
  split; try done.
  - intros u [_ ?]%Hsome. by apply Hf.
  - intros u. by rewrite Hst.
  - intros u. by rewrite Hst.
  - destruct Hi as (bi & Hbi & Hni).
    destruct (reaped_lookup_rev T p bp idx c init bi) as (bi' & ? & ? & _); [|done..|exists bi'; by split; [|congruence]].
    intros ->. congruence.
  - intros d. rewrite Hsome. split.
    + intros Hd. assert (d ∈ tasks_children T) as [? ?]%Hc by (rewrite Hch; by right).
      split_and!; [|done..]. by intros ->.
    + intros ([Hdc Hd] & Hdi). assert (Hd' : d ∈ tasks_children T) by (by apply Hc).
      rewrite Hch in Hd'. by apply elem_of_cons in Hd' as [?|?].
  - intros u bu d Hu Hd.
    destruct (reaped_lookup _ _ _ _ _ _ _ Hbp Hu) as (Huc & bu0 & Hu0 & _ & _ & _ & Hchild).
    assert (Hd0 : d ∈ child (inner bu0)).
    { rewrite Hchild in Hd. case_decide; [subst u|done]. rewrite Hbp in Hu0. injection Hu0 as <-.
      rewrite (vec_remove_perm _ _ _ Hidx). by right. }
    destruct (Hp u bu0 d Hu0 Hd0) as (Hlt' & bd & Hbd & Hpd). split; [done|].
    assert (Hdc : d ≠ c).
    { intros ->. apply Hcnot. apply (elem_of_bind_tasks (λ b, child (inner b))). eauto. }
    destruct (reaped_lookup_rev T p bp idx c d bd) as (bd' & ? & _ & ?); [done..|]. exists bd'. split; congruence.
  - intros u bu Hu Hs. destruct (reaped_lookup _ _ _ _ _ _ _ Hbp Hu) as (_ & bu0 & Hu0 & Hss & _ & _ & ->).
    rewrite Hss in Hs. case_decide; [subst u|by eapply Hz].
    destruct (proj1 (Hrun p) eq_refl) as (bp' & ? & ?). congruence.
  - intros u bu Hu. destruct (reaped_lookup _ _ _ _ _ _ _ Hbp Hu) as (_ & bu0 & Hu0 & -> & _ & -> & _).
    by eapply Hpr.
Qed.

Section Kernel.
Context `{LinkerSymbols}.

Record kernel_ok (L : layout) (k : kernel) : Prop := {
  ko_mem : mem_inv L (k_mem k) (TASKS k);
  ko_sched : sched_inv (TASKS k) (ready_queue k) (current (PROCESSOR k)) (INITPROC k) (next_task k);
}.

End Kernel.
