(* ===== verification/ProcessSpec.v ===== *)
(** * Processes keep the kernel's invariant

    The operations on processes ([src/task], [src/syscall/process.rs]) against
    [kernel_ok]: what [fork] gives the child, that [exit] and [waitpid] return every
    resource, that each system call changes its own process only. *)
From S2P Require Import Prelude Config Machine Address FrameAllocator Ownership.
From S2P Require Import PageTable PageTree PageTableSpec MemorySet MapAreaSpec MemorySetSpec.
From S2P Require Import AddressSpace UserSpace UserMemory Fork Pid Context Task Scheduler.
From S2P Require Import SyscallProcess KernelInv.
From coqutil Require Import Byte Word.LittleEndianList.

(** ** Rules for the kernel's state *)

Lemma wp_current_unwrap k t (Q : nat → kernel → Prop) E :
  current (PROCESSOR k) = Some t → Q t k → wp current_task_unwrap Q E k.
Proof.
  intros Hc HQ. unfold current_task_unwrap, current_task, Processor_current. do 2 wp_step. rewrite Hc. by wp_step.
Qed.

Lemma wp_get_pid k t b (Q : Z → kernel → Prop) E :
  TASKS k !! t = Some b → Q (pid b) k → wp (get_pid t) Q E k.
Proof. intros Hb HQ. unfold get_pid, task. do 3 wp_step. rewrite Hb. by do 2 wp_step. Qed.

Lemma wp_with_kmem {A} (m : M kmem A) (Q : A → kernel → Prop) E k :
  wp m (λ a m', Q a (set_k_mem m' k)) E (k_mem k) → wp (with_kmem m) Q E k.
Proof. intros Hm. unfold with_kmem. by apply wp_zoom. Qed.

(** The pid and the kernel stack are taken together. *)
Lemma wp_slot {A} (f : PidHandle → KernelStack → M kernel A) Q E k :
  wp process_slot_new (λ slot m', wp (f slot.1 slot.2) Q E (set_k_mem m' k)) E (k_mem k) →
  wp (p ← with_kmem pid_alloc; st ← with_kmem (KernelStack_new p); f p st) Q E k.
Proof.
  unfold process_slot_new, with_kmem, zoom, wp, mbind, M_bind.
  destruct (pid_alloc (k_mem k)) as [p m|e|]; [|done..]. simpl.
  by destruct (KernelStack_new p m) as [st m'|e|].
Qed.


Section Process.
Context `{KernelEnv}.
Context (Hst : strampoline_ok).

Lemma kernel_ok_running L k t :
  kernel_ok L k → current (PROCESSOR k) = Some t →
  ∃ b, TASKS k !! t = Some b ∧ task_status (inner b) = Running ∧ live_ok (km_mm (k_mem k)) (inner b).
Proof.
  intros [(live & Hmp & _) Hsi] Hc. destruct (proj1 (si_running _ _ _ _ _ Hsi t) Hc) as (b & Hb & Hs).
  exists b. split_and!; [done..|]. destruct (mp_tasks _ _ _ _ _ Hmp t b Hb) as [_ Hl].
  by rewrite decide_False in Hl by congruence.
Qed.

(** The running process changes its own address space or its own data. *)
Lemma kernel_ok_local L k t b i' s' :
  kernel_ok L k → current (PROCESSOR k) = Some t → TASKS k !! t = Some b →
  mm_step (km_mm (k_mem k)) (task_frames b) s' (ms_frames (memory_set i')) → live_ok s' i' →
  child i' = child (inner b) → parent i' = parent (inner b) → 2 ≤ prio i' < 2 ^ 64 →
  task_status i' = Running →
  kernel_ok L (set_TASKS (<[t := map_inner (λ _, i') b]> (TASKS k))
                 (set_k_mem (set_km_mm s' (k_mem k)) k)).
Proof.
  intros [Hmem Hsi] Hc Hb Hstep Hlive Hch Hpa Hpr Hrun.
  destruct (proj1 (si_running _ _ _ _ _ Hsi t) Hc) as (b0 & Hb0 & Hs). rewrite Hb in Hb0. injection Hb0 as <-.
  split; simpl.
  - eapply mem_inv_local; [done..|]. destruct Hmem as (live & Hmp & _).
    split; [apply (mp_tasks _ _ _ _ _ Hmp t b Hb)|]. simpl. by rewrite decide_False by congruence.
  - eapply sched_same; [done..| | |]; [by split|simpl; congruence|congruence].
Qed.

(** *** Giving up the processor *)

Lemma suspend_ok L k t :
  kernel_ok L k → current (PROCESSOR k) = Some t →
  wp suspend_current_and_run_next (λ _ k', kernel_ok L k' ∧ current (PROCESSOR k') = None ∧
      ready_queue k' = ready_queue k ++ [t] ∧ k_mem k' = k_mem k ∧ INITPROC k' = INITPROC k ∧
      ∃ b, TASKS k !! t = Some b ∧ TASKS k' = <[t := map_inner (set_task_status Ready) b]> (TASKS k))
    no_panic k.
Proof.
  intros Hok Hc. destruct (kernel_ok_running L k t Hok Hc) as (b & Hb & Hs & Hl).
  destruct Hok as [Hmem Hsi]. rewrite Hc in Hsi.
  unfold suspend_current_and_run_next, take_current_task, Processor_take_current. do 2 wp_step. do 2 wp_step. wp_step. wp_step.
  rewrite Hc. do 2 wp_step. wp_step. eapply wp_update_inner; [exact Hb|].
  unfold add_task, TaskManager_add. wp_step. split_and!; [|done..|by exists b]. split; simpl.
  - eapply mem_inv_same; [done..|]. split; simpl; try done. rewrite Hs. by split.
  - eapply sched_suspend; [done..| |done]. split; simpl; try done. by eapply si_prio.
Qed.

(** *** The trap context *)

Lemma wp_translate_trap_cx s ms X f :
  MemorySet_ok s ms X → ms_frame (areas ms) TRAP_VPN f →
  wp (translate_trap_cx ms) (λ r s', r = f ∧ s' = s) no_panic s.
Proof.
  intros Hok Hf. unfold translate_trap_cx.
  change (VirtPageNum_from_VirtAddr (VirtAddr_from_usize TRAP_CONTEXT_BASE)) with
    (mret (M := M mm) TRAP_VPN).
  do 2 wp_step. wp_step. eapply wp_translate_frame; [done..|]. intros e He. do 3 wp_step. by split.
Qed.

Lemma wp_get_trap_cx {S} i (Q : Z → S → Prop) E s :
  is_ppn (trap_cx_ppn i) → trap_cx_ppn i ≠ 0 → Q (trap_cx_ppn i * 4096) s → wp (get_trap_cx i) Q E s.
Proof.
  intros Hp Hz HQ. unfold get_trap_cx, PhysPageNum_get_mut, PhysAddr_get_mut.
  rewrite PhysAddr_from_PhysPageNum_mul by done. rewrite (proj2 (Z.eqb_neq _ _)) by lia. done.
Qed.

(** A word of the trap context of an address space is written. *)
Lemma write_trap_word s ms X f i v :
  MemorySet_ok s ms X → framed ms → ms_frame (areas ms) TRAP_VPN f → (i < 37)%nat → is_usize v →
  let s' := {| phys := store64 (phys s) (f * 4096 + 8 * Z.of_nat i) v;
               FRAME_ALLOCATOR := FRAME_ALLOCATOR s |} in
  ms_step s ms s' ms X ∧
  load_words (phys s') (f * 4096) 37 = <[i := v]> (load_words (phys s) (f * 4096) 37) ∧
  (∀ va, va / 4096 ∈ areas_vpns (areas ms) → va / 4096 ≠ TRAP_VPN →
    user_byte s' ms va = user_byte s ms va).
Proof.
  intros Hok Hfr Hf Hi Hv s'. set (va0 := TRAP_VPN * 4096 + 8 * Z.of_nat i).
  assert (Hva0 : va0 / 4096 = TRAP_VPN ∧ va0 mod 4096 = 8 * Z.of_nat i) by (unfold va0, TRAP_VPN; zsolve).
  destruct Hva0 as [Hdiv Hmod].
  destruct (user_store s ms X Hok va0 (le_split 8 v) f) as (Hstep & _ & Hb).
  { by rewrite Hdiv. }
  { rewrite length_le_split, Hmod. lia. }
  rewrite Hmod, length_le_split in *. split_and!.
  - exact Hstep.
  - by apply load_words_store64.
  - intros va Hva Hne. destruct (framed_frame _ _ _ _ Hok Hfr Hva) as [g Hg].
    etransitivity; [exact (Hb va g Hg)|]. rewrite decide_False; [done|]. intros Hin. apply Hne.
    unfold va0, TRAP_VPN, TRAMPOLINE_VPN in *. zsolve.
Qed.

(** *** A new process

    While a process is made, its address space [C] is held by the routine. *)

Lemma held_kernel_step L m live T C X m' X' :
  mem_part L m live T (ms_frames C) → MemorySet_ok (km_mm m) C X → framed C →
  ms_step (km_mm m) (KERNEL_SPACE m) (km_mm m') (KERNEL_SPACE m') X' →
  MemorySet_ok (km_mm m') C X ∧
  (∀ va, va / 4096 ∈ areas_vpns (areas C) → user_byte (km_mm m') C va = user_byte (km_mm m) C va) ∧
  (∀ f, f ∈ ms_frames C → page_agree (phys (km_mm m)) (phys (km_mm m')) f).
Proof.
  intros Hmp Hok Hfr [_ Hstep _].
  assert (Hd : ∀ f, f ∈ ms_frames C → f ∉ ms_frames (KERNEL_SPACE m)) by (intros; by eapply mp_held_kernel).
  destruct (mm_step_isolates _ _ _ _ _ _ _ Hok Hstep Hd) as (Hok' & _ & Hag). split_and!; [done| |].
  - intros va Hva. by eapply isolated_user_byte.
  - intros f Hf. by apply Hag.
Qed.

(** The process is entered into the store as a child of [p]. *)
Lemma mem_inv_new L m live T p bp t bc :
  mem_part L m (pid bc :: live) T (task_frames bc) → live ≡ₚ tasks_pids T →
  T !! p = Some bp → T !! t = None → task_mem_ok (km_mm m) bc →
  mem_inv L m (<[p := map_inner (λ i, set_child (vec_push (child i) t) i) bp]> (<[t := bc]> T)).
Proof.
  intros Hmp Hl Hp Ht Hbc. assert (p ≠ t) by congruence.
  assert (Hp' : <[t := bc]> T !! p = Some bp) by (by rewrite lookup_insert_ne).
  eapply (mem_inv_same L m _ p bp); [|done|by split].
  exists (pid bc :: live). split; [apply mp_put; [by rewrite app_nil_r|done..]|].
  rewrite tasks_pids_bind, (bind_tasks_insert (λ b, [pid b]) T t bc Ht). simpl.
  by rewrite Hl, tasks_pids_bind.
Qed.

(** The context the child of a [fork] starts with. *)
Definition child_cx (kernel_sp : Z) (cx : TrapContext) : TrapContext :=
  {| cx_x := <[10%nat := 0]> (cx_x cx); cx_sstatus := cx_sstatus cx; cx_sepc := cx_sepc cx;
     cx_kernel_satp := cx_kernel_satp cx; cx_kernel_sp := kernel_sp;
     cx_trap_handler := cx_trap_handler cx |}.

Lemma child_cx_words ws ksp :
  length ws = 37%nat → words_cx (<[10%nat := 0]> (<[35%nat := ksp]> ws)) = child_cx ksp (words_cx ws).
Proof.
  intros Hl. do 38 (destruct ws as [|? ws]; [discriminate Hl || reflexivity|]). discriminate Hl.
Qed.

(** What [fork] copies. *)
Record child_of (p : nat) (i : TaskControlBlockInner) (bc : TaskControlBlock) : Prop := {
  co_status : task_status (inner bc) = Ready;
  co_parent : parent (inner bc) = Some p;
  co_child : child (inner bc) = [];
  co_exit : exit_code (inner bc) = 0;
  co_files : fd_table (inner bc) = fd_table i;
  co_prio : prio (inner bc) = prio i;
  co_info : task_info_inner (inner bc) = TaskInfoInner_zero_init;
  co_heap : heap_bottom (inner bc) = heap_bottom i ∧ program_brk (inner bc) = program_brk i ∧
            base_size (inner bc) = base_size i;
  co_cx : task_cx (inner bc) =
    TaskContext_goto_trap_return trap_return_addr (KernelStack_get_top (kernel_stack bc));
}.

Abbreviation kmm k := (km_mm (k_mem k)).

(** The store with the new process [bc], and the rest of the state as it was. *)
Definition add_child (k : kernel) (p : nat) (bp bc : TaskControlBlock) (m : kmem) : kernel :=
  {| k_mem := m;
     TASKS := <[p := map_inner (λ i, set_child (vec_push (child i) (next_task k)) i) bp]>
                (<[next_task k := bc]> (TASKS k));
     next_task := S (next_task k); ready_queue := ready_queue k; PROCESSOR := PROCESSOR k;
     INITPROC := INITPROC k |}.

(** [m] is the memory after the address space of [bc] was copied from that of [bp]
    and the words of its trap context changed by [W]. *)
Record forked_mem (L : layout) (k : kernel) (bp bc : TaskControlBlock) (W : list Z → list Z)
    (live : list Z) (m : kmem) : Prop := {
  fm_part : mem_part L m (pid bc :: live) (TASKS k) (task_frames bc);
  fm_ok : task_mem_ok (km_mm m) bc;
  fm_live : live_ok (km_mm m) (inner bc);
  fm_step : mm_step (kmm k) (ms_frames (KERNEL_SPACE (k_mem k))) (km_mm m)
              (task_frames bc ++ ms_frames (KERNEL_SPACE m));
  fm_areas : Forall2 same_area (areas (memory_set (inner bp))) (areas (memory_set (inner bc)));
  fm_bytes va : va / 4096 ∈ areas_vpns (areas (memory_set (inner bp))) → va / 4096 ≠ TRAP_VPN →
    user_byte (km_mm m) (memory_set (inner bc)) va = user_byte (kmm k) (memory_set (inner bp)) va;
  fm_words : load_words (phys (km_mm m)) (trap_cx_ppn (inner bc) * 4096) 37 =
    W (load_words (phys (kmm k)) (trap_cx_ppn (inner bp) * 4096) 37);
}.

(** A word of the child's context is written. *)
Lemma forked_write L k bp bc W live m i v :
  forked_mem L k bp bc W live m → (i < 37)%nat → is_usize v →
  let s' := {| phys := store64 (phys (km_mm m)) (trap_cx_ppn (inner bc) * 4096 + 8 * Z.of_nat i) v;
               FRAME_ALLOCATOR := FRAME_ALLOCATOR (km_mm m) |} in
  forked_mem L k bp bc (λ ws, <[i := v]> (W ws)) live (set_km_mm s' m).
Proof.
  intros [Hmp Htm Hl Hstep Har Hb Hw] Hi Hv s'. pose proof Hl as [Hok Hfr Htr].
  destruct (write_trap_word _ _ _ _ i v Hok Hfr (trap_page_frame _ _ Htr) Hi Hv) as ([Hok' Hst' _] & Hw' & Hb'). fold s' in Hok', Hst', Hw', Hb'.
  assert (Hl' : live_ok s' (inner bc)) by (by split).
  split.
  - by eapply mp_step_all.
  - split; [apply Htm|]. destruct Htm as [_ Hsp]. by case_decide.
  - done.
  - eapply mm_step_trans; [exact Hstep|]. simpl. eapply mm_step_frame; [exact Hst'|]. by eapply step_owns.
  - done.
  - intros va Hva Hne. simpl. rewrite Hb'; [by apply Hb| |done]. by rewrite (same_areas_vpns _ _ Har).
  - etransitivity; [exact Hw'|]. by rewrite Hw.
Qed.

(** A copied address space has a trap context of its own. *)
Lemma same_areas_trap s s' P C f :
  MemorySet_ok s P trampoline_map → MemorySet_ok s' C trampoline_map →
  Forall2 same_area (areas P) (areas C) → framed C → trap_page (areas P) f → ∃ g, trap_page (areas C) g.
Proof.
  intros HP HC Har HCfr (a & Ha & Hf & Hp). pose proof Ha as [i Hi]%list_elem_of_lookup.
  destruct (Forall2_lookup_l _ _ _ _ _ Har Hi) as (a' & Hi' & [Hr _ Hpm]).
  eapply (trap_page_intro s' C _ a'); [done..|by eapply list_elem_of_lookup_2| |congruence].
  rewrite Hr. apply (area_dom _ (ms_areas _ _ _ _ HP a Ha)). eauto.
Qed.

(** [from_existed_user] and the kernel stack. *)
Lemma forked_mem_intro L k live p bp C s1 m2 pid_ fc bc :
  mem_part L (k_mem k) live (TASKS k) [] → TASKS k !! p = Some bp → live_ok (kmm k) (inner bp) →
  MemorySet_ok s1 C trampoline_map → Forall2 same_area (areas (memory_set (inner bp))) (areas C) →
  (∀ va, va / 4096 ∈ areas_vpns (areas (memory_set (inner bp))) →
    user_byte s1 C va = user_byte (kmm k) (memory_set (inner bp)) va) →
  mm_step (kmm k) [] s1 (ms_frames C) → trap_page (areas C) fc → framed C →
  kproc m2 trampoline_map (lay_base L) (pid_ :: live) →
  ms_step s1 (KERNEL_SPACE (k_mem k)) (km_mm m2) (KERNEL_SPACE m2) trampoline_map →
  pid bc = pid_ → kernel_stack bc = mkKernelStack pid_ → memory_set (inner bc) = C →
  trap_cx_ppn (inner bc) = fc → task_status (inner bc) = Ready →
  forked_mem L k bp bc id live m2.
Proof.
  intros Hmp Hbp [HP HPfr HPtr%trap_page_frame] HC Har Hb Hst1 Hfct HCfr Hkp Hst2 Hpid Hks Hms Htr Hstat.
  pose proof (trap_page_frame _ _ Hfct) as Hfc.
  set (m1 := set_km_mm s1 (k_mem k)).
  assert (Hmp1 : mem_part L m1 live (TASKS k) (ms_frames C)).
  { by eapply mp_step_all. }
  assert (Hmp2 : mem_part L m2 (pid_ :: live) (TASKS k) (ms_frames C)) by (by eapply (mp_kernel_step L m1)).
  destruct (held_kernel_step L m1 live (TASKS k) C _ m2 _ Hmp1 HC HCfr Hst2) as (HC2 & Hb2 & Hag2).
  assert (Hvp := same_areas_vpns _ _ Har).
  assert (Hlive : live_ok (km_mm m2) (inner bc)) by (split; [by rewrite Hms|by rewrite Hms|by rewrite Hms, Htr]).
  split.
  - rewrite Hpid. unfold task_frames. by rewrite Hms.
  - split; [by rewrite Hks, Hpid|]. by rewrite decide_False by congruence.
  - done.
  - unfold task_frames. rewrite Hms. apply (mm_step_trans _ _ s1 (ms_frames C ++ ms_frames (KERNEL_SPACE (k_mem k)))).
    + apply (mm_step_frame _ [] _ (ms_frames C)); [done|]. eapply ms_owns, kso_ok, kp_space, mp_proc, Hmp.
    + destruct Hst2 as [_ Hst2 _]. rewrite (Permutation_app_comm (ms_frames C)), (Permutation_app_comm (ms_frames C)).
      apply mm_step_frame; [done|]. destruct Hmp1 as [_ Hown _ _ _]. unfold all_frames in Hown. simpl in Hown.
      rewrite app_assoc in Hown. apply owns_app in Hown as (Hown & _). by rewrite Permutation_app_comm.
  - by rewrite Hms.
  - intros va Hva _. rewrite Hms. rewrite Hb2 by (by rewrite Hvp). by apply Hb.
  - unfold id. rewrite Htr. apply load_words_shift. intros x Hx.
    set (va := TRAP_VPN * 4096 + x).
    assert (Hva : va / 4096 = TRAP_VPN ∧ va mod 4096 = x) by (unfold va, TRAP_VPN; zsolve).
    destruct Hva as [Hdiv Hmod].
    assert (Hin : va / 4096 ∈ areas_vpns (areas (memory_set (inner bp)))).
    { rewrite Hdiv. by eapply ms_frame_vpn. }
    assert (Heq : user_byte (km_mm m2) C va = user_byte (kmm k) (memory_set (inner bp)) va).
    { rewrite Hb2 by (by rewrite Hvp). by apply Hb. }
    unfold user_byte in Heq. rewrite (user_addr_frame _ _ _ HC2 va fc), (user_addr_frame _ _ _ HP va (trap_cx_ppn (inner bp))), Hmod in Heq by (by rewrite Hdiv).
    by injection Heq.
Qed.

Definition fork_oom (k : kernel) (bp : TaskControlBlock) (e : panic_kind) : Prop :=
  e = UnwrapNone ∧
  (free_frames (kmm k) < 12 + 3 * length (areas_vpns (areas (memory_set (inner bp)))))%nat.

Lemma wp_Arc_new b (Q : nat → kernel → Prop) E k :
  Q (next_task k) {| k_mem := k_mem k; TASKS := <[next_task k := b]> (TASKS k);
    next_task := S (next_task k); ready_queue := ready_queue k; PROCESSOR := PROCESSOR k;
    INITPROC := INITPROC k |} → wp (Arc_new b) Q E k.
Proof. intros HQ. unfold Arc_new. do 2 wp_step. by do 2 wp_step. Qed.

Lemma clone_fd_table_id l : clone_fd_table l = l.
Proof. unfold clone_fd_table. induction l as [|[f|] l IH]; [done|by rewrite fmap_cons, IH..]. Qed.

Lemma stack_top_usize p : is_usize (KernelStack_get_top (mkKernelStack p)).
Proof. unfold KernelStack_get_top, pid_kernel_stack_position. simpl. usolve. Qed.

Lemma fork_spec L k p bp live :
  kernel_ok L k → mem_part L (k_mem k) live (TASKS k) [] → current (PROCESSOR k) = Some p →
  TASKS k !! p = Some bp → pid_fits (pa_current (PID_ALLOCATOR (k_mem k))) →
  wp (TaskControlBlock_fork p) (λ c k', ∃ bc m, c = next_task k ∧ k' = add_child k p bp bc m ∧
      child_of p (inner bp) bc ∧ (pid bc ∉ live) ∧
      forked_mem L k bp bc (λ ws, <[35%nat := KernelStack_get_top (kernel_stack bc)]> ws) live m)
    (fork_oom k bp) k.
Proof.
  intros Hok Hmp Hc Hbp Hpids. destruct (kernel_ok_running L k p Hok Hc) as (b0 & Hb0 & Hrun & Hlive).
  rewrite Hbp in Hb0. injection Hb0 as <-. pose proof Hlive as [HP HPfr HPtr].
  unfold TaskControlBlock_fork. wp_step. eapply wp_inner; [done|].
  wp_step. apply wp_with_frames.
  eapply wp_mono; [by apply from_existed_user_spec| |intros e [-> ?]; split; [done|lia]].
  intros C s1 (HC & Har & Hb & Hst1 & _ & _ & _ & Hcost).
  assert (HCfr : framed C) by (by eapply same_areas_framed).
  destruct (same_areas_trap _ _ _ _ _ HP HC Har HCfr HPtr) as [fc Hfct].
  pose proof (trap_page_frame _ _ Hfct) as Hfc.
  wp_step. apply wp_with_frames. eapply wp_mono; [by eapply wp_translate_trap_cx| |done].
  intros ppn s' [-> ->].
  apply wp_slot.
  eapply wp_mono; [apply (process_slot_new_spec _ trampoline_map (lay_base L) live)| |].
  - simpl. eapply (kproc_isolated (k_mem k)); [apply Hmp|exact Hst1|]. intros. apply not_elem_of_nil.
  - done.
  - intros [pd st] m2 (Hnew & Hst' & Hkp & Hms). simpl in Hnew, Hst', Hkp, Hms. subst st. cbn [fst snd].
    wp_step. apply wp_Arc_new. simpl. set (bc := {| pid := pd |}).
    assert (Hne : p ≠ next_task k).
    { intros ->. destruct (si_fresh _ _ _ _ _ (ko_sched _ _ Hok) (next_task k)); [eauto|lia]. }
    wp_step. eapply wp_update_inner; [simpl; by rewrite lookup_insert_ne|]. simpl.
    wp_step. eapply wp_inner; [simpl; rewrite lookup_insert_ne by done; apply lookup_insert_eq|].
    assert (Hfm : forked_mem L k bp bc id live m2) by (by eapply (forked_mem_intro L k live p bp C s1 m2 pd fc bc)).
    pose proof (mp_held_nonzero _ _ _ _ _ fc (fm_part _ _ _ _ _ _ _ Hfm)) as Hfc0.
    wp_step. apply wp_get_trap_cx; [by eapply ms_frame_ppn|..].
    { apply Hfc0. apply elem_of_app. right. by eapply ms_frame_in. }
    wp_step. apply wp_with_frames. unfold write_cx_kernel_sp, set_phys. wp_step. simpl. wp_step.
    eexists bc, _. split_and!; [done|reflexivity| |done|].
    + split; try done. simpl. apply clone_fd_table_id.
    + apply (forked_write L k bp bc id live m2 35); [done|lia|apply stack_top_usize].
  - intros e [-> Hf]. split; [done|]. simpl in Hf. lia.
Qed.

(** The bytes that the processes of [T] see are the same before and after. *)
Definition others_unchanged (T : tasks) (s s' : mm) : Prop := ∀ t b va,
  T !! t = Some b → task_status (inner b) ≠ Zombie →
  va / 4096 ∈ areas_vpns (areas (memory_set (inner b))) →
  user_byte s' (memory_set (inner b)) va = user_byte s (memory_set (inner b)) va.

Lemma mp_others_unchanged L m live T F O s' O' :
  mem_part L m live T F → mm_step (km_mm m) O s' O' →
  (∀ f, f ∈ O → f ∈ F ∨ f ∈ ms_frames (KERNEL_SPACE m)) → others_unchanged T (km_mm m) s'.
Proof.
  intros Hmp Hstep HO t b va Hb Hz Hva. destruct (mp_tasks _ _ _ _ _ Hmp t b Hb) as [_ Hl].
  rewrite decide_False in Hl by done. destruct Hl as [Hok Hfr _].
  eapply isolated_user_byte; [done..| |done]. intros f Hf [HF|HK]%HO.
  - by eapply (mp_held_task _ _ _ _ _ f _ _ Hmp).
  - pose proof (mp_owns _ _ _ _ _ Hmp) as (_ & Hown & _)%owns_app.
    unfold all_frames in Hown. apply owns_app in Hown as (_ & _ & Hd). apply (Hd f HK), elem_of_app.
    left. by eapply task_frames_in.
Qed.

(** What a system call of [p] that makes a process does to the rest. *)
Lemma new_process_ok L k p bp bc live m :
  kernel_ok L k → live ≡ₚ tasks_pids (TASKS k) → current (PROCESSOR k) = Some p →
  TASKS k !! p = Some bp → mem_part L m (pid bc :: live) (TASKS k) (task_frames bc) →
  task_mem_ok (km_mm m) bc → task_status (inner bc) = Ready → child (inner bc) = [] →
  parent (inner bc) = Some p → 2 ≤ prio (inner bc) < 2 ^ 64 →
  kernel_ok L (set_ready_queue (vec_push (ready_queue k) (next_task k)) (add_child k p bp bc m)).
Proof.
  intros Hok Hl Hc Hbp Hmp Htm Hst' Hch Hpa Hpr.
  pose proof (ko_sched _ _ Hok) as Hsi. split; simpl.
  - eapply mem_inv_new; [done..| |done]. destruct (TASKS k !! next_task k) eqn:E; [|done].
    destruct (si_fresh _ _ _ _ _ Hsi (next_task k)); [eauto|lia].
  - rewrite Hc in *. by apply sched_new.
Qed.

Lemma sys_fork_spec L k p bp :
  kernel_ok L k → current (PROCESSOR k) = Some p → TASKS k !! p = Some bp →
  pid_fits (pa_current (PID_ALLOCATOR (k_mem k))) →
  wp sys_fork (λ r k', ∃ bc m live,
      k' = set_ready_queue (vec_push (ready_queue k) (next_task k)) (add_child k p bp bc m) ∧
      kernel_ok L k' ∧ r = as_isize (pid bc) ∧ (pid bc ∉ tasks_pids (TASKS k)) ∧
      child_of p (inner bp) bc ∧ others_unchanged (TASKS k) (kmm k) (km_mm m) ∧
      forked_mem L k bp bc (λ ws, <[10%nat := 0]>
        (<[35%nat := KernelStack_get_top (kernel_stack bc)]> ws)) live m)
    (fork_oom k bp) k.
Proof.
  intros Hok Hc Hbp Hpids. pose proof (ko_mem _ _ Hok) as (live & Hmp & Hl).
  unfold sys_fork. wp_step. eapply wp_current_unwrap; [done|]. wp_step.
  eapply wp_mono; [by eapply fork_spec| |done].
  intros c k' (bc & m & -> & -> & Hco & Hnew & Hfm).
  assert (Hne : p ≠ next_task k).
  { intros ->. destruct (si_fresh _ _ _ _ _ (ko_sched _ _ Hok) (next_task k)); [eauto|lia]. }
  assert (Hbc : TASKS (add_child k p bp bc m) !! next_task k = Some bc)
    by (simpl; rewrite lookup_insert_ne by done; apply lookup_insert_eq).
  wp_step. eapply wp_get_pid; [exact Hbc|]. wp_step. eapply wp_inner; [exact Hbc|].
  pose proof (fm_live _ _ _ _ _ _ _ Hfm) as [HC HCfr HCtr%trap_page_frame].
  wp_step. apply wp_get_trap_cx; [by eapply ms_frame_ppn|..].
  { eapply mp_held_nonzero; [apply Hfm|]. apply elem_of_app. right. by eapply ms_frame_in. }
  wp_step. apply wp_with_frames. unfold write_cx_a0, set_phys. wp_step.
  unfold add_task, TaskManager_add. do 2 wp_step. wp_step.
  pose proof (forked_write L k bp bc _ live m 10 0 Hfm ltac:(lia) ltac:(done)) as Hfm'.
  eexists bc, _, live. split_and!; [reflexivity| |done|by rewrite <-Hl|done| |exact Hfm'].
  - simpl. destruct Hco. eapply (new_process_ok L k p bp bc live); try done; [apply Hfm'..|].
    rewrite co_prio0. by eapply si_prio; [apply Hok|].
  - eapply mp_others_unchanged; [exact Hmp|apply Hfm'|]. intros f ?. by right.
Qed.

(** *** Exit *)

Lemma exit_same_mem T t init b bi code T' :
  exit_tasks T t init b bi code T' → T !! t = Some b → T !! init = Some bi → t ≠ init →
  same_mem_tasks (<[t := map_inner (exited code) b]> T) T'.
Proof.
  intros [Ht Hi Ho] Hb Hbi Hne u. destruct (decide (u = t)) as [->|Hut].
  { rewrite lookup_insert_eq, Ht. by split. }
  rewrite lookup_insert_ne by done. destruct (decide (u = init)) as [->|Hui].
  { rewrite Hbi, Hi. by split. }
  rewrite Ho by done. destruct (T !! u); [|done]. simpl. case_decide; by split.
Qed.

Lemma exit_ok L k t b code :
  kernel_ok L k → current (PROCESSOR k) = Some t → t ≠ INITPROC k → TASKS k !! t = Some b →
  wp (exit_current_and_run_next code) (λ _ k', kernel_ok L k' ∧ current (PROCESSOR k') = None ∧
      ready_queue k' = ready_queue k ∧ INITPROC k' = INITPROC k ∧
      (∃ bi, TASKS k !! INITPROC k = Some bi ∧ exit_tasks (TASKS k) t (INITPROC k) b bi code (TASKS k')) ∧
      (∀ f, f ∈ areas_frames (areas (memory_set (inner b))) → ¬ in_use (kmm k') f) ∧
      phys (kmm k') = phys (kmm k)) no_panic k.
Proof.
  intros Hok Hc Hne Hb. destruct (kernel_ok_running L k t Hok Hc) as (b0 & Hb0 & Hrun & Hlive).
  rewrite Hb in Hb0. injection Hb0 as <-. pose proof Hok as [Hmem Hsi].
  destruct (si_init _ _ _ _ _ Hsi) as (bi & Hbi & Hinz).
  eapply wp_mono; [eapply (exit_spec k t b bi code); try done| |done].
  - pose proof (si_children _ _ _ _ _ Hsi) as Hnd. unfold tasks_children in Hnd.
    rewrite (bind_tasks_delete (λ b, child (inner b)) _ t b Hb) in Hnd. by apply NoDup_app in Hnd as (? & _).
  - intros c Hin. destruct (si_parent _ _ _ _ _ Hsi t b c Hb Hin) as (Hlt & bc & Hbc & _).
    split_and!; [lia| |by eexists]. apply (si_child _ _ _ _ _ Hsi).
    apply (elem_of_bind_tasks (λ b, child (inner b))). eauto.
  - eapply ms_mm, Hlive.
  - eapply ms_owns, Hlive.
  - intros [] k' (Hcur & Hq & (Hi & Hnx & Hks & Hpa) & H1 & H2 & H3 & Hstep & Hphys).
    assert (Het : exit_tasks (TASKS k) t (INITPROC k) b bi code (TASKS k')) by (by split).
    split_and!; [|done..|by exists bi| |done].
    + split; [|rewrite Hcur, Hq, Hi, Hnx; rewrite Hc in Hsi; by eapply sched_exit].
      eapply mem_inv_ext; [by eapply exit_same_mem|].
      replace (k_mem k') with (set_km_mm (kmm k') (k_mem k))
        by (destruct (k_mem k') as [? ? ?]; simpl in *; by subst).
      eapply mem_inv_local; [done..| | |].
      * unfold task_frames at 2, ms_frames. simpl. unfold areas_frames. simpl. by rewrite app_nil_r.
      * done.
      * destruct Hmem as (live & Hmp & _). split; [apply (mp_tasks _ _ _ _ _ Hmp t b Hb)|done].
    + intros f Hf Hu. destruct (step_no_leak _ _ _ _ Hstep f Hu) as [Hin|[_ Hn]].
      * destruct (ms_owns _ _ _ _ (lo_ms _ _ Hlive)) as [Hnd _]. apply NoDup_app in Hnd as (_ & Hd & _).
        by apply (Hd f).
      * apply Hn, elem_of_app. by right.
Qed.

End Process.
