(* ===== verification/WaitSpec.v ===== *)
(** * Reaping children ([sys_waitpid])

    The search among the children, the assertion on the reference count, and the
    release of the child's resources. *)
From S2P Require Import Prelude Config Machine Address FrameAllocator Ownership.
From S2P Require Import PageTable PageTree PageTableSpec MemorySet MapAreaSpec MemorySetSpec.
From S2P Require Import AddressSpace UserSpace UserMemory Pid Context Task Scheduler.
From S2P Require Import SyscallProcess KernelInv ProcessSpec.
From coqutil Require Import Byte Word.LittleEndianList.

(** The children a call with [pid_] is about. *)
Definition pid_matches (pid_ : Z) (b : TaskControlBlock) : Prop := pid_ = -1 ∨ pid b = as_usize pid_.

#[global] Instance pid_matches_dec pid_ b : Decision (pid_matches pid_ b).
Proof. unfold pid_matches. apply _. Defined.

Lemma any_child_spec k pid_ l :
  (∀ c, c ∈ l → is_Some (TASKS k !! c)) →
  wp (any_child pid_ l) (λ r k', k' = k ∧
    (r = true ↔ ∃ c b, c ∈ l ∧ TASKS k !! c = Some b ∧ pid_matches pid_ b)) no_panic k.
Proof.
  induction l as [|c l IH]; intros Hex; cbn [any_child].
  { wp_step. split; [done|]. split; [done|]. by intros (c & b & ?%not_elem_of_nil & _). }
  destruct (Hex c (list_elem_of_here _ _)) as [b Hb]. wp_step. eapply wp_get_pid; [done|].
  destruct ((pid b =? as_usize pid_) || (pid_ =? -1)) eqn:Hm.
  - wp_step. split; [done|]. split; [|done]. intros _. exists c, b. split_and!; [by left|done|].
    apply orb_true_iff in Hm as [Hm|Hm]; apply Z.eqb_eq in Hm; [by right|by left].
  - eapply wp_mono; [apply IH| |done].
    { intros d Hd. apply Hex. by right. }
    intros r k' [-> Hr]. split; [done|]. rewrite Hr. split.
    + intros (d & bd & ? & ? & ?). exists d, bd. split_and!; [by right|done..].
    + intros (d & bd & [->|?]%elem_of_cons & Hbd & Hmt); [exfalso|eauto 10].
      rewrite Hb in Hbd. injection Hbd as <-. apply orb_false_iff in Hm as [H1 H2].
      apply Z.eqb_neq in H1, H2. by destruct Hmt.
Qed.

(** The first child that is a zombie and matches. *)
Record first_zombie (T : tasks) (pid_ : Z) (l : list nat) (i : nat) (c : nat) (bc : TaskControlBlock)
    : Prop := {
  fz_lookup : l !! i = Some c;
  fz_task : T !! c = Some bc;
  fz_zombie : task_status (inner bc) = Zombie;
  fz_pid : pid_matches pid_ bc;
  fz_first j d bd : (j < i)%nat → l !! j = Some d → T !! d = Some bd →
    task_status (inner bd) = Zombie → ¬ pid_matches pid_ bd;
}.

Lemma find_zombie_spec k pid_ n l :
  (∀ c, c ∈ l → is_Some (TASKS k !! c)) →
  wp (find_zombie pid_ n l) (λ o k', k' = k ∧
    match o with
    | Some j => ∃ i c bc, j = (n + i)%nat ∧ first_zombie (TASKS k) pid_ l i c bc
    | None => ∀ c b, c ∈ l → TASKS k !! c = Some b → task_status (inner b) = Zombie →
                ¬ pid_matches pid_ b
    end) no_panic k.
Proof.
  revert n. induction l as [|c l IH]; intros n Hex; cbn [find_zombie].
  { wp_step. split; [done|]. by intros c b ?%not_elem_of_nil. }
  destruct (Hex c (list_elem_of_here _ _)) as [b Hb]. wp_step. eapply wp_inner; [done|].
  wp_step. eapply wp_get_pid; [done|].
  destruct (is_zombie (inner b) && ((pid_ =? -1) || (pid b =? as_usize pid_))) eqn:Hm.
  - wp_step. split; [done|]. exists 0%nat, c, b. split; [lia|].
    apply andb_true_iff in Hm as [Hz%bool_decide_eq_true Hm]. split; [done..| |intros; lia].
    apply orb_true_iff in Hm as [Hm|Hm]; apply Z.eqb_eq in Hm; [by left|by right].
  - assert (Hno : task_status (inner b) = Zombie → ¬ pid_matches pid_ b).
    { intros Hz Hmt. unfold is_zombie, get_status in Hm. rewrite bool_decide_true in Hm by done. simpl in Hm.
      apply orb_false_iff in Hm as [H1 H2]. apply Z.eqb_neq in H1, H2. by destruct Hmt. }
    eapply wp_mono; [apply (IH (S n))| |done].
    { intros d Hd. apply Hex. by right. }
    intros [j|] k' [-> Ho]; (split; [done|]).
    + destruct Ho as (i & d & bd & -> & [Hl Ht Hz Hp Hf]). exists (S i), d, bd. split; [lia|].
      split; [done..|]. intros [|j'] e be Hj He Hbe; [|apply (Hf j' e be); [lia|done..]].
      injection He as <-. rewrite Hb in Hbe. by injection Hbe as <-.
    + intros d bd [->|Hd]%elem_of_cons Hbd; [|by eapply Ho]. rewrite Hb in Hbd. by injection Hbd as <-.
Qed.

(** ** The reference count *)

Lemma count_notin (c : nat) l : c ∉ l → length (filter (λ t, t = c) l) = 0%nat.
Proof.
  intros Hn. induction l as [|d l IH]; [done|]. apply not_elem_of_cons in Hn as [Hne Hn].
  rewrite filter_cons_False by congruence. by apply IH.
Qed.

(** Once it is removed from its parent's list, nothing refers to a zombie. *)
Lemma zombie_unreferenced k p bp idx c bc :
  sched_inv (TASKS k) (ready_queue k) (current (PROCESSOR k)) (INITPROC k) (next_task k) →
  TASKS k !! p = Some bp → child (inner bp) !! idx = Some c → TASKS k !! c = Some bc →
  task_status (inner bc) = Zombie →
  strong_refs (set_TASKS (<[p := map_inner (λ i, set_child (vec_remove (child i) idx) i) bp]> (TASKS k)) k) c
    = 0%nat.
Proof.
  intros Hsi Hbp Hidx Hbc Hz. pose proof Hsi as [Hf Hr Hq Hrun Hi Hcn Hc Hp Hzc Hpr].
  assert (Hin : c ∈ child (inner bp)) by (by eapply list_elem_of_lookup_2).
  destruct (Hp p bp c Hbp Hin) as (Hlt & _). assert (Hpc : p ≠ c) by lia.
  pose proof (Hzc c bc Hbc Hz) as Hnil.
  pose proof (reaped_children _ p bp idx c bc Hbp Hidx Hbc Hpc Hnil) as Hch.
  rewrite Hch, NoDup_cons in Hcn. destruct Hcn as [Hcn _].
  unfold strong_refs. simpl. set (T1 := <[p := _]> (TASKS k)).
  rewrite !count_notin, decide_False; [done|..].
  - destruct Hi as (bi & Hbi & Hni). intros ->. congruence.
  - intros Hin'. destruct (current (PROCESSOR k)) as [t|]; simpl in Hin'; [|by apply not_elem_of_nil in Hin'].
    apply list_elem_of_singleton in Hin' as ->. destruct (proj1 (Hrun t) eq_refl) as (b' & Hb' & Hs').
    congruence.
  - intros (b' & Hb' & Hs')%Hr. congruence.
  - intros Hin'. apply Hcn. unfold reaped. unfold tasks_children.
    rewrite (bind_tasks_delete (λ b, child (inner b)) T1 c bc) in Hin'
      by (unfold T1; by rewrite lookup_insert_ne).
    rewrite Hnil in Hin'. exact Hin'.
Qed.

(** ** Dropping the block *)

Section Wait.
Context `{KernelEnv}.

Lemma wp_slot_drop {A} p st (f : M kernel A) Q E k :
  wp (process_slot_drop (p, st)) (λ _ m', wp f Q E (set_k_mem m' k)) E (k_mem k) →
  wp (with_kmem (PidHandle_drop p);; with_kmem (KernelStack_drop st);; f) Q E k.
Proof.
  unfold process_slot_drop, with_kmem, zoom, wp, mbind, M_bind. simpl.
  destruct (PidHandle_drop p (k_mem k)) as [[] m|e|]; [|done..]. simpl.
  by destruct (KernelStack_drop st m) as [[] m'|e|].
Qed.

(** A zombie leaves the store; its frames, its stack and its pid are free again. *)
Lemma drop_zombie_spec L k c bc :
  mem_inv L (k_mem k) (TASKS k) → TASKS k !! c = Some bc → task_status (inner bc) = Zombie →
  wp (TaskControlBlock_drop c) (λ _ k', ∃ m, k' = set_TASKS (delete c (TASKS k)) (set_k_mem m k) ∧
      mem_inv L m (delete c (TASKS k)) ∧
      (∀ f, f ∈ task_frames bc → ¬ in_use (km_mm m) f) ∧ ¬ pid_live (PID_ALLOCATOR m) (pid bc) ∧
      others_unchanged (delete c (TASKS k)) (km_mm (k_mem k)) (km_mm m)) no_panic k.
Proof.
  intros (live & Hmp & Hl) Hbc Hz. unfold TaskControlBlock_drop, task. do 3 wp_step. rewrite Hbc. wp_step.
  destruct (mp_tasks _ _ _ _ _ Hmp c bc Hbc) as [Hks _]. rewrite Hks.
  pose proof (mp_take _ _ _ _ _ _ _ Hmp Hbc) as Hmp1. rewrite app_nil_r in Hmp1.
  assert (Hpids : tasks_pids (TASKS k) ≡ₚ pid bc :: tasks_pids (delete c (TASKS k))).
  { rewrite !tasks_pids_bind. by rewrite (bind_tasks_delete (λ b, [pid b]) _ c bc Hbc). }
  apply wp_slot_drop. eapply wp_mono; [eapply process_slot_drop_spec; [apply Hmp|]| |done].
  { rewrite Hl, Hpids. by left. }
  intros [] m1 (live' & Hlive & Hkp1 & Hst1).
  assert (Hmp2 : mem_part L m1 live' (delete c (TASKS k)) (task_frames bc))
    by (by eapply mp_kernel_step).
  wp_step. apply wp_with_frames. simpl.
  assert (Hown : owns (km_mm m1) (task_frames bc)).
  { pose proof (mp_owns _ _ _ _ _ Hmp2) as (? & _)%owns_app. done. }
  eapply wp_mono; [apply MemorySet_drop_spec; [by eapply mp_wf|done]| |done].
  intros [] s2 [_ Hst2]. wp_step. fold (task_frames bc) in Hst2.
  pose proof (mp_step_all _ _ _ _ _ _ _ Hmp2 Hst2) as Hmp3.
  eexists _. split_and!; [reflexivity| | | |].
  - exists live'. split; [exact Hmp3|]. rewrite Hlive, Hpids in Hl. by apply Permutation_cons_inv in Hl.
  - intros f Hf. eapply mm_step_freed; [exact Hst2|done|apply not_elem_of_nil].
  - simpl. rewrite <-(kp_live _ _ _ _ Hkp1). intros Hin.
    pose proof (kso_live _ _ _ _ (kp_space _ _ _ _ (mp_proc _ _ _ _ _ Hmp))) as Hnd.
    rewrite Hlive in Hnd. by apply NoDup_cons in Hnd as [? _].
  - intros t b va Hb Hnz Hva.
    etransitivity; [exact (mp_others_unchanged _ _ _ _ _ _ _ _ Hmp2 Hst2 (λ f Hf, or_introl Hf) t b va Hb Hnz Hva)|].
    eapply mp_others_unchanged; [exact Hmp1|apply Hst1| |done..]. intros f ?. by right.
Qed.

(** A small value is stored through [translated_refmut]. *)
Lemma refmut_spec s ms X ptr :
  MemorySet_ok s ms X → framed ms → (∀ f, f ∈ ms_frames ms → f ≠ 0) → 0 ≤ ptr < 2 ^ 39 →
  ptr / 4096 ∈ areas_vpns (areas ms) →
  wp (translated_refmut (MemorySet_token ms) ptr) (λ p s', s' = s ∧
    ∃ f, ms_frame (areas ms) (ptr / 4096) f ∧ p = f * 4096 + ptr mod 4096) no_panic s.
Proof.
  intros Hok Hfr Hnz Hp Hin. destruct (framed_frame _ _ _ _ Hok Hfr Hin) as [f Hf].
  pose proof (ms_frame_ppn _ _ _ Hok _ _ Hf) as Hppn. unfold is_ppn in Hppn.
  assert (f ≠ 0) by (apply Hnz, elem_of_app; right; by eapply ms_frame_in).
  unfold wp, MemorySet_token.
  rewrite (refmut_eq s (page_table ms) ptr (f * 4096 + ptr mod 4096)); [|by eapply token_root|done| |zsolve].
  - split; [done|]. by exists f.
  - by apply (user_addr_frame _ _ _ Hok).
Qed.

Abbreviation kmm k := (km_mm (k_mem k)).

(** The state after the parent [p] reaped the child [c]. *)
Record reaps (L : layout) (k : kernel) (p : nat) (bp : TaskControlBlock) (ptr : Z) (idx c : nat)
    (bc : TaskControlBlock) (k' : kernel) : Prop := {
  rp_ok : kernel_ok L k';
  rp_tasks : TASKS k' = reaped (TASKS k) p bp idx c;
  rp_sched : ready_queue k' = ready_queue k ∧ PROCESSOR k' = PROCESSOR k ∧ INITPROC k' = INITPROC k;
  rp_code i x : le_split 4 (exit_code (inner bc)) !! i = Some x →
    user_byte (kmm k') (memory_set (inner bp)) (ptr + Z.of_nat i) = Some x;
  rp_bytes va : va / 4096 ∈ areas_vpns (areas (memory_set (inner bp))) → ¬ (ptr ≤ va < ptr + 4) →
    user_byte (kmm k') (memory_set (inner bp)) va = user_byte (kmm k) (memory_set (inner bp)) va;
  rp_others : others_unchanged (delete c (delete p (TASKS k))) (kmm k) (kmm k');
  rp_frames f : f ∈ task_frames bc → ¬ in_use (kmm k') f;
  rp_pid : ¬ pid_live (PID_ALLOCATOR (k_mem k')) (pid bc);
}.

(** The exit code reaches the memory of [p], and the child is dropped. *)
Lemma reap_spec L k p bp idx c bc ptr f :
  kernel_ok L k → current (PROCESSOR k) = Some p → TASKS k !! p = Some bp →
  child (inner bp) !! idx = Some c → TASKS k !! c = Some bc → task_status (inner bc) = Zombie →
  ms_frame (areas (memory_set (inner bp))) (ptr / 4096) f → 0 ≤ ptr → ptr mod 4096 ≤ 4092 →
  wp (with_frames (set_phys (λ m, store_bytes m (f * 4096 + ptr mod 4096) (le_split 4 (exit_code (inner bc)))));;
      TaskControlBlock_drop c;; mret (as_isize (pid bc)))
    (λ r k', r = as_isize (pid bc) ∧ reaps L k p bp ptr idx c bc k') no_panic
    (set_TASKS (<[p := map_inner (λ i, set_child (vec_remove (child i) idx) i) bp]> (TASKS k)) k).
Proof.
  intros Hok Hc Hbp Hidx Hbc Hz Hf Hp0 Hp. set (bp' := map_inner _ bp).
  destruct (kernel_ok_running L k p Hok Hc) as (b0 & Hb0 & Hrun & [HP HPfr HPtr]).
  rewrite Hbp in Hb0. injection Hb0 as <-. pose proof Hok as [Hmem Hsi].
  set (l := le_split 4 (exit_code (inner bc))).
  assert (Hlen : length l = 4%nat) by apply length_le_split.
  destruct (user_store _ _ _ HP ptr l f Hf) as ([HP' Hst _] & _ & Hb); [rewrite Hlen; lia|].
  set (s' := {| phys := store_bytes (phys (kmm k)) (f * 4096 + ptr mod 4096) l; FRAME_ALLOCATOR := _ |}) in *.
  assert (Hpc : p ≠ c) by (intros ->; congruence).
  set (k2 := set_TASKS (<[p := bp']> (TASKS k)) (set_k_mem (set_km_mm s' (k_mem k)) k)).
  assert (Hmem2 : mem_inv L (k_mem k2) (TASKS k2)).
  { eapply mem_inv_local; [exact Hmem|exact Hbp|exact Hst|done|]. destruct Hmem as (live & Hmp & _).
    split; [apply (mp_tasks _ _ _ _ _ Hmp p bp Hbp)|]. simpl. rewrite decide_False by congruence. by split. }
  assert (Hbc2 : TASKS k2 !! c = Some bc) by (simpl; by rewrite lookup_insert_ne).
  wp_step. apply wp_with_frames. unfold set_phys. wp_step. wp_step.
  change (wp (TaskControlBlock_drop c) (λ _ k', wp (mret (as_isize (pid bc)))
    (λ r k'', r = as_isize (pid bc) ∧ reaps L k p bp ptr idx c bc k'') no_panic k') no_panic k2).
  eapply wp_mono; [by apply (drop_zombie_spec L k2 c bc)| |done].
  intros [] k' (m & -> & Hmem3 & Hfr & Hpid & Hoth). wp_step. split; [done|].
  assert (HT : ∀ t b, t ≠ p → delete c (TASKS k) !! t = Some b → delete c (<[p := bp']> (TASKS k)) !! t = Some b).
  { intros t b Hne [Hct Ht]%lookup_delete_Some. by rewrite lookup_delete_ne, lookup_insert_ne by done. }
  assert (Hmine : ∀ va, va / 4096 ∈ areas_vpns (areas (memory_set (inner bp))) →
    user_byte (km_mm m) (memory_set (inner bp)) va = user_byte s' (memory_set (inner bp)) va).
  { intros va Hva. apply (Hoth p bp' va); [|simpl; congruence|done].
    simpl. rewrite lookup_delete_ne by done. apply lookup_insert_eq. }
  assert (Hpg : ∀ va, ptr ≤ va < ptr + 4 → va / 4096 = ptr / 4096) by (intros; zsolve).
  split; try done.
  - split; [exact Hmem3|]. simpl. rewrite Hc in *. by eapply sched_reap.
  - intros i x Hi. pose proof (lookup_lt_Some _ _ _ Hi) as Hi'. fold l in Hi, Hi'. rewrite Hlen in Hi'.
    assert (Hva : (ptr + Z.of_nat i) / 4096 = ptr / 4096) by (apply Hpg; lia).
    simpl. rewrite Hmine by (rewrite Hva; by eapply ms_frame_vpn).
    rewrite (Hb (ptr + Z.of_nat i) f) by (by rewrite Hva).
    rewrite decide_True by (rewrite Hlen; lia). by replace (Z.to_nat (ptr + Z.of_nat i - ptr)) with i by lia.
  - intros va Hva Hn. simpl. rewrite Hmine by done.
    destruct (framed_frame _ _ _ _ HP HPfr Hva) as [g Hg]. rewrite (Hb va g Hg).
    rewrite decide_False; [done|]. rewrite Hlen. lia.
  - intros t b va [Hct [Hpt Ht]%lookup_delete_Some]%lookup_delete_Some Hnz Hva. simpl.
    rewrite (Hoth t b va); [|apply HT; [done|by rewrite lookup_delete_ne]|done..]. simpl.
    destruct Hmem as (live & Hmp & _).
    pose proof (mp_take _ _ _ _ _ _ _ Hmp Hbp) as Hmp1. rewrite app_nil_r in Hmp1.
    eapply (mp_others_unchanged _ _ _ _ _ _ _ _ Hmp1 Hst); [intros g Hg; by left| |done..].
    by rewrite lookup_delete_ne.
Qed.

Lemma waitpid_spec L k p bp pid_ ptr :
  kernel_ok L k → current (PROCESSOR k) = Some p → TASKS k !! p = Some bp →
  0 ≤ ptr < 2 ^ 39 → ptr mod 4096 ≤ 4092 → ptr / 4096 ∈ areas_vpns (areas (memory_set (inner bp))) →
  wp (sys_waitpid pid_ ptr) (λ r k',
    (r = -1 ∧ k' = k ∧
      ∀ c b, c ∈ child (inner bp) → TASKS k !! c = Some b → ¬ pid_matches pid_ b) ∨
    (r = -2 ∧ k' = k ∧
      (∃ c b, c ∈ child (inner bp) ∧ TASKS k !! c = Some b ∧ pid_matches pid_ b) ∧
      ∀ c b, c ∈ child (inner bp) → TASKS k !! c = Some b → task_status (inner b) = Zombie →
        ¬ pid_matches pid_ b) ∨
    (∃ idx c bc, first_zombie (TASKS k) pid_ (child (inner bp)) idx c bc ∧
      r = as_isize (pid bc) ∧ reaps L k p bp ptr idx c bc k')) no_panic k.
Proof.
  intros Hok Hc Hbp Hptr Hpm Hin. pose proof Hok as [Hmem Hsi].
  destruct (kernel_ok_running L k p Hok Hc) as (b0 & Hb0 & Hrun & [HP HPfr HPtr]).
  rewrite Hbp in Hb0. injection Hb0 as <-.
  assert (Hex : ∀ c, c ∈ child (inner bp) → is_Some (TASKS k !! c)).
  { intros c Hcin. destruct (si_parent _ _ _ _ _ Hsi p bp c Hbp Hcin) as (_ & bc & ? & _). eauto. }
  unfold sys_waitpid. wp_step. eapply wp_current_unwrap; [done|]. wp_step. eapply wp_inner; [done|].
  eapply wp_call; [by apply any_child_spec|done|]. intros any k' [-> Hany].
  destruct any; simpl.
  2: { wp_step. left. split_and!; [done..|]. intros c b Hcin Hb Hm.
       assert (false = true) by (apply Hany; eauto). done. }
  eapply wp_call; [by apply find_zombie_spec|done|]. intros [j|] k' [-> Hz].
  2: { wp_step. right. left. split_and!; [done..|by apply Hany|done]. }
  destruct Hz as (idx & c & bc & -> & Hfz). simpl. pose proof Hfz as [Hl Hbc Hzc Hpm' _].
  rewrite Hl. do 2 wp_step. wp_step. eapply wp_update_inner; [done|].
  fold (map_inner (λ i, set_child (vec_remove (child i) idx) i) bp).
  assert (Hpc : p ≠ c) by (intros ->; congruence).
  do 2 wp_step. rewrite (zombie_unreferenced k p bp idx c bc) by done. wp_step.
  rewrite bool_decide_true by done. wp_step.
  assert (Hbc1 : ∀ x, TASKS (set_TASKS (<[p := x]> (TASKS k)) k) !! c = Some bc)
    by (intros; simpl; by rewrite lookup_insert_ne).
  wp_step. eapply wp_get_pid; [apply Hbc1|]. wp_step. eapply wp_inner; [apply Hbc1|].
  wp_step. apply wp_with_frames. simpl.
  destruct Hmem as (live & Hmp & Hlv).
  eapply wp_mono; [eapply (refmut_spec (kmm k) (memory_set (inner bp))); try done| |done].
  { intros g Hg. by eapply (mp_task_nonzero _ _ _ _ _ p bp). }
  intros a s' (-> & f & Hf & ->).
  eapply wp_mono; [eapply (reap_spec L k p bp idx c bc ptr f); try done; lia| |done].
  intros r k' [-> Hr]. right. right. by exists idx, c, bc.
Qed.

End Wait.
