(* ===== verification/ExecSpec.v ===== *)
(** * Starting programs ([exec] and [spwan])

    Both load an ELF file into a new address space and write the first trap context;
    [exec] replaces the address space of the caller, [spwan] makes a child. *)
From S2P Require Import Prelude Config Machine Address FrameAllocator Ownership.
From S2P Require Import PageTable PageTree PageTableSpec MemorySet MapAreaSpec MemorySetSpec.
From S2P Require Import AddressSpace UserSpace UserMemory Fork ElfLoad Pid Context Task Scheduler.
From S2P Require Import SyscallProcess KernelInv ProcessSpec.

Section Exec.
Context `{KernelEnv}.
Context (Hst : strampoline_ok).
Abbreviation kmm k := (km_mm (k_mem k)).

(** A well-formed program, as far as the loader is concerned. *)
Record elf_ok (elf_data : list byte) (elf : ElfFile) (phs : list ProgramHeader) : Prop := {
  ef_parse : ElfFile_new elf_data = Some elf;
  ef_magic : elf_magic elf = [0x7f; 0x45; 0x4c; 0x46];
  ef_headers : elf_headers elf = Some phs;
  ef_types : Forall (λ ph, is_Some (ph_type ph)) phs;
  ef_loads : Forall (load_ok elf_data) (loads phs);
  ef_top : elf_stack_top (loads phs) ≤ (TRAMPOLINE_VPN - 1) * 4096;
  ef_disjoint : NoDup (segs_vpns (elf_layout elf_data (loads phs)));
  ef_entry : is_usize (elf_entry_point elf);
}.

(** The values the processor and the linker supply are machine words. *)
Definition env_ok : Prop := is_usize sstatus_read ∧ is_usize trap_handler_addr.

(** The page of the trap context. *)
Definition trap_segment : segment :=
  mkSegment (mkSimpleRange TRAP_VPN TRAMPOLINE_VPN) (Z.lor MapPermission_R MapPermission_W) [].

(** An address space fresh from [from_elf] is that of a process. *)
Lemma laid_out_live s0 segs s ms :
  laid_out s0 segs s ms → trap_segment ∈ segs → framed ms ∧ ∃ f, trap_page (areas ms) f.
Proof.
  intros [Hok _ Har _ _] [i Hi]%list_elem_of_lookup. pose proof (seg_areas_framed _ _ Har) as Hfr.
  split; [done|]. destruct (Forall2_lookup_l _ _ _ _ _ Har Hi) as (a & Ha & Hr & _ & Hp).
  eapply trap_page_intro; [done..|by eapply list_elem_of_lookup_2| |done].
  rewrite Hr. apply elem_of_vpns. unfold trap_segment, TRAP_VPN. simpl. lia.
Qed.

Lemma trap_in_layout elf_data lds : trap_segment ∈ elf_layout elf_data lds.
Proof. unfold elf_layout. apply elem_of_app. right. by right; right; left. Qed.

(** The trap context is written. *)
Lemma write_trap_cx s ms X f cx :
  MemorySet_ok s ms X → framed ms → ms_frame (areas ms) TRAP_VPN f → cx_ok cx →
  let s' := {| phys := store_cx (phys s) (f * 4096) cx; FRAME_ALLOCATOR := FRAME_ALLOCATOR s |} in
  ms_step s ms s' ms X ∧ load_cx (phys s') (f * 4096) = cx ∧
  (∀ va, va / 4096 ∈ areas_vpns (areas ms) → va / 4096 ≠ TRAP_VPN →
    user_byte s' ms va = user_byte s ms va).
Proof.
  intros Hok Hfr Hf Hcx s'. set (va0 := TRAP_VPN * 4096).
  assert (Hva0 : va0 / 4096 = TRAP_VPN ∧ va0 mod 4096 = 0) by (unfold va0, TRAP_VPN; zsolve).
  destruct Hva0 as [Hdiv Hmod].
  assert (Hlen : length (words_bytes (cx_words cx)) = 296%nat)
    by (rewrite length_words_bytes, cx_words_length by apply Hcx; done).
  destruct (user_store s ms X Hok va0 (words_bytes (cx_words cx)) f) as (Hstep & _ & Hb).
  { by rewrite Hdiv. }
  { rewrite Hlen, Hmod. lia. }
  rewrite Hmod, Z.add_0_r in Hstep, Hb. split_and!.
  - exact Hstep.
  - by apply load_store_cx.
  - intros va Hva Hne. destruct (framed_frame _ _ _ _ Hok Hfr Hva) as [g Hg].
    etransitivity; [exact (Hb va g Hg)|]. rewrite decide_False; [done|]. rewrite Hlen. intros Hin.
    apply Hne. unfold va0, TRAP_VPN, TRAMPOLINE_VPN in *. zsolve.
Qed.

(** The first context of a program. *)
Definition start_cx (elf : ElfFile) (phs : list ProgramHeader) (satp ksp : Z) : TrapContext :=
  TrapContext_app_init_context sstatus_read (elf_entry_point elf) (elf_stack_top (loads phs))
    satp ksp trap_handler_addr.

Lemma last_end_nonneg elf_data lds : Forall (load_ok elf_data) lds → 0 ≤ last_end lds.
Proof.
  intros Hall. unfold last_end. assert (Hgen : ∀ z, 0 ≤ z → 0 ≤ foldl (λ _ ph, range_r (ph_range ph)) z lds).
  { induction Hall as [|ph lds [Hv Hp _ _] _ IH]; intros z Hz; [done|]. simpl. apply IH.
    unfold ph_range, page_range in *. simpl in *. zsolve. }
  by apply Hgen.
Qed.

Lemma start_cx_ok elf_data elf phs satp ksp :
  elf_ok elf_data elf phs → env_ok → is_usize satp → is_usize ksp → cx_ok (start_cx elf phs satp ksp).
Proof.
  intros [_ _ _ _ Hl Ht _ He] [H1 H2] Hsatp Hksp. apply app_init_context_ok; try done.
  pose proof (last_end_nonneg _ _ Hl). unfold elf_stack_top, TRAMPOLINE_VPN in *.
  unfold is_usize, usize_modulus. lia.
Qed.

Lemma token_usize ms s X : MemorySet_ok s ms X → is_usize (MemorySet_token ms).
Proof.
  intros Hok. pose proof (token_root _ _ _ Hok) as Hr. unfold MemorySet_token. rewrite token_eq by done.
  unfold is_ppn in Hr. unfold is_usize, usize_modulus. lia.
Qed.

(** The segments of a program in [ms], the frame of its context [f]. *)
Record image (segs : list segment) (s : mm) (ms : MemorySet) (f : Z) : Prop := {
  im_ok : MemorySet_ok s ms trampoline_map;
  im_framed : framed ms;
  im_trap : trap_page (areas ms) f;
  im_areas : Forall2 seg_area segs (areas ms);
  im_bytes g va : g ∈ segs → va / 4096 ∈ vpns (seg_range g) → va / 4096 ≠ TRAP_VPN →
    user_byte s ms va = Some (data_at (seg_data g) (va - range_l (seg_range g) * 4096));
}.

Lemma image_frame segs s ms f : image segs s ms f → ms_frame (areas ms) TRAP_VPN f.
Proof. intros Him. apply trap_page_frame, Him. Qed.

Lemma im_vpn segs s ms f g va :
  image segs s ms f → g ∈ segs → va / 4096 ∈ vpns (seg_range g) → va / 4096 ∈ areas_vpns (areas ms).
Proof.
  intros Him Hg Hva. rewrite (seg_areas_vpns _ _ (im_areas _ _ _ _ Him)).
  apply list_elem_of_bind. by exists g.
Qed.

Lemma image_isolated segs s ms f O s' O' :
  image segs s ms f → mm_step s O s' O' → (∀ g, g ∈ ms_frames ms → g ∉ O) → image segs s' ms f.
Proof.
  intros Him Hstep Hd. pose proof Him as [Hok Hfr Htr Har Hb]. split; [|done..|].
  - by destruct (mm_step_isolates _ _ _ _ _ _ _ Hok Hstep Hd).
  - intros g va Hg Hva Hne. erewrite isolated_user_byte; [by apply Hb|done..|]. by eapply im_vpn.
Qed.

(** [from_elf], and where it puts the trap context. *)
Lemma load_program_spec elf_data elf phs s :
  elf_ok elf_data elf phs → mm_wf s →
  wp (MemorySet_from_elf ElfFile_new elf_data) (λ r s', ∃ ms f,
      r = (ms, elf_stack_top (loads phs), elf_entry_point elf) ∧
      image (elf_layout elf_data (loads phs)) s' ms f ∧ mm_step s [] s' (ms_frames ms) ∧
      (free_frames s ≤ free_frames s' + 3 + 3 * length (segs_vpns (elf_layout elf_data (loads phs))))%nat)
    (layout_error s (elf_layout elf_data (loads phs))) s.
Proof.
  intros [Hp Hm Hh Ht Hl Htop Hnd He] Hmm.
  eapply wp_mono; [by apply (from_elf_spec ElfFile_new elf_data elf phs s)| |done].
  intros [[ms sp] en] s' (Hlo & Hsp & Hen). simpl in Hlo, Hsp, Hen. subst sp en.
  destruct (laid_out_live _ _ _ _ Hlo (trap_in_layout _ _)) as (Hfr & f & Hf).
  pose proof Hlo as [Hok Hstep Har Hb Hc]. exists ms, f. split_and!; [done| |done..].
  split; [done..|]. intros g va Hg Hva _. by apply Hb.
Qed.

(** What a program sees when it starts. *)
Record program_start (elf_data : list byte) (elf : ElfFile) (phs : list ProgramHeader)
    (satp ksp : Z) (s : mm) (i : TaskControlBlockInner) : Prop := {
  ps_image : image (elf_layout elf_data (loads phs)) s (memory_set i) (trap_cx_ppn i);
  ps_cx : load_cx (phys s) (trap_cx_ppn i * 4096) = start_cx elf phs satp ksp;
}.

Lemma image_live segs s i : image segs s (memory_set i) (trap_cx_ppn i) → live_ok s i.
Proof. intros [? ? ? _ _]. by split. Qed.

Lemma image_write_cx segs s ms f cx :
  image segs s ms f → cx_ok cx →
  let s' := {| phys := store_cx (phys s) (f * 4096) cx; FRAME_ALLOCATOR := FRAME_ALLOCATOR s |} in
  mm_step s (ms_frames ms) s' (ms_frames ms) ∧ image segs s' ms f ∧ load_cx (phys s') (f * 4096) = cx.
Proof.
  intros Him Hcx s'. pose proof Him as [Hok Hfr Htr Har Hb].
  destruct (write_trap_cx s ms _ f cx Hok Hfr (trap_page_frame _ _ Htr) Hcx) as ([Hok' Hst' _] & Hcx' & Hb'). fold s' in Hok', Hst', Hcx', Hb'.
  split_and!; [done| |done]. split; [done..|]. intros g va Hg Hva Hne.
  rewrite Hb' by (try done; by eapply im_vpn). by apply Hb.
Qed.

(** ** [exec] *)

Lemma exec_spec L k t b elf_data elf phs :
  kernel_ok L k → env_ok → current (PROCESSOR k) = Some t → TASKS k !! t = Some b →
  elf_ok elf_data elf phs →
  wp (TaskControlBlock_exec t elf_data) (λ _ k', ∃ i' s',
      k' = set_TASKS (<[t := map_inner (λ _, i') b]> (TASKS k)) (set_k_mem (set_km_mm s' (k_mem k)) k) ∧
      kernel_ok L k' ∧
      i' = set_trap_cx_ppn (trap_cx_ppn i') (set_memory_set (memory_set i') (inner b)) ∧
      program_start elf_data elf phs (MemorySet_token (KERNEL_SPACE (k_mem k)))
        (KernelStack_get_top (kernel_stack b)) s' i' ∧
      (∀ f, f ∈ task_frames b → ¬ in_use s' f) ∧
      others_unchanged (delete t (TASKS k)) (kmm k) s')
    (layout_error (kmm k) (elf_layout elf_data (loads phs))) k.
Proof.
  intros Hok Henv Hc Hb Helf. pose proof (ko_mem _ _ Hok) as (live & Hmp & Hl).
  destruct (kernel_ok_running L k t Hok Hc) as (b0 & Hb0 & Hrun & Hlive).
  rewrite Hb in Hb0. injection Hb0 as <-.
  unfold TaskControlBlock_exec. wp_step. apply wp_with_frames.
  eapply wp_mono; [eapply load_program_spec; [done|by eapply mp_wf]| |done].
  intros r s1 (ms & f & -> & Him & Hst1 & _). cbv beta iota.
  wp_step. apply wp_with_frames. simpl km_mm.
  eapply wp_mono; [eapply wp_translate_trap_cx; [apply Him|eapply image_frame, Him]| |done]. intros f' s' [-> ->].
  (* the old address space goes *)
  pose proof (mp_step_all _ _ _ _ _ _ _ Hmp Hst1) as Hmp1.
  pose proof (mp_take _ _ _ _ _ _ _ Hmp1 Hb) as Hmp2.
  pose proof (mp_owns _ _ _ _ _ Hmp2) as Hown. rewrite <-app_assoc in Hown.
  pose proof Hown as (Hown1 & _ & Hdis)%owns_app.
  unfold task. do 3 wp_step. simpl TASKS. rewrite Hb. do 2 wp_step. apply wp_with_frames. simpl km_mm.
  eapply wp_mono; [apply MemorySet_drop_spec; [by eapply (mp_wf _ _ _ _ _ Hmp1)|exact Hown1]| |done].
  intros [] s2 [_ Hst2].
  assert (Him2 : image (elf_layout elf_data (loads phs)) s2 ms f).
  { eapply image_isolated; [exact Him|exact Hst2|]. intros g Hg Hg'. apply (Hdis g Hg'), elem_of_app. by left. }
  pose proof (mp_step _ _ _ _ (task_frames b) (ms_frames ms) s2 [] Hmp2 Hst2) as Hmp3. simpl in Hmp3.
  wp_step. eapply wp_update_inner; [exact Hb|]. wp_step. eapply wp_inner; [apply lookup_insert_eq|].
  wp_step. apply wp_get_trap_cx; [eapply ms_frame_ppn; [apply Him2|exact (image_frame _ _ _ _ Him2)]|..].
  { eapply mp_held_nonzero; [exact Hmp3|]. apply elem_of_app. right. exact (ms_frame_in _ _ _ (image_frame _ _ _ _ Him2)). }
  do 2 wp_step. apply wp_with_frames. unfold write_cx, set_phys. wp_step. simpl.
  destruct Hlive as [Hmsok _ _].
  assert (Htok : is_usize (MemorySet_token (KERNEL_SPACE (k_mem k))))
    by (eapply token_usize, kso_ok, kp_space, mp_proc, Hmp).
  destruct (mp_tasks _ _ _ _ _ Hmp t b Hb) as [Hks _].
  assert (Hcx := start_cx_ok elf_data elf phs (MemorySet_token (KERNEL_SPACE (k_mem k)))
    (KernelStack_get_top (kernel_stack b)) Helf Henv Htok
    ltac:(rewrite Hks; apply stack_top_usize)).
  destruct (image_write_cx _ s2 ms f _ Him2 Hcx) as (Hst3 & Him3 & Hcx3).
  set (s3 := {| phys := store_cx _ _ _; FRAME_ALLOCATOR := _ |}) in *.
  pose proof (mp_step_all _ _ _ _ _ _ _ Hmp3 Hst3) as Hmp4.
  set (i' := set_trap_cx_ppn f (set_memory_set ms (inner b))).
  exists i', s3.
  assert (Hall : mm_step (kmm k) (task_frames b) s3 (ms_frames ms)).
  { eapply mm_step_trans; [|exact Hst3].
    apply (mm_step_trans _ _ s1 (task_frames b ++ ms_frames ms)).
    - rewrite (Permutation_app_comm (task_frames b)). apply (mm_step_frame _ [] _ (ms_frames ms)); [done|].
      eapply ms_owns, Hmsok.
    - apply (mm_step_frame _ _ _ [] (ms_frames ms) Hst2). rewrite app_assoc in Hown.
      by apply owns_app in Hown as (? & _). }
  split_and!; [reflexivity| |done|by split| |].
  - apply kernel_ok_local; try done.
    + eapply image_live. exact Him3.
    + simpl. by eapply si_prio; [apply Hok|].
  - intros g Hg. eapply mm_step_freed; [exact Hall|done|].
    intros Hg'. apply (Hdis g Hg), elem_of_app. by left.
  - pose proof (mp_take _ _ _ _ _ _ _ Hmp Hb) as Hmp0. rewrite app_nil_r in Hmp0.
    eapply mp_others_unchanged; [exact Hmp0|exact Hall|]. intros g Hg. by left.
Qed.

(** ** [spwan] *)

(** The data of a new program. *)
Record fresh_process (p : option nat) (files : list (option FileRef)) (sp : Z) (bc : TaskControlBlock) : Prop := {
  fr_status : task_status (inner bc) = Ready;
  fr_parent : parent (inner bc) = p;
  fr_child : child (inner bc) = [];
  fr_exit : exit_code (inner bc) = 0;
  fr_files : fd_table (inner bc) = files;
  fr_prio : prio (inner bc) = 16;
  fr_stride : stride (inner bc) = 0;
  fr_info : task_info_inner (inner bc) = TaskInfoInner_zero_init;
  fr_heap : heap_bottom (inner bc) = sp ∧ program_brk (inner bc) = sp ∧ base_size (inner bc) = sp;
  fr_cx : task_cx (inner bc) =
    TaskContext_goto_trap_return trap_return_addr (KernelStack_get_top (kernel_stack bc));
}.

(** The program image is held while the kernel stack is made; then the context is
    written. *)
Lemma start_held L m live T segs ms f pd m' cx :
  mem_part L m live T (ms_frames ms) → image segs (km_mm m) ms f →
  kproc m' trampoline_map (lay_base L) (pd :: live) →
  ms_step (km_mm m) (KERNEL_SPACE m) (km_mm m') (KERNEL_SPACE m') trampoline_map → cx_ok cx →
  let s' := {| phys := store_cx (phys (km_mm m')) (f * 4096) cx;
               FRAME_ALLOCATOR := FRAME_ALLOCATOR (km_mm m') |} in
  mem_part L (set_km_mm s' m') (pd :: live) T (ms_frames ms) ∧ image segs s' ms f ∧
  load_cx (phys s') (f * 4096) = cx ∧ f ≠ 0 ∧ is_ppn f ∧ others_unchanged T (km_mm m) s'.
Proof.
  intros Hmp Him Hkp Hstep Hcx s'. pose proof Hstep as [_ Hst1 _].
  assert (Him1 : image segs (km_mm m') ms f).
  { eapply image_isolated; [done|exact Hst1|]. intros. by eapply mp_held_kernel. }
  pose proof (mp_kernel_step _ _ _ _ _ _ _ _ Hmp Hstep Hkp) as Hmp1.
  destruct (image_write_cx _ _ _ _ cx Him1 Hcx) as (Hst2 & Him2 & Hcx2). fold s' in Hst2, Him2, Hcx2.
  split_and!; [by eapply mp_step_all|done|done| |eapply ms_frame_ppn; [apply Him1|exact (image_frame _ _ _ _ Him1)]|].
  - eapply mp_held_nonzero; [exact Hmp|]. apply elem_of_app. right. exact (ms_frame_in _ _ _ (image_frame _ _ _ _ Him)).
  - intros t b va Hb Hz Hva.
    rewrite (mp_others_unchanged _ _ _ _ _ _ _ _ Hmp1 Hst2 (λ g Hg, or_introl Hg) t b va Hb Hz Hva).
    eapply mp_others_unchanged; [exact Hmp|exact Hst1| |done..]. intros g Hg. by right.
Qed.

Definition spawn_oom (k : kernel) (elf_data : list byte) (phs : list ProgramHeader) (e : panic_kind) : Prop :=
  e = UnwrapNone ∧
  (free_frames (kmm k) < 9 + 3 * length (segs_vpns (elf_layout elf_data (loads phs))))%nat.

Lemma spwan_spec L k p bp live elf_data elf phs :
  kernel_ok L k → env_ok → mem_part L (k_mem k) live (TASKS k) [] → current (PROCESSOR k) = Some p →
  TASKS k !! p = Some bp → pid_fits (pa_current (PID_ALLOCATOR (k_mem k))) →
  elf_ok elf_data elf phs →
  wp (TaskControlBlock_spwan p elf_data) (λ c k', ∃ bc m satp, c = next_task k ∧
      k' = add_child k p bp bc m ∧ (pid bc ∉ live) ∧
      fresh_process (Some p) (fd_table (inner bp)) (elf_stack_top (loads phs)) bc ∧
      mem_part L m (pid bc :: live) (TASKS k) (task_frames bc) ∧ task_mem_ok (km_mm m) bc ∧
      satp = MemorySet_token (KERNEL_SPACE m) ∧
      program_start elf_data elf phs satp (KernelStack_get_top (kernel_stack bc)) (km_mm m) (inner bc) ∧
      others_unchanged (TASKS k) (kmm k) (km_mm m))
    (spawn_oom k elf_data phs) k.
Proof.
  intros Hok Henv Hmp Hc Hbp Hpids Helf. unfold TaskControlBlock_spwan.
  wp_step. eapply wp_inner; [done|]. wp_step. apply wp_with_frames.
  eapply wp_mono; [eapply load_program_spec; [done|by eapply mp_wf]| |intros e [-> ?]; split; [done|lia]].
  intros r s1 (ms & f & -> & Him & Hst1 & Hcost). cbv beta iota.
  wp_step. apply wp_with_frames. simpl km_mm.
  eapply wp_mono; [eapply wp_translate_trap_cx; [apply Him|eapply image_frame, Him]| |done]. intros f' s' [-> ->].
  pose proof (mp_step_all _ _ _ _ _ _ _ Hmp Hst1) as Hmp1. apply wp_slot.
  eapply wp_mono; [apply (process_slot_new_spec _ trampoline_map (lay_base L) live)| |].
  - apply Hmp1.
  - done.
  - intros [pd st] m2 (Hnew & Hst' & Hkp & Hms). simpl in Hnew, Hst', Hkp, Hms. subst st. cbn [fst snd].
    wp_step. apply wp_Arc_new. simpl. set (bc := {| pid := pd |}).
    assert (Hne : p ≠ next_task k).
    { intros ->. destruct (si_fresh _ _ _ _ _ (ko_sched _ _ Hok) (next_task k)); [eauto|lia]. }
    wp_step. eapply wp_inner; [simpl; apply lookup_insert_eq|].
    assert (Hcx := start_cx_ok elf_data elf phs (MemorySet_token (KERNEL_SPACE m2))
      (KernelStack_get_top (mkKernelStack pd)) Helf Henv
      ltac:(eapply token_usize, Hms) (stack_top_usize _)).
    destruct (start_held L (set_km_mm s1 (k_mem k)) live (TASKS k) _ ms f pd m2 _ Hmp1 Him Hkp Hms Hcx)
      as (Hmp2 & Him2 & Hcx2 & Hf0 & Hfp & Hoth).
    wp_step. apply wp_get_trap_cx; [done..|].
    do 2 wp_step. wp_step. apply wp_with_frames. unfold write_cx, set_phys. wp_step. simpl.
    wp_step. eapply wp_update_inner; [simpl; by rewrite lookup_insert_ne|]. wp_step.
    eexists bc, _, _. split_and!; [done|reflexivity|done| |exact Hmp2| |reflexivity|by split|].
    + split; try done. simpl. apply clone_fd_table_id.
    + split; [done|]. rewrite decide_False by done. eapply image_live. exact Him2.
    + intros t b va Hb Hz Hva. etransitivity; [by eapply Hoth|].
      eapply mp_others_unchanged; [exact Hmp|exact Hst1| |done..]. by intros g ?%not_elem_of_nil.
  - intros e [-> Hf]. split; [done|]. simpl in Hf. lia.
Qed.

End Exec.
