(* ===== verification/SyscallSpec.v ===== *)
(** * System calls on the caller's memory ([sys_mmap], [sys_munmap], [sys_sbrk], ...)

    Each changes the address space of the running process only and keeps the
    invariant of the kernel. *)
From S2P Require Import Prelude Config Machine Address FrameAllocator Ownership.
From S2P Require Import PageTable PageTree PageTableSpec MemorySet MapAreaSpec MemorySetSpec.
From S2P Require Import AddressSpace UserSpace UserMemory Fork Pid Context Timer Task Scheduler.
From S2P Require Import SyscallProcess KernelInv ProcessSpec.
From coqutil Require Import Byte Word.LittleEndianList.

Section Calls.
Context `{KernelEnv}.
Abbreviation kmm k := (km_mm (k_mem k)).

Lemma wp_user_token k t b (Q : Z → kernel → Prop) E :
  current (PROCESSOR k) = Some t → TASKS k !! t = Some b →
  Q (MemorySet_token (memory_set (inner b))) k → wp current_user_token Q E k.
Proof.
  intros Hc Hb HQ. unfold current_user_token, current_task, Processor_current. do 2 wp_step. rewrite Hc. do 2 wp_step. wp_step.
  eapply wp_inner; [done|]. by wp_step.
Qed.

(** The kernel after the running process [t] got the address space [ms]. *)
Definition with_space (k : kernel) (t : nat) (b : TaskControlBlock) (s : mm) (ms : MemorySet) : kernel :=
  set_TASKS (<[t := map_inner (set_memory_set ms) b]> (TASKS k)) (set_k_mem (set_km_mm s (k_mem k)) k).

Lemma with_space_ok L k t b s ms :
  kernel_ok L k → current (PROCESSOR k) = Some t → TASKS k !! t = Some b →
  ms_step (kmm k) (memory_set (inner b)) s ms trampoline_map → framed ms →
  trap_page (areas ms) (trap_cx_ppn (inner b)) → kernel_ok L (with_space k t b s ms).
Proof.
  intros Hok Hc Hb [Hms Hstep _] Hfr Htr.
  destruct (kernel_ok_running L k t Hok Hc) as (b0 & Hb0 & Hrun & _). rewrite Hb in Hb0. injection Hb0 as <-.
  apply (kernel_ok_local L k t b (set_memory_set ms (inner b)) s); try done.
  simpl. by eapply si_prio; [apply Hok|].
Qed.

Lemma with_space_others L k t b s ms :
  kernel_ok L k → TASKS k !! t = Some b →
  mm_step (kmm k) (task_frames b) s (ms_frames ms) → others_unchanged (delete t (TASKS k)) (kmm k) s.
Proof.
  intros [(live & Hmp & _) _] Hb Hstep.
  pose proof (mp_take _ _ _ _ _ _ _ Hmp Hb) as Hmp1. rewrite app_nil_r in Hmp1.
  eapply mp_others_unchanged; [exact Hmp1|exact Hstep|]. intros g Hg. by left.
Qed.

(** ** [sys_mmap] *)

Lemma page_aligned_land start : Z.land start (PAGE_SIZE - 1) = start mod 4096.
Proof. change (PAGE_SIZE - 1) with (Z.ones 12). rewrite Z.land_ones by lia. done. Qed.

Lemma mmap_perm_range port : is_perm (mmap_perm port).
Proof.
  unfold mmap_perm, is_perm. destruct (_ =? 1), (_ =? 2), (_ =? 4); vm_compute; split; congruence.
Qed.

(** The arguments that [sys_mmap] refuses at once. *)
Definition mmap_bad (start port : Z) : Prop :=
  Z.land port 7 = 0 ∨ Z.land port (Z.lnot 7) ≠ 0 ∨ start mod 4096 ≠ 0.

Lemma mmap_guard start port :
  (Z.land port 7 =? 0) || negb (Z.land port (Z.lnot 7) =? 0) || negb (Z.land start (PAGE_SIZE - 1) =? 0)
    = true ↔ mmap_bad start port.
Proof.
  rewrite page_aligned_land, !orb_true_iff, !negb_true_iff, Z.eqb_eq, !Z.eqb_neq. unfold mmap_bad. tauto.
Qed.

Lemma range_va start len : 0 ≤ start → 0 ≤ len → start + len < 2 ^ 39 →
  VirtAddr_from_usize start = start ∧ VirtAddr_from_usize (start +u len) = start + len.
Proof. intros. rewrite usize_add_small by lia. rewrite !VirtAddr_from_usize_mod, !Z.mod_small by lia. done. Qed.

Definition mmap_oom (k : kernel) (start len : Z) (e : panic_kind) : Prop :=
  e = UnwrapNone ∧ (free_frames (kmm k) < 3 * length (vpns (page_range start (start + len))))%nat.

Lemma mmap_spec L k t b start len port :
  kernel_ok L k → current (PROCESSOR k) = Some t → TASKS k !! t = Some b →
  0 ≤ start → 0 ≤ len → start + len < 2 ^ 39 →
  let ms := memory_set (inner b) in let r := page_range start (start + len) in
  let mapped := λ v, is_Some (pt_lookup (phys (kmm k)) (page_table ms) v) in
  wp (sys_mmap start len port) (λ res k',
    (res = -1 ∧ k' = k ∧ (mmap_bad start port ∨ ∃ v, v ∈ vpns r ∧ mapped v)) ∨
    (res = 0 ∧ ¬ mmap_bad start port ∧ (∀ v, v ∈ vpns r → ¬ mapped v) ∧
     ∃ ms' s', k' = with_space k t b s' ms' ∧ kernel_ok L k' ∧
       (∀ v, v ∈ vpns r → ∃ f, page_zero (phys s') f ∧
          pt_lookup (phys s') (page_table ms') v = Some (PTE_new f (Z.lor (mmap_perm port) PTE_V))) ∧
       (∀ v, is_vpn v → v ∉ vpns r →
          pt_lookup (phys s') (page_table ms') v = pt_lookup (phys (kmm k)) (page_table ms) v) ∧
       (∀ va, va / 4096 ∈ areas_vpns (areas ms) → user_byte s' ms' va = user_byte (kmm k) ms va) ∧
       others_unchanged (delete t (TASKS k)) (kmm k) s'))
    (mmap_oom k start len) k.
Proof.
  intros Hok Hc Hb Hs Hl He ms r mapped.
  destruct (kernel_ok_running L k t Hok Hc) as (b0 & Hb0 & _ & [Hms Hfr Htr]). rewrite Hb in Hb0. injection Hb0 as <-.
  fold ms in Hms, Hfr, Htr. unfold sys_mmap. destruct (_ || _ || _) eqn:Hg.
  { wp_step. left. split_and!; [done..|]. left. by apply mmap_guard. }
  assert (Hbad : ¬ mmap_bad start port) by (rewrite <-mmap_guard; congruence).
  cbv zeta. destruct (range_va start len Hs Hl He) as [-> ->].
  eapply wp_call; [apply MapArea_new_spec; [lia|lia|apply mmap_perm_range]|intros e [_ ?]; zsolve|].
  intros a k' (-> & Hfresh & Har & Hrr & _ & _).
  assert (Hrng : vpn_range a = r) by (rewrite (range_eta (vpn_range a)), Har, Hrr; done).
  wp_step. eapply wp_user_token; [done..|]. fold ms.
  destruct (check_mapping_spec (kmm k) (page_table ms) a (token_root _ _ _ Hms)) as (cb & Hcb & Hcm).
  wp_step. apply wp_with_frames. unfold wp at 1. unfold MemorySet_token. rewrite Hcb. rewrite Hrng in Hcm.
  replace (set_k_mem _ k) with k by (by destruct k as [[]]). destruct cb.
  { wp_step. left. split_and!; [done..|]. right. by apply Hcm. }
  assert (Hno : ∀ v, v ∈ vpns r → ¬ mapped v).
  { intros v Hv Hm. assert (false = true) by (apply Hcm; eauto). done. }
  wp_step. unfold mapping_address_space_for_current_task, current_task, Processor_current. do 2 wp_step. rewrite Hc. do 2 wp_step.
  wp_step. eapply wp_inner; [done|]. wp_step. apply wp_with_frames. unfold mapping_address_space. fold ms.
  wp_step. eapply wp_mono; [apply insert_framed_area_spec; [exact Hms|lia|lia|apply mmap_perm_range]| |].
  - intros ms' s' (a1 & a' & Hr1 & Hty & Hpm & Hpu). wp_step. eapply wp_update_inner; [exact Hb|]. wp_step.
    fold r in Hr1. right. split_and!; [done..|]. exists ms', s'.
    pose proof (pushed_step _ _ _ _ _ _ _ Hpu) as Hst. split_and!; [reflexivity|..].
    + apply (with_space_ok L k t b s' ms' Hok Hc Hb Hst).
      * unfold framed. rewrite (pushed_areas _ _ _ _ _ _ _ Hpu). apply Forall_app. split; [done|].
        constructor; [|constructor]. by rewrite (pushed_type _ _ _ _ _ _ _ Hpu).
      * destruct Htr as (a0 & Ha0 & Hf). exists a0. split; [|done].
        rewrite (pushed_areas _ _ _ _ _ _ _ Hpu). apply elem_of_app. by left.
    + intros v Hv. rewrite <-Hr1 in Hv. destruct (pushed_lookup_new _ _ _ _ _ _ _ v Hpu Hty Hv) as (f & _ & ? & Hlk).
      exists f. by rewrite <-Hpm.
    + intros v Hv Hn. rewrite <-Hr1 in Hn. by apply (pushed_lookup_old _ _ _ _ _ _ _ v Hms Hpu).
    + intros va Hva. eapply (Fork.pushed_user_byte _ _ _ _ _ _ _ _ Hms Hfr Hpu); done.
    + eapply (with_space_others L k t b s' ms' Hok Hb), Hst.
  - intros e [[-> Hf]|[-> [Hbd|(v & Hv & Hm)]]].
    + split; [done|]. by rewrite length_vpns.
    + unfold page_range in Hbd. simpl in Hbd. zsolve.
    + by destruct (Hno v Hv).
Qed.

(** ** [sys_munmap] *)

(** The call as far as the removal of the areas; [st] and [en] are the pages. *)
Lemma munmap_calls k t b start len (Q : Z → kernel → Prop) E :
  MemorySet_ok (kmm k) (memory_set (inner b)) trampoline_map →
  current (PROCESSOR k) = Some t → TASKS k !! t = Some b → 0 ≤ start → 0 ≤ len → start + len < 2 ^ 39 →
  let ms := memory_set (inner b) in let r := page_range start (start + len) in
  let mapped := λ v, is_Some (pt_lookup (phys (kmm k)) (page_table ms) v) in
  (start mod 4096 ≠ 0 ∨ (∃ v, v ∈ vpns r ∧ ¬ mapped v) → Q (-1) k) →
  (start mod 4096 = 0 → (∀ v, v ∈ vpns r → mapped v) → ∀ ms' s',
    ms_step (kmm k) ms s' ms' trampoline_map → page_table ms' = page_table ms →
    areas ms' = not_covering (range_l r) (range_r r) (areas ms) →
    (∀ f, f ∈ areas_frames (areas ms') → page_agree (phys (kmm k)) (phys s') f) →
    (∀ v, is_vpn v → pt_lookup (phys s') (page_table ms') v =
      if decide (v ∈ areas_vpns (covering (range_l r) (range_r r) (areas ms))) then None
      else pt_lookup (phys (kmm k)) (page_table ms) v) →
    Q 0 (with_space k t b s' ms')) →
  wp (sys_munmap start len) Q E k.
Proof.
  intros Hms Hc Hb Hs Hl He ms r mapped Hneg Hpos. unfold sys_munmap.
  change (PAGE_SIZE) with 4096. destruct (Z.eqb_spec (start mod 4096) 0) as [Hal|Hal]; simpl.
  2: { wp_step. apply Hneg. by left. }
  destruct (range_va start len Hs Hl He) as [-> ->].
  eapply wp_call; [apply MapArea_new_spec; [lia|lia|vm_compute; split; congruence]|intros e [_ ?]; zsolve|].
  intros a k' (-> & Hfresh & Har & Hrr & _ & _).
  assert (Hrng : vpn_range a = r) by (rewrite (range_eta (vpn_range a)), Har, Hrr; done).
  wp_step. eapply wp_user_token; [done..|]. fold ms.
  destruct (check_unmapping_spec (kmm k) (page_table ms) a (token_root _ _ _ Hms)) as (cb & Hcb & Hcm).
  wp_step. apply wp_with_frames. unfold wp at 1. unfold MemorySet_token. rewrite Hcb. rewrite Hrng in Hcm.
  replace (set_k_mem _ k) with k by (by destruct k as [[]]). destruct cb.
  { wp_step. apply Hneg. right. destruct (proj1 Hcm eq_refl) as (v & Hv & Hn). exists v. split; [done|].
    unfold mapped. rewrite Hn. by intros [? ?]. }
  wp_step. unfold unmapping_address_space_for_current_task, current_task, Processor_current. do 2 wp_step. rewrite Hc. do 2 wp_step.
  wp_step. eapply wp_inner; [done|]. wp_step. apply wp_with_frames. unfold unmapping_address_space. fold ms.
  wp_step. eapply wp_mono; [by apply munmap_area_spec| |done].
  rewrite VirtAddr_ceil_eq by lia. change (VirtAddr_floor start) with (range_l r).
  change ((start + len + 4095) / 4096) with (range_r r).
  intros ms' s' (Hst & Hpt & Har' & Hag & Hlk). wp_step. eapply wp_update_inner; [exact Hb|]. wp_step.
  apply Hpos; try done. intros v Hv. unfold mapped.
  destruct (pt_lookup (phys (kmm k)) (page_table ms) v) eqn:Ev; [by eexists|].
  assert (false = true) by (apply Hcm; eauto). done.
Qed.

Lemma munmap_spec L k t b start len :
  kernel_ok L k → current (PROCESSOR k) = Some t → TASKS k !! t = Some b →
  0 ≤ start → 0 ≤ len → start + len < 2 ^ 39 →
  let ms := memory_set (inner b) in let r := page_range start (start + len) in
  let gone := covering (range_l r) (range_r r) (areas ms) in
  TRAP_VPN ∉ areas_vpns gone →
  let mapped := λ v, is_Some (pt_lookup (phys (kmm k)) (page_table ms) v) in
  wp (sys_munmap start len) (λ res k',
    (res = -1 ∧ k' = k ∧ (start mod 4096 ≠ 0 ∨ ∃ v, v ∈ vpns r ∧ ¬ mapped v)) ∨
    (res = 0 ∧ ∃ ms' s', k' = with_space k t b s' ms' ∧ kernel_ok L k' ∧
       (∀ v, is_vpn v → pt_lookup (phys s') (page_table ms') v =
          if decide (v ∈ areas_vpns gone) then None else pt_lookup (phys (kmm k)) (page_table ms) v) ∧
       others_unchanged (delete t (TASKS k)) (kmm k) s')) no_panic k.
Proof.
  intros Hok Hc Hb Hs Hl He ms r gone Htrap mapped.
  destruct (kernel_ok_running L k t Hok Hc) as (b0 & Hb0 & _ & [Hms Hfr Htr]). rewrite Hb in Hb0. injection Hb0 as <-.
  apply (munmap_calls k t b start len); try done; [intros Hn; by left|].
  intros Hal Hmap ms' s' Hst Hpt Har Hag Hlk. right. split; [done|]. exists ms', s'.
  split_and!; [done| |done|eapply (with_space_others L k t b s' ms' Hok Hb), Hst].
  apply (with_space_ok L k t b s' ms' Hok Hc Hb Hst).
  - unfold framed. fold ms r in Har. rewrite Har. apply Forall_forall. intros a [_ Ha]%list_elem_of_filter.
    by apply (proj1 (Forall_forall _ _) Hfr).
  - destruct Htr as (a0 & Ha0 & Hf). exists a0. split; [|done]. fold ms r in Har. rewrite Har.
    rewrite (covering_perm (range_l r) (range_r r)) in Ha0. apply elem_of_app in Ha0 as [Hg|?]; [|done].
    exfalso. apply Htrap. apply elem_of_areas_vpns. exists a0. split; [done|].
    apply (area_dom _ (ms_areas _ _ _ _ Hms a0 ltac:(rewrite (covering_perm (range_l r) (range_r r)); apply elem_of_app; by left))).
    destruct Hf. eauto.
Qed.

(** A process may unmap the page of its own trap context; the frame is free then,
    and the kernel still uses it. *)
Lemma munmap_trap_spec L k t b i a :
  kernel_ok L k → current (PROCESSOR k) = Some t → TASKS k !! t = Some b →
  areas (memory_set (inner b)) !! i = Some a → vpn_range a = mkSimpleRange TRAP_VPN TRAMPOLINE_VPN →
  wp (sys_munmap (TRAP_VPN * 4096) 4096) (λ res k', res = 0 ∧
    ∃ b', TASKS k' !! t = Some b' ∧ trap_cx_ppn (inner b') = trap_cx_ppn (inner b) ∧
      ¬ in_use (kmm k') (trap_cx_ppn (inner b')) ∧
      pt_lookup (phys (kmm k')) (page_table (memory_set (inner b'))) TRAP_VPN = None) no_panic k.
Proof.
  intros Hok Hc Hb Hi Hr.
  destruct (kernel_ok_running L k t Hok Hc) as (b0 & Hb0 & _ & [Hms Hfr Htr]). rewrite Hb in Hb0. injection Hb0 as <-.
  set (ms := memory_set (inner b)) in *. assert (Ha : a ∈ areas ms) by (by eapply list_elem_of_lookup_2).
  assert (Hrng : page_range (TRAP_VPN * 4096) (TRAP_VPN * 4096 + 4096) = mkSimpleRange TRAP_VPN TRAMPOLINE_VPN) by reflexivity.
  assert (Hva : TRAP_VPN ∈ vpns (vpn_range a)) by (rewrite Hr; apply elem_of_vpns; unfold TRAP_VPN; simpl; lia).
  destruct Htr as (a0 & Ha0 & Hf0 & _).
  assert (Hcov : a ∈ covering TRAP_VPN TRAMPOLINE_VPN (areas ms)).
  { apply list_elem_of_filter. split; [|done]. unfold covers, MapArea_get_end, MapArea_get_start, SimpleRange_get_end, SimpleRange_get_start.
    rewrite Hr. simpl. by rewrite !Z.leb_refl. }
  apply (munmap_calls k t b); try done; rewrite ?Hrng; fold ms.
  - intros [Hal|(v & Hv & Hn)]; [by vm_compute in Hal|]. exfalso. apply Hn. rewrite <-Hr in Hv.
    eapply ms_ok_mapped; [exact Hms|]. apply elem_of_areas_vpns. eauto.
  - intros _ _ ms' s' Hst Hpt Har Hag Hlk. simpl range_l in *. simpl range_r in *. split; [done|].
    exists (map_inner (set_memory_set ms') b). split_and!; [simpl; apply lookup_insert_eq|done| |].
    + simpl. eapply mm_step_freed; [apply Hst| |].
      * apply elem_of_app. right. eapply ms_frame_in. by exists a0.
      * intros Hin. destruct Hst as [Hms' _ _].
        assert (Hnt : trap_cx_ppn (inner b) ∉ frames (page_table ms)).
        { eapply (ms_frame_not_table _ _ _ Hms TRAP_VPN). by exists a0. }
        apply elem_of_app in Hin as [Hin|Hin]; [by rewrite Hpt in Hin|].
        apply elem_of_areas_frames in Hin as (a1 & Ha1 & (v & Hv)%elem_of_area_frames).
        assert (Ha1' : a1 ∈ areas ms).
        { rewrite Har in Ha1. by apply list_elem_of_filter in Ha1 as [_ ?]. }
        assert (v = TRAP_VPN) as -> by (eapply (ms_frame_inj _ _ _ Hms); [by exists a1|by exists a0]).
        assert (Hva1 : TRAP_VPN ∈ vpns (vpn_range a1)) by (apply (area_dom _ (ms_areas _ _ _ _ Hms a1 Ha1')); eauto).
        assert (Hlk' := Hlk TRAP_VPN ltac:(vm_compute; split; congruence)).
        rewrite decide_True in Hlk' by (apply elem_of_areas_vpns; eauto).
        assert (Hm : is_Some (pt_lookup (phys s') (page_table ms') TRAP_VPN)).
        { eapply ms_ok_mapped; [exact Hms'|]. apply elem_of_areas_vpns. eauto. }
        rewrite Hlk' in Hm. by destruct Hm.
    + simpl. rewrite Hlk by (vm_compute; split; congruence).
      apply decide_True. apply elem_of_areas_vpns. eauto.
Qed.

(** ** [sys_sbrk] *)

(** The heap of a process: an area that starts at the bottom page and ends with
    the page of the break. *)
Record heap_ok (i : TaskControlBlockInner) (idx : nat) (a : MapArea) : Prop := {
  hp_find : find_area (heap_bottom i / 4096) (areas (memory_set i)) = Some (idx, a);
  hp_end : range_r (vpn_range a) = (program_brk i + 4095) / 4096;
  hp_order : 0 ≤ heap_bottom i ≤ program_brk i;
  hp_bound : program_brk i < 2 ^ 38;
}.

Lemma find_area_range start al idx a :
  find_area start al = Some (idx, a) → al !! idx = Some a ∧ range_l (vpn_range a) = start.
Proof. intros (Hi & Hs & _)%list_find_Some. by split. Qed.

Lemma find_area_insert start al idx a a' :
  find_area start al = Some (idx, a) → range_l (vpn_range a') = range_l (vpn_range a) →
  find_area start (<[idx := a']> al) = Some (idx, a').
Proof.
  intros Hf Hr. pose proof (find_area_range _ _ _ _ Hf) as [Hi Hs].
  apply list_find_Some in Hf as (_ & _ & Hfirst). apply list_find_Some. split_and!.
  - apply list_lookup_insert_eq. by eapply lookup_lt_Some.
  - unfold SimpleRange_get_start. by rewrite Hr.
  - intros j y Hj Hlt. rewrite list_lookup_insert_ne in Hj by lia. by apply (Hfirst j y).
Qed.

(** The trap context stays where it is when an area below it is resized. *)
Lemma resized_trap s ms idx a n s' ms' f :
  MemorySet_ok s ms trampoline_map → framed ms → resized s ms idx a n s' ms' trampoline_map →
  areas ms !! idx = Some a → range_r (vpn_range a) ≤ TRAP_VPN → trap_page (areas ms) f →
  framed ms' ∧ trap_page (areas ms') f.
Proof.
  intros Hok Hfr [_ (a' & Har & _ & Hty & _) _] Hi Hr (a0 & Ha0 & Hf). rewrite Har. split.
  - unfold framed. rewrite Har. apply Forall_insert; [done|]. rewrite Hty.
    apply (proj1 (Forall_forall _ _) Hfr). by eapply list_elem_of_lookup_2.
  - exists a0. split; [|done]. apply list_elem_of_lookup in Ha0 as [j Hj].
    assert (Hne : j ≠ idx).
    { intros ->. rewrite Hi in Hj. injection Hj as <-.
      assert (Hv : TRAP_VPN ∈ vpns (vpn_range a)).
      { apply (area_dom _ (ms_areas _ _ _ _ Hok a ltac:(by eapply list_elem_of_lookup_2))). destruct Hf. eauto. }
      apply elem_of_vpns in Hv. lia. }
    apply (list_elem_of_lookup_2 _ j). by rewrite list_lookup_insert_ne.
Qed.

Definition with_brk (k : kernel) (t : nat) (b : TaskControlBlock) (s : mm) (ms : MemorySet) (brk : Z) : kernel :=
  set_TASKS (<[t := map_inner (λ i, set_program_brk brk (set_memory_set ms i)) b]> (TASKS k))
    (set_k_mem (set_km_mm s (k_mem k)) k).

Lemma with_brk_ok L k t b idx a n s ms brk :
  kernel_ok L k → current (PROCESSOR k) = Some t → TASKS k !! t = Some b → heap_ok (inner b) idx a →
  resized (kmm k) (memory_set (inner b)) idx a n s ms trampoline_map → kernel_ok L (with_brk k t b s ms brk).
Proof.
  intros Hok Hc Hb [Hf He Ho Hbd] Hrs.
  destruct (kernel_ok_running L k t Hok Hc) as (b0 & Hb0 & Hrun & [Hms Hfr Htr]). rewrite Hb in Hb0. injection Hb0 as <-.
  pose proof (find_area_range _ _ _ _ Hf) as [Hi _].
  destruct (resized_trap _ _ _ _ _ _ _ (trap_cx_ppn (inner b)) Hms Hfr Hrs Hi) as [Hfr' Htr']; [|done|].
  { rewrite He. unfold TRAP_VPN, TRAMPOLINE_VPN. zsolve. }
  pose proof (resized_step _ _ _ _ _ _ _ _ Hrs) as [Hms' Hst' _].
  apply (kernel_ok_local L k t b (set_program_brk brk (set_memory_set ms (inner b))) s); try done.
  simpl. by eapply si_prio; [apply Hok|].
Qed.

Lemma wp_update_brk k t b s ms brk old (Q : option Z → kernel → Prop) E :
  TASKS k !! t = Some b → Q (Some old) (with_brk k t b s ms brk) →
  wp (update_inner t (set_memory_set ms);; update_inner t (set_program_brk brk);; mret (Some old)) Q E
    (set_k_mem (set_km_mm s (k_mem k)) k).
Proof.
  intros Hb HQ. wp_step. eapply wp_update_inner; [exact Hb|]. wp_step.
  eapply wp_update_inner; [simpl; apply lookup_insert_eq|]. wp_step. simpl.
  unfold set_TASKS, set_k_mem. simpl. rewrite insert_insert_eq. exact HQ.
Qed.

Definition sbrk_error (k : kernel) (i : TaskControlBlockInner) (size : Z) (e : panic_kind) : Prop :=
  0 < size ∧ map_range_error (kmm k) (page_table (memory_set i))
    (vpns (mkSimpleRange ((program_brk i + 4095) / 4096) ((program_brk i + size + 4095) / 4096))) e.

(** The two ways [sbrk] returns. *)
Definition sbrk_result (L : layout) (k : kernel) (t : nat) (b : TaskControlBlock) (idx : nat) (a : MapArea)
    (size r : Z) (k' : kernel) : Prop :=
  let old := program_brk (inner b) in let new := old + size in
  (r = -1 ∧ k' = k ∧ new < heap_bottom (inner b)) ∨
  (r = old ∧ heap_bottom (inner b) ≤ new ∧ ∃ ms' s', k' = with_brk k t b s' ms' new ∧ kernel_ok L k' ∧
     resized (kmm k) (memory_set (inner b)) idx a ((new + 4095) / 4096) s' ms' trampoline_map ∧
     others_unchanged (delete t (TASKS k)) (kmm k) s').

Lemma sbrk_finish L k t b idx a size s' ms' E :
  kernel_ok L k → current (PROCESSOR k) = Some t → TASKS k !! t = Some b → heap_ok (inner b) idx a →
  let old := program_brk (inner b) in let new := old + size in heap_bottom (inner b) ≤ new →
  resized (kmm k) (memory_set (inner b)) idx a ((new + 4095) / 4096) s' ms' trampoline_map →
  wp (update_inner t (set_memory_set ms');; update_inner t (set_program_brk new);; mret (Some old))
    (λ o k', wp (match o with Some old_brk => mret (as_isize old_brk) | None => mret (-1) end)
       (sbrk_result L k t b idx a size) E k') E (set_k_mem (set_km_mm s' (k_mem k)) k).
Proof.
  intros Hok Hc Hb Hh old new Hge Hrs. pose proof Hh as [_ _ Ho Hbd].
  apply (wp_update_brk k t b); [done|]. wp_step. right.
  split; [unfold as_isize, old; by rewrite (proj2 (Z.ltb_lt _ _)) by lia|]. split; [done|].
  exists ms', s'. split_and!; [done|by eapply with_brk_ok|done|].
  eapply (with_space_others L k t b s' ms' Hok Hb), resized_step, Hrs.
Qed.

Lemma brk_add old size :
  0 ≤ old < 2 ^ 38 → - 2 ^ 31 ≤ size < 2 ^ 31 → as_isize old +i size = old + size.
Proof.
  intros Ho Hs. unfold isize_add, as_isize. rewrite (proj2 (Z.ltb_lt old (2 ^ 63))) by lia.
  unfold wrap64, usize_modulus. destruct (Z.ltb_spec ((old + size) mod 2 ^ 64) (2 ^ 63)); zsolve.
Qed.

Lemma sbrk_spec L k t b size idx a :
  kernel_ok L k → current (PROCESSOR k) = Some t → TASKS k !! t = Some b → heap_ok (inner b) idx a →
  - 2 ^ 31 ≤ size < 2 ^ 31 →
  wp (sys_sbrk size) (sbrk_result L k t b idx a size) (sbrk_error k (inner b) size) k.
Proof.
  intros Hok Hc Hb Hh Hsz. pose proof Hh as [Hf He Ho Hbd].
  set (old := program_brk (inner b)) in *. set (new := old + size).
  destruct (kernel_ok_running L k t Hok Hc) as (b0 & Hb0 & _ & [Hms _ _]). rewrite Hb in Hb0. injection Hb0 as <-.
  pose proof (find_area_range _ _ _ _ Hf) as [_ Hl].
  unfold sys_sbrk. wp_step. eapply wp_current_unwrap; [done|]. unfold change_program_brk. wp_step.
  wp_step. eapply wp_inner; [done|]. fold old. rewrite brk_add by lia. fold new.
  replace (as_isize (heap_bottom (inner b))) with (heap_bottom (inner b))
    by (unfold as_isize; by rewrite (proj2 (Z.ltb_lt _ _)) by lia).
  destruct (Z.ltb_spec new (heap_bottom (inner b))) as [Hlt|Hge].
  { do 2 wp_step. by left. }
  assert (Hceil : VirtAddr_ceil new = (new + 4095) / 4096) by (apply VirtAddr_ceil_eq; unfold new; lia).
  replace (as_usize new) with new by (symmetry; apply wrap64_small; unfold is_usize, usize_modulus, new; lia).
  wp_step. destruct (Z.ltb_spec size 0) as [Hneg|Hpos]; apply wp_with_frames.
  - eapply wp_mono; [apply shrink_to_spec; [exact Hms|exact Hf|]| |done].
    { rewrite Hceil, Hl, He. unfold new. zsolve. }
    intros [res ms'] s' [Hres Hrs]. simpl in Hres, Hrs. subst res. rewrite Hceil in Hrs.
    by apply sbrk_finish.
  - eapply wp_mono; [apply append_to_spec; [exact Hms|exact Hf|]| |].
    { rewrite Hceil, He. unfold new. zsolve. }
    + intros [res ms'] s' [Hres Hrs]. simpl in Hres, Hrs. subst res. rewrite Hceil in Hrs.
      by apply sbrk_finish.
    + rewrite Hceil, He. intros e Herr. unfold sbrk_error. fold old. fold new.
      destruct (decide (size = 0)) as [->|]; [|split; [lia|done]]. exfalso.
      assert (Hnil : vpns (mkSimpleRange ((old + 4095) / 4096) ((new + 4095) / 4096)) = []).
      { unfold new. rewrite Z.add_0_r. unfold vpns. simpl. by rewrite Z.sub_diag. }
      rewrite Hnil in Herr. destruct Herr as [[_ Hfr']|[_ (v & Hv & _)]]; [simpl in Hfr'; lia|].
      by apply not_elem_of_nil in Hv.
Qed.

(** The heap is still in order after [sbrk]. *)
Lemma sbrk_keeps_heap L k t b idx a size r k' :
  TASKS k !! t = Some b → heap_ok (inner b) idx a → program_brk (inner b) + size < 2 ^ 38 →
  sbrk_result L k t b idx a size r k' → ∃ b' a', TASKS k' !! t = Some b' ∧ heap_ok (inner b') idx a'.
Proof.
  intros Hb Hh Hlt [(_ & -> & _)|(_ & Hge & ms' & s' & -> & _ & Hrs & _)]; [by exists b, a|].
  pose proof Hh as [Hf He Ho Hbd]. destruct (resized_area _ _ _ _ _ _ _ _ Hrs) as (a' & Har & Hr & _).
  eexists _, a'. split; [apply lookup_insert_eq|]. split; simpl; [|by rewrite Hr|lia|done].
  rewrite Har. eapply find_area_insert; [exact Hf|by rewrite Hr].
Qed.

End Calls.
