(* ===== verification/KernelSteps.v ===== *)
(** * Small transitions keep the kernel's invariant

    The scheduler's choice of a process, [set_priority], and what the kernel writes
    into the memory of the running process. *)
From S2P Require Import Prelude Config Machine Address FrameAllocator Ownership.
From S2P Require Import PageTable PageTree PageTableSpec MemorySet MapAreaSpec MemorySetSpec.
From S2P Require Import AddressSpace UserSpace UserMemory Fork ElfLoad Pid Context Timer Task Scheduler.
From S2P Require Import SyscallProcess KernelInv ProcessSpec WaitSpec ExecSpec SyscallSpec.

(** ** The ready queue is short *)

Lemma NoDup_bounded (l : list Z) n : NoDup l → (∀ x, x ∈ l → 0 ≤ x < n) → (length l ≤ Z.to_nat n)%nat.
Proof.
  intros Hnd Hb. rewrite <-(length_seqZ 0 n). apply submseteq_length, NoDup_submseteq; [done|].
  intros x Hx. apply elem_of_seqZ. specialize (Hb x Hx). lia.
Qed.

Section Steps.
Context `{KernelEnv}.
Context (Hst : strampoline_ok).
Abbreviation kmm k := (km_mm (k_mem k)).

Lemma queue_length L k : kernel_ok L k → Z.of_nat (length (ready_queue k)) < usize_MAX.
Proof.
  intros [(live & Hmp & Hl) Hsi].
  assert (H1 : (length (ready_queue k) ≤ length (map_to_list (TASKS k)).*1)%nat).
  { apply submseteq_length, NoDup_submseteq; [apply Hsi|]. intros t Ht.
    apply (si_ready _ _ _ _ _ Hsi) in Ht as (b & Hb & _). apply list_elem_of_fmap.
    exists (t, b). split; [done|]. by apply elem_of_map_to_list. }
  assert (H2 : (length live ≤ Z.to_nat (2 ^ 27))%nat).
  { pose proof (kp_space _ _ _ _ (mp_proc _ _ _ _ _ Hmp)) as Hks. apply NoDup_bounded; [apply Hks|].
    intros p Hp%(kso_fits _ _ _ _ Hks)%pid_fits_bounds. unfold TRAMPOLINE_VPN in Hp. lia. }
  assert (H3 : length live = length (map_to_list (TASKS k))) by (rewrite Hl; apply length_fmap).
  rewrite length_fmap in H1. unfold usize_MAX. lia.
Qed.

(** ** Scheduling *)

Lemma run_ok L k :
  kernel_ok L k → current (PROCESSOR k) = None →
  wp run_tasks_iter (λ o k', kernel_ok L k' ∧ k_mem k' = k_mem k ∧
      match o with
      | Some t => current (PROCESSOR k') = Some t ∧ t ∈ ready_queue k ∧ INITPROC k' = INITPROC k ∧
          ∃ b n, TASKS k !! t = Some b ∧ TASKS k' =
            <[t := map_inner (λ i, set_task_status Running (set_stride n i)) b]> (TASKS k)
      | None => k' = k ∧ ∀ u, u ∈ ready_queue k → usize_MAX ≤ task_stride k u
      end) no_panic k.
Proof.
  intros Hok Hc. pose proof Hok as [Hmem Hsi]. unfold run_tasks_iter, fetch_task.
  eapply wp_call; [apply fetch_spec; [|by eapply queue_length|]|done|].
  { intros t (b & Hb & _)%(si_ready _ _ _ _ _ Hsi). eauto. }
  { intros t b _ Hb. destruct (si_prio _ _ _ _ _ Hsi t b Hb). lia. }
  intros [t|] k' Hf; [|wp_step; destruct Hf as [-> ?]; by split_and!].
  destruct Hf as (i & b & Hfm & Hb & ->). pose proof (fm_lookup _ _ _ _ Hfm) as Hi.
  assert (Hin : t ∈ ready_queue k) by (by eapply list_elem_of_lookup_2).
  destruct (proj1 (si_ready _ _ _ _ _ Hsi t) Hin) as (b0 & Hb0 & Hr). rewrite Hb in Hb0. injection Hb0 as <-.
  wp_step. eapply wp_update_inner; [simpl; apply lookup_insert_eq|]. do 2 wp_step. wp_step.
  unfold fetched. simpl. rewrite insert_insert_eq. split_and!; try done; [|by exists b, (stride (inner b) +u BIG_STRIDE / prio (inner b))].
  split; simpl.
  - eapply mem_inv_same; [done..|]. split; try done. simpl. rewrite Hr. by split.
  - rewrite Hc in Hsi. eapply sched_run; [done..| |done]. split; try done. simpl. by eapply si_prio.
Qed.

(** ** Small calls of the running process *)

Lemma set_prio_ok L k t b prio_ :
  kernel_ok L k → current (PROCESSOR k) = Some t → TASKS k !! t = Some b → prio_ < 2 ^ 63 →
  wp (sys_set_prio prio_) (λ r k', kernel_ok L k' ∧
      if prio_ <=? 1 then r = -1 ∧ k' = k
      else r = prio_ ∧ k' = set_TASKS (<[t := map_inner (set_prio prio_) b]> (TASKS k)) k) no_panic k.
Proof.
  intros Hok Hc Hb Hp. unfold sys_set_prio. destruct (Z.leb_spec prio_ 1); [by wp_step|].
  destruct (kernel_ok_running L k t Hok Hc) as (b0 & Hb0 & Hrun & _). rewrite Hb in Hb0. injection Hb0 as <-.
  wp_step. eapply wp_current_unwrap; [done|]. wp_step. eapply wp_update_inner; [done|]. wp_step.
  replace (as_usize prio_) with prio_ by (symmetry; apply wrap64_small; unfold is_usize, usize_modulus; lia).
  split; [|by split]. destruct Hok as [Hmem Hsi]. split; simpl.
  - eapply mem_inv_same; [done..|]. by split.
  - eapply sched_same; [done..| |done|]; [split; simpl; [done..|lia]|congruence].
Qed.

(** Data written to user memory. *)
Lemma write_user_ok L k t b ptr data len :
  kernel_ok L k → current (PROCESSOR k) = Some t → TASKS k !! t = Some b →
  0 ≤ ptr → 0 ≤ len → ptr + len < 2 ^ 39 → user_range (memory_set (inner b)) ptr (ptr + len) →
  wp (with_frames (translated_and_write_bytes (MemorySet_token (memory_set (inner b))) ptr data len))
    (λ _ k', ∃ s', k' = set_k_mem (set_km_mm s' (k_mem k)) k ∧ kernel_ok L k' ∧
       user_written (kmm k) (memory_set (inner b)) trampoline_map ptr (ptr + len) data s' ∧
       others_unchanged (delete t (TASKS k)) (kmm k) s') no_panic k.
Proof.
  intros Hok Hc Hb Hp Hl He Hr.
  destruct (kernel_ok_running L k t Hok Hc) as (b0 & Hb0 & _ & [Hms Hfr Htr]). rewrite Hb in Hb0. injection Hb0 as <-.
  apply wp_with_frames. eapply wp_mono; [by apply write_bytes_spec| |done].
  intros [] s' Hw. pose proof Hw as [Hstep _]. exists s'. split_and!; [done| |done|].
  - pose proof (with_space_ok L k t b s' _ Hok Hc Hb Hstep Hfr Htr) as Hk. unfold with_space in Hk.
    replace (map_inner (set_memory_set (memory_set (inner b))) b) with b in Hk
      by (by destruct b as [? ? []]).
    rewrite (insert_id _ _ _ Hb) in Hk. done.
  - eapply (with_space_others L k t b s' (memory_set (inner b)) Hok Hb), Hstep.
Qed.

End Steps.
