(* ===== verification/Boot.v ===== *)
(** * The first process

    The memory of the kernel between [mm::init] and [run_tasks]: who owns which frame
    once [KERNEL_SPACE] is made, the first process as [TaskControlBlock::new] makes it,
    and the invariant of a kernel with that one process.  [Start] has [rust_main] itself.
    At the end a small machine that is brought up on given bytes, for the witnesses. *)
From S2P Require Import Prelude Config Machine Address FrameAllocator Ownership.
From S2P Require Import PageTable PageTree PageTableSpec MemorySet MapAreaSpec MemorySetSpec.
From S2P Require Import AddressSpace UserSpace UserMemory Fork KernelSpace ElfLoad Pid Context.
From S2P Require Import Timer Task Scheduler SyscallProcess KernelInv ProcessSpec ExecSpec.

Section Boot.
Context `{KernelEnv}.

(** [sbss] is another linker symbol, used only here. *)
(* src: src/src/main.rs 37-45 clear_bss *)
Definition clear_bss (sbss : Z) : M mm unit :=
  set_phys (λ m, fill_bytes m sbss (ebss - sbss) Corelib.Init.Byte.x00).

(** The kernel's state once [KERNEL_SPACE] is made and no process exists. *)
Definition static_kmem (ks : MemorySet) (s : mm) : kmem :=
  {| km_mm := s; KERNEL_SPACE := ks; PID_ALLOCATOR := PidAllocator_new |}.

(** A routine that runs on the statics [set s] builds around the memory [s]. *)
Definition with_statics {S A} (set : mm → S) (m : M S A) (get : S → mm) : M mm (A * S) := λ s,
  match m (set s) with
  | Done a k => Done (a, k) (get k)
  | Panic e => Panic e
  | OutOfFuel => OutOfFuel
  end.

(** [INITPROC] as an [Arc] of a store that holds it alone. *)
Definition static_kernel (b : TaskControlBlock) (m : kmem) : kernel :=
  {| k_mem := m; TASKS := {[ 0%nat := b ]}; next_task := 1; ready_queue := [];
     PROCESSOR := Processor_new; INITPROC := 0 |}.

(** ** The first process *)

Definition boot_files : list (option FileRef) := [Some Stdin; Some Stdout; Some Stdout].

Lemma wp_with_mm {A} (m : M mm A) (Q : A → kmem → Prop) E k :
  wp m (λ a s', Q a (set_km_mm s' k)) E (km_mm k) → wp (with_mm m) Q E k.
Proof. intros Hm. by apply wp_zoom. Qed.

Lemma wp_new_slot {A} (f : PidHandle → KernelStack → M kmem A) Q E k :
  wp process_slot_new (λ slot m', wp (f slot.1 slot.2) Q E m') E k →
  wp (p ← pid_alloc; st ← KernelStack_new p; f p st) Q E k.
Proof.
  unfold process_slot_new, wp, mbind, M_bind. destruct (pid_alloc k) as [p k1| |]; [|done..].
  destruct (KernelStack_new p k1); done.
Qed.

Context (Hst : strampoline_ok).

Lemma new_task_spec L m live T elf_data elf phs :
  env_ok → mem_part L m live T [] → pid_fits (pa_current (PID_ALLOCATOR m)) →
  elf_ok elf_data elf phs →
  wp (TaskControlBlock_new elf_data) (λ b m', (pid b ∉ live) ∧
      fresh_process None boot_files (elf_stack_top (loads phs)) b ∧
      mem_part L m' (pid b :: live) T (task_frames b) ∧ task_mem_ok (km_mm m') b ∧
      program_start elf_data elf phs (MemorySet_token (KERNEL_SPACE m'))
        (KernelStack_get_top (kernel_stack b)) (km_mm m') (inner b) ∧
      others_unchanged T (km_mm m) (km_mm m'))
    (λ e, e = UnwrapNone ∧
      (free_frames (km_mm m) < 9 + 3 * length (segs_vpns (elf_layout elf_data (loads phs))))%nat) m.
Proof.
  intros Henv Hmp Hpids Helf. unfold TaskControlBlock_new. wp_step. apply wp_with_mm.
  eapply wp_mono; [eapply load_program_spec; [done..|by eapply mp_wf]| |intros e [-> ?]; split; [done|lia]].
  intros r s1 (ms & f & -> & Him & Hst1 & Hcost). cbv beta iota.
  wp_step. apply wp_with_mm. simpl km_mm.
  eapply wp_mono; [eapply wp_translate_trap_cx; [apply Him|eapply image_frame, Him]| |done]. intros f' s' [-> ->].
  pose proof (mp_step_all _ _ _ _ _ _ _ Hmp Hst1) as Hmp1. apply wp_new_slot.
  eapply wp_mono; [apply (process_slot_new_spec _ trampoline_map (lay_base L) live)| |].
  - apply Hmp1.
  - done.
  - intros [pd st] m2 (Hnew & Hst' & Hkp & Hms). simpl in Hnew, Hst', Hkp, Hms. subst st. cbn [fst snd].
    cbv zeta. set (b := {| pid := pd |}).
    assert (Hcx := start_cx_ok elf_data elf phs (MemorySet_token (KERNEL_SPACE m2))
      (KernelStack_get_top (mkKernelStack pd)) Helf Henv
      ltac:(eapply token_usize, Hms) (stack_top_usize _)).
    destruct (start_held L (set_km_mm s1 m) live T _ ms f pd m2 _ Hmp1 Him Hkp Hms Hcx)
      as (Hmp2 & Him2 & Hcx2 & Hf0 & Hfp & Hoth).
    wp_step. apply wp_get_trap_cx; [done..|]. do 2 wp_step. wp_step. apply wp_with_mm.
    unfold write_cx, set_phys. wp_step. wp_step. simpl.
    split_and!; [done|by split|exact Hmp2| |by split|].
    + split; [done|]. rewrite decide_False by done. eapply image_live. exact Him2.
    + intros t bt va Hb Hz Hva. etransitivity; [by eapply Hoth|].
      eapply mp_others_unchanged; [exact Hmp|exact Hst1| |done..]. by intros g ?%not_elem_of_nil.
  - intros e [-> Hf]. split; [done|]. simpl in Hf. lia.
Qed.

(** ** The invariant holds from the start *)

(** The kernel's areas are those of its sections; every frame below the pool is the
    image's. *)
Definition boot_layout (ks : MemorySet) : layout :=
  mkLayout (areas ks) (seqZ 0 ((ekernel + 4095) / 4096)) (root_ppn (page_table ks)).

Lemma boot_in_use s f :
  FRAME_ALLOCATOR s = boot_pool ekernel → in_use s f ↔ f ∈ seqZ 0 ((ekernel + 4095) / 4096).
Proof.
  intros Hpool. unfold in_use. rewrite Hpool, elem_of_seqZ. simpl. unfold sfa_in_use. simpl.
  pose proof (not_elem_of_nil f). split; [lia|]. intros. split; [lia|done].
Qed.

Lemma section_below_stacks s0 s ks a p :
  linker_layout → sections_mapped s0 kernel_sections s ks → a ∈ areas ks → pid_fits p →
  range_r (vpn_range a) < range_l (stack_range p).
Proof.
  intros Hll Hsm Ha Hp%pid_fits_bounds. pose proof (layout_sections_ok Hll) as [Hsec _].
  apply list_elem_of_lookup in Ha as [i Hi].
  destruct (Forall2_lookup_r _ _ _ _ _ (sm_areas _ _ _ _ Hsm) Hi) as (sec & Hi' & -> & _).
  pose proof (Forall_lookup_1 _ _ _ _ Hsec Hi') as (Hse & Hend & _). unfold MEMORY_END in Hend.
  unfold sec_range, page_range, stack_range. simpl. zsolve.
Qed.

Lemma boot_mem_part s0 s ks :
  linker_layout → FRAME_ALLOCATOR s0 = boot_pool ekernel → sections_mapped s0 kernel_sections s ks →
  mem_part (boot_layout ks) (static_kmem ks s) [] ∅ [].
Proof.
  intros Hll Hpool Hsm. pose proof Hsm as [Hok Hstep _ _].
  assert (Hother : ∀ f, f ∈ seqZ 0 ((ekernel + 4095) / 4096) → in_use s f ∧ f ∉ ms_frames ks).
  { intros f Hf%(boot_in_use s0 f Hpool).
    destruct (step_other _ _ _ _ Hstep f Hf (not_elem_of_nil f)) as (? & ? & _). done. }
  split; simpl.
  - split; [split|split|]; simpl.
    + done.
    + exists []. rewrite app_nil_r. split; [done|constructor].
    + constructor.
    + by intros p ?%not_elem_of_nil.
    + intros a p. by eapply section_below_stacks.
    + intros p v Hp%pid_fits_bounds Hv%elem_of_vpns. unfold trampoline_map. apply lookup_singleton_ne.
      unfold stack_range in Hv. simpl in Hv. lia.
    + constructor.
    + by intros p ?%not_elem_of_nil.
    + lia.
    + intros p. pose proof (not_elem_of_nil p). split; [done|]. intros [? _]. simpl in *. lia.
  - unfold all_frames. simpl. apply owns_app. split_and!; [apply Hstep| |].
    + split; [apply NoDup_seqZ|]. intros f Hf. by apply Hother.
    + intros f Hf Hf'. by apply (Hother f Hf').
  - intros f Hf. unfold all_frames. simpl. apply elem_of_app.
    destruct (step_no_leak _ _ _ _ Hstep f Hf) as [?|[Hu _]]; [by left|right]. by apply boot_in_use in Hu.
  - apply elem_of_seqZ. destruct Hll as [Hb Ho _]. zsolve.
  - done.
  - intros t b Hb. by rewrite lookup_empty in Hb.
Qed.

(** A kernel with one process, which is ready. *)
Lemma single_process_ok L m b :
  mem_part L m [pid b] ∅ (task_frames b) → task_mem_ok (km_mm m) b →
  task_status (inner b) = Ready → child (inner b) = [] → 2 ≤ prio (inner b) < 2 ^ 64 →
  kernel_ok L (set_ready_queue [0%nat] (static_kernel b m)).
Proof.
  intros Hmp Hb Hr Hch Hpr.
  assert (Hlook : ∀ t bt, ({[0%nat := b]} : tasks) !! t = Some bt → t = 0%nat ∧ bt = b)
    by (intros t bt ?%lookup_singleton_Some; naive_solver).
  assert (Hnil : tasks_children {[0%nat := b]} = []).
  { unfold tasks_children. rewrite map_to_list_singleton. simpl. by rewrite Hch. }
  split; simpl.
  - exists [pid b]. split.
    + rewrite <-insert_empty. apply mp_put; [by rewrite app_nil_r|done|done].
    + unfold tasks_pids. by rewrite map_to_list_singleton.
  - split.
    + intros t [bt [-> _]%Hlook]. lia.
    + intros t. rewrite list_elem_of_singleton. split.
      * intros ->. exists b. by rewrite lookup_singleton_eq.
      * by intros (bt & [-> _]%Hlook & _).
    + apply NoDup_singleton.
    + intros t. split; [done|]. intros (bt & [_ ->]%Hlook & Hrun). congruence.
    + exists b. rewrite lookup_singleton_eq. by rewrite Hr.
    + rewrite Hnil. constructor.
    + intros c. rewrite Hnil. split; [by intros ?%not_elem_of_nil|]. intros [[bt [-> _]%Hlook] ?]. done.
    + intros t bt c [_ ->]%Hlook. rewrite Hch. by intros ?%not_elem_of_nil.
    + intros t bt [_ ->]%Hlook. congruence.
    + intros t bt [_ ->]%Hlook. by rewrite Hr.
Qed.

Lemma wp_with_statics {S A} (set : mm → S) (m : M S A) (get : S → mm) (Q : A * S → mm → Prop) E s :
  wp m (λ a k, Q (a, k) (get k)) E (set s) → wp (with_statics set m get) Q E s.
Proof. unfold wp, with_statics. by destruct (m (set s)). Qed.

(** Frames that a routine holds are set aside for good. *)
Lemma mp_adopt L m live T F :
  mem_part L m live T F → mem_part (mkLayout (lay_base L) (lay_image L ++ F) (lay_root L)) m live T [].
Proof.
  intros [Hp Hown Hall Hz Hr Ht].
  assert (Hperm : all_frames (mkLayout (lay_base L) (lay_image L ++ F) (lay_root L)) m T ≡ₚ F ++ all_frames L m T)
    by (unfold all_frames; simpl; solve_Permutation).
  split; [done|by rewrite app_nil_l, Hperm|intros f Hf; rewrite app_nil_l, Hperm; by apply Hall| |done|done].
  apply elem_of_app. by left.
Qed.

(** What else is in memory does not matter to the kernel's address space. *)
Lemma sections_mapped_agree s0 s ks m :
  sections_mapped s0 kernel_sections s ks → (∀ f, f ∈ ms_frames ks → page_agree (phys s) m f) →
  sections_mapped {| phys := m; FRAME_ALLOCATOR := FRAME_ALLOCATOR s0 |} kernel_sections
    {| phys := m; FRAME_ALLOCATOR := FRAME_ALLOCATOR s |} ks.
Proof.
  intros [Hok [Hwf Hown Hoth Hleak Hcount] Hcost Har] Hag.
  assert (Hwf' : mm_wf {| phys := m; FRAME_ALLOCATOR := FRAME_ALLOCATOR s |}) by (destruct Hwf; by split).
  assert (Hown' : owns {| phys := m; FRAME_ALLOCATOR := FRAME_ALLOCATOR s |} (ms_frames ks)) by (destruct Hown; by split).
  split; [|split| |]; try done.
  - apply (ms_ok_agree s); [done..|]. intros f Hf. apply Hag. apply elem_of_app. by left.
  - intros f Hf Hn. destruct (Hoth f Hf Hn) as (? & ? & _). by split_and!.
Qed.

Lemma boot_pool_wf m : linker_layout → mm_wf {| phys := m; FRAME_ALLOCATOR := boot_pool ekernel |}.
Proof.
  intros [Hb Ho _]. unfold MEMORY_END in Ho. split; simpl; [constructor|by intros f ?%not_elem_of_nil|zsolve].
Qed.

(** ** A kernel on given bytes *)

Definition boot_kernel (sbss : Z) (initproc : list byte) : M mm kernel :=
  clear_bss sbss;;
  init_frame_allocator ekernel;;
  ks ← MemorySet_new_kernel;
  remap_test ks;;
  '(b, m) ← with_statics (static_kmem ks) (TaskControlBlock_new initproc) km_mm;
  '(_, k) ← with_statics (λ s, static_kernel b (set_km_mm s m)) add_initproc (λ k, km_mm (k_mem k));
  mret k.

Lemma boot_kernel_spec sbss elf_data elf phs s :
  linker_layout → stext < etext → srodata < erodata → sdata < edata → env_ok →
  elf_ok elf_data elf phs → FRAME_ALLOCATOR s = fa_new →
  wp (boot_kernel sbss elf_data) (λ k _, ∃ ks b m, kernel_ok (boot_layout ks) k ∧
      k = set_ready_queue [0%nat] (static_kernel b m) ∧
      Forall2 (λ sec a, vpn_range a = sec_range sec ∧ map_type a = Identical ∧ map_perm a = sec.2)
        kernel_sections (areas ks) ∧
      fresh_process None boot_files (elf_stack_top (loads phs)) b ∧
      program_start elf_data elf phs (MemorySet_token (KERNEL_SPACE m))
        (KernelStack_get_top (kernel_stack b)) (km_mm m) (inner b))
    (λ e, e = UnwrapNone) s.
Proof.
  intros Hll H1 H2 H3 Henv Helf Hnew. unfold boot_kernel, clear_bss, set_phys. do 2 wp_step.
  assert (Hek : 0 ≤ ekernel ≤ MEMORY_END) by (destruct Hll as [? ? _]; unfold MEMORY_END in *; lia).
  set (s1 := {| phys := fill_bytes _ _ _ _; FRAME_ALLOCATOR := _ |}).
  apply wp_bind. unfold wp at 1. rewrite init_frame_allocator_spec by done. simpl.
  set (s2 := {| phys := fill_bytes _ _ _ _; FRAME_ALLOCATOR := _ |}).
  wp_step. eapply wp_mono; [apply new_kernel_spec; [done|by apply layout_sections_ok|by apply boot_pool_wf]| |by intros e []].
  intros ks s3 Hsm. apply wp_bind. unfold wp at 1.
  rewrite (remap_test_spec _ _ _ Hll H1 H2 H3 Hsm). wp_step. apply wp_with_statics.
  pose proof (boot_mem_part s2 s3 ks Hll eq_refl Hsm) as Hmp0.
  assert (Hpf : pid_fits (pa_current PidAllocator_new)) by (split; vm_compute; congruence).
  eapply wp_mono; [exact (new_task_spec _ _ [] ∅ elf_data elf phs Henv Hmp0 Hpf Helf)| |by intros e []].
  intros b m (_ & Hfr & Hmp & Hb & Hps & _). wp_step. apply wp_with_statics.
  unfold add_initproc, add_task, TaskManager_add. do 2 wp_step. wp_step. simpl.
  exists ks, b, m. replace (set_km_mm (km_mm m) m) with m by (by destruct m).
  split_and!; [|done|apply Hsm|done|done].
  apply single_process_ok; [done..|apply Hfr|apply Hfr|]. rewrite (fr_prio _ _ _ _ Hfr). lia.
Qed.

End Boot.

(** ** A machine whose kernel image ends 64 pages below the end of memory *)

Definition boot_symbols : LinkerSymbols :=
  {| stext := 0x87fbc000; etext := 0x87fbd000; srodata := 0x87fbd000; erodata := 0x87fbe000;
     sdata := 0x87fbe000; edata := 0x87fbf000; sbss_with_stack := 0x87fbf000; ebss := 0x87fc0000;
     ekernel := 0x87fc0000; strampoline := 0x87fbc000 |}.

Definition boot_env : KernelEnv :=
  {| env_linker := boot_symbols; ElfFile_new := λ _, Some demo_elf; sstatus_read := 0x100;
     trap_return_addr := 0x87fbc400; trap_handler_addr := 0x87fbc800 |}.
#[local] Existing Instance boot_env.

Definition power_on : mm := {| phys := λ _, Corelib.Init.Byte.x00; FRAME_ALLOCATOR := fa_new |}.

Lemma boot_layout_ok : linker_layout.
Proof. split; [vm_compute; congruence|vm_compute; repeat split; congruence|repeat constructor]. Qed.

Lemma boot_strampoline : strampoline_ok.
Proof. split; [vm_compute; split; congruence|reflexivity]. Qed.

Lemma boot_env_ok : env_ok.
Proof. split; vm_compute; split; congruence. Qed.

Lemma boot_elf_ok : elf_ok demo_elf_data demo_elf [demo_ph].
Proof.
  split; try reflexivity.
  - repeat constructor. by eexists.
  - repeat constructor; apply demo_load_ok.
  - vm_compute. congruence.
  - change (NoDup [0; 2; 3; TRAMPOLINE_VPN - 1]). rewrite !NoDup_cons, !not_elem_of_cons.
    pose proof (not_elem_of_nil (A := Z)). split_and!; try done; try (vm_compute; congruence). constructor.
  - vm_compute. split; congruence.
Qed.

(** Runs that are evaluated. *)
Lemma done_inv {S A} (o : outcome S A) (f : A → S → bool) :
  match o with Done a s => f a s | _ => false end = true → ∃ a s, o = Done a s ∧ f a s = true.
Proof. destruct o as [a s| |]; [|discriminate..]. by exists a, s. Qed.
