(* ===== verification/Processes.v ===== *)
(** * What the process system calls promise

    The specifications of [ProcessSpec], [WaitSpec], [ExecSpec] and [SyscallSpec] as
    the properties of [fork], [exec], [waitpid], [mmap], [munmap] and [sbrk], with a
    machine that has just been started as the concrete state. *)
From S2P Require Import Prelude Config Machine Address FrameAllocator Ownership.
From S2P Require Import PageTable PageTree PageTableSpec MemorySet MapAreaSpec MemorySetSpec.
From S2P Require Import AddressSpace UserSpace UserMemory Fork KernelSpace ElfLoad Pid Context.
From S2P Require Import Timer Task Scheduler SyscallProcess KernelInv ProcessSpec WaitSpec ExecSpec.
From S2P Require Import SyscallSpec KernelSteps Boot.

Section Properties.
Context `{KernelEnv}.
Context (Hst : strampoline_ok).
Abbreviation kmm k := (km_mm (k_mem k)).

(** C7: [fork] makes a copy of the calling process.  The child gets a pid that no
    process has, the same files, priority and heap, the caller as its parent, and an
    address space with the same areas and, page for page, the same bytes, in frames of
    its own; its trap context is the caller's except for the kernel stack and for [a0],
    which is 0, while the caller gets the child's pid.  The child is queued and entered
    among the caller's children; no byte of any process changes and the invariant of
    the kernel holds.  The only panic is for want of frames. *)
Theorem fork_copies_process L k p bp :
  kernel_ok L k → current (PROCESSOR k) = Some p → TASKS k !! p = Some bp →
  pid_fits (pa_current (PID_ALLOCATOR (k_mem k))) →
  wp sys_fork (λ r k', ∃ bc, kernel_ok L k' ∧ r = as_isize (pid bc) ∧ (pid bc ∉ tasks_pids (TASKS k)) ∧
      child_of p (inner bp) bc ∧
      TASKS k' = <[p := map_inner (λ i, set_child (vec_push (child i) (next_task k)) i) bp]>
                   (<[next_task k := bc]> (TASKS k)) ∧
      ready_queue k' = vec_push (ready_queue k) (next_task k) ∧ PROCESSOR k' = PROCESSOR k ∧
      Forall2 same_area (areas (memory_set (inner bp))) (areas (memory_set (inner bc))) ∧
      (∀ va, va / 4096 ∈ areas_vpns (areas (memory_set (inner bp))) → va / 4096 ≠ TRAP_VPN →
        user_byte (kmm k') (memory_set (inner bc)) va = user_byte (kmm k) (memory_set (inner bp)) va) ∧
      load_cx (phys (kmm k')) (trap_cx_ppn (inner bc) * 4096) =
        child_cx (KernelStack_get_top (kernel_stack bc)) (load_cx (phys (kmm k)) (trap_cx_ppn (inner bp) * 4096)) ∧
      others_unchanged (TASKS k) (kmm k) (kmm k'))
    (fork_oom k bp) k.
Proof.
  intros Hok Hc Hb Hp. eapply wp_mono; [by apply sys_fork_spec| |done].
  intros r k' (bc & m & live & -> & Hok' & -> & Hpid & Hch & Hoth & Hfm).
  exists bc. split_and!; try done; try apply Hfm.
  unfold load_cx. simpl. rewrite (fm_words _ _ _ _ _ _ _ Hfm). apply child_cx_words, length_load_words.
Qed.

(** C9: [waitpid] reaps a child.  With a pointer to four bytes of mapped memory in one
    page (below 2^39; for a pointer less than four bytes before the end of a page the code
    stores into the physical frame that follows) the call returns -1 exactly when no child matches, -2 when children match but none is a zombie, and in
    both cases changes nothing.  Otherwise it takes the first matching zombie: its
    assertion that nothing else refers to the child holds, the exit code is stored
    where the caller asked and nowhere else, the child's frames, kernel stack and pid
    are free again, the child is gone from the store, no other process notices, the
    invariant of the kernel holds and the child's pid is returned. *)
Theorem waitpid_reaps_child L k p bp pid_ ptr :
  kernel_ok L k → current (PROCESSOR k) = Some p → TASKS k !! p = Some bp →
  0 ≤ ptr < 2 ^ 39 → ptr mod 4096 ≤ 4092 → ptr / 4096 ∈ areas_vpns (areas (memory_set (inner bp))) →
  wp (sys_waitpid pid_ ptr) (λ r k',
    (r = -1 ∧ k' = k ∧
      ∀ c b, c ∈ child (inner bp) → TASKS k !! c = Some b → ¬ pid_matches pid_ b) ∨
    (r = -2 ∧ k' = k ∧
      (∃ c b, c ∈ child (inner bp) ∧ TASKS k !! c = Some b ∧ pid_matches pid_ b) ∧
      ∀ c b, c ∈ child (inner bp) → TASKS k !! c = Some b → task_status (inner b) = Zombie →
        ¬ pid_matches pid_ b) ∨
    (∃ idx c bc, first_zombie (TASKS k) pid_ (child (inner bp)) idx c bc ∧
      r = as_isize (pid bc) ∧ reaps L k p bp ptr idx c bc k')) no_panic k.
Proof. apply waitpid_spec. Qed.

(** C20: for a range that ends below 2^39 (beyond it the kernel panics in
    [SimpleRange::new]), [mmap] either refuses and changes nothing (bad permissions, an address that is
    not page aligned, or a page of the range already mapped: result -1), or maps every
    page of the range to a zeroed frame of its own with exactly the permissions asked
    for plus [U] (result 0), leaving every other mapping of the process, every byte of
    its memory and every other process as they were.  The only panic is for want of
    frames. *)
Theorem mmap_maps_range L k t b start len port :
  kernel_ok L k → current (PROCESSOR k) = Some t → TASKS k !! t = Some b →
  0 ≤ start → 0 ≤ len → start + len < 2 ^ 39 →
  let ms := memory_set (inner b) in let r := page_range start (start + len) in
  let mapped := λ v, is_Some (pt_lookup (phys (kmm k)) (page_table ms) v) in
  wp (sys_mmap start len port) (λ res k',
    (res = -1 ∧ k' = k ∧ (mmap_bad start port ∨ ∃ v, v ∈ vpns r ∧ mapped v)) ∨
    (res = 0 ∧ ¬ mmap_bad start port ∧ (∀ v, v ∈ vpns r → ¬ mapped v) ∧
     ∃ ms' s', k' = with_space k t b s' ms' ∧ kernel_ok L k' ∧
       (∀ v, v ∈ vpns r → ∃ f, page_zero (phys s') f ∧
          pt_lookup (phys s') (page_table ms') v = Some (PTE_new f (Z.lor (mmap_perm port) PTE_V))) ∧
       (∀ v, is_vpn v → v ∉ vpns r →
          pt_lookup (phys s') (page_table ms') v = pt_lookup (phys (kmm k)) (page_table ms) v) ∧
       (∀ va, va / 4096 ∈ areas_vpns (areas ms) → user_byte s' ms' va = user_byte (kmm k) ms va) ∧
       others_unchanged (delete t (TASKS k)) (kmm k) s'))
    (mmap_oom k start len) k.
Proof. apply mmap_spec. Qed.

(** The heap of a program that was just started, by the boot or by [spawn]: it starts
    empty on top of the user stack.  (After [exec] the fields still describe the heap of
    the program before, and this need not hold.) *)
Lemma fresh_heap_ok p files elf_data phs s b :
  fresh_process p files (elf_stack_top (loads phs)) b →
  image (elf_layout elf_data (loads phs)) s (memory_set (inner b)) (trap_cx_ppn (inner b)) →
  Forall (load_ok elf_data) (loads phs) → elf_stack_top (loads phs) < 2 ^ 38 →
  (∀ ph, ph ∈ loads phs → range_l (ph_range ph) ≠ last_end (loads phs) + 3) →
  ∃ idx a, heap_ok (inner b) idx a.
Proof.
  intros Hfr Him Hl Htop Hne. destruct (fr_heap _ _ _ _ Hfr) as (Hhb & Hbrk & _).
  pose proof (last_end_nonneg _ _ Hl) as Hle. set (e := last_end (loads phs)) in *.
  unfold elf_stack_top in Hhb, Hbrk, Htop. fold e in Hhb, Hbrk, Htop.
  assert (Hdiv : heap_bottom (inner b) / 4096 = e + 3) by (rewrite Hhb; zsolve).
  pose proof (im_areas _ _ _ _ Him) as Har.
  destruct (find_area (e + 3) (areas (memory_set (inner b)))) as [[idx a]|] eqn:Hf.
  - exists idx, a. split; [by rewrite Hdiv| |lia|lia].
    pose proof (find_area_range _ _ _ _ Hf) as [Hi Hs]. destruct (Forall2_lookup_r _ _ _ _ _ Har Hi) as (g & Hg & Hr & _).
    rewrite Hr in Hs |- *. apply list_elem_of_lookup_2 in Hg. unfold elf_layout in Hg.
    rewrite elem_of_app, !elem_of_cons, elem_of_nil, list_elem_of_fmap in Hg. fold e in Hg.
    destruct Hg as [(ph & -> & Hph)|[->|[->|[->|[]]]]]; simpl in Hs |- *.
    + by destruct (Hne ph Hph).
    + lia.
    + rewrite Hbrk. zsolve.
    + unfold TRAMPOLINE_VPN in Hs. lia.
  - exfalso. apply list_find_None in Hf.
    assert (Hg : mkSegment (mkSimpleRange (e + 3) (e + 3)) rwu [] ∈ elf_layout elf_data (loads phs))
      by (unfold elf_layout; fold e; apply elem_of_app; right; right; left).
    apply list_elem_of_lookup in Hg as [i Hg]. destruct (Forall2_lookup_l _ _ _ _ _ Har Hg) as (a & Ha & Hr & _).
    apply (proj1 (Forall_lookup _ _) Hf i a Ha). unfold SimpleRange_get_start. by rewrite Hr.
Qed.

(** C21: [sbrk] moves the end of the heap, for a process whose heap is where the kernel has
    it ([heap_ok]: an area starts at the page of [heap_bottom] and ends with the page of
    the break, which is below 2^38; a program started by the boot or by [spawn] has it,
    [sbrk] keeps it as long as the break stays below 2^38, [exec] does not establish it).
    Below the bottom of the heap the call returns -1 and changes nothing; otherwise it returns the old break, the break is moved by the
    argument, the heap area ends with the page of the new break (grown by zeroed frames
    or cut, the rest of the address space untouched) and no other process notices.  It
    panics only when it grows onto mapped pages or runs out of frames. *)
Theorem sbrk_moves_break L k t b size idx a :
  kernel_ok L k → current (PROCESSOR k) = Some t → TASKS k !! t = Some b → heap_ok (inner b) idx a →
  - 2 ^ 31 ≤ size < 2 ^ 31 →
  wp (sys_sbrk size) (λ r k', sbrk_result L k t b idx a size r k' ∧
      (program_brk (inner b) + size < 2 ^ 38 → ∃ b' a', TASKS k' !! t = Some b' ∧ heap_ok (inner b') idx a'))
    (sbrk_error k (inner b) size) k.
Proof.
  intros Hok Hc Hb Hh Hs. eapply wp_mono; [by apply (sbrk_spec L k t b size idx a)| |done].
  intros r k' Hres. split; [done|]. intros Hlt. by eapply sbrk_keeps_heap.
Qed.

(** C39: a process can free the kernel's own page.  [munmap] of the page of the trap
    context, which [from_elf] maps like any other area, succeeds: it returns 0, the frame
    goes back to the allocator and the page is unmapped, while the kernel goes on using
    the frame as the trap context of the process. *)
Theorem munmap_frees_trap_context L k t b i a :
  kernel_ok L k → current (PROCESSOR k) = Some t → TASKS k !! t = Some b →
  areas (memory_set (inner b)) !! i = Some a → vpn_range a = mkSimpleRange TRAP_VPN TRAMPOLINE_VPN →
  wp (sys_munmap (TRAP_VPN * 4096) 4096) (λ res k', res = 0 ∧
    ∃ b', TASKS k' !! t = Some b' ∧ trap_cx_ppn (inner b') = trap_cx_ppn (inner b) ∧
      ¬ in_use (kmm k') (trap_cx_ppn (inner b')) ∧
      pt_lookup (phys (kmm k')) (page_table (memory_set (inner b'))) TRAP_VPN = None) no_panic k.
Proof. apply munmap_trap_spec. Qed.

End Properties.

(** ** The first process is running *)

#[local] Existing Instance boot_env.

Definition demo_run : M mm kernel :=
  k ← boot_kernel 0x87fbf000 demo_elf_data;
  '(_, k') ← with_statics (λ _, k) run_tasks_iter (λ k, km_mm (k_mem k));
  mret k'.

(** What the witnesses need to know of that state. *)
Definition demo_check (k : kernel) (b : TaskControlBlock) : Prop :=
  current (PROCESSOR k) = Some 0%nat ∧ pa_current (PID_ALLOCATOR (k_mem k)) = 1 ∧
  free_frames (km_mm (k_mem k)) = 46%nat ∧
  areas_vpns (areas (memory_set (inner b))) = [0; 2; 3; TRAP_VPN] ∧
  vpn_range <$> areas (memory_set (inner b)) !! 3%nat = Some (mkSimpleRange TRAP_VPN TRAMPOLINE_VPN) ∧
  heap_bottom (inner b) = 0x4000 ∧ program_brk (inner b) = 0x4000 ∧
  prod_map id vpn_range <$> find_area 4 (areas (memory_set (inner b))) = Some (2%nat, mkSimpleRange 4 4).

#[global] Instance SimpleRange_eq_dec : EqDecision SimpleRange.
Proof. solve_decision. Defined.

#[global] Instance demo_check_dec k b : Decision (demo_check k b).
Proof. unfold demo_check. apply _. Defined.

Lemma demo_running : ∃ L k b s, demo_run power_on = Done k s ∧ kernel_ok L k ∧ TASKS k !! 0%nat = Some b ∧ demo_check k b.
Proof.
  destruct (done_inv (demo_run power_on) (λ k _, match TASKS k !! 0%nat with
    | Some b => bool_decide (demo_check k b) | None => false end)) as (k & s & Hrun & Hd).
  { vm_compute. reflexivity. }
  assert (Hwp : wp demo_run (λ k _, ∃ L, kernel_ok L k) (λ e, e = UnwrapNone) power_on).
  { unfold demo_run. eapply wp_call; [eapply (@boot_kernel_spec boot_env boot_strampoline 0x87fbf000 demo_elf_data
      demo_elf [demo_ph] power_on boot_layout_ok eq_refl eq_refl eq_refl boot_env_ok boot_elf_ok eq_refl)|done|].
    clear. intros k s (ks & b & m & Hok & -> & _). wp_step. apply wp_with_statics.
    eapply wp_mono; [exact (run_ok _ _ Hok eq_refl)| |intros e []]. intros o k' (Hok' & _). wp_step. eauto. }
  destruct (wp_elim _ _ _ _ k s Hwp Hrun) as [L Hok].
  destruct (TASKS k !! 0%nat) as [b|] eqn:Hb; [|discriminate Hd]. apply bool_decide_eq_true in Hd. exists L, k, b, s.
  split; [exact Hrun|]. split; [exact Hok|]. split; [exact Hb|exact Hd].
Qed.

(** The pages between stack and trap context are free. *)
Lemma demo_unmapped L k b v :
  kernel_ok L k → TASKS k !! 0%nat = Some b → demo_check k b → 4 ≤ v < 1000 →
  pt_lookup (phys (km_mm (k_mem k))) (page_table (memory_set (inner b))) v = None.
Proof.
  intros Hok Hb (Hc & _ & _ & Hvp & _) Hv.
  destruct (kernel_ok_running L k 0 Hok Hc) as (b' & Hb' & _ & [Hms _ _]).
  rewrite Hb in Hb'. injection Hb' as <-. rewrite (ms_lookup_other _ _ _ _ Hms v).
  - unfold trampoline_map. apply lookup_singleton_ne. unfold TRAMPOLINE_VPN. lia.
  - unfold is_vpn. lia.
  - rewrite Hvp, !not_elem_of_cons. unfold TRAP_VPN, TRAMPOLINE_VPN.
    split_and!; try lia. apply not_elem_of_nil.
Qed.

(** ** Witnesses *)

Lemma fork_copies_process_witness :
  ∃ L k r k', kernel_ok L k ∧ sys_fork k = Done r k' ∧ kernel_ok L k' ∧ ready_queue k' = vec_push (ready_queue k) (next_task k).
Proof.
  destruct demo_running as (L & k & b & _ & _ & Hok & Hb & Hc & Hpid & Hff & Hvp & _). exists L, k.
  assert (Hfit : pid_fits (pa_current (PID_ALLOCATOR (k_mem k)))) by (rewrite Hpid; split; vm_compute; congruence).
  destruct (wp_cases _ _ _ _ (@fork_copies_process boot_env boot_strampoline L k 0 b Hok Hc Hb Hfit))
    as [(r & k' & Hrun & bc & Hok' & _ & _ & _ & _ & Hq & _)|(e & _ & _ & Hf)].
  - exists r, k'. split; [exact Hok|]. split; [exact Hrun|]. split; [exact Hok'|exact Hq].
  - exfalso. rewrite Hff, Hvp in Hf. simpl in Hf. lia.
Defined.

Lemma mmap_maps_range_witness :
  ∃ L k k', kernel_ok L k ∧ sys_mmap 0x10000 0x2000 3 k = Done 0 k' ∧ kernel_ok L k'.
Proof.
  destruct demo_running as (L & k & b & _ & _ & Hok & Hb & Hd). exists L, k. pose proof Hd as (Hc & _ & Hff & _).
  destruct (wp_cases _ _ _ _ (@mmap_maps_range boot_env L k 0 b 0x10000 0x2000 3 Hok Hc Hb
    ltac:(lia) ltac:(lia) ltac:(lia)))
    as [(r & k' & Hrun & [(_ & _ & Hbad)|(-> & _ & _ & ms' & s' & _ & Hok' & _)])|(e & _ & _ & Hf)].
  - exfalso. destruct Hbad as [[H|[H|H]]|(v & Hv & [e He])]; [discriminate H|apply H; reflexivity|apply H; reflexivity|].
    apply elem_of_vpns in Hv. change (16 ≤ v < 18) in Hv.
    rewrite (demo_unmapped L k b v Hok Hb Hd) in He by lia. discriminate He.
  - exists k'. split; [exact Hok|]. split; [exact Hrun|exact Hok'].
  - exfalso. rewrite Hff in Hf. vm_compute in Hf. lia.
Defined.

Lemma sbrk_moves_break_witness :
  ∃ L k k', kernel_ok L k ∧ sys_sbrk 5000 k = Done 0x4000 k' ∧ kernel_ok L k'.
Proof.
  destruct demo_running as (L & k & b & _ & _ & Hok & Hb & Hd). exists L, k.
  pose proof Hd as (Hc & _ & Hff & _ & _ & Hhb & Hbrk & Hfa).
  destruct (find_area 4 (areas (memory_set (inner b)))) as [[idx a]|] eqn:Hfind; [|discriminate Hfa].
  injection Hfa as _ Hra.
  assert (Hheap : heap_ok (inner b) idx a).
  { split; rewrite ?Hhb, ?Hbrk; [exact Hfind|rewrite Hra; reflexivity|lia|lia]. }
  destruct (wp_cases _ _ _ _ (@sbrk_moves_break boot_env L k 0 b 5000 idx a Hok Hc Hb Hheap ltac:(lia)))
    as [(r & k' & Hrun & [(_ & _ & Hbad)|(-> & _ & ms' & s' & _ & Hok' & _)] & _)|(e & _ & _ & Hf)].
  - exfalso. lia.
  - exists k'. split; [exact Hok|]. rewrite <-Hbrk. split; [exact Hrun|exact Hok'].
  - exfalso. rewrite Hbrk in Hf. destruct Hf as [[_ Hf]|(_ & v & Hv & [e' He])].
    + rewrite Hff in Hf. vm_compute in Hf. lia.
    + apply elem_of_vpns in Hv. change (4 ≤ v < 6) in Hv.
      rewrite (demo_unmapped L k b v Hok Hb Hd) in He by lia. discriminate He.
Defined.

Lemma munmap_frees_trap_context_witness :
  ∃ L k k', kernel_ok L k ∧ sys_munmap (TRAP_VPN * 4096) 4096 k = Done 0 k'.
Proof.
  destruct demo_running as (L & k & b & _ & _ & Hok & Hb & Hc & _ & _ & _ & Hr & _). exists L, k.
  destruct (areas (memory_set (inner b)) !! 3%nat) as [a|] eqn:Ha; [|discriminate Hr]. injection Hr as Hr.
  destruct (wp_no_panic _ _ _ (@munmap_frees_trap_context boot_env L k 0 b 3 a Hok Hc Hb Ha Hr))
    as (r & k' & Hrun & -> & _).
  exists k'. split; [exact Hok|exact Hrun].
Defined.

(** The first process forks, the child runs and exits with code 7. *)
Definition demo_family : M kernel unit :=
  sys_fork;;
  suspend_current_and_run_next;;
  o ← run_tasks_iter;
  init ← gets INITPROC;
  (if decide (o = Some 1%nat ∧ init ≠ 1%nat) then exit_current_and_run_next 7 else panic ExplicitPanic);;
  run_tasks_iter;;
  mret tt.

Lemma demo_family_ok L k b :
  kernel_ok L k → TASKS k !! 0%nat = Some b → demo_check k b →
  wp demo_family (λ _ k', kernel_ok L k') (λ _, True) k.
Proof.
  intros Hok Hb (Hc & Hpid & _). unfold demo_family.
  eapply wp_call; [apply (sys_fork_spec boot_strampoline L k 0 b Hok Hc Hb)|done|].
  { rewrite Hpid. split; vm_compute; congruence. }
  intros r k1 (bc & m & live & Hk1 & Hok1 & _). assert (Hc1 : current (PROCESSOR k1) = Some 0%nat) by (by rewrite Hk1).
  clear Hk1. eapply wp_call; [by apply (suspend_ok L k1 0)|done|]. intros [] k2 (Hok2 & Hc2 & _).
  eapply wp_call; [by apply (run_ok L k2)|done|]. intros o k3 (Hok3 & _ & Ho). do 2 wp_step. wp_step.
  case_decide as Ht; [|by wp_step]. destruct Ht as [-> Hi], Ho as [Hc3 _].
  destruct (kernel_ok_running L k3 1 Hok3 Hc3) as (b3 & Hb3 & _).
  eapply wp_mono; [by apply (exit_ok L k3 1 b3 7)| |done]. intros [] k4 (Hok4 & Hc4 & _).
  eapply wp_call; [by apply (run_ok L k4)|done|]. intros o' k5 (Hok5 & _). by wp_step.
Qed.

Definition family_check (k : kernel) (b bc : TaskControlBlock) : Prop :=
  current (PROCESSOR k) = Some 0%nat ∧ areas_vpns (areas (memory_set (inner b))) = [0; 2; 3; TRAP_VPN] ∧
  child (inner b) = [1%nat] ∧ task_status (inner bc) = Zombie ∧ exit_code (inner bc) = 7 ∧ pid bc = 1.
#[global] Instance family_check_dec k b bc : Decision (family_check k b bc).
Proof. unfold family_check. apply _. Defined.

Lemma demo_zombie : ∃ L k b bc, kernel_ok L k ∧ TASKS k !! 0%nat = Some b ∧ TASKS k !! 1%nat = Some bc ∧
  family_check k b bc.
Proof.
  destruct (done_inv ((k ← demo_run; with_statics (λ _, k) demo_family (λ k, km_mm (k_mem k))) power_on)
    (λ r _, match TASKS r.2 !! 0%nat, TASKS r.2 !! 1%nat with
            | Some b, Some bc => bool_decide (family_check r.2 b bc) | _, _ => false end))
    as ([[] k'] & s' & Hrun & Hd).
  { vm_compute. reflexivity. }
  assert (Hwp : wp (k ← demo_run; with_statics (λ _, k) demo_family (λ k, km_mm (k_mem k)))
                  (λ r _, ∃ L, kernel_ok L r.2) (λ _, True) power_on).
  { destruct demo_running as (L & k & b & s & Hdr & Hok & Hb & Hd').
    apply wp_bind. unfold wp at 1. rewrite Hdr. apply wp_with_statics.
    eapply wp_mono; [by apply (demo_family_ok L k b)| |done]. clear. intros [] k'' Hok. by exists L. }
  destruct (wp_elim _ _ _ _ _ _ Hwp Hrun) as [L Hok]. simpl in Hd, Hok.
  destruct (TASKS k' !! 0%nat) as [b|] eqn:Hb; [|discriminate Hd].
  destruct (TASKS k' !! 1%nat) as [bc|] eqn:Hbc; [|discriminate Hd]. apply bool_decide_eq_true in Hd.
  exists L, k', b, bc. split; [exact Hok|]. split; [exact Hb|]. split; [exact Hbc|exact Hd].
Qed.

Lemma waitpid_reaps_child_witness :
  ∃ L k k', kernel_ok L k ∧ sys_waitpid (-1) 0x2ff0 k = Done 1 k' ∧ kernel_ok L k' ∧ TASKS k' !! 1%nat = None.
Proof.
  destruct demo_zombie as (L & k & b & bc & Hok & Hb & Hbc & Hc & Hvp & Hch & Hz & _ & Hpid).
  exists L, k. destruct (wp_no_panic _ _ _ (@waitpid_reaps_child boot_env L k 0 b (-1) 0x2ff0 Hok Hc Hb
    ltac:(lia) ltac:(vm_compute; congruence)
    ltac:(rewrite Hvp; right; left))) as (r & k' & Hrun & Hres).
  exists k'. split; [exact Hok|]. destruct Hres as [(_ & _ & Hn)|[(_ & _ & _ & Hn)|(idx & c & bz & Hfz & -> & Hr)]].
  - exfalso. apply (Hn 1%nat bc); [rewrite Hch; left|exact Hbc|left; reflexivity].
  - exfalso. apply (Hn 1%nat bc); [rewrite Hch; left|exact Hbc|exact Hz|left; reflexivity].
  - pose proof (fz_lookup _ _ _ _ _ _ Hfz) as Hl. rewrite Hch in Hl.
    apply list_lookup_singleton_Some in Hl as [_ <-].
    pose proof (fz_task _ _ _ _ _ _ Hfz) as Hbz. rewrite Hbc in Hbz. injection Hbz as <-.
    rewrite Hpid in Hrun. split; [exact Hrun|]. split; [apply Hr|].
    rewrite (rp_tasks _ _ _ _ _ _ _ _ _ Hr). unfold reaped. apply lookup_delete_eq.
Defined.
