(* ===== verification/Files.v ===== *)
(** * The file layer ([src/fs])

    Open files are [OSInode]s of a store, referred to by number as [Arc]s are; the
    console is what the firmware will answer to [console_getchar] and what was printed.
    The file system itself is the crate [easy_fs], which is not part of the sources: the
    class [EasyFs] has one operation per method the kernel calls, on the state [disk] of
    the block device and its cache.  [read_at] returns the bytes it puts at the start of
    the buffer; its result is their number.

    A process that waits for a key is suspended in the middle of a system call.  What it
    does when it is switched to again is the [resume_point] the kernel keeps for it on
    its kernel stack. *)
From S2P Require Import Prelude Config Machine Address FrameAllocator Ownership.
From S2P Require Import PageTable PageTableSpec MemorySet MapAreaSpec MemorySetSpec.
From S2P Require Import UserSpace UserMemory Pid Context Task Scheduler.
From coqutil Require Import Byte Word.LittleEndianList.

(** A name is the characters of a path, each with a code below 256. *)
Abbreviation name := (list byte) (only parsing).

Inductive InodeType : Set := INODE_FILE | INODE_DIR.

Class EasyFs := {
  disk : Type;
  Inode : Type;
  Inode_eq_dec :: EqDecision Inode;
  root_find : name → disk → option Inode;
  root_create : name → disk → option Inode * disk;
  root_linkat : name → name → disk → Z * disk;
  root_unlinkat : name → disk → Z * disk;
  root_find_inode_id_by_block : Z → Z → disk → option Z;
  inode_clear : Inode → disk → disk;
  inode_read_at : Inode → Z → nat → disk → list byte;
  inode_write_at : Inode → Z → list byte → disk → Z * disk;
  inode_get_nlink : Inode → disk → Z;
  inode_get_block_metadata : Inode → disk → Z * Z;
  inode_find_file_type : Inode → disk → InodeType;
}.

(** The keys that are pressed are answers of the firmware to come, [keyboard]; [no_key] is
    its answer to [console_getchar] when there is none (0 for the RustSBI the kernel was
    written for, -1 in the SBI specification). *)
Class ConsoleInput := no_key : Z.

Inductive resume_point : Set :=
| ResumeTrap                        (* after the timer interrupt: back to user mode *)
| ResumeYield                       (* [sys_yield] returns *)
| ResumeRead (user_buf : UserBuffer).  (* [Stdin::read] asks for a key again *)

(* src: src/src/fs/inode.rs 13-23 OSInode *)
Record OSInode `{EasyFs} : Type := mkOSInode {
  os_readable : bool;
  os_writable : bool;
  os_offset : Z;
  os_inode : Inode;
}.

Record system `{EasyFs} : Type := mkSystem {
  sys_kernel : kernel;
  DISK : disk;
  OSINODES : gmap nat OSInode;
  next_osinode : nat;
  keyboard : list Z;
  screen : list byte;
  PARKED : gmap nat resume_point;
  next_trigger : Z;
  stvec : Z;
}.

Section Files.
Context `{EasyFs} `{ConsoleInput}.

Definition set_sys_kernel (k : kernel) (st : system) : system :=
  mkSystem _ k (DISK st) (OSINODES st) (next_osinode st) (keyboard st) (screen st) (PARKED st) (next_trigger st) (stvec st).
Definition set_DISK (d : disk) (st : system) : system :=
  mkSystem _ (sys_kernel st) d (OSINODES st) (next_osinode st) (keyboard st) (screen st) (PARKED st) (next_trigger st) (stvec st).
Definition set_OSINODES (f : gmap nat OSInode) (st : system) : system :=
  mkSystem _ (sys_kernel st) (DISK st) f (next_osinode st) (keyboard st) (screen st) (PARKED st) (next_trigger st) (stvec st).
Definition set_keyboard (l : list Z) (st : system) : system :=
  mkSystem _ (sys_kernel st) (DISK st) (OSINODES st) (next_osinode st) l (screen st) (PARKED st) (next_trigger st) (stvec st).
Definition set_screen (l : list byte) (st : system) : system :=
  mkSystem _ (sys_kernel st) (DISK st) (OSINODES st) (next_osinode st) (keyboard st) l (PARKED st) (next_trigger st) (stvec st).
Definition set_PARKED (p : gmap nat resume_point) (st : system) : system :=
  mkSystem _ (sys_kernel st) (DISK st) (OSINODES st) (next_osinode st) (keyboard st) (screen st) p (next_trigger st) (stvec st).
Definition set_trigger (z : Z) (st : system) : system :=
  mkSystem _ (sys_kernel st) (DISK st) (OSINODES st) (next_osinode st) (keyboard st) (screen st) (PARKED st) z (stvec st).
Definition set_stvec (z : Z) (st : system) : system :=
  mkSystem _ (sys_kernel st) (DISK st) (OSINODES st) (next_osinode st) (keyboard st) (screen st) (PARKED st) (next_trigger st) z.

Definition with_kernel {A} (m : M kernel A) : M system A := zoom sys_kernel set_sys_kernel m.
Definition with_memory {A} (m : M mm A) : M system A := with_kernel (with_frames m).

(** ** [OSInode] *)

Definition osinode (id : nat) : M system OSInode := m ← gets OSINODES; unwrap (m !! id).
Definition set_offset (id : nat) (off : Z) : M system unit :=
  f ← osinode id;
  modify (λ st, set_OSINODES (<[id := mkOSInode _ (os_readable f) (os_writable f) off (os_inode f)]>
                              (OSINODES st)) st).

(** [Arc::new(OSInode::new(...))]. *)
(* src: src/src/fs/inode.rs 26-33 OSInode::new *)
Definition OSInode_new (readable writable : bool) (inode : Inode) : M system nat :=
  id ← gets next_osinode;
  modify (λ st, mkSystem _ (sys_kernel st) (DISK st)
    (<[id := mkOSInode _ readable writable 0 inode]> (OSINODES st)) (S id)
    (keyboard st) (screen st) (PARKED st) (next_trigger st) (stvec st));;
  mret id.

(** The loop ends when nothing is read; [fuel] bounds the number of blocks. *)
(* src: src/src/fs/inode.rs 41-48 OSInode::read_all *)
Fixpoint read_all_loop (fuel : nat) (id : nat) (v : list byte) : M system (list byte) :=
  match fuel with
  | O => out_of_fuel
  | S fuel =>
      f ← osinode id;
      buffer ← gets (λ st, inode_read_at (os_inode f) (os_offset f) 512 (DISK st));
      let len := Z.of_nat (length buffer) in
      if len =? 0 then mret v
      else
        set_offset id (os_offset f +u len);;
        read_all_loop fuel id (v ++ buffer)
  end.

(* src: src/src/fs/inode.rs 36-51 OSInode::read_all *)
Definition OSInode_read_all (fuel : nat) (id : nat) : M system (list byte) := read_all_loop fuel id [].

(* src: src/src/fs/inode.rs 54-57 OSInode::get_offset *)
Definition OSInode_get_offset (id : nat) : M system Z := f ← osinode id; mret (os_offset f).

(** ** Opening *)

Abbreviation OpenFlags := Z (only parsing).
(* src: src/src/fs/inode.rs 95-95 OpenFlags::RDONLY *)
Definition OpenFlags_RDONLY : OpenFlags := 0.
(* src: src/src/fs/inode.rs 97-97 OpenFlags::WRONLY *)
Definition OpenFlags_WRONLY : OpenFlags := Z.shiftl 1 0.
(* src: src/src/fs/inode.rs 99-99 OpenFlags::RDWR *)
Definition OpenFlags_RDWR : OpenFlags := Z.shiftl 1 1.
(* src: src/src/fs/inode.rs 101-101 OpenFlags::CREATE *)
Definition OpenFlags_CREATE : OpenFlags := Z.shiftl 1 9.
(* src: src/src/fs/inode.rs 103-103 OpenFlags::TRUNC *)
Definition OpenFlags_TRUNC : OpenFlags := Z.shiftl 1 10.

(** What [bitflags!] generates: all the bits of [flags] must be known. *)
(* src: src/src/fs/inode.rs 91-105 OpenFlags *)
Definition OpenFlags_from_bits (bits : Z) : option OpenFlags :=
  let all := Z.lor (Z.lor (Z.lor OpenFlags_WRONLY OpenFlags_RDWR) OpenFlags_CREATE) OpenFlags_TRUNC in
  if Z.land bits (Z.lnot all) =? 0 then Some bits else None.
Definition OpenFlags_contains (self other : OpenFlags) : bool := Z.land self other =? other.

(* src: src/src/fs/inode.rs 109-117 OpenFlags::read_write *)
Definition OpenFlags_read_write (self : OpenFlags) : bool * bool :=
  if self =? 0 then (true, false)
  else if OpenFlags_contains self OpenFlags_WRONLY then (false, true)
  else (true, true).

(* src: src/src/fs/inode.rs 121-141 open_file *)
Definition open_file (path : name) (flags : OpenFlags) : M system (option nat) :=
  let '(readable, writable) := OpenFlags_read_write flags in
  if OpenFlags_contains flags OpenFlags_CREATE then
    o ← gets (λ st, root_find path (DISK st));
    match o with
    | Some inode =>
        modify (λ st, set_DISK (inode_clear inode (DISK st)) st);;
        id ← OSInode_new readable writable inode; mret (Some id)
    | None =>
        '(o, d) ← gets (λ st, root_create path (DISK st));
        modify (set_DISK d);;
        match o with
        | Some inode => id ← OSInode_new readable writable inode; mret (Some id)
        | None => mret None
        end
    end
  else
    o ← gets (λ st, root_find path (DISK st));
    match o with
    | Some inode =>
        (if OpenFlags_contains flags OpenFlags_TRUNC
         then modify (λ st, set_DISK (inode_clear inode (DISK st)) st) else mret tt);;
        id ← OSInode_new readable writable inode; mret (Some id)
    | None => mret None
    end.

(** ** The trait [File]

    [readable] and [writable] are there but nothing calls them. *)

(* src: src/src/fs/mod.rs 24-38 Stat *)
Record Stat : Set := mkStat { st_dev : Z; st_ino : Z; st_mode : Z; st_nlink : Z }.
(* src: src/src/fs/mod.rs 46-46 StatMode::DIR *)
Definition StatMode_DIR : Z := 16384.
(* src: src/src/fs/mod.rs 48-48 StatMode::FILE *)
Definition StatMode_FILE : Z := 32768.

(** [repr(C)]: two [u64], two [u32] and the padding. *)
Definition Stat_bytes (s : Stat) : list byte :=
  le_split 8 (st_dev s) ++ le_split 8 (st_ino s) ++ le_split 4 (st_mode s) ++ le_split 4 (st_nlink s) ++
  replicate 56 Corelib.Init.Byte.x00.

(* src: src/src/fs/inode.rs 145-147 OSInode::readable *)
Definition OSInode_readable (f : OSInode) : bool := os_readable f.
(* src: src/src/fs/inode.rs 149-151 OSInode::writable *)
Definition OSInode_writable (f : OSInode) : bool := os_writable f.

(* src: src/src/fs/inode.rs 157-164 OSInode::read *)
Fixpoint os_read_loop (id : nat) (l : list ByteSlice) (total_read_size : Z) : M system Z :=
  match l with
  | [] => mret total_read_size
  | slice :: l =>
      f ← osinode id;
      data ← gets (λ st, inode_read_at (os_inode f) (os_offset f) (Z.to_nat (bs_len slice)) (DISK st));
      with_memory (set_phys (λ m, store_bytes m (bs_addr slice) data));;
      let read_size := Z.of_nat (length data) in
      if read_size =? 0 then mret total_read_size
      else
        set_offset id (os_offset f +u read_size);;
        os_read_loop id l (total_read_size +u read_size)
  end.

(* src: src/src/fs/inode.rs 153-167 OSInode::read *)
Definition OSInode_read (id : nat) (buf : UserBuffer) : M system Z := os_read_loop id (buffers buf) 0.

(** The bytes of a slice. *)
Definition read_slice (slice : ByteSlice) : M system (list byte) :=
  with_memory (gets (λ s, load_bytes (phys s) (bs_addr slice) (Z.to_nat (bs_len slice)))).

(* src: src/src/fs/inode.rs 173-178 OSInode::write *)
Fixpoint os_write_loop (id : nat) (l : list ByteSlice) (total_write_size : Z) : M system Z :=
  match l with
  | [] => mret total_write_size
  | slice :: l =>
      f ← osinode id;
      data ← read_slice slice;
      '(write_size, d) ← gets (λ st, inode_write_at (os_inode f) (os_offset f) data (DISK st));
      modify (set_DISK d);;
      assert_ (write_size =? bs_len slice);;
      set_offset id (os_offset f +u write_size);;
      os_write_loop id l (total_write_size +u write_size)
  end.

(* src: src/src/fs/inode.rs 169-181 OSInode::write *)
Definition OSInode_write (id : nat) (buf : UserBuffer) : M system Z := os_write_loop id (buffers buf) 0.

(* src: src/src/fs/inode.rs 183-205 OSInode::get_stat *)
Definition OSInode_get_stat (id : nat) : M system Stat :=
  f ← osinode id;
  nlink ← gets (λ st, inode_get_nlink (os_inode f) (DISK st));
  '(blk_id, blk_offset) ← gets (λ st, inode_get_block_metadata (os_inode f) (DISK st));
  o ← gets (λ st, root_find_inode_id_by_block (blk_id mod 2 ^ 32) blk_offset (DISK st));
  ino ← unwrap o;
  file_type ← gets (λ st, inode_find_file_type (os_inode f) (DISK st));
  mret {| st_dev := 0; st_ino := ino;
          st_mode := match file_type with INODE_FILE => StatMode_FILE | INODE_DIR => StatMode_DIR end;
          st_nlink := nlink |}.

(** *** The console *)

(** The next answer of the firmware. *)
Definition next_answer (st : system) : Z := default no_key (head (keyboard st)).

(** A call of the firmware, which hands out each key once. *)
(* src: src/src/sbi.rs 44-46 console_getchar *)
Definition console_getchar : M system Z :=
  c ← gets next_answer;
  modify (λ st, set_keyboard (tail (keyboard st)) st);;
  mret c.

(** Leaving the processor in the middle of a system call. *)
Definition park (p : resume_point) : M system unit :=
  o ← with_kernel current_task; t ← unwrap o;
  with_kernel suspend_current_and_run_next;;
  modify (λ st, set_PARKED (<[t := p]> (PARKED st)) st).

(** [None] when the process was suspended; it goes on with another [Stdin_poll]. *)
(* src: src/src/fs/stdio.rs 28-45 Stdin::read *)
Definition Stdin_poll (user_buf : UserBuffer) : M system (option Z) :=
  c ← console_getchar;
  if c =? 0 then park (ResumeRead user_buf);; mret None
  else
    let ch := byte.of_Z c in
    match buffers user_buf !! 0%nat with
    | None => panic IndexOutOfBounds
    | Some b => with_memory (set_phys (λ m, store_bytes m (bs_addr b) [ch]));; mret (Some 1)
    end.

(* src: src/src/fs/stdio.rs 22-45 Stdin::read *)
Definition Stdin_read (user_buf : UserBuffer) : M system (option Z) :=
  assert_ (UserBuffer_len user_buf =? 1);;
  Stdin_poll user_buf.

(** [core::str::from_utf8] accepts the well-formed sequences of the Unicode standard. *)
Definition utf8_in (lo hi b : Z) : bool := (lo <=? b) && (b <=? hi).
Definition utf8_cont (b : Z) : bool := utf8_in 0x80 0xbf b.
Fixpoint utf8_valid (l : list Z) : bool :=
  match l with
  | [] => true
  | a :: l1 =>
      if a <? 0x80 then utf8_valid l1
      else match l1 with
      | [] => false
      | b :: l2 =>
          if utf8_in 0xc2 0xdf a then utf8_cont b && utf8_valid l2
          else match l2 with
          | [] => false
          | c :: l3 =>
              if utf8_in 0xe0 0xef a then
                (if a =? 0xe0 then utf8_in 0xa0 0xbf b else if a =? 0xed then utf8_in 0x80 0x9f b
                 else utf8_cont b) && utf8_cont c && utf8_valid l3
              else match l3 with
              | [] => false
              | d :: l4 =>
                  utf8_in 0xf0 0xf4 a &&
                  (if a =? 0xf0 then utf8_in 0x90 0xbf b else if a =? 0xf4 then utf8_in 0x80 0x8f b
                   else utf8_cont b) && utf8_cont c && utf8_cont d && utf8_valid l4
              end
          end
      end
  end.
Definition from_utf8 (l : list byte) : option (list byte) :=
  if utf8_valid (byte.unsigned <$> l) then Some l else None.

(* src: src/src/fs/stdio.rs 69-76 Stdout::write *)
Definition Stdout_write (buf : UserBuffer) : M system Z :=
  forM (λ buffer,
    l ← read_slice buffer;
    text ← unwrap (from_utf8 l);
    modify (λ st, set_screen (screen st ++ text) st)) (buffers buf);;
  mret (UserBuffer_len buf).

(** What the console files refuse. *)
(* src: src/src/fs/stdio.rs 47-49 Stdin::write *)
Definition Stdin_write (buf : UserBuffer) : M system Z := panic ExplicitPanic.
(* src: src/src/fs/stdio.rs 51-53 Stdin::get_stat *)
Definition Stdin_get_stat : M system Stat := panic ExplicitPanic.
(* src: src/src/fs/stdio.rs 65-67 Stdout::read *)
Definition Stdout_read (buf : UserBuffer) : M system (option Z) := panic ExplicitPanic.
(* src: src/src/fs/stdio.rs 78-80 Stdout::get_stat *)
Definition Stdout_get_stat : M system Stat := panic ExplicitPanic.

(* src: src/src/fs/stdio.rs 14-16 Stdin::readable *)
Definition Stdin_readable : bool := true.
(* src: src/src/fs/stdio.rs 18-20 Stdin::writable *)
Definition Stdin_writable : bool := false.
(* src: src/src/fs/stdio.rs 57-59 Stdout::readable *)
Definition Stdout_readable : bool := false.
(* src: src/src/fs/stdio.rs 61-63 Stdout::writable *)
Definition Stdout_writable : bool := true.

(** *** Dispatch on the file *)

(* src: src/src/fs/mod.rs 13-13 File::readable *)
Definition File_readable (file : FileRef) : M system bool :=
  match file with
  | Stdin => mret Stdin_readable
  | Stdout => mret Stdout_readable
  | OSInodeRef id => f ← osinode id; mret (OSInode_readable f)
  end.
(* src: src/src/fs/mod.rs 15-15 File::writable *)
Definition File_writable (file : FileRef) : M system bool :=
  match file with
  | Stdin => mret Stdin_writable
  | Stdout => mret Stdout_writable
  | OSInodeRef id => f ← osinode id; mret (OSInode_writable f)
  end.
(* src: src/src/fs/mod.rs 17-17 File::read *)
Definition File_read (file : FileRef) (buf : UserBuffer) : M system (option Z) :=
  match file with
  | Stdin => Stdin_read buf
  | Stdout => Stdout_read buf
  | OSInodeRef id => n ← OSInode_read id buf; mret (Some n)
  end.
(* src: src/src/fs/mod.rs 19-19 File::write *)
Definition File_write (file : FileRef) (buf : UserBuffer) : M system Z :=
  match file with
  | Stdin => Stdin_write buf
  | Stdout => Stdout_write buf
  | OSInodeRef id => OSInode_write id buf
  end.
(* src: src/src/fs/mod.rs 21-21 File::get_stat *)
Definition File_get_stat (file : FileRef) : M system Stat :=
  match file with
  | Stdin => Stdin_get_stat
  | Stdout => Stdout_get_stat
  | OSInodeRef id => OSInode_get_stat id
  end.

(** ** The first program *)

(** The bytes with which [INITPROC] is made. *)
(* src: src/src/task/mod.rs 27-33 INITPROC *)
Definition initproc_elf (fuel : nat) : M system (list byte) :=
  o ← open_file (String.list_byte_of_string "ch6b_initproc") OpenFlags_RDONLY;
  inode ← unwrap o;
  OSInode_read_all fuel inode.

End Files.
