(* ===== verification/Console.v ===== *)
(** * Console, logging, the firmware and the panic handler

    [src/sbi.rs], [src/console.rs], [src/logging.rs], [src/lang_item.rs], the [Debug]
    impls of [src/mm/address.rs], [show_os_sections] of [src/main.rs], [list_apps] and
    [dump_metadata] of [src/fs/inode.rs].

    The kernel talks to the firmware by [ecall]; what it has asked for so far is the
    [trace].  The firmware is a parameter: a function from the trace and the request to
    the answer in [a0], or to nothing when it does not return.  A routine of this file
    returns, is stopped for good by the firmware, or panics, and the trace says what it
    printed until then.  A Rust [str] is the list of its characters' code points. *)
From S2P Require Import Prelude Config Machine Address FrameAllocator PageTable MemorySet UserMemory Pid Context Task Files.
From coqutil Require Import Byte.

Abbreviation text := (list Z) (only parsing).

(** A literal with ASCII characters. *)
Definition lit (s : string) : text := (λ c, Z.of_nat (Ascii.nat_of_ascii c)) <$> String.list_ascii_of_string s.
Definition newline : text := [10].

(** ** The firmware *)

(** [which] in [a7] and the arguments in [a0], [a1], [a2]. *)
Record sbi_request : Set := mkRequest { sbi_which : Z; sbi_arg0 : Z; sbi_arg1 : Z; sbi_arg2 : Z }.
Abbreviation trace := (list sbi_request) (only parsing).

Class Firmware := firmware : trace → sbi_request → option Z.

(** [core::panic::PanicInfo]. *)
Record PanicInfo : Set := mkPanicInfo { pi_location : option (text * Z); pi_message : option text }.

Inductive run (A : Type) : Type :=
| Returns (a : A) (t : trace)
| Halts (t : trace)
| Panics (info : PanicInfo) (t : trace).
Arguments Returns {A} a t.
Arguments Halts {A} t.
Arguments Panics {A} info t.

Definition C (A : Type) : Type := trace → run A.
#[global] Instance C_ret : MRet C := λ A a t, Returns a t.
#[global] Instance C_bind : MBind C := λ A B f m t,
  match m t with
  | Returns a t' => f a t'
  | Halts t' => Halts t'
  | Panics info t' => Panics info t'
  end.

(** A [panic!] at the given place of the source. *)
Definition panics {A} (file : string) (line : Z) (message : string) : C A := λ t,
  Panics (mkPanicInfo (Some (lit file, line)) (Some (lit message))) t.

Fixpoint each {A} (f : A → C unit) (l : list A) : C unit :=
  match l with
  | [] => mret tt
  | x :: l => f x;; each f l
  end.

(* src: src/src/sbi.rs 5-5 SBI_SET_TIMER *)
Definition SBI_SET_TIMER : Z := 0.
(* src: src/src/sbi.rs 6-6 SBI_CONSOLE_PUTCHAR *)
Definition SBI_CONSOLE_PUTCHAR : Z := 1.
(* src: src/src/sbi.rs 7-7 SBI_CONSOLE_GETCHAR *)
Definition SBI_CONSOLE_GETCHAR : Z := 2.
(* src: src/src/sbi.rs 8-8 SBI_SHUTDOWN *)
Definition SBI_SHUTDOWN : Z := 8.

Section Sbi.
Context `{Firmware}.

(* src: src/src/sbi.rs 12-25 sbi_call *)
Definition sbi_call (which arg0 arg1 arg2 : Z) : C Z := λ t,
  let r := mkRequest which arg0 arg1 arg2 in
  match firmware t r with
  | Some ret => Returns ret (t ++ [r])
  | None => Halts (t ++ [r])
  end.

(* src: src/src/sbi.rs 28-30 set_timer *)
Definition set_timer (timer : Z) : C unit := sbi_call SBI_SET_TIMER timer 0 0;; mret tt.

(* src: src/src/sbi.rs 33-35 console_putchar *)
Definition console_putchar (c : Z) : C unit := sbi_call SBI_CONSOLE_PUTCHAR c 0 0;; mret tt.

(* src: src/src/sbi.rs 38-41 shutdown *)
Definition shutdown : C Empty_set :=
  sbi_call SBI_SHUTDOWN 0 0 0;;
  panics "src/sbi.rs" 40 "It should shutdown!".

(* src: src/src/sbi.rs 44-46 console_getchar *)
Definition sbi_console_getchar : C Z := sbi_call SBI_CONSOLE_GETCHAR 0 0 0.

(** ** Printing *)

(* src: src/src/console.rs 8-15 Stdout::write_str *)
Definition write_str (s : text) : C unit := each console_putchar s.

(** [write_fmt] writes the formatted arguments; they are formatted by the callers. *)
(* src: src/src/console.rs 18-20 print *)
Definition print (args : text) : C unit := write_str args.

(* src: src/src/console.rs 31-35 println *)
Definition println (args : text) : C unit := print (args ++ newline).
End Sbi.

(** *** Formatting of integers by [core::fmt]: [{}], [{:x}], [{:#x}], [{:>5}] *)

Definition digit_char (d : Z) : Z := if d <? 10 then 48 + d else 87 + d.

(** The digits of a [usize], the last one first in the loop; 64 are enough in any base. *)
Fixpoint fmt_digits (fuel : nat) (base n : Z) (acc : text) : text :=
  match fuel with
  | O => acc
  | S fuel =>
      let acc := digit_char (n mod base) :: acc in
      if n / base =? 0 then acc else fmt_digits fuel base (n / base) acc
  end.
Definition fmt_dec (n : Z) : text := fmt_digits 64 10 n [].
Definition fmt_hex (n : Z) : text := fmt_digits 64 16 n [].
Definition fmt_0x (n : Z) : text := lit "0x" ++ fmt_hex n.
Definition pad_left (width : nat) (s : text) : text := replicate (width - length s) 32 ++ s.

(** *** [Debug] of addresses and page numbers *)

(* src: src/src/mm/address.rs 32-36 VirtAddr::fmt *)
Definition VirtAddr_fmt (va : VirtAddr) : text := lit "VA: " ++ fmt_0x va.
(* src: src/src/mm/address.rs 38-42 VirtPageNum::fmt *)
Definition VirtPageNum_fmt (vpn : VirtPageNum) : text := lit "VPN: " ++ fmt_0x vpn.
(* src: src/src/mm/address.rs 44-48 PhysAddr::fmt *)
Definition PhysAddr_fmt (pa : PhysAddr) : text := lit "PA: " ++ fmt_0x pa.
(* src: src/src/mm/address.rs 50-54 PhysPageNum::fmt *)
Definition PhysPageNum_fmt (ppn : PhysPageNum) : text := lit "PPN: " ++ fmt_0x ppn.

(** ** Logging *)

(** [Level] and [LevelFilter] of the crate [log]: a filter is a level or [Off]. *)
Inductive Level : Set := Error | Warn | Info | Debug | Trace.
#[global] Instance Level_eq_dec : EqDecision Level.
Proof. solve_decision. Defined.
Abbreviation LevelFilter := (option Level) (only parsing).

Definition level_rank (l : Level) : Z :=
  match l with Error => 1 | Warn => 2 | Info => 3 | Debug => 4 | Trace => 5 end.
Definition filter_rank (f : LevelFilter) : Z := match f with Some l => level_rank l | None => 0 end.

(** The crate: the names it prints for the levels, and its macros ([info!] and the
    like), which call the logger that was set, or not, by the maximal level. *)
Class LogCrate := {
  level_name : Level → text;
  log_macro : LevelFilter → (Level → text → C unit) → Level → text → C unit;
}.
Class LogCrateLaws `{LogCrate} := {
  level_names : level_name <$> [Error; Warn; Info; Debug; Trace] = lit <$> ["ERROR"; "WARN"; "INFO"; "DEBUG"; "TRACE"]%string;
  log_macro_enabled f logger l args :
    level_rank l ≤ filter_rank f → log_macro f logger l args = logger l args;
  log_macro_disabled f logger l args :
    filter_rank f < level_rank l → log_macro f logger l args = mret tt;
}.

Section Logging.
Context `{Firmware} `{LogCrate}.

(* src: src/src/logging.rs 8-10 SimpleLogger::enabled *)
Definition SimpleLogger_enabled (level : Level) : bool := true.

(* src: src/src/logging.rs 17-23 SimpleLogger::log *)
Definition level_color (level : Level) : Z :=
  match level with
  | Error => 31
  | Warn => 93
  | Info => 34
  | Debug => 32
  | Trace => 90
  end.

Definition log_line (level : Level) (args : text) : text :=
  [0x1b] ++ lit "[" ++ fmt_dec (level_color level) ++ lit "m[" ++ pad_left 5 (level_name level) ++ lit "] " ++
  args ++ [0x1b] ++ lit "[0m".

(* src: src/src/logging.rs 12-31 SimpleLogger::log *)
Definition SimpleLogger_log (level : Level) (args : text) : C unit :=
  if negb (SimpleLogger_enabled level) then mret tt
  else println (log_line level args).

(* src: src/src/logging.rs 33-33 SimpleLogger::flush *)
Definition SimpleLogger_flush : C unit := mret tt.

(** The maximal level, from the environment variable [LOG] of the build. *)
(* src: src/src/logging.rs 37-48 init *)
Definition logging_init (env_LOG : option string) : LevelFilter :=
  match env_LOG with
  | Some "ERROR" => Some Error
  | Some "WARN" => Some Warn
  | Some "INFO" => Some Info
  | Some "DEBUG" => Some Debug
  | Some "TRACE" => Some Trace
  | _ => None
  end%string.

Definition info (max_level : LevelFilter) (args : text) : C unit := log_macro max_level SimpleLogger_log Info args.

Definition show_range (name : string) (lo hi : Z) : text :=
  lit name ++ lit "[0x" ++ fmt_hex lo ++ lit ", 0x" ++ fmt_hex hi ++ lit ")".

(** The linker symbols are arguments. *)
(* src: src/src/main.rs 71-109 show_os_sections *)
Definition show_os_sections (max_level : LevelFilter) (text_ rodata data bss boot_stack : Z * Z) : C unit :=
  info max_level (show_range "Kernel Section Info: .text   : " text_.1 text_.2);;
  info max_level (show_range "Kernel Section Info: .rodata : " rodata.1 rodata.2);;
  info max_level (show_range "Kernel Section Info: .sdata  : " data.1 data.2);;
  info max_level (show_range "Kernel Section Info: .bss    : " bss.1 bss.2);;
  info max_level (show_range "Kernel Stack Info: " boot_stack.1 boot_stack.2).

(** ** The panic handler *)

(** [info.message().unwrap()] at the given line of [lang_item.rs]. *)
Definition unwrap_message (line : Z) (o : option text) : C text :=
  match o with
  | Some s => mret s
  | None => panics "src/lang_item.rs" line "called `Option::unwrap()` on a `None` value"
  end.

(* src: src/src/lang_item.rs 7-19 panic *)
Definition panic_handler (i : PanicInfo) : C Empty_set :=
  (match pi_location i with
   | Some (file, line) =>
       message ← unwrap_message 13 (pi_message i);
       println (lit "[Kernel] Panicked at " ++ file ++ lit ":" ++ fmt_dec line ++ lit " " ++ message)
   | None =>
       message ← unwrap_message 16 (pi_message i);
       println (lit "[Kernel] Panicked: " ++ message)
   end);;
  shutdown.

(** A panic calls the handler, and so does a panic in the handler. *)
Fixpoint on_panic (fuel : nat) (i : PanicInfo) (t : trace) : option trace :=
  match fuel with
  | O => None
  | S fuel =>
      match panic_handler i t with
      | Returns x _ => match x with end
      | Halts t' => Some t'
      | Panics i' t' => on_panic fuel i' t'
      end
  end.
End Logging.

(** ** Listings of the file layer *)

Section Listings.
Context `{Firmware} `{EasyFs}.

(** [Inode::get_size] and [Inode::ls] of [easy_fs]. *)
Context (inode_get_size : Inode → disk → Z) (root_ls : disk → list text).

(* src: src/src/fs/inode.rs 60-71 OSInode::dump_metadata *)
Definition OSInode_dump_metadata (f : OSInode) (d : disk) : C unit :=
  let '(block_id, block_offset) := inode_get_block_metadata (os_inode f) d in
  println (lit "[Kernel] OSInode: size = " ++ fmt_dec (inode_get_size (os_inode f) d) ++ lit " block id " ++
    fmt_dec block_id ++ lit ", block offset " ++ fmt_dec block_offset ++ lit ", offset " ++ fmt_dec (os_offset f)).

(* src: src/src/fs/inode.rs 83-89 list_apps *)
Definition list_apps (d : disk) : C unit :=
  println (lit "/**** APPS ****/");;
  each println (root_ls d);;
  println (lit "/**************/").
End Listings.

(** ** What is printed *)

Definition putchar_request (c : Z) : sbi_request := mkRequest SBI_CONSOLE_PUTCHAR c 0 0.
Definition shutdown_request : sbi_request := mkRequest SBI_SHUTDOWN 0 0 0.
Definition timer_request (z : Z) : sbi_request := mkRequest SBI_SET_TIMER z 0 0.
Definition printed (s : text) : trace := putchar_request <$> s.
Definition line (s : text) : trace := printed (s ++ newline).

(** The legacy SBI extension: a character is printed and the call returns, and so does
    setting the timer; a shutdown does not. *)
Class FirmwareLaws `{Firmware} := {
  putchar_returns t c : is_Some (firmware t (putchar_request c));
  timer_returns t z : is_Some (firmware t (timer_request z));
  shutdown_stops t : firmware t shutdown_request = None;
}.

Section Printing.
Context `{Firmware} (Hput : ∀ t c, is_Some (firmware t (putchar_request c))).

Lemma each_run {A} (f : A → C unit) (g : A → trace) l t :
  (∀ x t, f x t = Returns tt (t ++ g x)) → each f l t = Returns tt (t ++ mjoin (g <$> l)).
Proof.
  intros Hf. revert t. induction l as [|x l IH]; intros t; simpl; [by rewrite app_nil_r|].
  unfold mbind, C_bind. rewrite Hf, IH. by rewrite <-app_assoc.
Qed.

Lemma putchar_run c t : console_putchar c t = Returns tt (t ++ [putchar_request c]).
Proof using Hput.
  unfold console_putchar, mbind, C_bind, sbi_call. fold (putchar_request c).
  by destruct (Hput t c) as [r ->].
Qed.

Lemma mjoin_singletons {A B} (f : A → B) l : mjoin ((λ x, [f x]) <$> l) = f <$> l.
Proof. induction l as [|x l IH]; [done|]. change ([f x] ++ mjoin ((λ x, [f x]) <$> l) = f x :: (f <$> l)). by rewrite IH. Qed.

Lemma print_run s t : print s t = Returns tt (t ++ printed s).
Proof using Hput.
  unfold print, write_str. rewrite (each_run _ (λ c, [putchar_request c])) by apply putchar_run.
  by rewrite mjoin_singletons.
Qed.

Lemma println_run s t : println s t = Returns tt (t ++ line s).
Proof using Hput. apply print_run. Qed.
End Printing.

(** *** Numbers read back *)

Definition digit_val (c : Z) : Z := if c <? 58 then c - 48 else c - 87.
Definition read_from (base v : Z) (s : text) : Z := foldl (λ v c, v * base + digit_val c) v s.

Lemma digit_val_char d : 0 ≤ d < 36 → digit_val (digit_char d) = d.
Proof. unfold digit_val, digit_char. intros Hd. destruct (Z.ltb_spec d 10); case_match; lia. Qed.

Lemma fmt_digits_read base fuel n acc v :
  2 ≤ base ≤ 36 → 0 ≤ n < base ^ Z.of_nat fuel → fuel ≠ O →
  ∃ k, 0 ≤ k ∧ read_from base v (fmt_digits fuel base n acc) = read_from base (v * base ^ k + n) acc.
Proof.
  intros Hb. revert n acc. induction fuel as [|fuel IH]; intros n acc Hn Hf; [done|]. simpl.
  assert (Hd : digit_val (digit_char (n mod base)) = n mod base).
  { apply digit_val_char. pose proof (Z.mod_pos_bound n base). lia. }
  pose proof (Z.div_mod n base ltac:(lia)) as Hdm.
  destruct (Z.eqb_spec (n / base) 0) as [H0|H0].
  { exists 1. split; [done|]. unfold read_from. cbn [foldl]. rewrite Hd, Z.pow_1_r. f_equal. nia. }
  assert (Hq : 0 ≤ n / base < base ^ Z.of_nat fuel).
  { rewrite Nat2Z.inj_succ, Z.pow_succ_r in Hn by lia. split; [apply Z.div_pos; lia|].
    apply Z.div_lt_upper_bound; lia. }
  destruct (IH (n / base) (digit_char (n mod base) :: acc) Hq) as (k & Hk & IH').
  { intros ->. simpl in Hq. lia. }
  exists (Z.succ k). split; [lia|]. rewrite IH'. unfold read_from. cbn [foldl]. rewrite Hd, Z.pow_succ_r by done.
  f_equal. nia.
Qed.

Lemma fmt_hex_read n : is_usize n → read_from 16 0 (fmt_hex n) = n.
Proof.
  intros Hn. destruct (fmt_digits_read 16 64 n [] 0) as (k & _ & Hk); [lia| |done|exact Hk].
  unfold is_usize, usize_modulus in Hn. change (16 ^ Z.of_nat 64) with (2 ^ 256). lia.
Qed.

Lemma fmt_dec_read n : is_usize n → read_from 10 0 (fmt_dec n) = n.
Proof.
  intros Hn. destruct (fmt_digits_read 10 64 n [] 0) as (k & _ & Hk); [lia| |done|exact Hk].
  unfold is_usize, usize_modulus in Hn. assert (2 ^ 64 ≤ 10 ^ Z.of_nat 64) by (by vm_compute). lia.
Qed.

(** What a debug message tells its reader: the prefix gives the kind, the digits the value. *)
Inductive addr_kind : Set := VirtAddrKind | VirtPageNumKind | PhysAddrKind | PhysPageNumKind.

Definition debug_fmt (k : addr_kind) : Z → text :=
  match k with
  | VirtAddrKind => VirtAddr_fmt
  | VirtPageNumKind => VirtPageNum_fmt
  | PhysAddrKind => PhysAddr_fmt
  | PhysPageNumKind => PhysPageNum_fmt
  end.

Definition strip_prefix (p s : text) : option text :=
  if bool_decide (take (length p) s = p) then Some (drop (length p) s) else None.

Definition read_debug (s : text) : option (addr_kind * Z) :=
  let try p k := (λ r, (k, read_from 16 0 r)) <$> strip_prefix (lit p ++ lit "0x") s in
  match try "VA: "%string VirtAddrKind, try "VPN: "%string VirtPageNumKind,
        try "PA: "%string PhysAddrKind, try "PPN: "%string PhysPageNumKind with
  | Some r, _, _, _ | None, Some r, _, _ | None, None, Some r, _ | None, None, None, Some r => Some r
  | _, _, _, _ => None
  end.

(** The debug form of an address or a page number can be read back: it tells a
    virtual address, a virtual page number, a physical address and a physical page
    number apart, and its hexadecimal digits give the value. *)
Theorem debug_reads_back k n : is_usize n → read_debug (debug_fmt k n) = Some (k, n).
Proof.
  intros Hn. rewrite <-(fmt_hex_read n Hn) at 2. destruct k; unfold debug_fmt, VirtAddr_fmt, VirtPageNum_fmt,
    PhysAddr_fmt, PhysPageNum_fmt, fmt_0x; generalize (fmt_hex n); intros s; reflexivity.
Qed.

Lemma debug_reads_back_witness : read_debug (debug_fmt PhysPageNumKind 0x80200) = Some (PhysPageNumKind, 0x80200).
Proof. apply (debug_reads_back PhysPageNumKind 0x80200). by vm_compute. Defined.

(** *** Logging *)

Section LogLines.
Context `{Firmware} `{LogCrateLaws}.

Lemma level_name_eq l :
  level_name l = lit (match l with Error => "ERROR" | Warn => "WARN" | Info => "INFO" | Debug => "DEBUG"
                      | Trace => "TRACE" end)%string.
Proof. pose proof level_names as [= E1 E2 E3 E4 E5]. by destruct l. Qed.

Lemma log_line_inj l l' a a' : log_line l a = log_line l' a' → l = l' ∧ a = a'.
Proof.
  unfold log_line. rewrite !level_name_eq. intros Heq.
  assert (l = l') as -> by (destruct l, l'; try done; discriminate Heq).
  split; [done|]. do 6 apply app_inv_head in Heq. by apply app_inv_tail in Heq.
Qed.

(** Logging.  A message of a level up to the one named by [LOG] at build time is
    printed as one line in the colour of its level; a message of a higher level, or any
    message when [LOG] is not one of the five names, prints nothing; and the line
    determines the level and the message. *)
Theorem log_prints_enabled_line env_LOG l args t :
  (∀ t c, is_Some (firmware t (putchar_request c))) →
  log_macro (logging_init env_LOG) SimpleLogger_log l args t =
    Returns tt (t ++ if decide (level_rank l ≤ filter_rank (logging_init env_LOG)) then line (log_line l args) else []) ∧
  ∀ l' args', line (log_line l' args') = line (log_line l args) → l' = l ∧ args' = args.
Proof.
  intros Hput. split.
  - case_decide; [rewrite log_macro_enabled by done; by apply println_run|].
    rewrite log_macro_disabled by lia. by rewrite app_nil_r.
  - intros l' args' Heq. apply log_line_inj. apply (app_inv_tail newline).
    apply (list_fmap_eq_inj putchar_request); [|exact Heq]. by intros x y [= ->].
Qed.
End LogLines.

(** *** Panics *)

(** The line printed for a panic; a panic without a message panics in the handler. *)
Definition panic_line (i : PanicInfo) : text :=
  match pi_location i, pi_message i with
  | Some (file, n), Some m => lit "[Kernel] Panicked at " ++ file ++ lit ":" ++ fmt_dec n ++ lit " " ++ m
  | None, Some m => lit "[Kernel] Panicked: " ++ m
  | Some _, None => lit "[Kernel] Panicked at src/lang_item.rs:13 called `Option::unwrap()` on a `None` value"
  | None, None => lit "[Kernel] Panicked at src/lang_item.rs:16 called `Option::unwrap()` on a `None` value"
  end.

Section PanicHandler.
Context `{Firmware} (Hput : ∀ t c, is_Some (firmware t (putchar_request c))).

(** The handler prints the line and asks for the shutdown, unless there is no message. *)
Lemma panic_handler_run i t :
  panic_handler i t =
    match pi_message i with
    | Some _ => shutdown (t ++ line (panic_line i))
    | None => panics "src/lang_item.rs" (match pi_location i with Some _ => 13 | None => 16 end)
                "called `Option::unwrap()` on a `None` value" t
    end.
Proof using Hput.
  destruct i as [[[file n]|] [m|]]; unfold panic_handler, unwrap_message, panic_line; cbn [pi_location pi_message];
    try reflexivity; unfold mbind, C_bind, mret, C_ret; by rewrite println_run.
Qed.

Lemma on_panic_stops i t fuel :
  (∀ t, firmware t shutdown_request = None) → (2 ≤ fuel)%nat →
  on_panic fuel i t = Some (t ++ line (panic_line i) ++ [shutdown_request]).
Proof using Hput.
  intros Hoff Hf. assert (Hs : ∀ t', shutdown t' = Halts (t' ++ [shutdown_request])).
  { intros t'. unfold shutdown, mbind, C_bind, sbi_call. fold shutdown_request. by rewrite Hoff. }
  destruct fuel as [|[|fuel]]; [lia..|]. cbn [on_panic]. rewrite panic_handler_run.
  destruct (pi_message i) as [m|] eqn:Hm; [by rewrite Hs, app_assoc|]. unfold panics.
  rewrite panic_handler_run. cbn [pi_message]. rewrite Hs, <-app_assoc.
  destruct i as [[[file n]|] mo]; simpl in Hm; subst mo; reflexivity.
Qed.

(** A firmware that comes back from a shutdown makes the handler panic, for ever. *)
Lemma on_panic_forever i t fuel :
  (∀ t, is_Some (firmware t shutdown_request)) → on_panic fuel i t = None.
Proof using Hput.
  intros Hback. assert (Hs : ∀ t', ∃ i' t'', shutdown t' = Panics i' t'').
  { intros t'. unfold shutdown, mbind, C_bind, sbi_call. fold shutdown_request.
    destruct (Hback t') as [r ->]. by eexists _, _. }
  revert i t. induction fuel as [|fuel IH]; intros i t; [done|]. cbn [on_panic]. rewrite panic_handler_run.
  destruct (pi_message i); [|apply IH]. destruct (Hs (t ++ line (panic_line i))) as (i' & t' & ->). apply IH.
Qed.
End PanicHandler.

(** C34: a panic ends in a power-off.  Whatever the panic, the handler prints one line
    with the place and the message, asks the firmware to shut down, and nothing is asked
    for after that; a panic without a message, on which the handler itself panics, is
    reported by the nested call of the handler. *)
Theorem panic_powers_off `{FirmwareLaws} i t fuel :
  (2 ≤ fuel)%nat → on_panic fuel i t = Some (t ++ line (panic_line i) ++ [shutdown_request]).
Proof. apply on_panic_stops; [apply putchar_returns|apply shutdown_stops]. Qed.

(** *** Listings *)

Lemma list_apps_run `{FirmwareLaws} `{EasyFs} root_ls d t :
  list_apps root_ls d t = Returns tt (t ++ line (lit "/**** APPS ****/") ++ mjoin (line <$> root_ls d) ++
    line (lit "/**************/")).
Proof.
  unfold list_apps, mbind, C_bind. rewrite println_run by apply putchar_returns.
  rewrite (each_run _ line) by (intros; apply println_run, putchar_returns).
  rewrite println_run by apply putchar_returns. by rewrite <-!app_assoc.
Qed.

(** ** The console file on the firmware

    [Files] keeps the bytes of the text printed so far; the code prints a text character
    by character.  The characters, encoded again, are the bytes. *)

(** [str::chars] of well-formed UTF-8, and [char::encode_utf8]. *)
Fixpoint utf8_chars (l : list Z) : text :=
  match l with
  | [] => []
  | a :: l1 =>
      if a <? 0x80 then a :: utf8_chars l1
      else match l1 with
      | [] => []
      | b :: l2 =>
          if a <? 0xe0 then (a - 0xc0) * 64 + (b - 0x80) :: utf8_chars l2
          else match l2 with
          | [] => []
          | c :: l3 =>
              if a <? 0xf0 then ((a - 0xe0) * 64 + (b - 0x80)) * 64 + (c - 0x80) :: utf8_chars l3
              else match l3 with
              | [] => []
              | d :: l4 => (((a - 0xf0) * 64 + (b - 0x80)) * 64 + (c - 0x80)) * 64 + (d - 0x80) :: utf8_chars l4
              end
          end
      end
  end.

Definition utf8_encode (c : Z) : list Z :=
  if c <? 0x80 then [c]
  else if c <? 0x800 then [0xc0 + c / 64; 0x80 + c mod 64]
  else if c <? 0x10000 then [0xe0 + c / 4096; 0x80 + c / 64 mod 64; 0x80 + c mod 64]
  else [0xf0 + c / 262144; 0x80 + c / 4096 mod 64; 0x80 + c / 64 mod 64; 0x80 + c mod 64].

(** A Unicode scalar value. *)
Definition is_char (c : Z) : Prop := 0 ≤ c < 0xd800 ∨ 0xe000 ≤ c < 0x110000.

(** Splits a condition of [utf8_valid] into linear facts. *)
Ltac utf8_cases :=
  unfold utf8_cont, utf8_in in *;
  repeat match goal with
  | E : context [if ?b then _ else _] |- _ => destruct b eqn:?
  | E : _ && _ = true |- _ => apply andb_prop in E as [? ?]
  | E : (_ <=? _) = true |- _ => apply Z.leb_le in E
  | E : (_ =? _) = true |- _ => apply Z.eqb_eq in E
  | E : (_ =? _) = false |- _ => apply Z.eqb_neq in E
  end.

Lemma utf8_encode2 a b : 0xc2 ≤ a ≤ 0xdf → 0x80 ≤ b ≤ 0xbf → utf8_encode ((a - 0xc0) * 64 + (b - 0x80)) = [a; b].
Proof.
  intros Ha Hb. unfold utf8_encode. rewrite (proj2 (Z.ltb_ge _ 0x80)), (proj2 (Z.ltb_lt _ 0x800)) by lia.
  repeat f_equal; zsolve.
Qed.

Lemma utf8_encode3 a b c :
  0xe0 ≤ a ≤ 0xef → 0x80 ≤ b ≤ 0xbf → (a = 0xe0 → 0xa0 ≤ b) → 0x80 ≤ c ≤ 0xbf →
  utf8_encode (((a - 0xe0) * 64 + (b - 0x80)) * 64 + (c - 0x80)) = [a; b; c].
Proof.
  intros Ha Hb Hab Hc. unfold utf8_encode.
  rewrite (proj2 (Z.ltb_ge _ 0x80)), (proj2 (Z.ltb_ge _ 0x800)), (proj2 (Z.ltb_lt _ 0x10000)) by lia.
  repeat f_equal; zsolve.
Qed.

Lemma utf8_encode4 a b c d :
  0xf0 ≤ a ≤ 0xf4 → 0x80 ≤ b ≤ 0xbf → (a = 0xf0 → 0x90 ≤ b) → 0x80 ≤ c ≤ 0xbf → 0x80 ≤ d ≤ 0xbf →
  utf8_encode ((((a - 0xf0) * 64 + (b - 0x80)) * 64 + (c - 0x80)) * 64 + (d - 0x80)) = [a; b; c; d].
Proof.
  intros Ha Hb Hab Hc Hd. unfold utf8_encode.
  rewrite (proj2 (Z.ltb_ge _ 0x80)), (proj2 (Z.ltb_ge _ 0x800)), (proj2 (Z.ltb_ge _ 0x10000)) by lia.
  repeat f_equal; zsolve.
Qed.

(** The first character: its bytes [p], what follows it, and that it is a character. *)
Definition first_char (l : list Z) : Prop := ∃ c p l', l = p ++ l' ∧ (length l' < length l)%nat ∧
  utf8_chars l = c :: utf8_chars l' ∧ utf8_encode c = p ∧ is_char c ∧ utf8_valid l' = true.

Lemma utf8_step a l : utf8_valid (a :: l) = true → 0 ≤ a → first_char (a :: l).
Proof.
  intros Hv Ha. cbn [utf8_valid] in Hv. unfold first_char, is_char. cbn [utf8_chars].
  destruct (Z.ltb_spec a 0x80) as [H1|H1].
  { exists a, [a], l. split_and!; [done|simpl; lia|done| |lia|done]. unfold utf8_encode. by rewrite (proj2 (Z.ltb_lt a 0x80)). }
  destruct l as [|b l]; [done|]. destruct (utf8_in 0xc2 0xdf a) eqn:H2.
  { utf8_cases. rewrite (proj2 (Z.ltb_lt a 0xe0)) by lia.
    eexists _, [a; b], l. split_and!; [done|simpl; lia|done|by apply utf8_encode2|lia|done]. }
  destruct l as [|c l]; [done|]. destruct (utf8_in 0xe0 0xef a) eqn:H3.
  { assert (0xe0 ≤ a ≤ 0xef) by (clear Hv; utf8_cases; lia). rewrite (proj2 (Z.ltb_ge a 0xe0)), (proj2 (Z.ltb_lt a 0xf0)) by lia.
    eexists _, [a; b; c], l. utf8_cases; (split_and!; [done|simpl; lia|done|apply utf8_encode3; lia|lia|done]). }
  destruct l as [|d l]; [done|].
  assert (H4 : 0xf0 ≤ a) by (utf8_cases; lia).
  rewrite (proj2 (Z.ltb_ge a 0xe0)), (proj2 (Z.ltb_ge a 0xf0)) by lia.
  eexists _, [a; b; c; d], l. utf8_cases; (split_and!; [done|simpl; lia|done|apply utf8_encode4; lia|lia|done]).
Qed.

Lemma utf8_roundtrip l :
  utf8_valid l = true → Forall (λ a, 0 ≤ a) l →
  mjoin (utf8_encode <$> utf8_chars l) = l ∧ Forall is_char (utf8_chars l).
Proof.
  remember (length l) as n eqn:Hn. revert l Hn. induction n as [n IH] using lt_wf_ind. intros l -> Hv Hl.
  destruct l as [|a l]; [by split; [|constructor]|].
  destruct (utf8_step a l Hv (Forall_inv Hl)) as (c & p & l' & Heq & Hlen & Hc & He & Hch & Hv').
  rewrite Hc. rewrite Heq in Hl |- *. apply Forall_app in Hl as [_ Hl']. destruct (IH _ Hlen l' eq_refl Hv' Hl') as [IH1 IH2].
  split; [|by constructor]. rewrite fmap_cons, He. change (p ++ mjoin (utf8_encode <$> utf8_chars l') = p ++ l').
  by rewrite IH1.
Qed.

(** What a trace has put on the screen, in bytes. *)
Definition printed_chars (t : trace) : text :=
  omap (λ r, if sbi_which r =? SBI_CONSOLE_PUTCHAR then Some (sbi_arg0 r) else None) t.
Definition screen_of (t : trace) : list Z := mjoin (utf8_encode <$> printed_chars t).

Lemma screen_of_app t t' : screen_of (t ++ t') = screen_of t ++ screen_of t'.
Proof. unfold screen_of, printed_chars. by rewrite omap_app, fmap_app, join_app. Qed.

Lemma screen_of_printed s : screen_of (printed s) = mjoin (utf8_encode <$> s).
Proof.
  unfold screen_of. f_equal. f_equal. unfold printed_chars, printed.
  induction s as [|c s IH]; [done|]. rewrite fmap_cons. cbn [omap list_omap]. f_equal. exact IH.
Qed.

Section ConsoleFile.
Context `{Firmware} `{EasyFs}.

(** The calls of [print!] made by [Stdout::write]. *)
(* src: src/src/fs/stdio.rs 69-73 Stdout::write *)
Definition Stdout_prints (m : memory) (buf : UserBuffer) : C unit :=
  each (λ buffer, print (utf8_chars (byte.unsigned <$> load_bytes m (bs_addr buffer) (Z.to_nat (bs_len buffer)))))
    (buffers buf).

(** The trace [t] has printed what the model of the file layer has on its screen. *)
Definition shows (t : trace) (st : system) : Prop := screen_of t = byte.unsigned <$> screen st.

Lemma print_shows l t st :
  (∀ t c, is_Some (firmware t (putchar_request c))) →
  is_Some (from_utf8 l) → shows t st →
  ∃ t', print (utf8_chars (byte.unsigned <$> l)) t = Returns tt t' ∧ shows t' (set_screen (screen st ++ l) st).
Proof.
  intros Hput Hl Hs. exists (t ++ printed (utf8_chars (byte.unsigned <$> l))). split; [by apply print_run|].
  unfold from_utf8 in Hl. destruct (utf8_valid (byte.unsigned <$> l)) eqn:Hv; [|by destruct Hl].
  unfold shows in *. cbn [screen set_screen]. rewrite screen_of_app, screen_of_printed, Hs, fmap_app. f_equal.
  apply utf8_roundtrip; [done|]. apply Forall_forall. intros x (b & -> & _)%list_elem_of_fmap.
  pose proof (byte.unsigned_range b). lia.
Qed.

(** An iteration of [Stdout::write]. *)
Definition stdout_iter (buffer : ByteSlice) : M system unit :=
  l ← read_slice buffer;
  s ← unwrap (from_utf8 l);
  modify (λ st, set_screen (screen st ++ s) st).

Lemma stdout_iter_run b st :
  let data := load_bytes (phys (km_mm (k_mem (sys_kernel st)))) (bs_addr b) (Z.to_nat (bs_len b)) in
  stdout_iter b st = if from_utf8 data is Some _ then Done tt (set_screen (screen st ++ data) st) else Panic UnwrapNone.
Proof.
  destruct st as [[[[] ? ?] ? ? ? ?] ? ? ? ? ? ? ? ?]. intros data. unfold stdout_iter, mbind, M_bind.
  cbn -[data from_utf8 load_bytes]. fold data. unfold from_utf8. by destruct (utf8_valid _).
Qed.

(** C33: the console file refines to firmware calls.  Whenever [Stdout::write] returns,
    the [print!]s it makes, one firmware call per character, return as well, and the
    characters sent, in UTF-8, are exactly the bytes the file layer has appended to its
    screen. *)
Theorem stdout_write_prints_chars buf st n st' t :
  (∀ t c, is_Some (firmware t (putchar_request c))) →
  Stdout_write buf st = Done n st' → shows t st →
  ∃ t', Stdout_prints (phys (km_mm (k_mem (sys_kernel st)))) buf t = Returns tt t' ∧ shows t' st'.
Proof.
  intros Hput. unfold Stdout_write, Stdout_prints, forM. generalize (UserBuffer_len buf). intros len.
  change (λ (_ : unit) x, _) with (λ (_ : unit) x, stdout_iter x).
  revert st t. induction (buffers buf) as [|b l IH]; intros st t; cbn [foldM each].
  { intros [= <- <-] Hs. by exists t. }
  unfold mbind at 1 2, M_bind at 1 2, mbind, C_bind. rewrite stdout_iter_run. set (data := load_bytes _ _ _).
  destruct (from_utf8 data) as [s|] eqn:Hd; [|done]. intros Hrun Hs.
  destruct (print_shows data t st Hput ltac:(by eexists) Hs) as (t1 & -> & Hs1). by apply (IH _ t1 Hrun).
Qed.
End ConsoleFile.

(** ** A firmware, a log crate and a kernel with nothing but memory *)

#[local] Instance demo_firmware : Firmware := λ _ r, if sbi_which r =? SBI_SHUTDOWN then None else Some 0.

#[local] Instance demo_firmware_laws : FirmwareLaws.
Proof. split; [intros t c; by exists 0|intros t z; by exists 0|done]. Qed.

#[local] Instance demo_log : LogCrate := {|
  level_name l := lit (match l with Error => "ERROR" | Warn => "WARN" | Info => "INFO" | Debug => "DEBUG" | Trace => "TRACE" end)%string;
  log_macro f logger l args := if level_rank l <=? filter_rank f then logger l args else mret tt;
|}.

#[local] Instance demo_log_laws : LogCrateLaws.
Proof.
  split; [done|..]; intros f logger l args Hl; unfold log_macro; simpl.
  - by rewrite (proj2 (Z.leb_le _ _)).
  - by rewrite (proj2 (Z.leb_gt _ _)).
Qed.

Lemma log_prints_enabled_line_witness :
  log_macro (logging_init (Some "INFO"%string)) SimpleLogger_log Warn (lit "low memory") [] =
    Returns tt (line (log_line Warn (lit "low memory"))) ∧
  log_macro (logging_init (Some "INFO"%string)) SimpleLogger_log Debug (lit "low memory") [] = Returns tt [].
Proof.
  split; [exact (proj1 (log_prints_enabled_line (Some "INFO"%string) Warn (lit "low memory") [] putchar_returns))|].
  exact (proj1 (log_prints_enabled_line (Some "INFO"%string) Debug (lit "low memory") [] putchar_returns)).
Defined.

Lemma panic_powers_off_witness :
  let i := mkPanicInfo (Some (lit "src/trap/mod.rs", 82)) (Some (lit "Unsupported trap")) in
  on_panic 2 i [] = Some (line (lit "[Kernel] Panicked at src/trap/mod.rs:82 Unsupported trap") ++ [shutdown_request]).
Proof.
  intros i. rewrite (panic_powers_off i [] 2) by lia. reflexivity.
Defined.

#[local] Instance no_files : EasyFs := {|
  disk := unit; Inode := unit; root_find _ _ := None; root_create _ d := (None, d); root_linkat _ _ d := (-1, d);
  root_unlinkat _ d := (-1, d); root_find_inode_id_by_block _ _ _ := None; inode_clear _ d := d;
  inode_read_at _ _ _ _ := []; inode_write_at _ _ _ d := (0, d); inode_get_nlink _ _ := 0;
  inode_get_block_metadata _ _ := (0, 0); inode_find_file_type _ _ := INODE_FILE;
|}.

(** Two characters at address 0 take three bytes. *)
Definition demo_terminal : system :=
  let mem := store_bytes (λ _, Corelib.Init.Byte.x00) 0 [Corelib.Init.Byte.x48; Corelib.Init.Byte.xc3; Corelib.Init.Byte.xa9] in
  mkSystem _ {| k_mem := {| km_mm := mkMM mem StackFrameAllocator_new; KERNEL_SPACE := {| page_table := {| root_ppn := 0; frames := [] |}; areas := [] |};
      PID_ALLOCATOR := PidAllocator_new |}; TASKS := ∅; next_task := 0; ready_queue := []; PROCESSOR := Processor_new; INITPROC := 0 |}
    tt ∅ 0 [] [] ∅ 0 0.

Lemma stdout_write_prints_chars_witness :
  ∃ t st', Stdout_prints (phys (km_mm (k_mem (sys_kernel demo_terminal)))) {| buffers := [ {| bs_addr := 0; bs_len := 3 |} ] |} [] = Returns tt t ∧
    shows t st' ∧ screen st' = [Corelib.Init.Byte.x48; Corelib.Init.Byte.xc3; Corelib.Init.Byte.xa9].
Proof.
  set (buf := {| buffers := [ {| bs_addr := 0; bs_len := 3 |} ] |}).
  set (st' := set_screen [Corelib.Init.Byte.x48; Corelib.Init.Byte.xc3; Corelib.Init.Byte.xa9] demo_terminal).
  destruct (@stdout_write_prints_chars demo_firmware no_files buf demo_terminal 3 st' [] putchar_returns) as (t & Ht & Hs).
  - vm_compute. reflexivity.
  - reflexivity.
  - exists t, st'. split; [exact Ht|]. split; [exact Hs|reflexivity].
Defined.
