(* ===== verification/Build.v ===== *)
(** * The build script ([src/build.rs])

    Before the kernel is compiled, [insert_app_data] writes [link_app.S], which embeds
    the programs of the user directory in the kernel image.  The directory listing is an
    argument; the file is the list of the lines written to it.  Errors of the build
    machine's file system are left out. *)
From S2P Require Import Prelude Console.

(** A quotation mark, which a literal cannot hold. *)
Definition quote : text := [34].

(* src: src/build.rs 4-4 TARGET_PATH *)
Definition TARGET_PATH : text := lit "../rCore-Tutorial-Code-2024S/user/build/elf/".

(** [str::find('.')]. *)
Definition find_dot (s : text) : option nat := fst <$> list_find (λ c, c = 46) s.

(** [name.drain(name.find('.').unwrap()..name.len())]. *)
(* src: src/build.rs 17-21 insert_app_data *)
Definition app_name {S} (file_name : text) : M S text :=
  i ← unwrap (find_dot file_name);
  mret (take i file_name).

(** The order of [str]: by characters, a prefix first. *)
Fixpoint text_leb (a b : text) : bool :=
  match a, b with
  | [], _ => true
  | _, [] => false
  | x :: a, y :: b => if x <? y then true else if x =? y then text_leb a b else false
  end.
Definition text_le (a b : text) : Prop := text_leb a b = true.
#[global] Instance text_le_dec : RelDecision text_le := λ a b, decide (text_leb a b = true).

(** [writeln!(f, ...)], which may write several lines. *)
Definition writeln (l : list text) : M (list text) unit := modify (λ out, out ++ l).

Definition start_label (i : Z) : text := lit "app_" ++ fmt_dec i ++ lit "_start".
Definition end_label (i : Z) : text := lit "app_" ++ fmt_dec i ++ lit "_end".

(* src: src/build.rs 51-64 insert_app_data *)
Definition write_app (idx : Z) (app : text) : M (list text) unit :=
  writeln [[]; lit "    .section .data"; lit "    .global " ++ start_label idx; lit "    .global " ++ end_label idx;
           lit "    .align 3"; start_label idx ++ lit ":";
           lit "    .incbin " ++ quote ++ TARGET_PATH ++ app ++ lit ".elf" ++ quote; end_label idx ++ lit ":"].

(* src: src/build.rs 12-69 insert_app_data *)
Definition insert_app_data (read_dir : list text) : M (list text) unit :=
  apps ← foldM (λ l name, a ← app_name name; mret (vec_push l a)) [] read_dir;
  let apps := merge_sort text_le apps in
  let len := Z.of_nat (length apps) in
  writeln [[]; lit "    .align 3"; lit "    .section .data"; lit "    .global _num_app"; lit "_num_app:";
           lit "    .quad " ++ fmt_dec len];;
  forM (λ i, writeln [lit "    .quad " ++ start_label i]) (seqZ 0 len);;
  writeln [lit "    .quad " ++ end_label (len -u 1)];;
  writeln [[]; lit "    .global _app_names"; lit "_app_names:"];;
  forM (λ app, writeln [lit "    .string " ++ quote ++ app ++ quote]) apps;;
  forM (λ p : Z * text, write_app p.1 p.2) (zip (seqZ 0 len) apps).

(** ** What the file says *)

(** The label a line defines, the label it puts into the table, the string it holds. *)
Definition label_of (l : text) : option text :=
  match rev l with c :: r => if c =? 58 then Some (rev r) else None | [] => None end.
Definition entry_of (l : text) : option text :=
  match strip_prefix (lit "    .quad ") l with
  | Some r => if bool_decide (take 4 r = lit "app_") then Some r else None
  | None => None
  end.
Definition string_of (l : text) : option text :=
  match strip_prefix (lit "    .string " ++ quote) l with
  | Some r => match rev r with c :: s => if c =? 34 then Some (rev s) else None | [] => None end
  | None => None
  end.

(** The lines of the file. *)
Definition link_app_lines (apps : list text) : list text :=
  let len := Z.of_nat (length apps) in
  [[]; lit "    .align 3"; lit "    .section .data"; lit "    .global _num_app"; lit "_num_app:";
   lit "    .quad " ++ fmt_dec len] ++
  ((λ i, lit "    .quad " ++ start_label i) <$> seqZ 0 len) ++
  [lit "    .quad " ++ end_label (len -u 1); []; lit "    .global _app_names"; lit "_app_names:"] ++
  ((λ app, lit "    .string " ++ quote ++ app ++ quote) <$> apps) ++
  (zip (seqZ 0 len) apps ≫= λ p,
    [[]; lit "    .section .data"; lit "    .global " ++ start_label p.1; lit "    .global " ++ end_label p.1;
     lit "    .align 3"; start_label p.1 ++ lit ":";
     lit "    .incbin " ++ quote ++ TARGET_PATH ++ p.2 ++ lit ".elf" ++ quote; end_label p.1 ++ lit ":"]).

Lemma forM_writeln {A} (f : A → list text) l out : forM (λ x, writeln (f x)) l out = Done tt (out ++ (l ≫= f)).
Proof.
  revert out. induction l as [|x l IH]; intros out; [simpl; by rewrite app_nil_r|].
  unfold forM. cbn [foldM]. unfold mbind at 1, M_bind at 1. unfold writeln at 1, modify at 1.
  change (foldM _ tt l (out ++ f x)) with (forM (λ x, writeln (f x)) l (out ++ f x)).
  rewrite IH, <-app_assoc. done.
Qed.

Lemma bind_singleton {A B} (f : A → B) l : (l ≫= λ x, [f x]) = f <$> l.
Proof. induction l as [|x l IH]; [done|]. change (f x :: (l ≫= λ x, [f x]) = f x :: (f <$> l)). by rewrite IH. Qed.

Lemma app_names_run {S} names l (s : S) :
  foldM (λ l name, a ← app_name name; mret (vec_push l a)) l names s =
    match mapM (λ n, (λ i, take i n) <$> find_dot n) names with
    | Some apps => Done (l ++ apps) s
    | None => Panic UnwrapNone
    end.
Proof.
  revert l. induction names as [|n names IH]; intros l; [simpl; by rewrite app_nil_r|].
  cbn [foldM mapM]. unfold mbind at 1, M_bind at 1.
  assert (Hstep : (a ← app_name n; mret (vec_push l a)) s =
    match find_dot n with Some i => Done (l ++ [take i n]) s | None => Panic UnwrapNone end).
  { unfold app_name, mbind, M_bind, unwrap. by destruct (find_dot n). }
  rewrite Hstep. destruct (find_dot n) as [i|]; [|done]. rewrite IH. cbn [fmap option_fmap option_map mbind option_bind].
  destruct (mapM _ names) as [apps|]; [|done]. cbn [mbind option_bind]. unfold mret, option_ret. by rewrite <-app_assoc.
Qed.

Lemma insert_app_data_run read_dir :
  insert_app_data read_dir [] =
    match mapM (λ n, (λ i, take i n) <$> find_dot n) read_dir with
    | Some apps => Done tt (link_app_lines (merge_sort text_le apps))
    | None => Panic UnwrapNone
    end.
Proof.
  unfold insert_app_data, mbind at 1, M_bind at 1. rewrite app_names_run. destruct (mapM _ read_dir) as [apps|]; [|done].
  cbn [app]. set (l := merge_sort text_le apps). unfold mbind, M_bind. unfold writeln at 1, modify at 1.
  rewrite forM_writeln. unfold writeln at 1 2, modify at 1 2. rewrite forM_writeln.
  unfold write_app. rewrite forM_writeln. rewrite !bind_singleton, <-!app_assoc. done.
Qed.

(** ** Reading the lines *)

#[global] Instance text_le_total : Total text_le.
Proof.
  intros a. induction a as [|x a IH]; intros [|y b]; unfold text_le; simpl; auto.
  destruct (Z.ltb_spec x y), (Z.ltb_spec y x), (Z.eqb_spec x y), (Z.eqb_spec y x); try lia; auto. apply IH.
Qed.

Lemma strip_prefix_app p r : strip_prefix p (p ++ r) = Some r.
Proof. unfold strip_prefix. rewrite take_app_length, drop_app_length. by rewrite bool_decide_true. Qed.

Lemma label_of_app x y : y ≠ [] → label_of (x ++ y) = app x <$> label_of y.
Proof.
  intros Hy. destruct y as [|c y _] using rev_ind; [done|]. unfold label_of.
  rewrite app_assoc, !rev_app_distr. cbn [rev app]. case_match; [|done]. cbn [fmap option_fmap option_map].
  by rewrite rev_app_distr, !rev_involutive.
Qed.

Definition is_digit (c : Z) : Prop := 48 ≤ c < 58.

Lemma fmt_dec_digits n : fmt_dec n ≠ [] ∧ Forall is_digit (fmt_dec n).
Proof.
  unfold fmt_dec. assert (Hgen : ∀ fuel n acc, Forall is_digit acc → (fuel ≠ O ∨ acc ≠ []) →
    fmt_digits fuel 10 n acc ≠ [] ∧ Forall is_digit (fmt_digits fuel 10 n acc)).
  { clear n. intros fuel. induction fuel as [|fuel IH]; intros n acc Ha Hne; [by destruct Hne|]. simpl.
    assert (Hd : Forall is_digit (digit_char (n mod 10) :: acc)).
    { constructor; [|done]. unfold digit_char, is_digit. pose proof (Z.mod_pos_bound n 10).
      rewrite (proj2 (Z.ltb_lt _ _)) by lia. lia. }
    case_match; [done|]. apply IH; [done|by right]. }
  apply Hgen; [constructor|by left].
Qed.

Lemma label_of_dec n : label_of (fmt_dec n) = None.
Proof.
  destruct (fmt_dec_digits n) as [Hne Hd]. destruct (fmt_dec n) as [|c l _] using rev_ind; [done|].
  apply Forall_app in Hd as [_ Hc]. apply Forall_inv in Hc. unfold label_of. rewrite rev_app_distr. cbn [rev app].
  unfold is_digit in Hc. by rewrite (proj2 (Z.eqb_neq c 58)) by lia.
Qed.

Lemma entry_of_dec n : entry_of (lit "    .quad " ++ fmt_dec n) = None.
Proof.
  unfold entry_of. rewrite strip_prefix_app. destruct (fmt_dec_digits n) as [_ Hd]. rewrite bool_decide_false; [done|].
  intros Ht. assert (Hin : 97 ∈ fmt_dec n) by (apply (subseteq_take 4); rewrite Ht; left).
  rewrite Forall_forall in Hd. specialize (Hd _ Hin). unfold is_digit in Hd. lia.
Qed.

Lemma omap_fmap_Some {A B C} (f : B → option C) (g : A → B) (h : A → C) (l : list A) :
  (∀ x, f (g x) = Some (h x)) → omap f (g <$> l) = h <$> l.
Proof. intros Hf. induction l as [|x l IH]; [done|]. rewrite !fmap_cons. cbn [omap list_omap]. rewrite Hf. f_equal. exact IH. Qed.

Lemma omap_fmap_None {A B C} (f : B → option C) (g : A → B) (l : list A) :
  (∀ x, f (g x) = None) → omap f (g <$> l) = [].
Proof. intros Hf. induction l as [|x l IH]; [done|]. rewrite fmap_cons. cbn [omap list_omap]. rewrite Hf. exact IH. Qed.

Lemma omap_Some {A B} (f : A → option B) x y l : f x = Some y → omap f (x :: l) = y :: omap f l.
Proof. intros Hf. cbn [omap list_omap]. by rewrite Hf. Qed.

Lemma omap_None {A B} (f : A → option B) x l : f x = None → omap f (x :: l) = omap f l.
Proof. intros Hf. cbn [omap list_omap]. by rewrite Hf. Qed.

Lemma omap_bind {A B C} (f : B → option C) (g : A → list B) l : omap f (l ≫= g) = l ≫= λ x, omap f (g x).
Proof.
  induction l as [|x l IH]; [done|]. change (omap f (g x ++ (l ≫= g)) = omap f (g x) ++ (l ≫= λ x, omap f (g x))).
  by rewrite omap_app, IH.
Qed.

Lemma string_of_line a : string_of (lit "    .string " ++ quote ++ a ++ quote) = Some a.
Proof.
  unfold string_of. rewrite app_assoc, strip_prefix_app, rev_app_distr. change (rev quote) with [34]. cbn [app]. by rewrite Z.eqb_refl, rev_involutive.
Qed.

Lemma entry_of_label i f : f = start_label ∨ f = end_label → entry_of (lit "    .quad " ++ f i) = Some (f i).
Proof. unfold entry_of. rewrite strip_prefix_app. by intros [->| ->]. Qed.

Lemma label_of_colon x : label_of (x ++ lit ":") = Some x.
Proof. rewrite label_of_app by done. simpl. by rewrite app_nil_r. Qed.

Lemma label_of_none x i f : f = start_label ∨ f = end_label → label_of (x ++ f i) = None.
Proof. intros [->| ->]; unfold start_label, end_label; by rewrite !app_assoc, label_of_app. Qed.

Definition app_labels (n : Z) : list text := seqZ 0 n ≫= λ i, [start_label i; end_label i].

Section Lines.
Context (apps : list text).
Abbreviation len := (Z.of_nat (length apps)).

Lemma zip_fst_bind {B} (f : Z → list B) : (zip (seqZ 0 len) apps ≫= λ p, f p.1) = seqZ 0 len ≫= f.
Proof.
  rewrite <-(fst_zip (seqZ 0 len) apps) at 2 by (rewrite length_seqZ; lia).
  induction (zip (seqZ 0 len) apps) as [|p l IH]; [done|].
  change (f p.1 ++ (l ≫= λ p, f p.1) = f p.1 ++ (l.*1 ≫= f)). by rewrite IH.
Qed.

Lemma bind_nil {A B} (l : list A) : (l ≫= λ _, []) = @nil B.
Proof. by induction l. Qed.

Lemma strings_of_lines : omap string_of (link_app_lines apps) = apps.
Proof.
  unfold link_app_lines. rewrite !omap_app, omap_bind.
  rewrite (omap_fmap_None _ (λ i, _)) by done. rewrite (omap_fmap_Some _ _ (λ a, a)) by apply string_of_line.
  rewrite list_fmap_id. change (apps ++ (zip (seqZ 0 len) apps ≫= λ _, []) = apps). by rewrite bind_nil, app_nil_r.
Qed.

Lemma entries_of_lines :
  omap entry_of (link_app_lines apps) = (start_label <$> seqZ 0 len) ++ [end_label (len -u 1)].
Proof.
  unfold link_app_lines. rewrite !omap_app, omap_bind.
  rewrite (omap_fmap_Some _ _ start_label) by (intros i; apply entry_of_label; by left).
  rewrite (omap_fmap_None _ (λ a, _)) by done. cbn [omap list_omap].
  rewrite entry_of_dec, entry_of_label by (by right).
  change ((start_label <$> seqZ 0 len) ++ [end_label (len -u 1)] ++ (zip (seqZ 0 len) apps ≫= λ _, []) =
    (start_label <$> seqZ 0 len) ++ [end_label (len -u 1)]). by rewrite bind_nil.
Qed.

(** The labels of the lines of a program. *)
Lemma app_lines_labels i a :
  omap label_of [[]; lit "    .section .data"; lit "    .global " ++ start_label i; lit "    .global " ++ end_label i;
    lit "    .align 3"; start_label i ++ lit ":"; lit "    .incbin " ++ quote ++ TARGET_PATH ++ a ++ lit ".elf" ++ quote;
    end_label i ++ lit ":"] = [start_label i; end_label i].
Proof.
  rewrite !omap_None by (done || by apply label_of_none; eauto). rewrite (omap_Some _ _ (start_label i)) by apply label_of_colon.
  rewrite omap_None by (by rewrite !app_assoc, label_of_app).
  by rewrite (omap_Some _ _ (end_label i)) by apply label_of_colon.
Qed.

Lemma labels_of_lines :
  omap label_of (link_app_lines apps) = [lit "_num_app"; lit "_app_names"] ++ app_labels len.
Proof.
  unfold link_app_lines. rewrite !omap_app, omap_bind.
  rewrite (omap_fmap_None _ (λ i, _)) by (intros i; apply label_of_none; by left).
  rewrite (omap_fmap_None _ (λ a, _)) by (intros a; by rewrite !app_assoc, label_of_app).
  unfold app_labels. rewrite <-(zip_fst_bind (λ i, [start_label i; end_label i])).
  rewrite !(omap_None _ []), !(omap_None _ (_ ++ end_label _)) by (done || by apply label_of_none; right).
  rewrite (list_bind_ext _ (λ p, [start_label p.1; end_label p.1]) _ (zip (seqZ 0 len) apps)) by (done || intros p; apply app_lines_labels).
  change (lit "_num_app" :: omap label_of [lit "    .quad " ++ fmt_dec len] ++ lit "_app_names" ::
    (zip (seqZ 0 len) apps ≫= λ p, [start_label p.1; end_label p.1]) = [lit "_num_app"; lit "_app_names"] ++
    (zip (seqZ 0 len) apps ≫= λ p, [start_label p.1; end_label p.1])).
  rewrite omap_None; [done|]. by rewrite label_of_app, label_of_dec by apply fmt_dec_digits.
Qed.
End Lines.

Lemma fmt_dec_inj i j : is_usize i → is_usize j → fmt_dec i = fmt_dec j → i = j.
Proof. intros Hi Hj Heq. by rewrite <-(fmt_dec_read i Hi), <-(fmt_dec_read j Hj), Heq. Qed.

Lemma start_label_inj i j : is_usize i → is_usize j → start_label i = start_label j → i = j.
Proof. intros Hi Hj Heq. unfold start_label in Heq. apply app_inv_head, app_inv_tail in Heq. by apply fmt_dec_inj. Qed.

Lemma end_label_inj i j : is_usize i → is_usize j → end_label i = end_label j → i = j.
Proof. intros Hi Hj Heq. unfold end_label in Heq. apply app_inv_head, app_inv_tail in Heq. by apply fmt_dec_inj. Qed.

Lemma start_not_end i j : start_label i ≠ end_label j.
Proof.
  intros Heq. apply (f_equal last) in Heq. unfold start_label, end_label in Heq.
  rewrite !app_assoc in Heq. change (lit "_start") with (lit "_star" ++ [116]) in Heq.
  change (lit "_end") with (lit "_en" ++ [100]) in Heq. rewrite !app_assoc, !last_snoc in Heq. done.
Qed.

Lemma elem_of_app_labels x n : x ∈ app_labels n ↔ ∃ i, 0 ≤ i < n ∧ (x = start_label i ∨ x = end_label i).
Proof.
  unfold app_labels. rewrite list_elem_of_bind. split.
  - intros (i & Hx & Hi%elem_of_seqZ). exists i. split; [lia|]. set_solver.
  - intros (i & Hi & Hx). exists i. split; [set_solver|]. apply elem_of_seqZ. lia.
Qed.

Lemma app_labels_NoDup n : n ≤ 2 ^ 64 → NoDup (app_labels n).
Proof.
  intros Hn. unfold app_labels. apply NoDup_bind.
  - intros i j x Hi%elem_of_seqZ Hj%elem_of_seqZ Hxi Hxj.
    assert (Hui : is_usize i ∧ is_usize j) by (unfold is_usize, usize_modulus; lia). destruct Hui as [Hui Huj].
    apply elem_of_cons in Hxi as [->|Hxi]; apply elem_of_cons in Hxj as [Hxj|Hxj]; rewrite ?list_elem_of_singleton in *; subst.
    + by apply start_label_inj.
    + by destruct (start_not_end i j).
    + by destruct (start_not_end j i).
    + by apply end_label_inj.
  - intros i _. apply NoDup_cons. split; [|apply NoDup_singleton]. rewrite list_elem_of_singleton. apply start_not_end.
  - apply NoDup_seqZ.
Qed.

(** The name of a program: the file's name up to its first dot. *)
Definition app_of (file : text) : option text := (λ i, take i file) <$> find_dot file.

(** [link_app.S] is consistent.  When every file of the directory has a dot in its
    name, the script writes a file that holds the names of the programs in order, whose
    table has the start of every program and the end of the last one, in which no label
    is defined twice, and in which every label of the table is defined, provided there
    is a program; a file without a dot makes the script panic. *)
Theorem link_app_consistent read_dir :
  Z.of_nat (length read_dir) ≤ 2 ^ 64 →
  match mapM app_of read_dir with
  | Some apps => ∃ names lines, insert_app_data read_dir [] = Done tt lines ∧ names ≡ₚ apps ∧ Sorted text_le names ∧
      omap string_of lines = names ∧
      omap entry_of lines = (start_label <$> seqZ 0 (Z.of_nat (length names))) ++ [end_label (Z.of_nat (length names) -u 1)] ∧
      NoDup (omap label_of lines) ∧
      (names ≠ [] → ∀ e, e ∈ omap entry_of lines → e ∈ omap label_of lines)
  | None => insert_app_data read_dir [] = Panic UnwrapNone
  end.
Proof.
  intros Hlen. rewrite insert_app_data_run. change (λ n, (λ i, take i n) <$> find_dot n) with app_of.
  destruct (mapM app_of read_dir) as [apps|] eqn:Hm; [|done]. set (names := merge_sort text_le apps).
  assert (Hp : names ≡ₚ apps) by apply merge_sort_Permutation. exists names, (link_app_lines names).
  assert (Hn : Z.of_nat (length names) ≤ 2 ^ 64).
  { rewrite Hp. apply length_mapM in Hm. lia. }
  rewrite strings_of_lines, entries_of_lines, labels_of_lines. split_and!; [done|done|apply (Sorted_merge_sort text_le)|done|done| |].
  - apply NoDup_app. split_and!; [by apply (bool_decide_unpack _)| |by apply app_labels_NoDup].
    intros x Hx (i & _ & Heq)%elem_of_app_labels. rewrite !elem_of_cons, elem_of_nil in Hx.
    by destruct Hx as [->|[->|[]]], Heq as [Heq|Heq].
  - intros Hne e He. assert (Hpos : 0 < Z.of_nat (length names)) by (destruct names; [done|simpl; lia]).
    apply elem_of_app. right. apply elem_of_app_labels. apply elem_of_app in He as [(i & -> & Hi%elem_of_seqZ)%list_elem_of_fmap|He].
    + exists i. split; [lia|by left].
    + apply list_elem_of_singleton in He as ->. exists (Z.of_nat (length names) - 1). split; [lia|].
      right. f_equal. apply wrap64_small. unfold is_usize, usize_modulus. lia.
Qed.

Lemma link_app_consistent_witness :
  ∃ lines, insert_app_data [lit "ch6b_shell.elf"; lit "ch2_hello.elf"] [] = Done tt lines ∧
    omap string_of lines = [lit "ch2_hello"; lit "ch6b_shell"] ∧ NoDup (omap label_of lines).
Proof.
  destruct (link_app_consistent [lit "ch6b_shell.elf"; lit "ch2_hello.elf"] ltac:(vm_compute; congruence))
    as (names & lines & Hrun & _ & _ & Hs & _ & Hl & _).
  exists lines. split; [exact Hrun|]. split; [|exact Hl].
  vm_compute in Hrun. injection Hrun as <-. vm_compute. reflexivity.
Defined.

(** Without a program the table refers to a label that nothing defines. *)
Lemma link_app_empty :
  ∃ lines e, insert_app_data [] [] = Done tt lines ∧ omap entry_of lines = [e] ∧ e ∉ omap label_of lines.
Proof.
  exists (link_app_lines []), (end_label (0 -u 1)). split; [by rewrite insert_app_data_run|].
  rewrite entries_of_lines, labels_of_lines. split; [done|]. by apply (bool_decide_unpack _).
Qed.

(** Files with the same name up to the first dot give the same program twice. *)
Lemma link_app_first_dot : app_of (lit "ch6.file.elf") = Some (lit "ch6").
Proof. reflexivity. Qed.
