(* ===== verification/FileSpec.v ===== *)
(** * What the file layer does with files

    [EasyFsLaws] is what the kernel relies on of the crate [easy_fs]: a file is a
    sequence of bytes, [read_at] returns the bytes from an offset on, [write_at]
    overwrites and extends, [clear] empties, [create] makes an empty file under a new
    name.  Against this interface: [read_all] returns the whole file, reading and
    writing through the slices of a user buffer moves the bytes of the file to and from
    the memory of the process. *)
From S2P Require Import Prelude Config Machine Address FrameAllocator Ownership.
From S2P Require Import PageTable PageTree PageTableSpec MemorySet MapAreaSpec MemorySetSpec.
From S2P Require Import AddressSpace UserSpace UserMemory Pid Context Task Scheduler.
From S2P Require Import SyscallProcess KernelInv Files.
From coqutil Require Import Byte.

(** [old] with [new] written at [off], which is not past the end. *)
Definition splice {A} (off : nat) (new old : list A) : list A :=
  take off old ++ new ++ drop (off + length new) old.

Class EasyFsLaws `{EasyFs} := {
  file_data : disk → Inode → list byte;
  (** The file can grow to [n] bytes. *)
  file_room : disk → Inode → nat → Prop;
  read_at_data d i off n : 0 ≤ off →
    inode_read_at i off n d = take n (drop (Z.to_nat off) (file_data d i));
  write_at_data d i off l : 0 ≤ off → (Z.to_nat off ≤ length (file_data d i))%nat →
    file_room d i (Z.to_nat off + length l) →
    let '(n, d') := inode_write_at i off l d in
    n = Z.of_nat (length l) ∧ file_data d' i = splice (Z.to_nat off) l (file_data d i) ∧
    (∀ j, j ≠ i → file_data d' j = file_data d j) ∧
    (∀ j n, file_room d j n → file_room d' j n) ∧ (∀ p, root_find p d' = root_find p d);
  clear_data d i : file_data (inode_clear i d) i = [] ∧
    (∀ j, j ≠ i → file_data (inode_clear i d) j = file_data d j) ∧
    (∀ p, root_find p (inode_clear i d) = root_find p d);
  create_data d p : root_find p d = None →
    match root_create p d with
    | (Some i, d') => root_find p d' = Some i ∧ file_data d' i = [] ∧
        (∀ q, q ≠ p → root_find q d' = root_find q d) ∧ (∀ j, j ≠ i → file_data d' j = file_data d j)
    | (None, d') => ∀ j, file_data d' j = file_data d j
    end;
  file_room_mono d i n n' : (n' ≤ n)%nat → file_room d i n → file_room d i n';
}.

Lemma length_splice {A} off (new old : list A) :
  (off ≤ length old)%nat → length (splice off new old) = (off + length new `max` (length old - off))%nat.
Proof. intros. unfold splice. rewrite !length_app, length_take, length_drop. lia. Qed.

Lemma splice_nil {A} off (l : list A) : splice off [] l = l.
Proof. unfold splice. simpl. by rewrite Nat.add_0_r, take_drop. Qed.

(** Writing on where the last write ended. *)
Lemma splice_splice {A} off (l1 l2 old : list A) :
  (off ≤ length old)%nat →
  splice (off + length l1) l2 (splice off l1 old) = splice off (l1 ++ l2) old.
Proof.
  intros Ho. unfold splice. assert (Ht : length (take off old) = off) by (rewrite length_take; lia).
  rewrite (assoc_L app (take off old)).
  rewrite take_app_length' by (rewrite length_app; lia).
  rewrite drop_app_ge by (rewrite length_app; lia). rewrite length_app, Ht, drop_drop, length_app.
  rewrite <-!(assoc_L app). do 4 f_equal. lia.
Qed.

(** What was written is found where it was written. *)
Lemma splice_at off (new old : list byte) i :
  (off ≤ length old)%nat → 0 ≤ i < Z.of_nat (length new) →
  bytes_at (splice off new old) (Z.of_nat off + i) = bytes_at new i.
Proof.
  intros Hoff Hi. unfold bytes_at, splice. rewrite lookup_app_r by (rewrite length_take; lia).
  rewrite length_take, lookup_app_l by lia. do 2 f_equal. lia.
Qed.

Section Spec.
Context `{EasyFsLaws}.

Abbreviation smm st := (km_mm (k_mem (sys_kernel st))).

Lemma wp_with_kernel {A} (m : M kernel A) (Q : A → system → Prop) E st :
  wp m (λ a k, Q a (set_sys_kernel k st)) E (sys_kernel st) → wp (with_kernel m) Q E st.
Proof. intros Hm. by apply wp_zoom. Qed.

(** The system with another memory. *)
Definition set_memory (s : mm) (st : system) : system :=
  set_sys_kernel (set_k_mem (set_km_mm s (k_mem (sys_kernel st))) (sys_kernel st)) st.

Lemma wp_with_memory {A} (m : M mm A) (Q : A → system → Prop) E st :
  wp m (λ a s, Q a (set_memory s st)) E (smm st) → wp (with_memory m) Q E st.
Proof. intros Hm. apply wp_with_kernel, wp_with_frames. exact Hm. Qed.

Lemma set_memory_id st : set_memory (smm st) st = st.
Proof. by destruct st as [[[]]]. Qed.

Lemma wp_osinode st id f (Q : OSInode → system → Prop) E :
  OSINODES st !! id = Some f → Q f st → wp (osinode id) Q E st.
Proof. intros Hf HQ. unfold osinode. do 2 wp_step. rewrite Hf. by wp_step. Qed.

(** The same file with its offset at [off]. *)
Definition at_offset (off : Z) (f : OSInode) : OSInode :=
  mkOSInode _ (os_readable f) (os_writable f) off (os_inode f).
Definition move_to (id : nat) (off : Z) (f : OSInode) (st : system) : system :=
  set_OSINODES (<[id := at_offset off f]> (OSINODES st)) st.

Lemma wp_set_offset st id f off (Q : unit → system → Prop) E :
  OSINODES st !! id = Some f → Q tt (move_to id off f st) → wp (set_offset id off) Q E st.
Proof. intros Hf HQ. unfold set_offset. wp_step. eapply wp_osinode; [done|]. by wp_step. Qed.

(** ** Reading a whole file *)

Lemma read_all_loop_spec st id f v fuel :
  OSINODES st !! id = Some f → 0 ≤ os_offset f →
  let data := file_data (DISK st) (os_inode f) in
  let rest := drop (Z.to_nat (os_offset f)) data in
  Z.of_nat (length data) < 2 ^ 64 → (length rest + 512 ≤ fuel * 512)%nat →
  wp (read_all_loop fuel id v) (λ r st', r = v ++ rest ∧
    st' = match rest with [] => st | _ => move_to id (Z.of_nat (length data)) f st end) no_panic st.
Proof.
  revert st f v. induction fuel as [|fuel IH]; intros st f v Hf Ho data rest Hlen Hfuel; [lia|].
  simpl. wp_step. eapply wp_osinode; [done|]. do 2 wp_step. rewrite read_at_data by done. fold data rest.
  destruct (Z.eqb_spec (Z.of_nat (length (take 512 rest))) 0) as [Hz|Hz].
  { wp_step. destruct rest as [|x rest']; [by rewrite app_nil_r|]. simpl in Hz. lia. }
  assert (Hr : (0 < length rest)%nat) by (rewrite length_take in Hz; lia).
  assert (Hro : length rest = (length data - Z.to_nat (os_offset f))%nat) by apply length_drop.
  wp_step. eapply wp_set_offset; [done|].
  set (off' := os_offset f +u _).
  assert (Hoff : off' = os_offset f + Z.of_nat (length (take 512 rest))).
  { unfold off'. rewrite length_take. apply usize_add_small; lia. }
  assert (Hrest : drop (Z.to_nat off') data = drop 512 rest).
  { transitivity (drop (512 `min` length rest) rest).
    - unfold rest at 2. rewrite drop_drop, Hoff, length_take. f_equal. lia.
    - destruct (decide (512 ≤ length rest)%nat) as [?|?]; [f_equal; lia|]. by rewrite !(drop_ge rest) by lia. }
  eapply wp_mono; [apply (IH _ (at_offset off' f)); simpl; [apply lookup_insert_eq|lia|done|]| |done].
  { fold data. rewrite Hrest, length_drop. lia. }
  simpl. fold data. rewrite Hrest. intros r st' [-> ->]. split.
  - by rewrite <-app_assoc, take_drop.
  - destruct rest as [|x rest'] eqn:Hre; [simpl in Hr; lia|]. rewrite <-Hre in *.
    destruct (drop 512 rest) as [|y tl] eqn:Hd.
    + unfold move_to. do 3 f_equal. rewrite Hoff, length_take.
      assert (length rest ≤ 512)%nat by (pose proof (length_drop rest 512) as Hl; rewrite Hd in Hl; simpl in Hl; lia).
      lia.
    + unfold move_to, at_offset. simpl. unfold set_OSINODES. simpl. by rewrite insert_insert_eq.
Qed.

Lemma read_all_spec st id f fuel :
  OSINODES st !! id = Some f → os_offset f = 0 →
  let data := file_data (DISK st) (os_inode f) in
  Z.of_nat (length data) < 2 ^ 64 → (length data + 512 ≤ fuel * 512)%nat →
  wp (OSInode_read_all fuel id) (λ r st', r = data ∧ sys_kernel st' = sys_kernel st ∧ DISK st' = DISK st ∧
    PARKED st' = PARKED st ∧ keyboard st' = keyboard st ∧ screen st' = screen st ∧
    next_osinode st' = next_osinode st ∧ next_trigger st' = next_trigger st ∧
    OSINODES st' = <[id := at_offset (Z.of_nat (length data)) f]> (OSINODES st)) no_panic st.
Proof.
  intros Hf Ho data Hlen Hfuel. unfold OSInode_read_all.
  eapply wp_mono; [apply (read_all_loop_spec st id f); try done; [lia|]| |done].
  { rewrite Ho. simpl. done. }
  rewrite Ho. simpl. fold data. intros r st' [-> ->]. rewrite drop_0. split; [done|].
  destruct data as [|x l] eqn:Hd; [|done]. split_and!; try done. symmetry. apply insert_id.
  rewrite Hf. f_equal. destruct f. simpl in Ho. by subst.
Qed.

(** ** The slices of a user buffer *)

(** [v] are the pieces of the memory of the process from [ptr] on, page by page. *)
Fixpoint slices_at (al : list MapArea) (ptr : Z) (v : list ByteSlice) : Prop :=
  match v with
  | [] => True
  | sl :: v => 0 < bs_len sl ∧ ptr mod 4096 + bs_len sl ≤ 4096 ∧
      (∃ f, ms_frame al (ptr / 4096) f ∧ bs_addr sl = f * 4096 + ptr mod 4096) ∧
      slices_at al (ptr + bs_len sl) v
  end.

Fixpoint slices_len (v : list ByteSlice) : Z :=
  match v with [] => 0 | sl :: v => bs_len sl + slices_len v end.

Lemma slices_len_nonneg al ptr v : slices_at al ptr v → 0 ≤ slices_len v.
Proof. revert ptr. induction v as [|sl v IH]; intros ptr; simpl; [lia|]. intros (? & _ & _ & Hv%IH). lia. Qed.

Lemma slices_at_intro s ms X v ptr len :
  MemorySet_ok s ms X → framed ms → 0 ≤ len → user_range ms ptr (ptr + len) →
  Some <$> (v ≫= slice_addrs) = user_addr (phys s) (page_table ms) <$> seqZ ptr len →
  Forall (λ sl, 0 < bs_len sl ≤ 4096 ∧ bs_addr sl mod 4096 + bs_len sl ≤ 4096) v →
  slices_at (areas ms) ptr v ∧ slices_len v = len.
Proof.
  intros Hok Hfr. revert ptr len. induction v as [|sl v IH]; intros ptr len Hl Hr Heq Hall.
  { simpl in *. destruct (decide (len = 0)) as [->|]; [done|].
    apply (f_equal length) in Heq. rewrite !length_fmap, length_seqZ in Heq. simpl in Heq. lia. }
  apply Forall_cons in Hall as [[Hn Hp] Hall]. simpl in Heq.
  assert (Hlen : bs_len sl ≤ len).
  { apply (f_equal length) in Heq. rewrite !length_fmap, length_app, length_seqZ in Heq.
    unfold slice_addrs in Heq. rewrite length_seqZ in Heq. lia. }
  replace len with (bs_len sl + (len - bs_len sl)) in Heq by lia.
  rewrite seqZ_app, !fmap_app in Heq by lia.
  apply app_inj_1 in Heq as [H1 H2]; [|unfold slice_addrs; by rewrite !length_fmap, !length_seqZ].
  destruct (IH (ptr + bs_len sl) (len - bs_len sl)) as [Hv Hvl]; [lia| |done|done|].
  { intros va Hva. apply Hr. lia. }
  destruct (framed_frame s ms X (ptr / 4096) Hok Hfr) as [f Hf]; [apply Hr; lia|].
  assert (Haddr : bs_addr sl = f * 4096 + ptr mod 4096).
  { unfold slice_addrs in H1. rewrite !(seqZ_cons _ (bs_len sl)) in H1 by lia. simpl in H1.
    injection H1 as H1 _. rewrite (user_addr_frame s ms X Hok ptr f Hf) in H1. by injection H1. }
  simpl. split_and!; [lia| |by exists f|done|lia].
  rewrite Haddr in Hp. zsolve.
Qed.

Lemma buffer_spec s ms X ptr len :
  MemorySet_ok s ms X → framed ms → 0 ≤ ptr → 0 ≤ len → ptr + len < 2 ^ 39 →
  user_range ms ptr (ptr + len) →
  ∃ v, translated_byte_buffer (MemorySet_token ms) ptr len s = Done v s ∧
    slices_at (areas ms) ptr v ∧ slices_len v = len.
Proof.
  intros Hok Hfr Hp Hl He Hr.
  destruct (byte_buffer_spec s (page_table ms) ptr len) as (v & Hrun & Heq & Hall); try done.
  - by eapply token_root.
  - intros va Hva. destruct (framed_frame s ms X (va / 4096) Hok Hfr) as [f Hf]; [by apply Hr|].
    destruct (ms_frame_lookup s ms X Hok _ f Hf) as (e & -> & _). by eexists.
  - exists v. split; [exact Hrun|]. by eapply slices_at_intro.
Qed.

Lemma buffer_len al ptr v :
  slices_at al ptr v → slices_len v < 2 ^ 64 → UserBuffer_len (UserBuffer_new v) = slices_len v.
Proof.
  intros Hv Hl. unfold UserBuffer_len. simpl.
  assert (Hgen : ∀ acc ptr, 0 ≤ acc → slices_at al ptr v → acc + slices_len v < 2 ^ 64 →
    foldl (λ total b, total +u bs_len b) acc v = acc + slices_len v).
  { clear. induction v as [|sl v IH]; intros acc ptr Ha Hv Hl; simpl in *; [lia|].
    destruct Hv as (Hn & _ & _ & Hv). pose proof (slices_len_nonneg _ _ _ Hv).
    rewrite usize_add_small by lia. rewrite (IH _ (ptr + bs_len sl)); [lia|lia|done|lia]. }
  rewrite (Hgen 0 ptr); [lia|lia|done|lia].
Qed.

(** ** Reading into user memory *)

Lemma user_written_ext s ms X a b a' b' d d' s' :
  (∀ va, a ≤ va < b ↔ a' ≤ va < b') → (∀ va, a ≤ va < b → d (va - a) = d' (va - a')) →
  user_written s ms X a b d s' → user_written s ms X a' b' d' s'.
Proof.
  intros Hr Hd [Hs Hb]. split; [done|]. intros va Hva. rewrite (Hb va Hva).
  destruct (decide (a ≤ va < b)) as [Hin|Hn]; destruct (decide (a' ≤ va < b')) as [Hin'|Hn'].
  - by rewrite Hd.
  - by apply Hr in Hin.
  - by apply Hr in Hin'.
  - done.
Qed.

(** Part of a list, byte by byte. *)
Lemma take_drop_bytes (l : list byte) off n :
  0 ≤ off → let c := take n (drop (Z.to_nat off) l) in
  c = (λ i, bytes_at l (off + i)) <$> seqZ 0 (Z.of_nat (length c)).
Proof.
  intros Ho c. apply list_eq. intros i. rewrite list_lookup_fmap.
  destruct (decide (i < length c)%nat) as [Hi|Hi].
  - rewrite lookup_seqZ_lt by lia. simpl. destruct (lookup_lt_is_Some_2 c i Hi) as [x Hx]. rewrite Hx.
    unfold c in Hx. apply lookup_take_Some in Hx as [Hx _]. rewrite lookup_drop in Hx.
    unfold bytes_at. rewrite ?Z.add_0_l. replace (Z.to_nat (off + Z.of_nat i)) with (Z.to_nat off + i)%nat by lia. by rewrite Hx.
  - rewrite lookup_ge_None_2 by lia. rewrite lookup_seqZ_ge by lia. done.
Qed.

Lemma move_to_same id f st : OSINODES st !! id = Some f → move_to id (os_offset f) f st = st.
Proof.
  intros Hf. unfold move_to. rewrite insert_id; [by destruct st|]. rewrite Hf. f_equal. by destruct f.
Qed.

(** How many bytes a read of [len] at [off] gives. *)
Definition read_len (data : list byte) (off len : Z) : Z := Z.min len (Z.max 0 (Z.of_nat (length data) - off)).

Lemma os_read_loop_spec st id f ms X ptr v total :
  OSINODES st !! id = Some f → 0 ≤ os_offset f → MemorySet_ok (smm st) ms X → framed ms →
  slices_at (areas ms) ptr v → let data := file_data (DISK st) (os_inode f) in
  Z.of_nat (length data) < 2 ^ 63 → 0 ≤ total → total + slices_len v < 2 ^ 63 →
  let n := read_len data (os_offset f) (slices_len v) in
  wp (os_read_loop id v total) (λ r st', r = total + n ∧ ∃ s',
    user_written (smm st) ms X ptr (ptr + n) (λ i, bytes_at data (os_offset f + i)) s' ∧
    st' = move_to id (os_offset f + n) f (set_memory s' st)) no_panic st.
Proof.
  revert st f ptr total. induction v as [|sl v IH]; intros st f ptr total Hf Ho Hok Hfr Hv data Hlen Ht Htl n.
  { assert (Hn : n = 0) by (unfold n, read_len; simpl; lia). simpl. wp_step. split; [lia|].
    exists (smm st). rewrite Hn, !Z.add_0_r, set_memory_id, move_to_same by done. split; [|done].
    split; [|intros va _; rewrite decide_False by lia; done].
    split; [done| |done]. apply mm_step_refl; apply Hok. }
  destruct Hv as (Hbl & Hpg & (fr & Hfrm & Haddr) & Hv). simpl in Htl.
  pose proof (slices_len_nonneg _ _ _ Hv) as Hsl.
  simpl. wp_step. eapply wp_osinode; [done|]. do 2 wp_step. rewrite read_at_data by done. fold data.
  pose proof (take_drop_bytes data (os_offset f) (Z.to_nat (bs_len sl)) Ho) as Hc. cbv zeta in Hc.
  set (c := take (Z.to_nat (bs_len sl)) (drop (Z.to_nat (os_offset f)) data)) in *.
  set (cn := Z.of_nat (length c)) in *.
  assert (Hcn : cn = read_len data (os_offset f) (bs_len sl)).
  { unfold cn, c, read_len. rewrite length_take, length_drop. lia. }
  wp_step. apply wp_with_memory. unfold set_phys. wp_step. rewrite Haddr, Hc.
  assert (Hcb : 0 ≤ cn ≤ bs_len sl) by (rewrite Hcn; unfold read_len; lia).
  pose proof (write_chunk (smm st) ms X ptr cn fr (λ i, bytes_at data (os_offset f + i)) Hok Hfr Hfrm
    ltac:(lia) ltac:(lia)) as Hw.
  set (s1 := {| phys := store_bytes _ _ _; FRAME_ALLOCATOR := _ |}) in *.
  destruct (Z.eqb_spec cn 0) as [Hz|Hz].
  { assert (Hn : n = 0) by (unfold n; rewrite Hz in Hcn; unfold read_len in *; simpl; lia).
    wp_step. split; [lia|]. exists s1. rewrite Hn, !Z.add_0_r. split; [|symmetry; by apply move_to_same].
    by rewrite Hz, Z.add_0_r in Hw. }
  assert (Hread : cn = Z.min (bs_len sl) (Z.of_nat (length data) - os_offset f))
    by (unfold read_len in Hcn; lia).
  wp_step. eapply wp_set_offset; [done|]. rewrite !usize_add_small by lia.
  pose proof Hw as [[Hok1 Hst1 Hroot1] _].
  eapply wp_mono; [apply (IH _ (at_offset (os_offset f + cn) f) (ptr + bs_len sl) (total + cn)); simpl;
    [apply lookup_insert_eq|lia|exact Hok1|done|done|done|lia|lia]| |done].
  simpl. fold data. set (n' := read_len data (os_offset f + cn) (slices_len v)).
  assert (Hnn : n = cn + n' ∧ (cn < bs_len sl → n' = 0) ∧ 0 ≤ n') by (unfold n, n', read_len; simpl; lia).
  destruct Hnn as (Hn & Hn0 & Hn'). intros r st' (-> & s' & Hw2 & ->). split; [lia|]. exists s'. split.
  - rewrite Hn. replace (ptr + (cn + n')) with (ptr + cn + n') by lia.
    apply (ms_step_user_trans (smm st) ms X ptr (ptr + cn) (ptr + cn + n') _ s1); [lia|done|].
    eapply user_written_ext; [..|exact Hw2].
    + intros va. lia.
    + intros va Hva. simpl. f_equal. lia.
  - unfold move_to, set_memory, set_OSINODES, set_sys_kernel, at_offset. simpl.
    rewrite insert_insert_eq. by replace (os_offset f + n) with (os_offset f + cn + n') by lia.
Qed.

(** ** Writing from user memory *)

(** The bytes of the buffer at [ptr]. *)
Definition user_bytes (s : mm) (ms : MemorySet) (ptr len : Z) : list byte :=
  (λ va, default Corelib.Init.Byte.x00 (user_byte s ms va)) <$> seqZ ptr len.

Lemma user_bytes_app s ms ptr a b :
  0 ≤ a → 0 ≤ b → user_bytes s ms ptr (a + b) = user_bytes s ms ptr a ++ user_bytes s ms (ptr + a) b.
Proof. intros. unfold user_bytes. by rewrite seqZ_app, fmap_app by lia. Qed.

Lemma length_user_bytes s ms ptr len : length (user_bytes s ms ptr len) = Z.to_nat len.
Proof. unfold user_bytes. by rewrite length_fmap, length_seqZ. Qed.

(** The buffer holds what was written to it. *)
Lemma user_bytes_written s ms X ptr data s' l :
  user_range ms ptr (ptr + Z.of_nat (length l)) →
  user_written s ms X ptr (ptr + Z.of_nat (length l)) data s' →
  (∀ i, 0 ≤ i < Z.of_nat (length l) → data i = bytes_at l i) →
  user_bytes s' ms ptr (Z.of_nat (length l)) = l.
Proof.
  intros Hrange [_ Hb] Hdata. apply list_eq. intros i. unfold user_bytes. rewrite list_lookup_fmap.
  destruct (decide (i < length l)%nat) as [Hi|Hi].
  - rewrite lookup_seqZ_lt by lia. simpl. rewrite Hb by (apply Hrange; lia).
    rewrite decide_True by lia. simpl. rewrite Hdata by lia. unfold bytes_at.
    replace (Z.to_nat _) with i by lia. by destruct (lookup_lt_is_Some_2 l i Hi) as [x ->].
  - rewrite lookup_seqZ_ge by lia. by rewrite lookup_ge_None_2 by lia.
Qed.

Lemma slice_bytes s ms X ptr n f :
  MemorySet_ok s ms X → ms_frame (areas ms) (ptr / 4096) f → ptr mod 4096 + n ≤ 4096 → 0 ≤ n →
  load_bytes (phys s) (f * 4096 + ptr mod 4096) (Z.to_nat n) = user_bytes s ms ptr n.
Proof.
  intros Hok Hf Hp Hn. unfold load_bytes, user_bytes, seqZ. rewrite <-list_fmap_compose.
  apply list_fmap_ext. intros _ i Hi%list_elem_of_lookup_2%elem_of_seq. simpl.
  assert (Hdiv : (Z.of_nat i + ptr) / 4096 = ptr / 4096 ∧ (Z.of_nat i + ptr) mod 4096 = ptr mod 4096 + Z.of_nat i)
    by zsolve.
  destruct Hdiv as [Hd Hm]. unfold user_byte.
  rewrite (user_addr_frame s ms X Hok (Z.of_nat i + ptr) f) by (by rewrite Hd). simpl. f_equal. lia.
Qed.

Lemma wp_read_slice st sl (Q : list byte → system → Prop) E :
  Q (load_bytes (phys (smm st)) (bs_addr sl) (Z.to_nat (bs_len sl))) st → wp (read_slice sl) Q E st.
Proof. intros HQ. unfold read_slice. apply wp_with_memory. wp_step. by rewrite set_memory_id. Qed.

(** What a write of [l] to the open file [f] does to the rest of the system. *)
Record file_written (st : system) (id : nat) (f : OSInode) (l : list byte) (st' : system) : Prop := {
  fw_kernel : sys_kernel st' = sys_kernel st;
  fw_data : file_data (DISK st') (os_inode f) =
    splice (Z.to_nat (os_offset f)) l (file_data (DISK st) (os_inode f));
  fw_other j : j ≠ os_inode f → file_data (DISK st') j = file_data (DISK st) j;
  fw_names p : root_find p (DISK st') = root_find p (DISK st);
  fw_room j n : file_room (DISK st) j n → file_room (DISK st') j n;
  fw_files : OSINODES st' = <[id := at_offset (os_offset f + Z.of_nat (length l)) f]> (OSINODES st);
  fw_rest : next_osinode st' = next_osinode st ∧ keyboard st' = keyboard st ∧ screen st' = screen st ∧
    PARKED st' = PARKED st ∧ next_trigger st' = next_trigger st;
}.

Lemma os_write_loop_spec st id f ms X ptr v total :
  OSINODES st !! id = Some f → 0 ≤ os_offset f → MemorySet_ok (smm st) ms X → slices_at (areas ms) ptr v →
  (Z.to_nat (os_offset f) ≤ length (file_data (DISK st) (os_inode f)))%nat →
  file_room (DISK st) (os_inode f) (Z.to_nat (os_offset f) + Z.to_nat (slices_len v)) →
  0 ≤ total → total + slices_len v < 2 ^ 63 → os_offset f + slices_len v < 2 ^ 63 →
  wp (os_write_loop id v total) (λ r st', r = total + slices_len v ∧
    file_written st id f (user_bytes (smm st) ms ptr (slices_len v)) st') no_panic st.
Proof.
  revert st f ptr total.
  induction v as [|sl v IH]; intros st f ptr total Hf Ho Hok Hv Hoff Hroom Ht Htl Hol; simpl.
  { wp_step. split; [lia|]. split; try done.
    - unfold user_bytes. simpl. by rewrite splice_nil.
    - simpl. rewrite Z.add_0_r. symmetry. apply insert_id. rewrite Hf. f_equal. by destruct f. }
  destruct Hv as (Hbl & Hpg & (fr & Hfrm & Haddr) & Hv). simpl in Hroom, Htl, Hol.
  pose proof (slices_len_nonneg _ _ _ Hv) as Hsl.
  wp_step. eapply wp_osinode; [done|]. wp_step. apply wp_read_slice. rewrite Haddr, (slice_bytes _ ms X) by (done || lia).
  set (l1 := user_bytes (smm st) ms ptr (bs_len sl)).
  assert (Hl1 : length l1 = Z.to_nat (bs_len sl)) by apply length_user_bytes.
  do 2 wp_step. pose proof (write_at_data (DISK st) (os_inode f) (os_offset f) l1 Ho Hoff) as Hwr.
  destruct (inode_write_at (os_inode f) (os_offset f) l1 (DISK st)) as [n d].
  destruct Hwr as (-> & Hd & Hother & Hrm & Hnames); [eapply file_room_mono; [|exact Hroom]; lia|].
  cbv beta iota. do 2 wp_step. wp_step. rewrite (proj2 (Z.eqb_eq _ _)) by lia. do 2 wp_step.
  eapply wp_set_offset; [done|]. rewrite !usize_add_small by lia.
  eapply wp_mono; [apply (IH _ (at_offset (os_offset f + Z.of_nat (length l1)) f) (ptr + bs_len sl)
    (total + Z.of_nat (length l1))); simpl; [apply lookup_insert_eq|lia|exact Hok|done| | |lia|lia|lia]| |done].
  - rewrite Hd, length_splice by done. lia.
  - apply Hrm. eapply file_room_mono; [|exact Hroom]. lia.
  - simpl. intros r st' (-> & [Hk Hd' Hoth' Hn' Hr' Hf' (? & ? & ? & ? & ?)]). simpl in *. split; [lia|].
    split; simpl.
    + done.
    + rewrite Hd', Hd, user_bytes_app by lia.
      replace (Z.to_nat (os_offset f + Z.of_nat (length l1))) with (Z.to_nat (os_offset f) + length l1)%nat by lia.
      by apply splice_splice.
    + intros j Hj. by rewrite Hoth', Hother.
    + intros p. by rewrite Hn', Hnames.
    + auto.
    + rewrite Hf', insert_insert_eq, user_bytes_app, length_app by lia. unfold at_offset. simpl.
      fold l1. by rewrite Nat2Z.inj_add, Z.add_assoc.
    + done.
Qed.

(** ** The console *)

(** Every piece of the text, as the pages cut it, is valid UTF-8 by itself. *)
Fixpoint pieces_valid (s : mm) (ms : MemorySet) (ptr : Z) (v : list ByteSlice) : Prop :=
  match v with
  | [] => True
  | sl :: v => utf8_valid (byte.unsigned <$> user_bytes s ms ptr (bs_len sl)) = true ∧
               pieces_valid s ms (ptr + bs_len sl) v
  end.

(** Valid texts one after the other are a valid text. *)
Lemma utf8_valid_app l1 l2 : utf8_valid l1 = true → utf8_valid l2 = true → utf8_valid (l1 ++ l2) = true.
Proof.
  intros H1 H2. remember (length l1) as n eqn:Hn. assert (Hle : (length l1 ≤ n)%nat) by lia. clear Hn.
  revert l1 H1 Hle. induction n as [|n IH]; intros [|a l1] H1 Hle; try done; simpl in Hle; [lia|].
  simpl in *. destruct (a <? 128); [apply IH; [done|lia]|].
  destruct l1 as [|b l1]; [done|]. simpl in *. destruct (utf8_in 194 223 a).
  { apply andb_true_iff in H1 as [-> H1]. apply IH; [done|lia]. }
  destruct l1 as [|c l1]; [done|]. simpl in *. destruct (utf8_in 224 239 a).
  { apply andb_true_iff in H1 as [-> H1]. apply IH; [done|lia]. }
  destruct l1 as [|d l1]; [done|]. simpl in *.
  apply andb_true_iff in H1 as [-> H1]. apply IH; [done|lia].
Qed.

Lemma utf8_valid_ascii l : Forall (λ z, z < 128) l → utf8_valid l = true.
Proof. induction 1 as [|z l Hz _ IH]; simpl; [done|]. by rewrite (proj2 (Z.ltb_lt _ _) Hz). Qed.

(** The text as a whole. *)
Lemma pieces_valid_text s ms al ptr v :
  slices_at al ptr v → pieces_valid s ms ptr v →
  utf8_valid (byte.unsigned <$> user_bytes s ms ptr (slices_len v)) = true.
Proof.
  revert ptr. induction v as [|sl v IH]; intros ptr; [done|]. intros (Hl & _ & _ & Hv) [Hsl Hp]. simpl.
  rewrite user_bytes_app by (try apply (slices_len_nonneg al _ v Hv); lia).
  rewrite fmap_app. by apply utf8_valid_app; [|apply IH].
Qed.

Lemma ascii_pieces s ms al ptr v :
  slices_at al ptr v → Forall (λ c, byte.unsigned c < 128) (user_bytes s ms ptr (slices_len v)) →
  pieces_valid s ms ptr v.
Proof.
  revert ptr. induction v as [|sl v IH]; intros ptr; [done|]. intros (Hl & _ & _ & Hv). simpl.
  rewrite user_bytes_app by (try apply (slices_len_nonneg al _ v Hv); lia).
  intros [H1 H2]%Forall_app. split; [|by apply IH]. apply utf8_valid_ascii. by apply Forall_fmap.
Qed.

Lemma wp_print_slice st sl l (Q : unit → system → Prop) (E : panic_kind → Prop) :
  load_bytes (phys (smm st)) (bs_addr sl) (Z.to_nat (bs_len sl)) = l →
  (utf8_valid (byte.unsigned <$> l) = true → Q tt (set_screen (screen st ++ l) st)) →
  (utf8_valid (byte.unsigned <$> l) = false → E UnwrapNone) →
  wp (l ← read_slice sl; text ← unwrap (from_utf8 l);
      modify (λ st, set_screen (screen st ++ text) st)) Q E st.
Proof.
  intros Hl Ht Hf. wp_step. apply wp_read_slice. rewrite Hl. wp_step. unfold from_utf8.
  destruct (utf8_valid (byte.unsigned <$> l)); simpl; [|by apply wp_panic, Hf]. do 2 wp_step. by apply Ht.
Qed.

Lemma stdout_write_spec st ms X ptr v :
  MemorySet_ok (smm st) ms X → slices_at (areas ms) ptr v → slices_len v < 2 ^ 63 →
  wp (Stdout_write (UserBuffer_new v)) (λ r st', r = slices_len v ∧ pieces_valid (smm st) ms ptr v ∧
      st' = set_screen (screen st ++ user_bytes (smm st) ms ptr (slices_len v)) st)
    (λ e, e = UnwrapNone ∧ ¬ pieces_valid (smm st) ms ptr v) st.
Proof.
  intros Hok Hv Hl. unfold Stdout_write. rewrite (buffer_len _ _ _ Hv) by lia. apply wp_bind. simpl.
  assert (Hgen : ∀ u r st0 pre p0, v = pre ++ r → p0 = ptr + slices_len pre → slices_at (areas ms) p0 r →
    (pieces_valid (smm st) ms p0 r ↔ pieces_valid (smm st) ms ptr v) →
    st0 = set_screen (screen st ++ user_bytes (smm st) ms ptr (slices_len pre)) st → 0 ≤ slices_len pre →
    wp (foldM (λ _ x, l ← read_slice x; text ← unwrap (from_utf8 l);
          modify (λ st, set_screen (screen st ++ text) st)) u r)
      (λ _ st', pieces_valid (smm st) ms ptr v ∧
         st' = set_screen (screen st ++ user_bytes (smm st) ms ptr (slices_len v)) st)
      (λ e, e = UnwrapNone ∧ ¬ pieces_valid (smm st) ms ptr v) st0).
  2: { eapply wp_mono; [eapply (Hgen tt v st [] ptr); simpl; try done; try lia| |done].
       - unfold user_bytes. simpl. rewrite app_nil_r. by destruct st.
       - intros [] st' [Hp ->]. by wp_step. }
  clear Hv. intros u r. revert u. induction r as [|sl r IH]; intros u st0 pre p0 Hvr Hp0 Hr Hiff Hst0 Hpre.
  { simpl. wp_step. rewrite app_nil_r in Hvr. subst v. split; [by apply Hiff|done]. }
  destruct Hr as (Hbl & Hpg & (fr & Hfrm & Haddr) & Hr). simpl. apply wp_bind.
  eapply (wp_print_slice _ _ (user_bytes (smm st) ms p0 (bs_len sl))).
  - subst st0. simpl. rewrite Haddr. by apply (slice_bytes _ ms X); [..|lia].
  - intros Hval. assert (Hpl : slices_len (pre ++ [sl]) = slices_len pre + bs_len sl).
    { clear. induction pre; simpl; lia. }
    apply (IH tt _ (pre ++ [sl]) (p0 + bs_len sl)).
    + by rewrite Hvr, <-app_assoc.
    + rewrite Hpl. lia.
    + done.
    + rewrite <-Hiff. simpl. naive_solver.
    + subst st0. simpl. rewrite <-app_assoc, Hpl, user_bytes_app, <-Hp0 by lia. done.
    + rewrite Hpl. lia.
  - intros Hval. split; [done|]. rewrite <-Hiff. simpl. rewrite Hval. by intros [? _].
Qed.

(** ** Opening *)

Record same_but_files (st st' : system) : Prop := {
  sbf_kernel : sys_kernel st' = sys_kernel st;
  sbf_keyboard : keyboard st' = keyboard st;
  sbf_screen : screen st' = screen st;
  sbf_parked : PARKED st' = PARKED st;
  sbf_trigger : next_trigger st' = next_trigger st;
}.

(** Opening empties the file. *)
Definition truncates (flags : Z) : bool :=
  OpenFlags_contains flags OpenFlags_CREATE || OpenFlags_contains flags OpenFlags_TRUNC.

(** The new open file [id] on [path]. *)
Record opened (st : system) (path : list byte) (flags : Z) (id : nat) (i : Inode) (st' : system) : Prop := {
  op_id : id = next_osinode st ∧ next_osinode st' = Datatypes.S id;
  op_file : OSINODES st' = <[id := mkOSInode _ (OpenFlags_read_write flags).1
                                    (OpenFlags_read_write flags).2 0 i]> (OSINODES st);
  op_find : root_find path (DISK st') = Some i;
  op_old : root_find path (DISK st) = Some i ∨
    (root_find path (DISK st) = None ∧ OpenFlags_contains flags OpenFlags_CREATE = true);
  op_data : file_data (DISK st') i = if truncates flags then [] else file_data (DISK st) i;
  op_other j : j ≠ i → file_data (DISK st') j = file_data (DISK st) j;
  op_disk : truncates flags = false → DISK st' = DISK st;
  op_same : same_but_files st st';
}.

Lemma open_file_spec st path flags :
  wp (open_file path flags) (λ o st',
    match o with
    | Some id => ∃ i, opened st path flags id i st'
    | None => root_find path (DISK st) = None ∧ same_but_files st st' ∧
        OSINODES st' = OSINODES st ∧ next_osinode st' = next_osinode st ∧
        (∀ j, file_data (DISK st') j = file_data (DISK st) j) ∧
        (OpenFlags_contains flags OpenFlags_CREATE = false → st' = st)
    end) no_panic st.
Proof.
  unfold open_file. destruct (OpenFlags_read_write flags) as [r w] eqn:Hrw.
  destruct (OpenFlags_contains flags OpenFlags_CREATE) eqn:Hc.
  - do 2 wp_step. destruct (root_find path (DISK st)) as [i|] eqn:Hfind.
    + destruct (clear_data (DISK st) i) as (H1 & H2 & H3).
      do 2 wp_step. unfold OSInode_new. wp_step. do 2 wp_step. wp_step. wp_step. wp_step. wp_step.
      exists i. split; unfold truncates; rewrite ?Hrw, ?Hc; simpl; try done; [by rewrite H3|by left].
    + do 2 wp_step. pose proof (create_data (DISK st) path Hfind) as Hcr.
      destruct (root_create path (DISK st)) as [[i|] d]; cbv beta iota; do 2 wp_step.
      * destruct Hcr as (H1 & H2 & H3 & H4). unfold OSInode_new. wp_step. do 2 wp_step. wp_step. wp_step.
        wp_step. wp_step. exists i. split; unfold truncates; rewrite ?Hrw, ?Hc; simpl; try done. by right.
      * wp_step. by split_and!.
  - do 2 wp_step. destruct (root_find path (DISK st)) as [i|] eqn:Hfind; [|wp_step; by split_and!].
    destruct (clear_data (DISK st) i) as (H1 & H2 & H3).
    wp_step. destruct (OpenFlags_contains flags OpenFlags_TRUNC) eqn:Ht; wp_step;
      unfold OSInode_new; wp_step; do 2 wp_step; wp_step; wp_step; wp_step; wp_step; exists i;
      (split; unfold truncates; rewrite ?Hrw, ?Hc, ?Ht; simpl; try done;
        first [by rewrite H3|by left]).
Qed.

End Spec.
