(* ===== verification/SyscallFile.v ===== *)
(** * System calls on files, and starting programs from files ([src/syscall/fs.rs],
      [sys_exec] and [sys_spawn] of [src/syscall/process.rs])

    Results are [isize] values; [None] from [sys_read] means that the process was
    suspended and the call has not returned yet.  A path is read up to its zero byte
    and a program file up to its end, both within [sys_fuel] iterations. *)
From S2P Require Import Prelude Config Machine Address FrameAllocator Ownership.
From S2P Require Import PageTable PageTableSpec MemorySet MapAreaSpec MemorySetSpec.
From S2P Require Import UserSpace UserMemory Pid Context Timer Task Scheduler SyscallProcess Files.
From coqutil Require Import Byte Word.LittleEndianList.

Class SystemEnv := {
  se_kernel :: KernelEnv;
  se_fs :: EasyFs;
  se_input :: ConsoleInput;
  sys_fuel : nat;
  TaskInfo_repr : TaskInfo → list byte;
  alltraps_addr : Z;
  restore_addr : Z;
  trap_from_kernel_addr : Z;
}.

Section Calls.
Context `{SystemEnv}.

Definition user_str (ptr : Z) : M system (list byte) :=
  token ← with_kernel current_user_token;
  with_memory (translated_str sys_fuel token ptr).

(** The descriptor, when it is in range and open. *)
Definition fd_lookup (fd : Z) (i : TaskControlBlockInner) : option FileRef :=
  if Z.of_nat (length (fd_table i)) <=? fd then None
  else match fd_table i !! Z.to_nat fd with Some o => o | None => None end.

(* src: src/src/syscall/fs.rs 8-26 sys_write *)
Definition sys_write (fd buf len : Z) : M system Z :=
  token ← with_kernel current_user_token;
  t ← with_kernel current_task_unwrap;
  i ← with_kernel (inner_exclusive_access t);
  match fd_lookup fd i with
  | None => mret (-1)
  | Some file =>
      v ← with_memory (translated_byte_buffer token buf len);
      n ← File_write file (UserBuffer_new v);
      mret (as_isize n)
  end.

(* src: src/src/syscall/fs.rs 29-47 sys_read *)
Definition sys_read (fd buf len : Z) : M system (option Z) :=
  token ← with_kernel current_user_token;
  t ← with_kernel current_task_unwrap;
  i ← with_kernel (inner_exclusive_access t);
  match fd_lookup fd i with
  | None => mret (Some (-1))
  | Some file =>
      v ← with_memory (translated_byte_buffer token buf len);
      o ← File_read file (UserBuffer_new v);
      mret (as_isize <$> o)
  end.

(* src: src/src/syscall/fs.rs 49-64 sys_open *)
Definition sys_open (path flags : Z) : M system Z :=
  t ← with_kernel current_task_unwrap;
  path ← user_str path;
  flags ← unwrap (OpenFlags_from_bits flags);
  o ← open_file path flags;
  match o with
  | Some inode =>
      i ← with_kernel (inner_exclusive_access t);
      let '(fd, i') := alloc_fd i in
      with_kernel (update_inner t (λ _, set_fd_table (<[fd := Some (OSInodeRef inode)]> (fd_table i')) i'));;
      mret (Z.of_nat fd)
  | None => mret (-1)
  end.

(* src: src/src/syscall/fs.rs 66-83 sys_close *)
Definition sys_close (fd : Z) : M system Z :=
  t ← with_kernel current_task_unwrap;
  i ← with_kernel (inner_exclusive_access t);
  match fd_lookup fd i with
  | None => mret (-1)
  | Some _ =>
      with_kernel (update_inner t (λ i, set_fd_table (<[Z.to_nat fd := None]> (fd_table i)) i));;
      mret 0
  end.

(* src: src/src/syscall/fs.rs 85-110 sys_fstat *)
Definition sys_fstat (fd st_ptr : Z) : M system Z :=
  t ← with_kernel current_task_unwrap;
  i ← with_kernel (inner_exclusive_access t);
  match fd_lookup fd i with
  | None => mret (-1)
  | Some file =>
      token ← with_kernel current_user_token;
      stat ← File_get_stat file;
      let bytes := Stat_bytes stat in
      with_memory (translated_and_write_bytes token st_ptr (bytes_at bytes) (Z.of_nat (length bytes)));;
      mret 0
  end.

(* src: src/src/syscall/fs.rs 112-125 sys_linkat *)
Definition sys_linkat (old_path new_path : Z) : M system Z :=
  old_path_str ← user_str old_path;
  new_path_str ← user_str new_path;
  if bool_decide (old_path_str = new_path_str) then mret (-1)
  else
    '(r, d) ← gets (λ st, root_linkat old_path_str new_path_str (DISK st));
    modify (set_DISK d);;
    mret r.

(* src: src/src/syscall/fs.rs 127-137 sys_unlinkat *)
Definition sys_unlinkat (path : Z) : M system Z :=
  path_str ← user_str path;
  '(r, d) ← gets (λ st, root_unlinkat path_str (DISK st));
  modify (set_DISK d);;
  mret r.

(** ** Programs *)

(* src: src/src/syscall/process.rs 173-188 sys_exec *)
Definition sys_exec (path : Z) : M system Z :=
  path_name ← user_str path;
  o ← open_file path_name OpenFlags_RDONLY;
  match o with
  | Some app_inode =>
      t ← with_kernel current_task_unwrap;
      all_data ← OSInode_read_all sys_fuel app_inode;
      with_kernel (TaskControlBlock_exec t all_data);;
      mret 0
  | None => mret (-1)
  end.

(* src: src/src/syscall/process.rs 294-312 sys_spawn *)
Definition sys_spawn (path : Z) : M system Z :=
  path ← user_str path;
  o ← open_file path OpenFlags_RDONLY;
  match o with
  | Some app_inode =>
      all_data ← OSInode_read_all sys_fuel app_inode;
      t ← with_kernel current_task_unwrap;
      new_task ← with_kernel (TaskControlBlock_spwan t all_data);
      new_pid ← with_kernel (get_pid new_task);
      with_kernel (add_task new_task);;
      mret (as_isize new_pid)
  | None => mret (-1)
  end.

(** The other implementation of [spawn], which nothing calls: the block is made by
    [TaskControlBlock::new] and linked to its parent afterwards. *)
(* src: src/src/syscall/process.rs 268-286 sys_spawn1 *)
Definition spawn1_task (elf_data : list byte) : M kernel Z :=
  tcb ← with_kmem (TaskControlBlock_new elf_data);
  new_task_tcb ← Arc_new tcb;
  new_pid ← get_pid new_task_tcb;
  current_task_tcb ← current_task_unwrap;
  update_inner new_task_tcb (set_parent (Some current_task_tcb));;
  update_inner current_task_tcb (λ i, set_child (vec_push (child i) new_task_tcb) i);;
  add_task new_task_tcb;;
  mret (as_isize new_pid).

(* src: src/src/syscall/process.rs 253-291 sys_spawn1 *)
Definition sys_spawn1 (path : Z) : M system Z :=
  path_name ← user_str path;
  o ← open_file path_name OpenFlags_RDONLY;
  match o with
  | Some inode =>
      elf_data ← OSInode_read_all sys_fuel inode;
      if Z.of_nat (length elf_data) =? 0 then mret (-1)
      else with_kernel (spawn1_task elf_data)
  | None => mret (-1)
  end.

(** What [sys_spawn] does with the program. *)
Definition spawn_task (elf_data : list byte) : M kernel Z :=
  t ← current_task_unwrap;
  new_task ← TaskControlBlock_spwan t elf_data;
  new_pid ← get_pid new_task;
  add_task new_task;;
  mret (as_isize new_pid).

(** Runs the operations on the kernel's store as far as they are known. *)
Ltac kernel_run :=
  cbv beta iota zeta delta [mbind M_bind mret M_ret current_task_unwrap current_task Processor_current inner_exclusive_access update_inner
    set_task get_pid Arc_new add_task TaskManager_add task with_frames with_kmem zoom gets modify unwrap panic
    PROCESSOR TASKS next_task k_mem ready_queue INITPROC set_k_mem set_TASKS set_ready_queue inner pid kernel_stack
    get_trap_cx PhysPageNum_get_mut PhysAddr_get_mut trap_cx_ppn].

Lemma spawn1_task_eq data k t b :
  current (PROCESSOR k) = Some t → TASKS k !! t = Some b → next_task k ≠ t →
  fd_table (inner b) = [Some Stdin; Some Stdout; Some Stdout] →
  spawn1_task data k = spawn_task data k.
Proof.
  destruct k as [m T n q P I]. destruct b as [pb kb ib]. cbn [PROCESSOR TASKS next_task inner]. intros Hc Hb Hne Hfd.
  unfold spawn1_task, spawn_task, TaskControlBlock_new, TaskControlBlock_spwan.
  kernel_run. rewrite Hc. kernel_run. rewrite Hb. kernel_run.
  destruct (with_mm (MemorySet_from_elf _ _) m) as [[[ms usp] e] m1| |]; [|done..]. kernel_run.
  destruct (with_mm (translate_trap_cx ms) m1) as [cx m2| |]; [|done..]. kernel_run.
  destruct (pid_alloc m2) as [p m3| |]; [|done..]. kernel_run.
  destruct (KernelStack_new p m3) as [ks m4| |]; [|done..]. kernel_run.
  rewrite (lookup_insert_eq T). kernel_run. destruct (_ =? 0); [done|]. kernel_run.
  destruct (with_mm (write_cx _ _) m4) as [[] m5| |]; [|done..]. kernel_run.
  rewrite (lookup_insert_eq T). kernel_run. rewrite Hc. kernel_run. rewrite (lookup_insert_eq T). kernel_run.
  rewrite !lookup_insert_ne by done. rewrite Hb. kernel_run.
  rewrite lookup_insert_ne, lookup_insert_eq by done. kernel_run. rewrite insert_insert_eq, Hfd. done.
Qed.

Lemma with_kernel_bind {A B} (m : M kernel A) (f : A → M kernel B) st :
  with_kernel (m ≫= f) st = (with_kernel m ≫= λ a, with_kernel (f a)) st.
Proof.
  unfold with_kernel, zoom, mbind, M_bind. destruct (m (sys_kernel st)) as [a k| |]; [|done..]. simpl.
  by destruct (f a k).
Qed.

(** The two implementations of [spawn] agree on a program that is not empty, for a
    caller with the three standard descriptors. *)
Theorem spawn1_agrees path st name st1 inode st2 data st3 t b :
  user_str path st = Done name st1 → open_file name OpenFlags_RDONLY st1 = Done (Some inode) st2 →
  OSInode_read_all sys_fuel inode st2 = Done data st3 → data ≠ [] →
  current (PROCESSOR (sys_kernel st3)) = Some t → TASKS (sys_kernel st3) !! t = Some b →
  next_task (sys_kernel st3) ≠ t → fd_table (inner b) = [Some Stdin; Some Stdout; Some Stdout] →
  sys_spawn1 path st = sys_spawn path st.
Proof.
  intros Hs Ho Hr Hne Hc Hb Hn Hfd. unfold sys_spawn1, sys_spawn, mbind, M_bind. rewrite Hs, Ho, Hr.
  destruct (Z.eqb_spec (Z.of_nat (length data)) 0) as [H0|_]; [by destruct data|].
  assert (Heq : with_kernel (spawn1_task data) st3 = with_kernel (spawn_task data) st3)
    by (unfold with_kernel, zoom; by rewrite (spawn1_task_eq data _ t b)).
  rewrite Heq. unfold spawn_task. rewrite with_kernel_bind. unfold mbind at 1, M_bind at 1.
  destruct (with_kernel current_task_unwrap st3) as [t' st4| |]; [|done..]. rewrite with_kernel_bind.
  unfold mbind at 1, M_bind at 1. destruct (with_kernel (TaskControlBlock_spwan t' data) st4) as [n st5| |]; [|done..].
  rewrite with_kernel_bind. unfold mbind at 1, M_bind at 1.
  destruct (with_kernel (get_pid n) st5) as [p st6| |]; [|done..]. by rewrite with_kernel_bind.
Qed.

End Calls.
