(* ===== verification/Trap.v ===== *)
(** * System call dispatch and trap handling ([src/syscall/mod.rs], [src/trap/mod.rs])

    A trap takes the running process into the kernel; [trap_handler] ends by returning
    to user mode ([trap_return]) or by switching to the idle loop.  [control] says which
    of the two a system call did.  What a process does when it is switched to again is
    [resume], the rest of [trap_handler] after the point where it was parked; a process
    that was never parked starts with [trap_return].  [run_tasks_step] is an iteration
    of the idle loop up to the moment the chosen process is back in user mode or has
    suspended itself again.  The registers [scause] and [time] are arguments; the
    messages printed are left out. *)
From S2P Require Import Prelude Config Machine Address FrameAllocator Ownership.
From S2P Require Import PageTable PageTableSpec MemorySet MapAreaSpec MemorySetSpec.
From S2P Require Import UserSpace UserMemory Pid Context Timer Task Scheduler SyscallProcess.
From S2P Require Import Files SyscallFile.

(** [args[0] as i32] and [args[2] as u32]. *)
Definition as_i32 (z : Z) : Z :=
  let w := z mod 2 ^ 32 in if w <? 2 ^ 31 then w else w - 2 ^ 32.
Definition as_u32 (z : Z) : Z := z mod 2 ^ 32.

(* src: src/src/syscall/mod.rs 3-3 SYSCALL_UNLINKAT *)
Definition SYSCALL_UNLINKAT : Z := 35.
(* src: src/src/syscall/mod.rs 4-4 SYSCALL_LINKAT *)
Definition SYSCALL_LINKAT : Z := 37.
(* src: src/src/syscall/mod.rs 5-5 SYSCALL_OPEN *)
Definition SYSCALL_OPEN : Z := 56.
(* src: src/src/syscall/mod.rs 6-6 SYSCALL_CLOSE *)
Definition SYSCALL_CLOSE : Z := 57.
(* src: src/src/syscall/mod.rs 7-7 SYSCALL_READ *)
Definition SYSCALL_READ : Z := 63.
(* src: src/src/syscall/mod.rs 8-8 SYSCALL_WRITE *)
Definition SYSCALL_WRITE : Z := 64.
(* src: src/src/syscall/mod.rs 9-9 SYSCALL_FSTAT *)
Definition SYSCALL_FSTAT : Z := 80.
(* src: src/src/syscall/mod.rs 10-10 SYSCALL_EXIT *)
Definition SYSCALL_EXIT : Z := 93.
(* src: src/src/syscall/mod.rs 11-11 SYSCALL_YIELD *)
Definition SYSCALL_YIELD : Z := 124.
(* src: src/src/syscall/mod.rs 12-12 SYSCALL_SET_PRIO *)
Definition SYSCALL_SET_PRIO : Z := 140.
(* src: src/src/syscall/mod.rs 13-13 SYSCALL_GET_TIME *)
Definition SYSCALL_GET_TIME : Z := 169.
(* src: src/src/syscall/mod.rs 14-14 SYSCALL_GETPID *)
Definition SYSCALL_GETPID : Z := 172.
(* src: src/src/syscall/mod.rs 15-15 SYSCALL_SBRK *)
Definition SYSCALL_SBRK : Z := 214.
(* src: src/src/syscall/mod.rs 16-16 SYSCALL_MUNMAP *)
Definition SYSCALL_MUNMAP : Z := 215.
(* src: src/src/syscall/mod.rs 17-17 SYSCALL_FORK *)
Definition SYSCALL_FORK : Z := 220.
(* src: src/src/syscall/mod.rs 18-18 SYSCALL_EXEC *)
Definition SYSCALL_EXEC : Z := 221.
(* src: src/src/syscall/mod.rs 19-19 SYSCALL_MMAP *)
Definition SYSCALL_MMAP : Z := 222.
(* src: src/src/syscall/mod.rs 20-20 SYSCALL_WAITPID *)
Definition SYSCALL_WAITPID : Z := 260.
(* src: src/src/syscall/mod.rs 21-21 SYSCALL_TASK_INFO *)
Definition SYSCALL_TASK_INFO : Z := 410.
(* src: src/src/syscall/mod.rs 22-22 SYSCALL_SPAWN *)
Definition SYSCALL_SPAWN : Z := 400.

(** The call by its number. *)
Inductive Syscall : Set :=
| Unlinkat | Linkat | Open | Close | Read | Write | Fstat | Exit | Yield | SetPrio | GetTime | GetPid
| Sbrk | Munmap | Fork | Exec | Mmap | Waitpid | TaskInfoCall | Spawn.
#[global] Instance Syscall_eq_dec : EqDecision Syscall.
Proof. solve_decision. Defined.

Definition syscall_numbers : list (Z * Syscall) :=
  [ (SYSCALL_UNLINKAT, Unlinkat); (SYSCALL_LINKAT, Linkat); (SYSCALL_OPEN, Open); (SYSCALL_CLOSE, Close);
    (SYSCALL_READ, Read); (SYSCALL_WRITE, Write); (SYSCALL_FSTAT, Fstat); (SYSCALL_EXIT, Exit);
    (SYSCALL_YIELD, Yield); (SYSCALL_SET_PRIO, SetPrio); (SYSCALL_GET_TIME, GetTime);
    (SYSCALL_GETPID, GetPid); (SYSCALL_SBRK, Sbrk); (SYSCALL_MUNMAP, Munmap); (SYSCALL_FORK, Fork);
    (SYSCALL_EXEC, Exec); (SYSCALL_MMAP, Mmap); (SYSCALL_WAITPID, Waitpid);
    (SYSCALL_TASK_INFO, TaskInfoCall); (SYSCALL_SPAWN, Spawn) ].

Definition syscall_of (id : Z) : option Syscall :=
  match list_find (λ p : Z * Syscall, p.1 = id) syscall_numbers with
  | Some (_, (_, c)) => Some c
  | None => None
  end.

Inductive control : Set := Returned (r : Z) | Switched.

Section Trap.
Context `{SystemEnv}.

Definition returns (m : M system Z) : M system control := r ← m; mret (Returned r).

(** The five arguments are the registers [a0] to [a4]. *)
(* src: src/src/syscall/mod.rs 33-59 syscall *)
Definition syscall (time syscall_id : Z) (args : Z * Z * Z * Z * Z) : M system control :=
  let '(a0, a1, a2, a3, _) := args in
  with_kernel (update_current_task_syscall_times syscall_id);;
  match syscall_of syscall_id with
  | Some Linkat => returns (sys_linkat a1 a3)
  | Some Unlinkat => returns (sys_unlinkat a1)
  | Some Fstat => returns (sys_fstat a0 a1)
  | Some Open => returns (sys_open a1 (as_u32 a2))
  | Some Close => returns (sys_close a0)
  | Some Read => o ← sys_read a0 a1 a2; mret (match o with Some r => Returned r | None => Switched end)
  | Some Write => returns (sys_write a0 a1 a2)
  | Some Exit => with_kernel (sys_exit (as_i32 a0));; mret Switched
  | Some Yield => park ResumeYield;; mret Switched
  | Some GetPid => returns (with_kernel sys_getpid)
  | Some GetTime => returns (with_kernel (sys_get_time time a0))
  | Some TaskInfoCall => returns (with_kernel (sys_task_info TaskInfo_repr time a0))
  | Some Munmap => returns (with_kernel (sys_munmap a0 a1))
  | Some Mmap => returns (with_kernel (sys_mmap a0 a1 a2))
  | Some Fork => returns (with_kernel sys_fork)
  | Some Exec => returns (sys_exec a0)
  | Some Waitpid => returns (with_kernel (sys_waitpid (as_isize a0) a1))
  | Some Sbrk => returns (with_kernel (sys_sbrk (as_i32 a0)))
  | Some Spawn => returns (sys_spawn a0)
  | Some SetPrio => returns (with_kernel (sys_set_prio (as_isize a0)))
  | None => panic ExplicitPanic
  end.

(** ** Traps *)

Inductive Trap : Set :=
| UserEnvCall | StoreFault | StorePageFault | InstructionFault | InstructionPageFault | LoadFault
| LoadPageFault | IllegalInstruction | SupervisorTimer | OtherTrap.

(** The registers with which [trap_return] jumps to [__restore]. *)
Record user_entry : Set := mkEntry { restore_va : Z; ue_a0 : Z; ue_a1 : Z }.

(* src: src/src/trap/mod.rs 103-107 set_kernel_trap_entry *)
Definition set_kernel_trap_entry : M system unit := modify (set_stvec trap_from_kernel_addr).

(* src: src/src/trap/mod.rs 110-115 set_user_trap_entry *)
Definition set_user_trap_entry : M system unit := modify (set_stvec TRAMPOLINE).

(* src: src/src/trap/mod.rs 27-29 init *)
Definition trap_init : M system unit := set_kernel_trap_entry.

(** The new value of [sie]: bit 5 is [STIE]. *)
(* src: src/src/trap/mod.rs 32-36 enable_timer_interrupt *)
Definition enable_timer_interrupt (sie : Z) : Z := Z.setbit sie 5.

(** What a trap in supervisor mode runs into. *)
(* src: src/src/trap/mod.rs 98-100 trap_from_kernel *)
Definition trap_from_kernel {A} : M system A := panic ExplicitPanic.

(* src: src/src/trap/mod.rs 118-146 trap_return *)
Definition trap_return : M system user_entry :=
  set_user_trap_entry;;
  user_satp ← with_kernel current_user_token;
  mret {| restore_va := restore_addr -u alltraps_addr +u TRAMPOLINE; ue_a0 := TRAP_CONTEXT_BASE;
          ue_a1 := user_satp |}.

(** The rest of [trap_handler] after a system call has returned [result]. *)
(* src: src/src/trap/mod.rs 55-60 trap_handler *)
Definition finish_syscall (result : Z) : M system user_entry :=
  cx ← with_kernel current_trap_cx;
  with_memory (write_cx_a0 cx (as_usize result));;
  trap_return.

(** [cx.sepc += 4]. *)
Definition advance_sepc (cx : Z) : M mm unit :=
  set_phys (λ m, store64 m (cx + 8 * 33) (load64 m (cx + 8 * 33) +u 4)).

(* src: src/src/trap/mod.rs 49-61 trap_handler *)
Definition user_env_call (time : Z) : M system (option user_entry) :=
  cx ← with_kernel current_trap_cx;
  with_memory (advance_sepc cx);;
  ws ← with_memory (gets (λ s, load_words (phys s) cx 37));
  c ← syscall time (ws !!! 17%nat) (ws !!! 10%nat, ws !!! 11%nat, ws !!! 12%nat, ws !!! 13%nat, ws !!! 14%nat);
  match c with
  | Returned result => e ← finish_syscall result; mret (Some e)
  | Switched => mret None
  end.

(** [None]: the process gave up the processor. *)
(* src: src/src/trap/mod.rs 40-94 trap_handler *)
Definition trap_handler (scause : Trap) (time : Z) : M system (option user_entry) :=
  set_kernel_trap_entry;;
  match scause with
  | UserEnvCall => user_env_call time
  | StoreFault | StorePageFault | InstructionFault | InstructionPageFault | LoadFault | LoadPageFault =>
      with_kernel (exit_current_and_run_next (-2));; mret None
  | IllegalInstruction => with_kernel (exit_current_and_run_next (-3));; mret None
  | SupervisorTimer =>
      modify (set_trigger (set_next_trigger time));;
      park ResumeTrap;; mret None
  | OtherTrap => panic ExplicitPanic
  end.

(** ** Being switched to *)

Definition resume (t : nat) : M system (option user_entry) :=
  p ← gets (λ st, PARKED st !! t);
  modify (λ st, set_PARKED (delete t (PARKED st)) st);;
  match p with
  | None | Some ResumeTrap => e ← trap_return; mret (Some e)
  | Some ResumeYield => e ← finish_syscall 0; mret (Some e)
  | Some (ResumeRead user_buf) =>
      o ← Stdin_poll user_buf;
      match o with
      | Some n => e ← finish_syscall (as_isize n); mret (Some e)
      | None => mret None
      end
  end.

(** [run_tasks_iter] and what the process it switches to does. *)
Definition run_tasks_step : M system (option user_entry) :=
  o ← with_kernel run_tasks_iter;
  match o with
  | Some t => resume t
  | None => mret None
  end.

End Trap.
