(* ===== verification/SystemInv.v ===== *)
(** * The invariant of the whole system

    [system_ok] adds to the invariant of the kernel what concerns files and suspended
    system calls: descriptors refer to open files, every process has its counters, and
    a process that is parked in the middle of a system call is ready and still owns the
    memory it will write to.  [tasks_step] is what a step of one process may do to the
    table of processes; such a step keeps the invariant. *)
From S2P Require Import Prelude Config Machine Address FrameAllocator Ownership.
From S2P Require Import PageTable PageTree PageTableSpec MemorySet MapAreaSpec MemorySetSpec.
From S2P Require Import AddressSpace UserSpace UserMemory Fork ElfLoad Pid Context Timer Task Scheduler.
From S2P Require Import SyscallProcess KernelInv ProcessSpec WaitSpec ExecSpec SyscallSpec KernelSteps.
From S2P Require Import Files FileSpec SyscallFile Trap.

Section Inv.
Context `{SystemEnv} `{!EasyFsLaws}.
Context (Hst : strampoline_ok).

Abbreviation smm st := (km_mm (k_mem (sys_kernel st))).
Abbreviation stasks st := (TASKS (sys_kernel st)).

Record proc_ok (F : gmap nat OSInode) (b : TaskControlBlock) : Prop := {
  po_times : length (syscall_times (task_info_inner (inner b))) = 500%nat;
  po_files fd id : fd_table (inner b) !! fd = Some (Some (OSInodeRef id)) → is_Some (F !! id);
}.

(** The buffer of a read from the console: one byte of the process. *)
Definition byte_at (al : list MapArea) (va : Z) (buf : UserBuffer) : Prop :=
  ∃ f, ms_frame al (va / 4096) f ∧ buffers buf = [mkByteSlice (f * 4096 + va mod 4096) 1].
Definition one_byte (al : list MapArea) (buf : UserBuffer) : Prop := ∃ va, byte_at al va buf.

Definition parked_ok (T : tasks) (t : nat) (p : resume_point) : Prop :=
  ∃ b, T !! t = Some b ∧ task_status (inner b) = Ready ∧
    match p with ResumeRead buf => one_byte (areas (memory_set (inner b))) buf | _ => True end.

Record system_ok (L : layout) (st : system) : Prop := {
  so_kernel : kernel_ok L (sys_kernel st);
  so_procs t b : stasks st !! t = Some b → proc_ok (OSINODES st) b;
  so_parked t p : PARKED st !! t = Some p → parked_ok (stasks st) t p;
  so_fresh id : is_Some (OSINODES st !! id) → (id < next_osinode st)%nat;
  so_offset id f : OSINODES st !! id = Some f → 0 ≤ os_offset f;
}.

(** Blocks come from blocks with the same files; processes other than [t] that were
    ready still are, with their memory. *)
Record tasks_step (t : nat) (T T' : tasks) : Prop := {
  ts_from u b' : T' !! u = Some b' → ∃ v b, T !! v = Some b ∧
    fd_table (inner b') = fd_table (inner b) ∧
    (length (syscall_times (task_info_inner (inner b'))) = 500%nat ∨
     task_info_inner (inner b') = task_info_inner (inner b));
  ts_kept u b : u ≠ t → T !! u = Some b → task_status (inner b) = Ready →
    ∃ b', T' !! u = Some b' ∧ task_status (inner b') = Ready ∧
          memory_set (inner b') = memory_set (inner b) ∧ kernel_stack b' = kernel_stack b;
}.

Lemma tasks_step_refl t T : tasks_step t T T.
Proof. split; eauto 10. Qed.

Lemma proc_ok_from F b b' :
  proc_ok F b → fd_table (inner b') = fd_table (inner b) →
  (length (syscall_times (task_info_inner (inner b'))) = 500%nat ∨
   task_info_inner (inner b') = task_info_inner (inner b)) → proc_ok F b'.
Proof. intros [Ht Hf] Hfd Hti. split; [by destruct Hti as [?| ->]|]. rewrite Hfd. exact Hf. Qed.

Lemma parked_not_current L st t p :
  system_ok L st → PARKED st !! t = Some p → current (PROCESSOR (sys_kernel st)) ≠ Some t.
Proof.
  intros Hok Hp Hc. destruct (so_parked _ _ Hok t p Hp) as (b & Hb & Hr & _).
  destruct (kernel_ok_running L _ t (so_kernel _ _ Hok) Hc) as (b' & Hb' & Hrun & _). congruence.
Qed.

Lemma parked_ok_step t T T' u p :
  tasks_step t T T' → u ≠ t → parked_ok T u p → parked_ok T' u p.
Proof.
  intros Hts Hne (b & Hb & Hr & Hp). destruct (ts_kept _ _ _ Hts u b Hne Hb Hr) as (b' & Hb' & Hr' & Hms & _).
  exists b'. split_and!; [done|done|]. by rewrite Hms.
Qed.

(** A step of the running process. *)
Lemma system_ok_step L st t k' :
  system_ok L st → current (PROCESSOR (sys_kernel st)) = Some t → kernel_ok L k' →
  tasks_step t (stasks st) (TASKS k') → system_ok L (set_sys_kernel k' st).
Proof.
  intros Hok Hc Hk Hts. split; simpl.
  - done.
  - intros u b' Hb'. destruct (ts_from _ _ _ Hts u b' Hb') as (v & b & Hb & Hfd & Hti).
    by eapply proc_ok_from; [eapply so_procs|..].
  - intros u p Hp. eapply parked_ok_step; [done| |by eapply so_parked].
    intros ->. by eapply (parked_not_current L st).
  - apply Hok.
  - apply Hok.
Qed.

(** ** What a step of one process leaves of the others

    They are ready as before, with the same address space and the same bytes in it, the
    trap context included, and the same kernel stack, and wait at the same point. *)
Definition kept (t : nat) (st st' : system) : Prop := ∀ u b,
  u ≠ t → stasks st !! u = Some b → task_status (inner b) = Ready →
  ∃ b', stasks st' !! u = Some b' ∧ task_status (inner b') = Ready ∧
    memory_set (inner b') = memory_set (inner b) ∧
    (∀ va, va / 4096 ∈ areas_vpns (areas (memory_set (inner b))) →
      user_byte (smm st') (memory_set (inner b)) va = user_byte (smm st) (memory_set (inner b)) va) ∧
    PARKED st' !! u = PARKED st !! u ∧ kernel_stack b' = kernel_stack b.

(** Nobody but [t] is parked or taken off the list. *)
Definition parked_same (t : nat) (st st' : system) : Prop := ∀ u, u ≠ t → PARKED st' !! u = PARKED st !! u.

Lemma kept_refl t st st' : sys_kernel st' = sys_kernel st → parked_same t st st' → kept t st st'.
Proof. intros Hk Hp u b Hu Hb Hr. rewrite Hk. exists b. split_and!; eauto. Qed.

Lemma kept_trans t st1 st2 st3 : kept t st1 st2 → kept t st2 st3 → kept t st1 st3.
Proof.
  intros H12 H23 u b Hu Hb Hr. destruct (H12 u b Hu Hb Hr) as (b2 & Hb2 & Hr2 & Hm2 & Hv2 & Hp2 & Hs2).
  destruct (H23 u b2 Hu Hb2 Hr2) as (b3 & Hb3 & Hr3 & Hm3 & Hv3 & Hp3 & Hs3). exists b3. rewrite Hm2 in *.
  split_and!; [done|done|done| |congruence..]. intros va Hva. by rewrite Hv3, Hv2.
Qed.

Lemma kept_intro t st st' :
  tasks_step t (stasks st) (stasks st') → others_unchanged (delete t (stasks st)) (smm st) (smm st') →
  parked_same t st st' → kept t st st'.
Proof.
  intros Hts Hoth Hp u b Hu Hb Hr. destruct (ts_kept _ _ _ Hts u b Hu Hb Hr) as (b' & Hb' & Hr' & Hm & Hs).
  exists b'. split_and!; [done..| |by apply Hp|done]. intros va Hva. apply (Hoth u b va); [|congruence|done].
  by rewrite lookup_delete_ne.
Qed.

Lemma others_refl T s : others_unchanged T s s.
Proof. by intros t b va. Qed.

Lemma others_phys T s s' : phys s' = phys s → others_unchanged T s s'.
Proof. intros Hp t b va _ _ _. unfold user_byte. by rewrite Hp. Qed.

Lemma others_delete t (T : tasks) s s' : others_unchanged T s s' → others_unchanged (delete t T) s s'.
Proof. intros Ho u b va [_ Hu]%lookup_delete_Some. by apply (Ho u). Qed.

Lemma others_zombie c bc (T : tasks) s s' :
  T !! c = Some bc → task_status (inner bc) = Zombie → others_unchanged (delete c T) s s' →
  others_unchanged T s s'.
Proof.
  intros Hc Hz Ho u b va Hu Hnz. apply (Ho u); [|done]. rewrite lookup_delete_ne; [done|]. intros <-. congruence.
Qed.

(** ** Steps of the kernel *)

Lemma tasks_step_local (T : tasks) t b b' :
  T !! t = Some b → fd_table (inner b') = fd_table (inner b) →
  (length (syscall_times (task_info_inner (inner b'))) = 500%nat ∨
   task_info_inner (inner b') = task_info_inner (inner b)) →
  tasks_step t T (<[t := b']> T).
Proof.
  intros Hb Hfd Hti. split.
  - intros u bu Hu. apply lookup_insert_Some in Hu as [[<- <-]|[_ Hu]]; [by exists t, b|].
    exists u, bu. auto.
  - intros u bu Hne Hu Hr. exists bu. by rewrite lookup_insert_ne.
Qed.

Lemma tasks_step_child (T : tasks) p bp bc c f :
  T !! p = Some bp → T !! c = None → fd_table (inner bc) = fd_table (inner bp) →
  length (syscall_times (task_info_inner (inner bc))) = 500%nat →
  (∀ i, fd_table (f i) = fd_table i ∧ task_info_inner (f i) = task_info_inner i) →
  tasks_step p T (<[p := map_inner f bp]> (<[c := bc]> T)).
Proof.
  intros Hp Hc Hfd Hti Hf. split.
  - intros u bu Hu. apply lookup_insert_Some in Hu as [[<- <-]|[_ Hu]].
    { exists p, bp. simpl. destruct (Hf (inner bp)) as [-> ->]. auto. }
    apply lookup_insert_Some in Hu as [[<- <-]|[_ Hu]]; [exists p, bp; auto|exists u, bu; auto].
  - intros u bu Hne Hu Hr. exists bu. rewrite lookup_insert_ne, lookup_insert_ne; [done|congruence..].
Qed.

Lemma tasks_step_reap (T : tasks) p bp idx c bc :
  T !! p = Some bp → T !! c = Some bc → task_status (inner bc) = Zombie →
  tasks_step p T (reaped T p bp idx c).
Proof.
  intros Hp Hc Hz. split.
  - intros u bu Hu. unfold reaped in Hu. apply lookup_delete_Some in Hu as [_ Hu].
    apply lookup_insert_Some in Hu as [[<- <-]|[_ Hu]]; [exists p, bp; auto|exists u, bu; auto].
  - intros u bu Hne Hu Hr. exists bu. unfold reaped.
    rewrite lookup_delete_ne, lookup_insert_ne; [done|congruence..].
Qed.

Lemma tasks_step_exit T t init b bi code T' :
  exit_tasks T t init b bi code T' → T !! t = Some b → T !! init = Some bi → tasks_step t T T'.
Proof.
  intros [Hself Hinit Hother] Hb Hbi. split.
  - intros u bu Hu. destruct (decide (u = t)) as [->|Hne].
    { rewrite Hself in Hu. injection Hu as <-. exists t, b. auto. }
    destruct (decide (u = init)) as [->|Hni].
    { rewrite Hinit in Hu. injection Hu as <-. exists init, bi. auto. }
    rewrite (Hother u Hne Hni) in Hu. apply fmap_Some in Hu as (b0 & Hb0 & ->).
    exists u, b0. split; [done|]. case_decide; auto.
  - intros u bu Hne Hu Hr. destruct (decide (u = init)) as [->|Hni].
    { rewrite Hinit. eexists. split; [done|]. assert (bu = bi) by congruence. by subst. }
    rewrite (Hother u Hne Hni), Hu. simpl. eexists. split; [done|]. by case_decide.
Qed.

(** The running process changes data of its own that concern neither memory nor family. *)
Lemma kernel_ok_data L k t b f :
  kernel_ok L k → current (PROCESSOR k) = Some t → TASKS k !! t = Some b →
  memory_set (f (inner b)) = memory_set (inner b) → trap_cx_ppn (f (inner b)) = trap_cx_ppn (inner b) →
  child (f (inner b)) = child (inner b) → parent (f (inner b)) = parent (inner b) →
  prio (f (inner b)) = prio (inner b) → task_status (f (inner b)) = task_status (inner b) →
  kernel_ok L (set_TASKS (<[t := map_inner f b]> (TASKS k)) k).
Proof.
  intros Hok Hc Hb Hms Hcx Hch Hpa Hpr Hs.
  destruct (kernel_ok_running L k t Hok Hc) as (b0 & Hb0 & Hrun & _). rewrite Hb in Hb0. injection Hb0 as <-.
  destruct Hok as [Hmem Hsi]. split; simpl.
  - eapply mem_inv_same; [done..|]. split; simpl; try done. by rewrite Hs.
  - eapply sched_same; [done..| |done|congruence]. split; simpl; [done..|].
    rewrite Hpr. by eapply si_prio.
Qed.

End Inv.
