(* ===== verification/SystemCalls.v ===== *)
(** * Every system call keeps the invariant

    [call_ok] of [SystemSpec] says which calls the kernel can carry out: pointers into the memory of the
    caller, descriptors of the right kind, well-formed programs.  (Outside of it the
    kernel panics or does not return, or it goes on and is corrupted: [munmap] of the trap
    context frees a page in use, [waitpid] with a pointer that crosses a page writes to a
    frame that may be another's.)  For such a call [syscall] returns to the caller, or
    switches away, with the invariant of the system intact and the memory of every
    other process as it was; it can stop the machine only when
    fewer frames are free than it may take ([out_of_frames]), and only in [mmap], [sbrk],
    [fork], [exec] and [spawn]. *)
From S2P Require Import Prelude Config Machine Address FrameAllocator Ownership.
From S2P Require Import PageTable PageTree PageTableSpec MemorySet MapAreaSpec MemorySetSpec.
From S2P Require Import AddressSpace UserSpace UserMemory Fork ElfLoad Pid Context Timer Task Scheduler.
From S2P Require Import SyscallProcess KernelInv ProcessSpec WaitSpec ExecSpec SyscallSpec KernelSteps.
From S2P Require Import Files FileSpec SyscallFile Trap SystemInv.
From coqutil Require Import Byte Word.LittleEndianList.

Section Calls.
Context `{SystemEnv} `{!EasyFsLaws}.
Context (Hst : strampoline_ok).
Context (Henv : env_ok).

Abbreviation smm st := (km_mm (k_mem (sys_kernel st))).
Abbreviation stasks st := (TASKS (sys_kernel st)).

(** A panic for want of frames: fewer are free than the number (one that [P] admits) that
    the call may take. *)
Definition out_of_frames (P : nat → Prop) (st : system) (e : panic_kind) : Prop :=
  e = UnwrapNone ∧ ∃ n, P n ∧ (free_frames (smm st) < n)%nat.

Record running (L : layout) (st : system) (t : nat) (b : TaskControlBlock) : Prop := {
  ru_ok : system_ok L st;
  ru_current : current (PROCESSOR (sys_kernel st)) = Some t;
  ru_block : stasks st !! t = Some b;
}.

(** Back in the caller, from the state [st] on; nobody else was touched. *)
Definition still_running (L : layout) (st : system) (t : nat) (st' : system) : Prop :=
  (∃ b, running L st' t b) ∧ kept t st st'.

Lemma ru_live L st t b :
  running L st t b → live_ok (smm st) (inner b) ∧ task_status (inner b) = Running.
Proof.
  intros [Hok Hc Hb]. destruct (kernel_ok_running L _ t (so_kernel _ _ Hok) Hc) as (b' & Hb' & ? & ?).
  rewrite Hb in Hb'. by injection Hb' as <-.
Qed.

Lemma still_running_intro L st t b k' :
  running L st t b → kernel_ok L k' → current (PROCESSOR k') = Some t →
  tasks_step t (stasks st) (TASKS k') → others_unchanged (delete t (stasks st)) (smm st) (km_mm (k_mem k')) →
  still_running L st t (set_sys_kernel k' st).
Proof.
  intros [Hok Hc Hb] Hk Hc' Hts Ho. destruct (kernel_ok_running L k' t Hk Hc') as (b' & Hb' & _).
  split; [|by apply kept_intro]. exists b'. split; [by eapply system_ok_step|done..].
Qed.

Lemma still_running_same L st t b st' :
  running L st' t b → sys_kernel st' = sys_kernel st → PARKED st' = PARKED st → still_running L st t st'.
Proof. intros ? ? Hp. split; [by exists b|apply kept_refl; [done|]]. intros u _. by rewrite Hp. Qed.

(** A call of the kernel proper. *)
Lemma wp_kernel_call {A} L st t b (m : M kernel A) (Q : A → kernel → Prop) E E' :
  running L st t b → wp m Q E (sys_kernel st) → (∀ e, E e → E' e) →
  (∀ r k', Q r k' → kernel_ok L k' ∧ current (PROCESSOR k') = Some t ∧
     tasks_step t (stasks st) (TASKS k') ∧ others_unchanged (delete t (stasks st)) (smm st) (km_mm (k_mem k'))) →
  wp (with_kernel m) (λ _ st', still_running L st t st') E' st.
Proof.
  intros Hr Hm HE HQ. apply wp_with_kernel. eapply wp_mono; [exact Hm| |done].
  intros r k' (Hk & Hc & Hts & Ho)%HQ. by eapply still_running_intro.
Qed.

(** Only the block of [t] changes. *)
Lemma kept_local t b' st st' :
  is_Some (stasks st !! t) → stasks st' = <[t := b']> (stasks st) → smm st' = smm st →
  parked_same t st st' → kept t st st'.
Proof.
  intros [b Hb] HT Hm Hp u bu Hu Hbu Hr. rewrite HT, Hm. exists bu. rewrite lookup_insert_ne by done. split_and!; eauto.
Qed.

(** ** Memory and processes *)

Definition buf_ok (ms : MemorySet) (ptr len : Z) : Prop :=
  0 ≤ ptr ∧ 0 ≤ len ∧ ptr + len < 2 ^ 39 ∧ user_range ms ptr (ptr + len).

Lemma getpid_call L st t b :
  running L st t b → wp (with_kernel sys_getpid) (λ _ st', still_running L st t st') no_panic st.
Proof.
  intros Hr. pose proof Hr as [Hok Hc Hb].
  eapply (wp_kernel_call L st t b _ (λ _ k', k' = sys_kernel st) no_panic); [done| |done|].
  - unfold sys_getpid. wp_step. eapply wp_current_unwrap; [done|]. wp_step. eapply wp_get_pid; [done|]. by wp_step.
  - intros r k' ->. split_and!; [apply Hok|done|apply tasks_step_refl|apply others_refl].
Qed.

Lemma set_prio_call L st t b p :
  running L st t b → p < 2 ^ 63 →
  wp (with_kernel (sys_set_prio p)) (λ _ st', still_running L st t st') no_panic st.
Proof.
  intros Hr Hp. pose proof Hr as [Hok Hc Hb].
  eapply wp_kernel_call; [done|apply (set_prio_ok L _ t b p); [apply Hok|done..]|done|].
  intros r k' [Hk Hres]. destruct (p <=? 1); destruct Hres as [_ ->].
  - split_and!; [done|done|apply tasks_step_refl|apply others_refl].
  - split_and!; [done|done| |apply others_refl]. by apply (tasks_step_local _ _ b); [|..|right].
Qed.

(** The frames of a range of pages, with two table pages for each. *)
Definition mmap_frames (start len : Z) : nat := 3 * length (vpns (page_range start (start + len))).

Lemma mmap_call L st t b start len port :
  running L st t b → 0 ≤ start → 0 ≤ len → start + len < 2 ^ 39 →
  wp (with_kernel (sys_mmap start len port)) (λ _ st', still_running L st t st')
    (out_of_frames (λ n, n = mmap_frames start len) st) st.
Proof.
  intros Hr H1 H2 H3. pose proof Hr as [Hok Hc Hb].
  eapply wp_kernel_call; [done|apply (mmap_spec L _ t b start len port); [apply Hok|done..]|by intros e []; split; [|eexists]|].
  intros r k' [(_ & -> & _)|(_ & _ & _ & ms' & s' & -> & Hk & _ & _ & _ & Ho)].
  - split_and!; [apply Hok|done|apply tasks_step_refl|apply others_refl].
  - split_and!; [done|done| |done]. by apply (tasks_step_local _ _ b); [|..|right].
Qed.

Lemma munmap_call L st t b start len :
  running L st t b → 0 ≤ start → 0 ≤ len → start + len < 2 ^ 39 →
  (let r := page_range start (start + len) in
   TRAP_VPN ∉ areas_vpns (covering (range_l r) (range_r r) (areas (memory_set (inner b))))) →
  wp (with_kernel (sys_munmap start len)) (λ _ st', still_running L st t st') no_panic st.
Proof.
  intros Hr H1 H2 H3 H4. pose proof Hr as [Hok Hc Hb].
  eapply wp_kernel_call; [done|apply (munmap_spec L _ t b start len); [apply Hok|done..]|done|].
  intros r k' [(_ & -> & _)|(_ & ms' & s' & -> & Hk & _ & Ho)].
  - split_and!; [apply Hok|done|apply tasks_step_refl|apply others_refl].
  - split_and!; [done|done| |done]. by apply (tasks_step_local _ _ b); [|..|right].
Qed.

(** The heap is where [sbrk] expects it and there is room above it. *)
Definition sbrk_ok (st : system) (i : TaskControlBlockInner) (size : Z) : Prop :=
  ∃ idx a, heap_ok i idx a ∧
    (0 < size → ∀ v, v ∈ vpns (mkSimpleRange ((program_brk i + 4095) / 4096)
                                 ((program_brk i + size + 4095) / 4096)) →
       pt_lookup (phys (smm st)) (page_table (memory_set i)) v = None).

Definition sbrk_frames (i : TaskControlBlockInner) (size : Z) : nat :=
  3 * length (vpns (mkSimpleRange ((program_brk i + 4095) / 4096) ((program_brk i + size + 4095) / 4096))).

Lemma sbrk_call L st t b size :
  running L st t b → - 2 ^ 31 ≤ size < 2 ^ 31 → sbrk_ok st (inner b) size →
  wp (with_kernel (sys_sbrk size)) (λ _ st', still_running L st t st')
    (out_of_frames (λ n, n = sbrk_frames (inner b) size) st) st.
Proof.
  intros Hr Hs (idx & a & Hh & Hfree). pose proof Hr as [Hok Hc Hb].
  eapply wp_kernel_call; [done|apply (sbrk_spec L _ t b size idx a); [apply Hok|done..]| |].
  - intros e (Hpos & [[-> Hfr]|(_ & v & Hv & [x Hx])]); [by split; [|eexists]|]. rewrite Hfree in Hx; done.
  - intros r k' [(_ & -> & _)|(_ & _ & ms' & s' & -> & Hk & _ & Ho)].
    + split_and!; [apply Hok|done|apply tasks_step_refl|apply others_refl].
    + split_and!; [done|done| |done]. by apply (tasks_step_local _ _ b); [|..|right].
Qed.

Lemma fresh_task_none L st t b : running L st t b → stasks st !! next_task (sys_kernel st) = None.
Proof.
  intros [Hok _ _]. destruct (stasks st !! next_task (sys_kernel st)) eqn:Hn; [|done].
  destruct (si_fresh _ _ _ _ _ (ko_sched _ _ (so_kernel _ _ Hok)) (next_task (sys_kernel st))); [eauto|lia].
Qed.

(** The pages of the process, its trap context and kernel stack again, and their tables. *)
Definition fork_frames (i : TaskControlBlockInner) : nat := 12 + 3 * length (areas_vpns (areas (memory_set i))).

Lemma fork_call L st t b :
  running L st t b → pid_fits (pa_current (PID_ALLOCATOR (k_mem (sys_kernel st)))) →
  wp (with_kernel sys_fork) (λ _ st', still_running L st t st') (out_of_frames (λ n, n = fork_frames (inner b)) st) st.
Proof.
  intros Hr Hp. pose proof Hr as [Hok Hc Hb].
  eapply wp_kernel_call; [done|apply (sys_fork_spec Hst L _ t b); [apply Hok|done..]|by intros e []; split; [|eexists]|].
  intros r k' (bc & m & live & -> & Hk & _ & _ & Hch & Ho & _). split_and!; [done|done| |by apply others_delete]. simpl.
  apply tasks_step_child; [done|by eapply fresh_task_none|apply Hch| |done].
  by rewrite (co_info _ _ _ Hch).
Qed.

Lemma waitpid_call L st t b pid_ ptr :
  running L st t b → buf_ok (memory_set (inner b)) ptr 4 → ptr mod 4096 ≤ 4092 →
  wp (with_kernel (sys_waitpid pid_ ptr)) (λ _ st', still_running L st t st') no_panic st.
Proof.
  intros Hr (H1 & _ & H3 & H4) Hm. pose proof Hr as [Hok Hc Hb].
  eapply wp_kernel_call; [done|apply (waitpid_spec L _ t b pid_ ptr); [apply Hok|done|done|lia|done|apply H4; lia]|done|].
  intros r k' [(_ & -> & _)|[(_ & -> & _)|(idx & c & bc & Hfz & _ & Hre)]].
  - split_and!; [apply Hok|done|apply tasks_step_refl|apply others_refl].
  - split_and!; [apply Hok|done|apply tasks_step_refl|apply others_refl].
  - split_and!; [apply Hre| | |eapply (others_zombie c bc); [|apply Hfz|apply Hre]].
    + destruct (rp_sched _ _ _ _ _ _ _ _ _ Hre) as (_ & -> & _). done.
    + rewrite (rp_tasks _ _ _ _ _ _ _ _ _ Hre). eapply tasks_step_reap; [done|apply Hfz..].
    + rewrite lookup_delete_ne; [apply Hfz|]. intros ->. destruct (ru_live _ _ _ _ Hr) as [_ Hrun].
      pose proof (fz_task _ _ _ _ _ _ Hfz) as Hbc. pose proof (fz_zombie _ _ _ _ _ _ Hfz). congruence.
Qed.

(** Data written to the caller. *)
Lemma write_user_call L st t b ptr data len :
  running L st t b → buf_ok (memory_set (inner b)) ptr len →
  wp (with_memory (translated_and_write_bytes (MemorySet_token (memory_set (inner b))) ptr data len))
    (λ _ st', still_running L st t st') no_panic st.
Proof.
  intros Hr (H1 & H2 & H3 & H4). pose proof Hr as [Hok Hc Hb]. unfold with_memory.
  eapply wp_kernel_call; [done|apply (write_user_ok L _ t b ptr data len); [apply Hok|done..]|done|].
  intros [] k' (s' & -> & Hk & _ & Ho). split_and!; [done|done|apply tasks_step_refl|done].
Qed.

Lemma wp_current_token {A} L st t b (f : Z → M system A) Q E :
  running L st t b → wp (f (MemorySet_token (memory_set (inner b)))) Q E st →
  wp (token ← with_kernel current_user_token; f token) Q E st.
Proof.
  intros [Hok Hc Hb] Hf. wp_step. apply wp_with_kernel. eapply wp_user_token; [done..|]. by destruct st.
Qed.

Lemma wp_current_block {A} L st t b (f : nat → TaskControlBlockInner → M system A) Q E :
  running L st t b → wp (f t (inner b)) Q E st →
  wp (t ← with_kernel current_task_unwrap; i ← with_kernel (inner_exclusive_access t); f t i) Q E st.
Proof.
  intros [Hok Hc Hb] Hf. wp_step. apply wp_with_kernel. eapply wp_current_unwrap; [done|].
  wp_step. apply wp_with_kernel. eapply wp_inner; [done|]. by destruct st.
Qed.
Lemma get_time_call L st t b time ts :
  running L st t b → buf_ok (memory_set (inner b)) ts 16 →
  wp (with_kernel (sys_get_time time ts)) (λ _ st', still_running L st t st') no_panic st.
Proof.
  intros Hr (H1 & H2 & H3 & H4). pose proof Hr as [Hok Hc Hb].
  eapply (wp_kernel_call L st t b _ (λ _ k', ∃ s', k' = set_k_mem s' (sys_kernel st) ∧ kernel_ok L k' ∧
    others_unchanged (delete t (stasks st)) (smm st) (km_mm s')) no_panic);
    [done| |done|].
  - unfold sys_get_time. cbv zeta. rewrite length_app, !length_le_split.
    wp_step. eapply wp_user_token; [done..|].
    eapply wp_call; [by apply (write_user_ok L _ t b ts _ 16); [apply Hok|..]|done|].
    intros [] k' (s' & -> & Hk & _ & Ho). wp_step. eauto.
  - intros r k' (s' & -> & Hk & Ho). split_and!; [done|done|apply tasks_step_refl|done].
Qed.

Lemma task_info_call L st t b time ti :
  running L st t b → (∀ info, buf_ok (memory_set (inner b)) ti (Z.of_nat (length (TaskInfo_repr info)))) →
  wp (with_kernel (sys_task_info TaskInfo_repr time ti)) (λ _ st', still_running L st t st') no_panic st.
Proof.
  intros Hr Hbuf. pose proof Hr as [Hok Hc Hb].
  eapply (wp_kernel_call L st t b _ (λ _ k', ∃ s', k' = set_k_mem s' (sys_kernel st) ∧ kernel_ok L k' ∧
    others_unchanged (delete t (stasks st)) (smm st) (km_mm s')) no_panic);
    [done| |done|].
  - unfold sys_task_info, current_task_info_inner, current_task, Processor_current, get_task_info_inner. do 3 wp_step.
    rewrite Hc. do 2 wp_step. wp_step. eapply wp_inner; [done|]. wp_step. cbv zeta.
    wp_step. eapply wp_user_token; [done..|].
    match goal with |- context [TaskInfo_repr ?i] => destruct (Hbuf i) as (H1 & H2 & H3 & H4) end.
    eapply wp_call; [by apply (write_user_ok L _ t b); [apply Hok|..]|done|].
    intros [] k' (s' & -> & Hk & _ & Ho). wp_step. eauto.
  - intros r k' (s' & -> & Hk & Ho). split_and!; [done|done|apply tasks_step_refl|done].
Qed.

(** ** Giving up the processor *)

Definition idle (L : layout) (st : system) : Prop :=
  system_ok L st ∧ current (PROCESSOR (sys_kernel st)) = None.

Lemma exit_call L st t b code :
  running L st t b → t ≠ INITPROC (sys_kernel st) →
  wp (with_kernel (exit_current_and_run_next code)) (λ _ st', idle L st' ∧ kept t st st') no_panic st.
Proof.
  intros [Hok Hc Hb] Hi. apply wp_with_kernel.
  eapply wp_mono; [apply (exit_ok L _ t b code); [apply Hok|done..]| |done].
  intros [] k' (Hk & Hc' & _ & _ & (bi & Hbi & Het) & _ & Hp).
  pose proof (tasks_step_exit _ _ _ _ _ _ _ Het Hb Hbi) as Hts.
  split; [split; [by eapply system_ok_step|done]|]. by apply kept_intro; [|apply others_phys|].
Qed.

(** The process waits with the resume point [p]. *)
Lemma park_spec L st t b p :
  running L st t b →
  match p with ResumeRead buf => one_byte (areas (memory_set (inner b))) buf | _ => True end →
  wp (park p) (λ _ st', ((idle L st' ∧ kept t st st') ∧ PARKED st' !! t = Some p) ∧ smm st' = smm st ∧
    stasks st' = <[t := map_inner (set_task_status Ready) b]> (stasks st)) no_panic st.
Proof.
  intros Hr Hp. pose proof Hr as [Hok Hc Hb]. unfold park, current_task, Processor_current. wp_step. apply wp_with_kernel. wp_step.
  rewrite Hc. do 2 wp_step. wp_step. apply wp_with_kernel.
  eapply wp_mono; [apply (suspend_ok L _ t); [apply Hok|done]| |done].
  intros [] k' (Hk & Hc' & _ & Hm & _ & b' & Hb' & HT). simpl in Hb'. rewrite Hb in Hb'. injection Hb' as <-.
  wp_step. split; [|split; [simpl; by rewrite Hm|exact HT]].
  split; [|apply lookup_insert_eq]. split; [|eapply kept_local; [|exact HT|simpl; by rewrite Hm|]; [done|]; intros u Hu; by apply lookup_insert_ne].
  split; [|done]. split; simpl.
  - done.
  - intros u bu Hu. rewrite HT in Hu. apply lookup_insert_Some in Hu as [[<- <-]|[_ Hu]].
    + by destruct (so_procs _ _ Hok t b Hb).
    + by apply (so_procs _ _ Hok u).
  - intros u q Hq. rewrite HT. apply lookup_insert_Some in Hq as [[<- <-]|[Hne Hq]].
    + eexists. rewrite lookup_insert_eq. split; [done|]. by split.
    + destruct (so_parked _ _ Hok u q Hq) as (bu & Hu & Hru). exists bu. by rewrite lookup_insert_ne.
  - apply Hok.
  - apply Hok.
Qed.

Lemma park_parks L st t b p :
  running L st t b →
  match p with ResumeRead buf => one_byte (areas (memory_set (inner b))) buf | _ => True end →
  wp (park p) (λ _ st', (idle L st' ∧ kept t st st') ∧ PARKED st' !! t = Some p) no_panic st.
Proof. intros. eapply wp_mono; [by eapply park_spec| |done]. by intros [] st' [? _]. Qed.

(** ** Files *)

(** The string at [ptr] in the memory of the process. *)
Record path_ok (s : mm) (ms : MemorySet) (ptr : Z) (str : list byte) : Prop := {
  pk_ptr : 0 ≤ ptr ∧ ptr + Z.of_nat (length str) < 2 ^ 39;
  pk_range : user_range ms ptr (ptr + Z.of_nat (length str) + 1);
  pk_string : user_string s ms ptr str;
  pk_fuel : (length str < sys_fuel)%nat;
}.

Lemma user_frames_nonzero L st t b : running L st t b → 0 ∉ ms_frames (memory_set (inner b)).
Proof.
  intros [Hok Hc Hb] Hz. destruct (ko_mem _ _ (so_kernel _ _ Hok)) as (live & Hmp & _).
  by apply (mp_task_nonzero _ _ _ _ _ t b 0 Hmp Hb Hz).
Qed.

Lemma wp_user_str L st t b ptr str (Q : list byte → system → Prop) E :
  running L st t b → path_ok (smm st) (memory_set (inner b)) ptr str → Q str st → wp (user_str ptr) Q E st.
Proof.
  intros Hr [Hp Hrange Hstr Hfuel] HQ. unfold user_str. eapply wp_current_token; [done|].
  destruct (ru_live _ _ _ _ Hr) as [[Hms Hfr _] _].
  apply wp_with_memory. unfold wp, translated_str. rewrite (str_loop_spec (smm st) (memory_set (inner b)) str).
  - by rewrite set_memory_id.
  - by eapply token_root.
  - lia.
  - lia.
  - intros va Hva. destruct (user_addr_nonzero (smm st) _ _ va Hms Hfr (user_frames_nonzero _ _ _ _ Hr))
      as (a & -> & Ha); [apply Hrange; lia|congruence].
  - done.
  - done.
Qed.

Lemma system_ok_files L st st' :
  system_ok L st → same_but_files st st' →
  (∀ id, is_Some (OSINODES st !! id) → is_Some (OSINODES st' !! id)) →
  (∀ id, is_Some (OSINODES st' !! id) → (id < next_osinode st')%nat) →
  (∀ id f, OSINODES st' !! id = Some f → 0 ≤ os_offset f) → system_ok L st'.
Proof.
  intros Hok [Hk _ _ Hp _] Hsub Hfresh Hoff. split; rewrite ?Hk, ?Hp; try apply Hok; [|done..].
  intros t b [Ht Hf]%(so_procs _ _ Hok). split; [done|]. intros fd id Hid. by eapply Hsub, Hf.
Qed.

Lemma running_files L st st' t b :
  running L st t b → same_but_files st st' →
  (∀ id, is_Some (OSINODES st !! id) → is_Some (OSINODES st' !! id)) →
  (∀ id, is_Some (OSINODES st' !! id) → (id < next_osinode st')%nat) →
  (∀ id f, OSINODES st' !! id = Some f → 0 ≤ os_offset f) → running L st' t b.
Proof.
  intros [Hok Hc Hb] Hs H1 H2 H3. pose proof Hs as [Hk _ _ _ _].
  split; [by eapply system_ok_files|by rewrite Hk..].
Qed.

Lemma running_disk L st t b d : running L st t b → running L (set_DISK d st) t b.
Proof.
  intros Hr. pose proof Hr as [Hok _ _]. eapply running_files; [done|by split|done|apply Hok|apply Hok].
Qed.

(** The offset of an open file moves, the disk changes. *)
Lemma running_offset L st st' t b id f off :
  running L st t b → OSINODES st !! id = Some f → 0 ≤ off → same_but_files st st' →
  OSINODES st' = <[id := at_offset off f]> (OSINODES st) → next_osinode st' = next_osinode st →
  running L st' t b.
Proof.
  intros Hr Hf Ho Hs HO Hn. pose proof Hr as [Hok _ _]. eapply running_files; [done|done|..]; rewrite HO.
  - intros id' Hid'. destruct (decide (id = id')) as [->|]; [rewrite lookup_insert_eq; by eexists|].
    by rewrite lookup_insert_ne.
  - rewrite Hn. intros id' Hid'. apply Hok. destruct (decide (id = id')) as [->|]; [by eexists|].
    by rewrite lookup_insert_ne in Hid'.
  - intros id' f' [[<- <-]|[_ Hf']]%lookup_insert_Some; [done|]. by eapply so_offset.
Qed.

Lemma opened_running L st st' t b path flags id i :
  running L st t b → opened st path flags id i st' →
  running L st' t b ∧ OSINODES st' !! id =
    Some (mkOSInode _ (OpenFlags_read_write flags).1 (OpenFlags_read_write flags).2 0 i).
Proof.
  intros Hr [[Hid Hn] Hf _ _ _ _ _ Hs]. pose proof Hr as [Hok _ _]. split; [|by rewrite Hf, lookup_insert_eq].
  eapply running_files; [done|done|..]; rewrite Hf.
  - intros id' Hid'. destruct (decide (id = id')) as [->|]; [rewrite lookup_insert_eq; by eexists|].
    by rewrite lookup_insert_ne.
  - rewrite Hn. intros id' Hid'. destruct (decide (id = id')) as [->|Hne]; [lia|].
    rewrite lookup_insert_ne in Hid' by done. pose proof (so_fresh _ _ Hok id' Hid'). lia.
  - intros id' f' [[<- <-]|[_ Hf']]%lookup_insert_Some; [done|]. by eapply so_offset.
Qed.

Lemma unlinkat_call L st t b ptr str :
  running L st t b → path_ok (smm st) (memory_set (inner b)) ptr str →
  wp (sys_unlinkat ptr) (λ _ st', still_running L st t st') no_panic st.
Proof.
  intros Hr Hp. unfold sys_unlinkat. wp_step. eapply wp_user_str; [done..|]. do 2 wp_step.
  destruct (root_unlinkat str (DISK st)) as [r d]. cbv beta iota. do 2 wp_step. wp_step.
  eapply still_running_same; [by apply running_disk|done..].
Qed.

Lemma linkat_call L st t b old new str str' :
  running L st t b → path_ok (smm st) (memory_set (inner b)) old str →
  path_ok (smm st) (memory_set (inner b)) new str' →
  wp (sys_linkat old new) (λ _ st', still_running L st t st') no_panic st.
Proof.
  intros Hr Hp Hp'. unfold sys_linkat. wp_step. eapply wp_user_str; [done..|]. wp_step.
  eapply wp_user_str; [done..|]. case_bool_decide; [wp_step; by eapply still_running_same|]. do 2 wp_step.
  destruct (root_linkat str str' (DISK st)) as [r d]. cbv beta iota. do 2 wp_step. wp_step.
  eapply still_running_same; [by apply running_disk|done..].
Qed.

(** The table of descriptors of the running process changes. *)
Lemma running_fds L st t b l :
  running L st t b →
  (∀ fd id, l !! fd = Some (Some (OSInodeRef id)) → is_Some (OSINODES st !! id)) →
  let b' := map_inner (set_fd_table l) b in
  running L (set_sys_kernel (set_TASKS (<[t := b']> (stasks st)) (sys_kernel st)) st) t b'.
Proof.
  intros [Hok Hc Hb] Hl b'. split; simpl; [|done|by rewrite lookup_insert_eq].
  split; simpl.
  - by apply kernel_ok_data; [apply Hok|..].
  - intros u bu [[<- <-]|[_ Hu]]%lookup_insert_Some; [|by apply (so_procs _ _ Hok u)].
    split; [apply (so_procs _ _ Hok t b Hb)|exact Hl].
  - intros u p Hp. destruct (so_parked _ _ Hok u p Hp) as (bu & Hu & Hru). exists bu.
    rewrite lookup_insert_ne; [done|]. intros <-. by eapply (parked_not_current L st).
  - apply Hok.
  - apply Hok.
Qed.

(** The descriptor that [sys_open] returns, and the table with the new file. *)
Definition open_fd (i : TaskControlBlockInner) (id : nat) : nat * list (option FileRef) :=
  let '(fd, i') := alloc_fd i in (fd, <[fd := Some (OSInodeRef id)]> (fd_table i')).

Lemma open_call L st t b ptr str flags :
  running L st t b → path_ok (smm st) (memory_set (inner b)) ptr str →
  OpenFlags_from_bits flags = Some flags →
  wp (sys_open ptr flags) (λ r st', kept t st st' ∧ (
    (r = -1 ∧ root_find str (DISK st) = None ∧ running L st' t b ∧
      (OpenFlags_contains flags OpenFlags_CREATE = false → st' = st)) ∨
    (∃ id i st1, opened st str flags id i st1 ∧
      let '(fd, l) := open_fd (inner b) id in r = Z.of_nat fd ∧
      st' = set_sys_kernel (set_TASKS (<[t := map_inner (set_fd_table l) b]> (stasks st)) (sys_kernel st)) st1 ∧
      running L st' t (map_inner (set_fd_table l) b)))) no_panic st.
Proof.
  intros Hr Hp Hfl. pose proof Hr as [Hok Hc Hb]. unfold sys_open.
  wp_step. apply wp_with_kernel. eapply wp_current_unwrap; [done|].
  replace (set_sys_kernel (sys_kernel st) st) with st by (by destruct st).
  wp_step. eapply wp_user_str; [done..|]. wp_step. rewrite Hfl. do 2 wp_step.
  eapply wp_mono; [apply open_file_spec| |done]. intros [id|] st1 Hop.
  - destruct Hop as [i Hop]. destruct (opened_running _ _ _ _ _ _ _ _ _ Hr Hop) as [Hr1 Hid].
    pose proof Hr1 as [_ _ Hb1]. wp_step. apply wp_with_kernel. eapply wp_inner; [done|].
    replace (set_sys_kernel (sys_kernel st1) st1) with st1 by (by destruct st1).
    pose proof (alloc_fd_spec (inner b)) as Hal. unfold open_fd.
    destruct (alloc_fd (inner b)) as [fd i'] eqn:Hfd. destruct Hal as (Hn & Hlow & Hold & Hlen & Hi').
    wp_step. apply wp_with_kernel. eapply wp_update_inner; [done|]. wp_step.
    split; [by eapply kept_local; [|simpl; by rewrite (sbf_kernel _ _ (op_same _ _ _ _ _ _ Hop))|simpl; by rewrite (sbf_kernel _ _ (op_same _ _ _ _ _ _ Hop))|intros u _; simpl; by rewrite (sbf_parked _ _ (op_same _ _ _ _ _ _ Hop))]|].
    right. exists id, i, st1. split; [done|].
    set (l := <[fd := _]> (fd_table i')). split; [done|].
    assert (Heq : set_fd_table l i' = set_fd_table l (inner b)) by (by rewrite Hi').
    rewrite Heq. pose proof (op_same _ _ _ _ _ _ Hop) as [Hk _ _ _ _].
    split; [by rewrite Hk|]. apply running_fds; [done|].
    intros x idx Hx. unfold l in Hx. apply list_lookup_insert_Some in Hx as [(_ & [= <-] & _)|[Hne Hx]].
    { rewrite Hid. by eexists. }
    destruct (decide (x < length (fd_table (inner b)))%nat) as [Hlt|Hge].
    + rewrite Hold in Hx by done. by eapply (so_procs _ _ (ru_ok _ _ _ _ Hr1) t b Hb1).
    + apply lookup_lt_Some in Hx as Hxl. destruct (decide (x < fd)%nat) as [Hxf|Hxf]; [|lia].
      destruct (Hlow x Hxf) as [r Hrx]. apply lookup_lt_Some in Hrx. lia.
  - wp_step. destruct Hop as (Hf & Hs & HO & Hnx & _ & Hsame). split; [apply kept_refl; [apply Hs|]; intros u _; by rewrite (sbf_parked _ _ Hs)|]. left. split_and!; [done|done| |done].
    eapply running_files; [done|done|by rewrite HO|rewrite HO, Hnx; apply Hok|rewrite HO; apply Hok].
Qed.

Lemma close_call L st t b fd :
  running L st t b → 0 ≤ fd →
  wp (sys_close fd) (λ r st', still_running L st t st' ∧
    match fd_lookup fd (inner b) with
    | None => r = -1 ∧ st' = st
    | Some _ => r = 0 ∧ st' = set_sys_kernel (set_TASKS (<[t := map_inner (λ i,
        set_fd_table (<[Z.to_nat fd := None]> (fd_table i)) i) b]> (stasks st)) (sys_kernel st)) st
    end) no_panic st.
Proof.
  intros Hr Hfd. pose proof Hr as [Hok Hc Hb]. unfold sys_close. eapply wp_current_block; [done|].
  destruct (fd_lookup fd (inner b)) as [f|]; [|wp_step; split; [by eapply still_running_same|done]].
  wp_step. apply wp_with_kernel. eapply wp_update_inner; [done|]. wp_step. split; [|done].
  split; [|by eapply kept_local].
  exists (map_inner (set_fd_table (<[Z.to_nat fd := None]> (fd_table (inner b)))) b).
  apply running_fds; [done|]. intros x id Hx.
  apply list_lookup_insert_Some in Hx as [(_ & [=] & _)|[Hne Hx]].
  by eapply (so_procs _ _ Hok t b Hb).
Qed.

(** The kernel has written to the memory of the caller. *)
Lemma running_ms_step L st t b s' :
  running L st t b → ms_step (smm st) (memory_set (inner b)) s' (memory_set (inner b)) trampoline_map →
  running L (set_memory s' st) t b ∧ others_unchanged (delete t (stasks st)) (smm st) s'.
Proof.
  intros Hr Hstep. pose proof Hr as [Hok Hc Hb]. destruct (ru_live _ _ _ _ Hr) as [[Hms Hfr Htr] _].
  pose proof (so_kernel _ _ Hok) as Hk.
  assert (Hk' : kernel_ok L (set_k_mem (set_km_mm s' (k_mem (sys_kernel st))) (sys_kernel st))).
  { pose proof (with_space_ok L _ t b s' _ Hk Hc Hb Hstep Hfr Htr) as Hk'. unfold with_space in Hk'.
    replace (map_inner (set_memory_set (memory_set (inner b))) b) with b in Hk' by (by destruct b as [? ? []]).
    rewrite (insert_id _ _ _ Hb) in Hk'. done. }
  split; [|eapply (with_space_others L _ t b s' (memory_set (inner b)) Hk Hb), Hstep].
  split; [|done..]. by eapply system_ok_step; [done..|apply tasks_step_refl].
Qed.

Lemma running_memory L st t b start end_ data s' :
  running L st t b → user_written (smm st) (memory_set (inner b)) trampoline_map start end_ data s' →
  running L (set_memory s' st) t b ∧ others_unchanged (delete t (stasks st)) (smm st) s'.
Proof. intros Hr [Hstep _]. by apply running_ms_step. Qed.

(** An open descriptor has its file. *)
Lemma fd_file L st t b fd id :
  running L st t b → fd_lookup fd (inner b) = Some (OSInodeRef id) → ∃ f, OSINODES st !! id = Some f.
Proof.
  intros [Hok _ Hb] Hfd. unfold fd_lookup in Hfd. destruct (so_procs _ _ Hok t b Hb) as [_ Hfiles].
  destruct (_ <=? fd); [done|]. destruct (fd_table (inner b) !! Z.to_nat fd) as [o|] eqn:Hl; [|done].
  subst o. exact (Hfiles _ _ Hl).
Qed.

(** What a read from a file leaves. *)
Definition file_read (st : system) (ms : MemorySet) (id : nat) (f : OSInode) (ptr n : Z) (st' : system) : Prop :=
  ∃ s', user_written (smm st) ms trampoline_map ptr (ptr + n)
          (λ i, bytes_at (file_data (DISK st) (os_inode f)) (os_offset f + i)) s' ∧
        st' = move_to id (os_offset f + n) f (set_memory s' st).

Lemma read_file_call L st t b fd ptr len id f :
  running L st t b → fd_lookup fd (inner b) = Some (OSInodeRef id) → OSINODES st !! id = Some f →
  buf_ok (memory_set (inner b)) ptr len →
  let data := file_data (DISK st) (os_inode f) in Z.of_nat (length data) < 2 ^ 63 →
  let n := read_len data (os_offset f) len in
  wp (sys_read fd ptr len) (λ r st', r = Some n ∧ running L st' t b ∧
    file_read st (memory_set (inner b)) id f ptr n st' ∧ kept t st st' ∧
    others_unchanged (delete t (stasks st)) (smm st) (smm st')) no_panic st.
Proof.
  intros Hr Hfd Hf (H1 & H2 & H3 & H4) data Hlen n. pose proof Hr as [Hok Hc Hb].
  destruct (ru_live _ _ _ _ Hr) as [[Hms Hfr Htr] _]. pose proof (so_offset _ _ Hok id f Hf) as Hoff.
  unfold sys_read. eapply wp_current_token; [done|]. eapply wp_current_block; [done|]. rewrite Hfd.
  destruct (buffer_spec (smm st) (memory_set (inner b)) trampoline_map ptr len) as (v & Hrun & Hv & Hvl); [done..|].
  wp_step. apply wp_with_memory. unfold wp at 1. rewrite Hrun, set_memory_id. unfold File_read, OSInode_read.
  do 2 wp_step. simpl. eapply wp_mono; [apply (os_read_loop_spec st id f (memory_set (inner b)) trampoline_map ptr v 0);
    first [done|exact Hlen|lia|rewrite Hvl; lia]| |done].
  rewrite Hvl. fold data n. intros r st' (-> & s' & Hw & ->). do 2 wp_step. simpl.
  destruct (running_memory _ _ _ _ _ _ _ _ Hr Hw) as [Hr' Hoth].
  assert (Hn : 0 ≤ n < 2 ^ 63) by (unfold n, read_len; lia).
  split_and!; [|by eapply (running_offset L (set_memory s' st) _ t b id f (os_offset f + n)); [done|done|lia|split|..]|by exists s'| |done].
  2: by apply kept_intro; [apply tasks_step_refl|..].
  f_equal. unfold as_isize. rewrite (proj2 (Z.ltb_lt n _)); [done|lia].
Qed.

Lemma write_file_call L st t b fd ptr len id f :
  running L st t b → fd_lookup fd (inner b) = Some (OSInodeRef id) → OSINODES st !! id = Some f →
  buf_ok (memory_set (inner b)) ptr len →
  (Z.to_nat (os_offset f) ≤ length (file_data (DISK st) (os_inode f)))%nat →
  file_room (DISK st) (os_inode f) (Z.to_nat (os_offset f) + Z.to_nat len) →
  os_offset f + len < 2 ^ 63 →
  wp (sys_write fd ptr len) (λ r st', r = len ∧ running L st' t b ∧
    file_written st id f (user_bytes (smm st) (memory_set (inner b)) ptr len) st') no_panic st.
Proof.
  intros Hr Hfd Hf (H1 & H2 & H3 & H4) Hsize Hroom Hol. pose proof Hr as [Hok Hc Hb].
  destruct (ru_live _ _ _ _ Hr) as [[Hms Hfr Htr] _]. pose proof (so_offset _ _ Hok id f Hf) as Hoff.
  unfold sys_write. eapply wp_current_token; [done|]. eapply wp_current_block; [done|]. rewrite Hfd.
  destruct (buffer_spec (smm st) (memory_set (inner b)) trampoline_map ptr len) as (v & Hrun & Hv & Hvl); [done..|].
  wp_step. apply wp_with_memory. unfold wp at 1. rewrite Hrun, set_memory_id. unfold File_write, OSInode_write.
  wp_step. simpl. eapply wp_mono; [apply (os_write_loop_spec st id f (memory_set (inner b)) trampoline_map ptr v 0);
    rewrite ?Hvl; try done; lia| |done].
  rewrite Hvl. intros r st' (-> & Hfw). wp_step. split_and!; [| |done].
  - rewrite Z.add_0_l. unfold as_isize. rewrite (proj2 (Z.ltb_lt len _)); [done|lia].
  - pose proof Hfw as [Hk _ _ _ _ HO (Hn & Hkb & Hsc & Hpk & Htg)].
    eapply (running_offset L st); [done|done| |by split|exact HO|done]. lia.
Qed.

Lemma write_console_call L st t b fd ptr len :
  running L st t b → fd_lookup fd (inner b) = Some Stdout → buf_ok (memory_set (inner b)) ptr len →
  ∃ v, slices_at (areas (memory_set (inner b))) ptr v ∧ slices_len v = len ∧
  wp (sys_write fd ptr len) (λ r st', r = len ∧ pieces_valid (smm st) (memory_set (inner b)) ptr v ∧
      st' = set_screen (screen st ++ user_bytes (smm st) (memory_set (inner b)) ptr len) st ∧ running L st' t b)
    (λ e, e = UnwrapNone ∧ ¬ pieces_valid (smm st) (memory_set (inner b)) ptr v) st.
Proof.
  intros Hr Hfd (H1 & H2 & H3 & H4). pose proof Hr as [Hok Hc Hb].
  destruct (ru_live _ _ _ _ Hr) as [[Hms Hfr Htr] _].
  destruct (buffer_spec (smm st) (memory_set (inner b)) trampoline_map ptr len) as (v & Hrun & Hv & Hvl); [done..|].
  exists v. split; [done|]. split; [done|].
  unfold sys_write. eapply wp_current_token; [done|]. eapply wp_current_block; [done|]. rewrite Hfd.
  wp_step. apply wp_with_memory. unfold wp at 1. rewrite Hrun, set_memory_id. unfold File_write.
  wp_step. eapply wp_mono; [apply (stdout_write_spec st (memory_set (inner b)) trampoline_map ptr v); [done..|lia]| |done].
  rewrite Hvl. intros r st' (-> & Hval & ->). wp_step. split_and!; [|done|done|].
  - unfold as_isize. rewrite (proj2 (Z.ltb_lt len _)); [done|lia].
  - destruct Hok. by split; [split|..].
Qed.

(** *** The console *)

Lemma byte_at_slices al ptr v : slices_at al ptr v → slices_len v = 1 → byte_at al ptr (UserBuffer_new v).
Proof.
  intros Hv Hl. destruct v as [|[a n] [|sl' v]]; simpl in *; [lia| |].
  - destruct Hv as (Hn & _ & (f & Hf & ->) & _). assert (n = 1) by lia. subst n. by exists f.
  - destruct Hv as (? & _ & _ & ? & _ & _ & Hv%slices_len_nonneg). lia.
Qed.

(** The byte at [va] of the process is [c] in [s'], the others are those of [s]. *)
Definition byte_written (ms : MemorySet) (va c : Z) (s s' : mm) : Prop := ∀ va',
  va' / 4096 ∈ areas_vpns (areas ms) →
  user_byte s' ms va' = if decide (va' = va) then Some (byte.of_Z c) else user_byte s ms va'.

(** A key is there, or the process waits for one. *)
Definition poll_result (L : layout) (t : nat) (b : TaskControlBlock) (buf : UserBuffer)
    (st : system) (o : option Z) (st' : system) : Prop :=
  match o with
  | Some n => n = 1 ∧ running L st' t b ∧ kept t st st' ∧ keyboard st' = tail (keyboard st) ∧
      let c := next_answer st in c ≠ 0 ∧ ∀ va, byte_at (areas (memory_set (inner b))) va buf →
        byte_written (memory_set (inner b)) va c (smm st) (smm st')
  | None => (idle L st' ∧ kept t st st') ∧ PARKED st' !! t = Some (ResumeRead buf) ∧
      next_answer st = 0 ∧ smm st' = smm st ∧
      stasks st' = <[t := map_inner (set_task_status Ready) b]> (stasks st)
  end.

(** Written to the buffer, the key is where the process looks for it. *)
Lemma key_written s ms buf va sl c :
  MemorySet_ok s ms trampoline_map → framed ms → buffers buf = [sl] → byte_at (areas ms) va buf →
  user_written s ms trampoline_map va (va + 1) (λ _, byte.of_Z c)
    {| phys := store_bytes (phys s) (bs_addr sl) [byte.of_Z c]; FRAME_ALLOCATOR := FRAME_ALLOCATOR s |}.
Proof.
  intros Hms Hfr Hsl (f & Hf & Hbuf). rewrite Hsl in Hbuf. injection Hbuf as ->. cbn [bs_addr].
  apply (write_chunk s ms trampoline_map va 1 f (λ _, byte.of_Z c) Hms Hfr Hf); [lia|].
  pose proof (Z.mod_pos_bound va 4096). lia.
Qed.

Lemma poll_call L st t b buf :
  running L st t b → one_byte (areas (memory_set (inner b))) buf →
  wp (Stdin_poll buf) (poll_result L t b buf st) no_panic st.
Proof.
  intros Hr Hone. pose proof Hr as [Hok Hc Hb]. destruct (ru_live _ _ _ _ Hr) as [[Hms Hfr Htr] _].
  unfold Stdin_poll, console_getchar. do 3 wp_step.
  assert (Hkb : ∀ l, running L (set_keyboard l st) t b) by (intros l; destruct Hok; by split; [split|..]).
  assert (Hpark : ∀ st1, running L st1 t b → sys_kernel st1 = sys_kernel st → PARKED st1 = PARKED st →
    next_answer st = 0 →
    wp (park (ResumeRead buf);; mret None) (poll_result L t b buf st) no_panic st1).
  { intros st1 Hr1 Hk1 HP1 Hk0. eapply wp_call; [by apply (park_spec L st1 t b (ResumeRead buf))|done|].
    rewrite Hk1. intros [] st' [[[Hidle Hkept] Hp] [Hm HT]]. wp_step. split_and!; try done.
    eapply kept_trans; [apply kept_refl; [done|]; intros u _; by rewrite HP1|done]. }
  do 3 wp_step. set (c := next_answer st). set (ks := tail (keyboard st)).
  destruct (Z.eqb_spec c 0) as [Hc0|Hc0]; [by apply Hpark|].
  destruct Hone as (va & Hva). pose proof Hva as (f & _ & Hbuf). rewrite Hbuf. simpl. wp_step. apply wp_with_memory. unfold set_phys.
  do 2 wp_step. pose proof (key_written (smm st) _ buf va _ c Hms Hfr Hbuf Hva) as Hw.
  destruct (running_memory L (set_keyboard ks st) t b _ _ _ _ (Hkb ks) Hw) as [Hr' Hoth].
  split; [done|]. split; [exact Hr'|]. split; [by apply kept_intro; [apply tasks_step_refl|..]|]. split; [done|]. split; [done|].
  intros va1 Hva1 va' Hin. pose proof (key_written (smm st) _ buf va1 _ c Hms Hfr Hbuf Hva1) as Hw1.
  etransitivity; [exact (uw_bytes _ _ _ _ _ _ _ Hw1 va' Hin)|]. repeat case_decide; (done || lia).
Qed.

Lemma read_console_call L st t b fd ptr :
  running L st t b → fd_lookup fd (inner b) = Some Stdin → buf_ok (memory_set (inner b)) ptr 1 →
  ∃ buf, byte_at (areas (memory_set (inner b))) ptr buf ∧
  wp (sys_read fd ptr 1) (poll_result L t b buf st) no_panic st.
Proof.
  intros Hr Hfd (H1 & H2 & H3 & H4). pose proof Hr as [Hok Hc Hb].
  destruct (ru_live _ _ _ _ Hr) as [[Hms Hfr Htr] _].
  destruct (buffer_spec (smm st) (memory_set (inner b)) trampoline_map ptr 1) as (v & Hrun & Hv & Hvl); [done..|].
  pose proof (byte_at_slices _ _ _ Hv Hvl) as Hat. exists (UserBuffer_new v). split; [done|].
  unfold sys_read. eapply wp_current_token; [done|]. eapply wp_current_block; [done|]. rewrite Hfd.
  wp_step. apply wp_with_memory. unfold wp at 1. rewrite Hrun, set_memory_id. unfold File_read, Stdin_read.
  do 2 wp_step. rewrite (buffer_len _ _ _ Hv), Hvl by lia. simpl. wp_step.
  eapply wp_mono; [apply (poll_call L st t b); [done|by exists ptr]| |done].
  intros [n|] st' Hres; wp_step; [destruct Hres as [-> Hres]; by split|exact Hres].
Qed.

Lemma fstat_call L st t b fd ptr id f ino :
  running L st t b → fd_lookup fd (inner b) = Some (OSInodeRef id) → OSINODES st !! id = Some f →
  (let '(blk, off) := inode_get_block_metadata (os_inode f) (DISK st) in
   root_find_inode_id_by_block (blk mod 2 ^ 32) off (DISK st) = Some ino) →
  buf_ok (memory_set (inner b)) ptr 80 →
  wp (sys_fstat fd ptr) (λ _ st', still_running L st t st') no_panic st.
Proof.
  intros Hr Hfd Hf Hino Hbuf. pose proof Hr as [Hok Hc Hb].
  unfold sys_fstat. eapply wp_current_block; [done|]. rewrite Hfd. eapply wp_current_token; [done|].
  unfold File_get_stat, OSInode_get_stat. wp_step. wp_step. eapply wp_osinode; [done|]. do 3 wp_step. wp_step.
  destruct (inode_get_block_metadata (os_inode f) (DISK st)) as [blk off]. cbv beta iota. do 3 wp_step.
  rewrite Hino. do 2 wp_step. do 2 wp_step. cbv zeta.
  eapply (wp_call _ _ (λ _ st', still_running L st t st') no_panic); [|done|intros r st' Hres; wp_step; exact Hres].
  apply (write_user_call L st t b); [done|]. unfold Stat_bytes.
  rewrite !length_app, !length_le_split, length_replicate. exact Hbuf.
Qed.

(** ** Programs *)

(** The file [path], when it exists, is a program the loader accepts. *)
Definition program_ok (st : system) (path : list byte) : Prop :=
  ∀ i, root_find path (DISK st) = Some i → let data := file_data (DISK st) i in
    (∃ elf phs, elf_ok data elf phs) ∧ Z.of_nat (length data) < 2 ^ 64 ∧
    (length data + 512 ≤ sys_fuel * 512)%nat.

(** [base] frames and three for each page of the program in the file [path]. *)
Definition program_frames (st : system) (path : list byte) (base n : nat) : Prop := ∃ i elf phs,
  root_find path (DISK st) = Some i ∧ elf_ok (file_data (DISK st) i) elf phs ∧
  n = (base + 3 * length (segs_vpns (elf_layout (file_data (DISK st) i) (loads phs))))%nat.

Lemma wp_open_program {A} L st t b path (h : nat → M system A) (g : M system A) Q E :
  running L st t b → (root_find path (DISK st) = None → wp g Q E st) →
  (∀ i id st1, root_find path (DISK st) = Some i → running L st1 t b → sys_kernel st1 = sys_kernel st → PARKED st1 = PARKED st →
     DISK st1 = DISK st → OSINODES st1 !! id = Some (mkOSInode _ true false 0 i) → wp (h id) Q E st1) →
  wp (o ← open_file path OpenFlags_RDONLY; match o with Some id => h id | None => g end) Q E st.
Proof.
  intros Hr Hno Hyes. eapply wp_call; [apply open_file_spec|done|]. intros [id|] st1 Hop.
  - destruct Hop as [i Hop]. destruct (opened_running _ _ _ _ _ _ _ _ _ Hr Hop) as [Hr1 Hid].
    pose proof Hop as [_ _ _ Hold _ _ Hd Hs].
    apply (Hyes i); [by destruct Hold as [|[_ [=]]]|done|apply Hs|apply Hs|by apply Hd|done].
  - destruct Hop as (Hf & _ & _ & _ & _ & Hsame). rewrite (Hsame eq_refl). by apply Hno.
Qed.

Lemma wp_read_program {A} L st t b id i r w (f : list byte → M system A) Q E :
  running L st t b → OSINODES st !! id = Some (mkOSInode _ r w 0 i) →
  let data := file_data (DISK st) i in Z.of_nat (length data) < 2 ^ 64 →
  (length data + 512 ≤ sys_fuel * 512)%nat →
  (∀ st', running L st' t b → sys_kernel st' = sys_kernel st → PARKED st' = PARKED st → DISK st' = DISK st →
     wp (f data) Q E st') →
  wp (data ← OSInode_read_all sys_fuel id; f data) Q E st.
Proof.
  intros Hr Hid data Hlen Hfuel Hf. eapply wp_call; [by eapply read_all_spec|done|].
  simpl. fold data. intros l st' (-> & Hk & Hd & Hp & Hkb & Hsc & Hn & Htr & HO). apply Hf; [|done..].
  eapply (running_offset L st st' t b id); [done|done| |by split|exact HO|done]. lia.
Qed.

Lemma exec_call L st t b ptr path :
  running L st t b → path_ok (smm st) (memory_set (inner b)) ptr path → program_ok st path →
  wp (sys_exec ptr) (λ r st', kept t st st' ∧ (
    (root_find path (DISK st) = None ∧ r = -1 ∧ st' = st) ∨
    (∃ i elf phs b', root_find path (DISK st) = Some i ∧ elf_ok (file_data (DISK st) i) elf phs ∧ r = 0 ∧
       running L st' t b' ∧ pid b' = pid b ∧ kernel_stack b' = kernel_stack b ∧
       inner b' = set_trap_cx_ppn (trap_cx_ppn (inner b')) (set_memory_set (memory_set (inner b')) (inner b)) ∧
       program_start (file_data (DISK st) i) elf phs (MemorySet_token (KERNEL_SPACE (k_mem (sys_kernel st'))))
         (KernelStack_get_top (kernel_stack b')) (smm st') (inner b') ∧
       (∀ f, f ∈ task_frames b → ¬ in_use (smm st') f) ∧ DISK st' = DISK st ∧
       others_unchanged (delete t (stasks st)) (smm st) (smm st'))))
    (out_of_frames (program_frames st path 3) st) st.
Proof.
  intros Hr Hpath Hprog. unfold sys_exec. wp_step. eapply wp_user_str; [done..|].
  eapply (wp_open_program L st t b); [done|intros Hno; wp_step; split; [by apply kept_refl|by left]|].
  intros i id st0 Hfind Hr0 Hk0 HP0 Hd0 Hid. destruct (Hprog i Hfind) as ((elf & phs & Helf) & Hlen & Hfuel).
  wp_step. apply wp_with_kernel. eapply wp_current_unwrap; [exact (ru_current _ _ _ _ Hr0)|].
  replace (set_sys_kernel (sys_kernel st0) st0) with st0 by (by destruct st0).
  eapply (wp_read_program L st0 t b); [done|done|by rewrite Hd0..|]. rewrite Hd0.
  intros st1 Hr1 Hk1 HP1 Hd1. assert (Hk : sys_kernel st1 = sys_kernel st) by congruence.
  assert (HP : parked_same t st st1) by (intros u _; congruence).
  pose proof Hr1 as [Hok1 Hc1 Hb1]. wp_step. apply wp_with_kernel.
  eapply wp_mono; [apply (exec_spec Hst L _ t b _ elf phs (so_kernel _ _ Hok1) Henv Hc1 Hb1 Helf)| |].
  2: { rewrite Hk. intros e [-> Hfr]. split; [done|]. eexists. by split; [exists i, elf, phs|]. }
  intros [] k' (i' & s' & -> & Hk' & Hi & Hps & Hfree & Hoth). wp_step.
  set (b' := map_inner (λ _, i') b) in *. rewrite Hk in *.
  assert (Hts : tasks_step t (stasks st) (<[t := b']> (stasks st)))
    by (apply (tasks_step_local _ _ b); [done|simpl; by rewrite Hi|right; simpl; by rewrite Hi]).
  split; [by apply kept_intro|]. right. exists i, elf, phs, b'. split_and!; try done.
  split; simpl; [|done|apply lookup_insert_eq].
  eapply (system_ok_step L st1 t); [exact Hok1|by rewrite Hk|done|]. by rewrite Hk.
Qed.

Lemma spawn_call L st t b ptr path :
  running L st t b → path_ok (smm st) (memory_set (inner b)) ptr path → program_ok st path →
  pid_fits (pa_current (PID_ALLOCATOR (k_mem (sys_kernel st)))) →
  wp (sys_spawn ptr) (λ r st', kept t st st' ∧ (
    (root_find path (DISK st) = None ∧ r = -1 ∧ st' = st) ∨
    (∃ i elf phs bc, root_find path (DISK st) = Some i ∧ elf_ok (file_data (DISK st) i) elf phs ∧
       r = as_isize (pid bc) ∧ (∃ b', running L st' t b') ∧
       (pid bc ∉ tasks_pids (stasks st)) ∧ stasks st' !! next_task (sys_kernel st) = Some bc ∧
       ready_queue (sys_kernel st') = vec_push (ready_queue (sys_kernel st)) (next_task (sys_kernel st)) ∧
       fresh_process (Some t) (fd_table (inner b)) (elf_stack_top (loads phs)) bc ∧
       program_start (file_data (DISK st) i) elf phs (MemorySet_token (KERNEL_SPACE (k_mem (sys_kernel st'))))
         (KernelStack_get_top (kernel_stack bc)) (smm st') (inner bc) ∧ DISK st' = DISK st ∧
       others_unchanged (stasks st) (smm st) (smm st'))))
    (out_of_frames (program_frames st path 9) st) st.
Proof.
  intros Hr Hpath Hprog Hpids. unfold sys_spawn. wp_step. eapply wp_user_str; [done..|].
  eapply (wp_open_program L st t b); [done|intros Hno; wp_step; split; [by apply kept_refl|by left]|].
  intros i id st0 Hfind Hr0 Hk0 HP0 Hd0 Hid. destruct (Hprog i Hfind) as ((elf & phs & Helf) & Hlen & Hfuel).
  eapply (wp_read_program L st0 t b); [done|done|by rewrite Hd0..|]. rewrite Hd0.
  intros st1 Hr1 Hk1 HP1 Hd1. assert (Hk : sys_kernel st1 = sys_kernel st) by congruence.
  assert (HP : parked_same t st st1) by (intros u _; congruence).
  pose proof Hr as [Hok Hc Hb]. wp_step. apply wp_with_kernel. rewrite Hk.
  eapply wp_current_unwrap; [done|]. wp_step. apply wp_with_kernel. simpl.
  destruct (ko_mem _ _ (so_kernel _ _ Hok)) as (live & Hmp & Hlive).
  eapply wp_mono; [apply (spwan_spec Hst L _ t b live _ elf phs (so_kernel _ _ Hok) Henv Hmp Hc Hb Hpids Helf)| |].
  2: { intros e [-> Hfr]. split; [done|]. eexists. by split; [exists i, elf, phs|]. }
  intros c k' (bc & m & satp & -> & -> & Hnew & Hfr & Hmp' & Hbc & -> & Hps & Hoth).
  assert (Hnone : stasks st !! next_task (sys_kernel st) = None) by (by eapply fresh_task_none).
  assert (Hne : t ≠ next_task (sys_kernel st)) by congruence.
  assert (Hlook : TASKS (add_child (sys_kernel st) t b bc m) !! next_task (sys_kernel st) = Some bc)
    by (simpl; by rewrite lookup_insert_ne, lookup_insert_eq).
  wp_step. apply wp_with_kernel. eapply wp_get_pid; [exact Hlook|].
  wp_step. apply wp_with_kernel. unfold add_task, TaskManager_add. wp_step. wp_step.
  assert (Hk' := new_process_ok L (sys_kernel st) t b bc live m (so_kernel _ _ Hok) Hlive Hc Hb Hmp' Hbc
    (fr_status _ _ _ _ Hfr) (fr_child _ _ _ _ Hfr) (fr_parent _ _ _ _ Hfr)
    ltac:(rewrite (fr_prio _ _ _ _ Hfr); lia)).
  destruct (still_running_intro L st1 t b _ Hr1 Hk' Hc) as [Hrun Hkept].
  { rewrite Hk. simpl. apply tasks_step_child; [done|done|apply Hfr|by rewrite (fr_info _ _ _ _ Hfr)|done]. }
  { rewrite Hk. by apply others_delete. }
  split; [eapply kept_trans; [by apply kept_refl|exact Hkept]|]. right.
  exists i, elf, phs, bc. split_and!; try done.
  - by rewrite <-Hlive.
Qed.

(** ** The counters *)

Lemma syscall_times_call L st t b n :
  running L st t b → 0 ≤ n < 500 →
  wp (with_kernel (update_current_task_syscall_times n)) (λ _ st', ∃ b', running L st' t b' ∧
      b' = map_inner (set_task_info (task_info_inner (inner b'))) b ∧
      st' = set_sys_kernel (set_TASKS (<[t := b']> (stasks st)) (sys_kernel st)) st) no_panic st.
Proof.
  intros Hr Hn. pose proof Hr as [Hok Hc Hb]. destruct (so_procs _ _ Hok t b Hb) as [Ht Hf].
  apply wp_with_kernel. unfold update_current_task_syscall_times, current_task, Processor_current. do 2 wp_step. rewrite Hc.
  do 2 wp_step. wp_step. eapply wp_inner; [done|]. wp_step. unfold update_syscall_times.
  destruct (lookup_lt_is_Some_2 (syscall_times (task_info_inner (inner b))) (Z.to_nat n)) as [x Hx]; [lia|].
  rewrite Hx. wp_step. eapply wp_update_inner; [done|].
  match goal with |- context [set_task_info ?ti (inner b)] => set (ti' := ti) end.
  exists (map_inner (set_task_info ti') b). split_and!; [|done|done].
  split; simpl; [|done|apply lookup_insert_eq].
  eapply (system_ok_step L st t); [done|done|by apply kernel_ok_data; [apply Hok|..]|].
  apply (tasks_step_local _ _ b); [done|done|]. left. simpl. by rewrite length_insert.
Qed.

End Calls.
