(* ===== verification/SystemSpec.v ===== *)
(** * Traps keep the invariant of the system

    [call_ok] and [trap_ok] say which traps the kernel can handle; [sys_step] is the
    transition relation of the whole machine: a process computes, traps into the
    kernel ([trap_admitted], [kernel_words]), the idle loop picks a process, a key is
    pressed.  The invariant holds in every state reached by such steps. *)
From S2P Require Import Prelude Config Machine Address FrameAllocator Ownership.
From S2P Require Import PageTable PageTree PageTableSpec MemorySet MapAreaSpec MemorySetSpec.
From S2P Require Import AddressSpace UserSpace UserMemory Fork ElfLoad Pid Context Timer Task Scheduler.
From S2P Require Import SyscallProcess KernelInv ProcessSpec WaitSpec ExecSpec SyscallSpec KernelSteps.
From S2P Require Import Files FileSpec SyscallFile Trap SystemInv SystemCalls.
From coqutil Require Import Byte Word.LittleEndianList.

Section Traps.
Context `{SystemEnv} `{!EasyFsLaws}.
Context (Hst : strampoline_ok).
Context (Henv : env_ok).

Abbreviation smm st := (km_mm (k_mem (sys_kernel st))).
Abbreviation stasks st := (TASKS (sys_kernel st)).

(** ** Calls the kernel can carry out *)

Definition read_ok (st : system) (b : TaskControlBlock) (fd ptr len : Z) : Prop :=
  match fd_lookup fd (inner b) with
  | None => True
  | Some Stdin => len = 1 ∧ buf_ok (memory_set (inner b)) ptr 1
  | Some Stdout => False
  | Some (OSInodeRef id) => buf_ok (memory_set (inner b)) ptr len ∧
      ∀ f, OSINODES st !! id = Some f → Z.of_nat (length (file_data (DISK st) (os_inode f))) < 2 ^ 63
  end.

Definition write_ok (st : system) (b : TaskControlBlock) (fd ptr len : Z) : Prop :=
  match fd_lookup fd (inner b) with
  | None => True
  | Some Stdin => False
  | Some Stdout => buf_ok (memory_set (inner b)) ptr len ∧
      ∀ v, slices_at (areas (memory_set (inner b))) ptr v → slices_len v = len →
        pieces_valid (smm st) (memory_set (inner b)) ptr v
  | Some (OSInodeRef id) => buf_ok (memory_set (inner b)) ptr len ∧
      ∀ f, OSINODES st !! id = Some f →
        (Z.to_nat (os_offset f) ≤ length (file_data (DISK st) (os_inode f)))%nat ∧
        file_room (DISK st) (os_inode f) (Z.to_nat (os_offset f) + Z.to_nat len) ∧ os_offset f + len < 2 ^ 63
  end.

Definition stat_ok (st : system) (b : TaskControlBlock) (fd ptr : Z) : Prop :=
  match fd_lookup fd (inner b) with
  | None => True
  | Some (OSInodeRef id) => buf_ok (memory_set (inner b)) ptr 80 ∧
      ∀ f, OSINODES st !! id = Some f →
        let '(blk, off) := inode_get_block_metadata (os_inode f) (DISK st) in
        is_Some (root_find_inode_id_by_block (blk mod 2 ^ 32) off (DISK st))
  | Some _ => False
  end.

Definition pids_left (st : system) : Prop := pid_fits (pa_current (PID_ALLOCATOR (k_mem (sys_kernel st)))).

(** Not accepted are: buffers or path names that are not mapped or not below 2^39; a file to
    execute that is no well-formed program; an [mmap] or [munmap] that ends beyond 2^39, an
    [munmap] of the page of the trap context; a [waitpid] whose pointer crosses a page; an
    [sbrk] when no area lies between the bottom of the heap and the break, or that grows
    into mapped pages; a [read] of [Stdout], a [write] to [Stdin], more than one byte at a
    time from the console, text that is no UTF-8 to it; a [write] to a file past its end or
    without room on the disk; an [fstat] of what is no file of the directory; an [open] with
    unknown flags; the exit of the first process; a new process with the pids used up. *)
Definition call_ok (st : system) (t : nat) (b : TaskControlBlock) (c : Syscall)
    (args : Z * Z * Z * Z * Z) : Prop :=
  let '(a0, a1, a2, a3, _) := args in
  let ms := memory_set (inner b) in let s := smm st in
  match c with
  | Unlinkat => ∃ p, path_ok s ms a1 p
  | Linkat => ∃ p q, path_ok s ms a1 p ∧ path_ok s ms a3 q
  | Open => (∃ p, path_ok s ms a1 p) ∧ is_Some (OpenFlags_from_bits (as_u32 a2))
  | Close | Yield | GetPid | SetPrio => True
  | Read => read_ok st b a0 a1 a2
  | Write => write_ok st b a0 a1 a2
  | Fstat => stat_ok st b a0 a1
  | Exit => t ≠ INITPROC (sys_kernel st)
  | GetTime => buf_ok ms a0 16
  | TaskInfoCall => ∀ info, buf_ok ms a0 (Z.of_nat (length (TaskInfo_repr info)))
  | Sbrk => sbrk_ok st (inner b) (as_i32 a0)
  | Mmap => a0 + a1 < 2 ^ 39
  | Munmap => a0 + a1 < 2 ^ 39 ∧ let r := page_range a0 (a0 + a1) in
      TRAP_VPN ∉ areas_vpns (covering (range_l r) (range_r r) (areas ms))
  | Fork => pids_left st
  | Exec => ∃ p, path_ok s ms a0 p ∧ program_ok st p
  | Spawn => (∃ p, path_ok s ms a0 p ∧ program_ok st p) ∧ pids_left st
  | Waitpid => buf_ok ms a1 4 ∧ a1 mod 4096 ≤ 4092
  end.

(** The frames a call may take: [n] of them are enough. *)
Definition call_frames (st : system) (b : TaskControlBlock) (c : Syscall) (args : Z * Z * Z * Z * Z)
    (n : nat) : Prop :=
  let '(a0, a1, _, _, _) := args in
  let path_at := λ p, path_ok (smm st) (memory_set (inner b)) a0 p in
  match c with
  | Sbrk => n = sbrk_frames (inner b) (as_i32 a0)
  | Mmap => n = mmap_frames a0 a1
  | Fork => n = fork_frames (inner b)
  | Exec => ∃ p, path_at p ∧ program_frames st p 3 n
  | Spawn => ∃ p, path_at p ∧ program_frames st p 9 n
  | _ => False
  end.

Definition args_usize (args : Z * Z * Z * Z * Z) : Prop :=
  let '(a0, a1, a2, a3, a4) := args in
  is_usize a0 ∧ is_usize a1 ∧ is_usize a2 ∧ is_usize a3 ∧ is_usize a4.

(** The caller goes on, or the processor is free. *)
Definition after_call (L : layout) (st : system) (t : nat) (c : control) (st' : system) : Prop :=
  match c with Returned _ => still_running L st t st' | Switched => idle L st' ∧ kept t st st' end.

Lemma after_call_trans L st0 st t c st' : kept t st0 st → after_call L st t c st' → after_call L st0 t c st'.
Proof. intros Hk. destruct c; intros [H1 H2]; (split; [done|by eapply kept_trans]). Qed.

Lemma wp_returns L t (m : M system Z) E st :
  wp m (λ _ st', still_running L st t st') E st → wp (returns m) (after_call L st t) E st.
Proof. intros Hm. unfold returns. eapply wp_call; [exact Hm|done|]. intros r st' Hr. by wp_step. Qed.

Lemma wp_weaken {S A} (m : M S A) (Q Q' : A → S → Prop) (E : panic_kind → Prop) s :
  wp m Q no_panic s → (∀ a s', Q a s' → Q' a s') → wp m Q' E s.
Proof. intros Hm HQ. eapply wp_mono; [exact Hm|exact HQ|by intros k []]. Qed.

Lemma as_i32_range z : - 2 ^ 31 ≤ as_i32 z < 2 ^ 31.
Proof. unfold as_i32. destruct (Z.ltb_spec (z mod 2 ^ 32) (2 ^ 31)); zsolve. Qed.

Lemma as_isize_range z : is_usize z → as_isize z < 2 ^ 63.
Proof. unfold is_usize, usize_modulus, as_isize. destruct (Z.ltb_spec z (2 ^ 63)); lia. Qed.

Lemma syscall_of_range id c : syscall_of id = Some c → 0 ≤ id < 500.
Proof.
  unfold syscall_of. destruct (list_find _ syscall_numbers) as [[n [z c']]|] eqn:Hf; [|done].
  apply list_find_Some in Hf as (Hl & <- & _). intros _. simpl.
  assert (Hall : Forall (λ p : Z * Syscall, 0 ≤ p.1 < 500) syscall_numbers)
    by (repeat constructor; vm_compute; congruence).
  exact (Forall_lookup_1 _ _ _ _ Hall Hl).
Qed.

Lemma read_call L st t b fd ptr len :
  running L st t b → read_ok st b fd ptr len →
  wp (sys_read fd ptr len) (λ o st', after_call L st t (match o with Some r => Returned r | None => Switched end) st')
    no_panic st.
Proof.
  intros Hr Hok. unfold read_ok in Hok. destruct (fd_lookup fd (inner b)) as [[| |id]|] eqn:Hfd.
  - destruct Hok as [-> Hbuf]. destruct (read_console_call L st t b fd ptr Hr Hfd Hbuf) as (buf & _ & Hwp).
    eapply wp_weaken; [exact Hwp|]. intros [r|] st' Hres; [|apply Hres]. destruct Hres as (_ & Hr' & Hk & _). by split; [exists b|].
  - done.
  - destruct Hok as [Hbuf Hf]. destruct (fd_file _ _ _ _ _ _ Hr Hfd) as [f Hid].
    eapply wp_weaken; [by apply (read_file_call L st t b fd ptr len id f), Hf|].
    intros o st' (-> & Hr' & _ & Hk & _). by split; [exists b|].
  - unfold sys_read. eapply wp_current_token; [done|]. eapply wp_current_block; [done|]. rewrite Hfd.
    wp_step. by eapply still_running_same.
Qed.

Lemma write_call L st t b fd ptr len :
  running L st t b → write_ok st b fd ptr len →
  wp (sys_write fd ptr len) (λ _ st', still_running L st t st') no_panic st.
Proof.
  intros Hr Hok. unfold write_ok in Hok. destruct (fd_lookup fd (inner b)) as [[| |id]|] eqn:Hfd.
  - done.
  - destruct Hok as [Hbuf Hval].
    destruct (write_console_call L st t b fd ptr len Hr Hfd Hbuf) as (v & Hv & Hvl & Hwp).
    eapply wp_mono; [exact Hwp| |by intros e [_ []]; apply Hval]. intros r st' (_ & _ & -> & Hr').
    by eapply still_running_same.
  - destruct Hok as [Hbuf Hf]. destruct (fd_file _ _ _ _ _ _ Hr Hfd) as [f Hid].
    destruct (Hf f Hid) as (H1 & H2 & H3).
    eapply wp_weaken; [by apply (write_file_call L st t b fd ptr len id f)|]. intros r st' (_ & Hr' & Hw).
    eapply still_running_same; [done|apply Hw|apply (fw_rest _ _ _ _ _ Hw)].
  - unfold sys_write. eapply wp_current_token; [done|]. eapply wp_current_block; [done|]. rewrite Hfd.
    wp_step. by eapply still_running_same.
Qed.

Lemma stat_call L st t b fd ptr :
  running L st t b → stat_ok st b fd ptr → wp (sys_fstat fd ptr) (λ _ st', still_running L st t st') no_panic st.
Proof.
  intros Hr Hok. unfold stat_ok in Hok. destruct (fd_lookup fd (inner b)) as [[| |id]|] eqn:Hfd; [done..| |].
  - destruct Hok as [Hbuf Hf]. destruct (fd_file _ _ _ _ _ _ Hr Hfd) as [f Hid]. specialize (Hf f Hid).
    destruct (inode_get_block_metadata (os_inode f) (DISK st)) as [blk off] eqn:Hblk. destruct Hf as [ino Hino].
    eapply fstat_call; [done|done|done| |done]. by rewrite Hblk.
  - unfold sys_fstat. eapply wp_current_block; [done|]. rewrite Hfd. wp_step. by eapply still_running_same.
Qed.

(** The counters do not matter to a call. *)
Lemma call_ok_info st t b T ti c args :
  call_ok st t b c args →
  call_ok (set_sys_kernel (set_TASKS T (sys_kernel st)) st) t (map_inner (set_task_info ti) b) c args.
Proof.
  destruct args as [[[[a0 a1] a2] a3] a4]. destruct c; try exact id.
  intros (idx & a & [H1 H2 H3 H4] & Hfree). exists idx, a. by split; [split|].
Qed.

Lemma call_frames_info st b T ti c args n :
  call_frames (set_sys_kernel (set_TASKS T (sys_kernel st)) st) (map_inner (set_task_info ti) b) c args n →
  call_frames st b c args n.
Proof. destruct args as [[[[a0 a1] a2] a3] a4]. by destruct c. Qed.

(** A call that is possible is carried out. *)
Lemma dispatch_call L st t b time id c args :
  running L st t b → syscall_of id = Some c → args_usize args →
  call_ok st t b c args →
  wp (syscall time id args) (after_call L st t) (out_of_frames (call_frames st b c args) st) st.
Proof.
  intros Hr Hid Hus Hcall. destruct args as [[[[a0 a1] a2] a3] a4].
  destruct Hus as (Hu0 & Hu1 & Hu2 & Hu3 & Hu4). unfold syscall. cbv beta iota.
  eapply wp_call; [by apply (syscall_times_call L st t b), (syscall_of_range id c)|by intros k []|].
  intros [] st' (b' & Hr' & Hb' & Hst').
  assert (Hcall' : call_ok st' t b' c (a0, a1, a2, a3, a4)).
  { rewrite Hst'. generalize (<[t := b']> (stasks st)) as T. intros T.
    revert Hb'. generalize (task_info_inner (inner b')) as ti. intros ti ->. by apply call_ok_info. }
  assert (Hfr : ∀ e, out_of_frames (call_frames st' b' c (a0, a1, a2, a3, a4)) st' e →
    out_of_frames (call_frames st b c (a0, a1, a2, a3, a4)) st e).
  { rewrite Hst'. generalize (<[t := b']> (stasks st)) as T. intros T. rewrite Hb'.
    intros e (-> & n & Hn & Hlt). split; [done|]. exists n. split; [by eapply call_frames_info|done]. }
  assert (Hk : kept t st st') by (eapply kept_local; [|by rewrite Hst'|by rewrite Hst'|intros u _; by rewrite Hst']; by destruct Hr as [_ _ ->]).
  clear Hr Hb' Hst' Hcall. rename Hcall' into Hcall.
  eapply wp_mono; [|intros ? ?; by apply after_call_trans|exact Hfr]. clear Hfr.
  rewrite Hid. unfold is_usize in *. destruct c; simpl in Hcall; try (apply wp_returns).
  - destruct Hcall as [p Hp]. eapply wp_weaken; [by eapply unlinkat_call|done].
  - destruct Hcall as (p & q & Hp & Hq). eapply wp_weaken; [by eapply linkat_call|done].
  - destruct Hcall as ([p Hp] & [fl Hfl]).
    assert (fl = as_u32 a2) by (unfold OpenFlags_from_bits in Hfl; case_match; congruence). subst fl.
    eapply wp_weaken; [by apply (open_call L st' t b' a1 p)|]. intros r st'' [Hk' [(_ & _ & Hr'' & _)|(i & n & st1 & _ & Hop)]].
    + by split; [exists b'|].
    + destruct (open_fd (inner b') i) as [fd l]. destruct Hop as (_ & _ & Hr''). by split; [eexists|].
  - eapply wp_weaken; [by apply (close_call L st' t b' a0); [|lia]|]. by intros r st'' [? _].
  - eapply wp_call; [by apply (read_call L st' t b')|by intros k []|]. intros o st'' Hres. by wp_step.
  - eapply wp_weaken; [by eapply write_call|done].
  - eapply wp_weaken; [by eapply stat_call|done].
  - unfold sys_exit. eapply wp_call; [by apply (exit_call L st' t b')|by intros k []|]. intros [] st'' Hres. by wp_step.
  - eapply wp_call; [by apply (park_parks L st' t b')|by intros k []|]. intros [] st'' [Hres _]. by wp_step.
  - eapply wp_weaken; [eapply set_prio_call; [done|by apply as_isize_range]|done].
  - eapply wp_weaken; [by eapply get_time_call|done].
  - eapply wp_weaken; [by eapply getpid_call|done].
  - eapply sbrk_call; [done|apply as_i32_range|done].
  - eapply wp_weaken; [eapply munmap_call; [done|lia|lia|apply Hcall|apply Hcall]|done].
  - by eapply fork_call.
  - destruct Hcall as (p & Hp & Hprog). eapply wp_mono; [by eapply exec_call| |].
    2: { intros e (-> & n & Hn & Hlt). split; [done|]. exists n. by split; [exists p|]. }
    intros r st'' [Hk' [(_ & _ & ->)|(i & elf & phs & b'' & _ & _ & _ & Hr'' & _)]]; by split; [eexists|].
  - eapply mmap_call; [done|lia|lia|done].
  - destruct Hcall as [Hbuf Hm]. eapply wp_weaken; [by eapply waitpid_call|done].
  - eapply wp_weaken; [by eapply task_info_call|done].
  - destruct Hcall as [(p & Hp & Hprog) Hpids]. eapply wp_mono; [by eapply spawn_call| |].
    2: { intros e (-> & n & Hn & Hlt). split; [done|]. exists n. by split; [exists p|]. }
    intros r st'' [Hk' [(_ & _ & ->)|(i & elf & phs & b'' & _ & _ & _ & Hr'' & _)]]; (split; [|done]); [by eexists|done].
Qed.

(** ** Traps the kernel can handle *)

Definition trap_cx (b : TaskControlBlock) : Z := trap_cx_ppn (inner b) * 4096.
Definition trap_words (st : system) (b : TaskControlBlock) : list Z :=
  load_words (phys (smm st)) (trap_cx b) 37.

(** The state in which the call is made: the program counter is past the [ecall]. *)
Definition entry (st : system) (b : TaskControlBlock) : system :=
  set_memory {| phys := store64 (phys (smm st)) (trap_cx b + 8 * 33) (load64 (phys (smm st)) (trap_cx b + 8 * 33) +u 4);
                FRAME_ALLOCATOR := FRAME_ALLOCATOR (smm st) |} st.

Definition call_id (st : system) (b : TaskControlBlock) : Z := trap_words (entry st b) b !!! 17%nat.
Definition call_args (st : system) (b : TaskControlBlock) : Z * Z * Z * Z * Z :=
  let ws := trap_words (entry st b) b in
  (ws !!! 10%nat, ws !!! 11%nat, ws !!! 12%nat, ws !!! 13%nat, ws !!! 14%nat).

Definition trap_ok (st : system) (t : nat) (b : TaskControlBlock) (scause : Trap) : Prop :=
  match scause with
  | UserEnvCall => ∃ c, syscall_of (call_id st b) = Some c ∧ call_ok (entry st b) t b c (call_args st b)
  | SupervisorTimer => True
  | OtherTrap => False
  | _ => t ≠ INITPROC (sys_kernel st)
  end.

(** Only system calls take frames. *)
Definition trap_frames (st : system) (b : TaskControlBlock) (scause : Trap) (n : nat) : Prop :=
  scause = UserEnvCall ∧ ∃ c, syscall_of (call_id st b) = Some c ∧ call_frames (entry st b) b c (call_args st b) n.

Lemma trap_cx_frame L st t b :
  running L st t b → is_ppn (trap_cx_ppn (inner b)) ∧ trap_cx_ppn (inner b) ≠ 0.
Proof.
  intros Hr. destruct (ru_live _ _ _ _ Hr) as [[Hms _ Htr%trap_page_frame] _]. split; [by eapply ms_frame_ppn|].
  intros Hz. apply (user_frames_nonzero _ _ _ _ Hr). rewrite <-Hz. unfold ms_frames. apply elem_of_app. right.
  by eapply ms_frame_in.
Qed.

Lemma wp_current_cx L st t b (Q : Z → system → Prop) E :
  running L st t b → Q (trap_cx b) st → wp (with_kernel current_trap_cx) Q E st.
Proof.
  intros Hr HQ. destruct (trap_cx_frame _ _ _ _ Hr) as [Hp Hz]. destruct Hr as [Hok Hc Hb].
  apply wp_with_kernel. unfold current_trap_cx, current_task, Processor_current. do 2 wp_step. rewrite Hc. do 2 wp_step.
  wp_step. eapply wp_inner; [done|]. apply wp_get_trap_cx; [done..|]. by destruct st.
Qed.

(** A word of the trap context of the caller is written. *)
Lemma running_trap_word L st t b i v :
  running L st t b → (i < 37)%nat → is_usize v →
  let st' := set_memory {| phys := store64 (phys (smm st)) (trap_cx b + 8 * Z.of_nat i) v;
                           FRAME_ALLOCATOR := FRAME_ALLOCATOR (smm st) |} st in
  running L st' t b ∧ trap_words st' b = <[i := v]> (trap_words st b) ∧ kept t st st'.
Proof.
  intros Hr Hi Hv st'. destruct (ru_live _ _ _ _ Hr) as [[Hms Hfr Htr] _].
  destruct (write_trap_word (smm st) _ trampoline_map (trap_cx_ppn (inner b)) i v Hms Hfr (trap_page_frame _ _ Htr) Hi Hv)
    as (Hstep & Hw & _).
  destruct (running_ms_step L st t b _ Hr Hstep) as [Hr' Hoth]. split_and!; [exact Hr'|exact Hw|].
  apply kept_intro; [apply tasks_step_refl|exact Hoth|done].
Qed.

Lemma entry_running L st t b :
  running L st t b → running L (entry st b) t b ∧
  trap_words (entry st b) b = <[33%nat := (trap_words st b !!! 33%nat) +u 4]> (trap_words st b) ∧
  kept t st (entry st b).
Proof.
  intros Hr. assert (Hu : is_usize (load64 (phys (smm st)) (trap_cx b + 8 * 33) +u 4))
    by (unfold is_usize, usize_modulus; unfold usize_add, wrap64, usize_modulus; apply Z.mod_pos_bound; lia).
  destruct (running_trap_word L st t b 33 _ Hr ltac:(lia) Hu) as (Hr' & Hw & Hk).
  split_and!; [exact Hr'|exact Hw|exact Hk].
Qed.

Lemma trap_words_usize st b i : is_usize (trap_words st b !!! i).
Proof.
  unfold trap_words, load_words. rewrite list_lookup_total_alt. rewrite list_lookup_fmap.
  destruct (seq 0 37 !! i); simpl; [apply load64_range|]. vm_compute. split; congruence.
Qed.

(** The registers with which the program of a process is entered. *)
Definition user_entry_of (b : TaskControlBlock) : user_entry :=
  {| restore_va := restore_addr -u alltraps_addr +u TRAMPOLINE; ue_a0 := TRAP_CONTEXT_BASE;
     ue_a1 := MemorySet_token (memory_set (inner b)) |}.

Lemma running_stvec L st t b z : running L st t b → running L (set_stvec z st) t b.
Proof. intros [[] ? ?]. by split; [split|..]. Qed.

Lemma wp_trap_return L st t b (Q : user_entry → system → Prop) E :
  running L st t b → Q (user_entry_of b) (set_stvec TRAMPOLINE st) → wp trap_return Q E st.
Proof.
  intros Hr HQ. unfold trap_return, set_user_trap_entry. do 2 wp_step.
  eapply wp_current_token; [by apply running_stvec|]. by wp_step.
Qed.

(** Back to user mode with the result in [a0]. *)
Lemma finish_call L st t b r :
  running L st t b →
  wp (finish_syscall r) (λ e st', running L st' t b ∧
      trap_words st' b = <[10%nat := as_usize r]> (trap_words st b) ∧
      e = user_entry_of b ∧ stvec st' = TRAMPOLINE ∧ kept t st st' ∧ keyboard st' = keyboard st ∧
      ∀ va, va / 4096 ∈ areas_vpns (areas (memory_set (inner b))) → va / 4096 ≠ TRAP_VPN →
        user_byte (smm st') (memory_set (inner b)) va = user_byte (smm st) (memory_set (inner b)) va) no_panic st.
Proof.
  intros Hr. unfold finish_syscall. wp_step. eapply wp_current_cx; [done|].
  wp_step. apply wp_with_memory. unfold write_cx_a0, set_phys. wp_step.
  assert (Hu : is_usize (as_usize r)) by (apply Z.mod_pos_bound; unfold usize_modulus; lia).
  destruct (running_trap_word L st t b 10 (as_usize r) Hr ltac:(lia) Hu) as (Hr' & Hw & Hoth).
  destruct (ru_live _ _ _ _ Hr) as [[Hms Hfr Htr%trap_page_frame] _].
  destruct (write_trap_word (smm st) _ _ _ 10 (as_usize r) Hms Hfr Htr ltac:(lia) Hu) as (_ & _ & Hown).
  eapply wp_trap_return; [exact Hr'|]. split_and!; [by apply running_stvec|exact Hw|done|done| |done|exact Hown].
  eapply kept_trans; [exact Hoth|]. by apply kept_refl.
Qed.

(** ** The trap handler *)

(** How a trap ends. *)
Definition trap_done (L : layout) (st : system) (t : nat) (o : option user_entry) (st' : system) : Prop :=
  match o with Some _ => still_running L st t st' | None => idle L st' ∧ kept t st st' end.

(** Up to the call itself. *)
Lemma wp_env_call L st t b time Q E :
  running L st t b →
  wp (c ← syscall time (call_id st b) (call_args st b);
      match c with Returned r => e ← finish_syscall r; mret (Some e) | Switched => mret None end) Q E (entry st b) →
  wp (user_env_call time) Q E st.
Proof.
  intros Hr Hwp. unfold user_env_call. wp_step. eapply wp_current_cx; [done|].
  wp_step. apply wp_with_memory. unfold advance_sepc, set_phys. wp_step. fold (entry st b).
  wp_step. apply wp_with_memory. wp_step. by rewrite set_memory_id.
Qed.

Lemma env_call_spec L st t b time :
  running L st t b → trap_ok st t b UserEnvCall →
  wp (user_env_call time) (λ o st', trap_done L st t o st' ∧ ∃ ctl st1,
      syscall time (call_id st b) (call_args st b) (entry st b) = Done ctl st1 ∧
      match o, ctl with
      | Some e, Returned r => ∃ b1, running L st1 t b1 ∧ running L st' t b1 ∧
          trap_words st' b1 = <[10%nat := as_usize r]> (trap_words st1 b1) ∧
          e = user_entry_of b1 ∧ stvec st' = TRAMPOLINE ∧ kept t st1 st'
      | None, Switched => st' = st1
      | _, _ => False
      end) (out_of_frames (trap_frames st b UserEnvCall) st) st.
Proof.
  intros Hr (c & Hid & Hcall). destruct (entry_running _ _ _ _ Hr) as (Hr1 & Hws & Hke).
  eapply wp_env_call; [done|].
  assert (Hus : args_usize (call_args st b)) by (unfold call_args, args_usize; split_and!; apply trap_words_usize).
  pose proof (dispatch_call L (entry st b) t b time _ c _ Hr1 Hid Hus Hcall) as Hwp.
  apply wp_bind. unfold wp at 1. unfold wp in Hwp.
  destruct (syscall time (call_id st b) (call_args st b) (entry st b)) as [ctl st1|e|] eqn:Hrun; [| |done].
  2: { destruct Hwp as (-> & n & Hn & Hlt). split; [done|]. exists n. by split; [split; [|exists c]|]. }
  destruct ctl as [r|]; simpl in Hwp.
  - destruct Hwp as [[b1 Hr2] Hk2]. eapply wp_call; [by apply (finish_call L st1 t b1 r)|by intros k []|].
    intros e st' (Hr' & Hw & He & Hv & Hoth & _). wp_step.
    split; [split; [by exists b1|]; do 2 (eapply kept_trans; [done|]); done|]. exists (Returned r), st1. split; [done|].
    exists b1. by split_and!.
  - destruct Hwp as [Hi Hk2]. wp_step. split; [split; [done|by eapply kept_trans]|]. exists Switched, st1. by split.
Qed.

Lemma unknown_call_spec L st t b time :
  running L st t b → syscall_of (call_id st b) = None →
  wp (user_env_call time) (λ _ _, False)
    (λ e, e = if decide (call_id st b < 500) then ExplicitPanic else IndexOutOfBounds) st.
Proof.
  intros Hr Hid. destruct (entry_running _ _ _ _ Hr) as (Hr1 & _).
  eapply wp_env_call; [done|]. apply wp_bind. unfold syscall.
  pose proof (trap_words_usize (entry st b) b 17) as Hu. unfold is_usize, usize_modulus in Hu.
  fold (call_id st b) in Hu. destruct (call_args st b) as [[[[a0 a1] a2] a3] a4]. case_decide as Hlt.
  - eapply wp_call; [apply (syscall_times_call L _ t b); [done|lia]|by intros k []|].
    intros [] st' _. rewrite Hid. by wp_step.
  - apply wp_bind, wp_with_kernel. unfold update_current_task_syscall_times, current_task, Processor_current.
    pose proof Hr1 as [Hok Hc Hb]. destruct (so_procs _ _ Hok t b Hb) as [Ht _].
    do 2 wp_step. rewrite Hc. do 2 wp_step. wp_step. eapply wp_inner; [done|]. wp_step.
    unfold update_syscall_times. rewrite lookup_ge_None_2 by lia. by wp_step.
Qed.

Lemma trap_ok_stvec st t b scause z : trap_ok st t b scause → trap_ok (set_stvec z st) t b scause.
Proof. by destruct scause. Qed.

Lemma trap_done_trans L st0 st t o st' : kept t st0 st → trap_done L st t o st' → trap_done L st0 t o st'.
Proof. intros Hk. destruct o; intros [H1 H2]; (split; [done|by eapply kept_trans]). Qed.

Lemma trap_handler_spec L st0 t b scause time :
  running L st0 t b → trap_ok st0 t b scause → 
  wp (trap_handler scause time) (trap_done L st0 t) (out_of_frames (trap_frames st0 b scause) st0) st0.
Proof.
  intros Hr0 Hok0. unfold trap_handler, set_kernel_trap_entry. do 2 wp_step.
  pose proof (running_stvec _ _ _ _ trap_from_kernel_addr Hr0) as Hr.
  pose proof (trap_ok_stvec _ _ _ _ trap_from_kernel_addr Hok0) as Hok.
  assert (Hk0 : kept t st0 (set_stvec trap_from_kernel_addr st0)) by (by apply kept_refl).
  assert (Hfr : ∀ e, out_of_frames (trap_frames (set_stvec trap_from_kernel_addr st0) b scause)
    (set_stvec trap_from_kernel_addr st0) e → out_of_frames (trap_frames st0 b scause) st0 e) by done.
  set (st := set_stvec trap_from_kernel_addr st0) in *. clearbody st. clear Hr0 Hok0.
  eapply wp_mono; [|intros o st'; by apply trap_done_trans|exact Hfr]. clear Hk0 Hfr.
  destruct scause; simpl in Hok.
  1: { eapply wp_mono; [by apply (env_call_spec L st t b)| |done]. by intros o st' [? _]. }
  1-7: (eapply wp_call; [by apply (exit_call L st t b)|by intros k []|]; intros [] st' Hres; by wp_step).
  - do 2 wp_step. assert (Hr' : running L (set_trigger (set_next_trigger time) st) t b).
    { destruct Hr as [[] ? ?]. by split; [split|..]. }
    eapply wp_call; [by apply (park_parks L _ t b)|by intros k []|]. intros [] st' [[Hres Hk] _]. wp_step.
    split; [done|]. eapply kept_trans; [|exact Hk]. by apply kept_refl.
  - done.
Qed.

(** ** The idle loop *)

(** The process chosen by the scheduler is taken off the list of parked ones. *)
Lemma switched_to L st t k' b n :
  idle L st → kernel_ok L k' → current (PROCESSOR k') = Some t → stasks st !! t = Some b →
  TASKS k' = <[t := map_inner (λ i, set_task_status Running (set_stride n i)) b]> (stasks st) →
  running L (set_PARKED (delete t (PARKED st)) (set_sys_kernel k' st)) t
    (map_inner (λ i, set_task_status Running (set_stride n i)) b).
Proof.
  intros [Hok _] Hk Hc Hb HT. split; simpl; [|done|by rewrite HT, lookup_insert_eq].
  split; simpl; rewrite ?HT.
  - done.
  - intros u bu [[<- <-]|[_ Hu]]%lookup_insert_Some; [by destruct (so_procs _ _ Hok t b Hb)|].
    by apply (so_procs _ _ Hok u).
  - intros u p [Hne Hp]%lookup_delete_Some. destruct (so_parked _ _ Hok u p Hp) as (bu & Hu & Hru).
    exists bu. by rewrite lookup_insert_ne.
  - apply Hok.
  - apply Hok.
Qed.

(** The process [t] was switched to: it is back in user mode or waits again. *)
Definition resumed_by (L : layout) (st : system) (t : nat) (o : option user_entry) (st' : system) : Prop :=
  match o with Some _ => still_running L st t st' | None => idle L st' ∧ kept t st st' end.

Definition resumed (L : layout) (st : system) (o : option user_entry) (st' : system) : Prop :=
  match o with Some _ => ∃ t, still_running L st t st' | None => idle L st' ∧ ∃ t, kept t st st' end.

(** What becomes of a process that is switched to, by the point where it was parked: a
    new or preempted process goes on as it was; [sys_yield] returns 0; a process that
    waits for a key has it in its buffer and 1 in [a0], or waits on. *)
Definition resume_result (L : layout) (t : nat) (b : TaskControlBlock) (p : option resume_point)
    (st : system) (o : option user_entry) (st' : system) : Prop :=
  match p with
  | None | Some ResumeTrap => o = Some (user_entry_of b) ∧ running L st' t b ∧ smm st' = smm st
  | Some ResumeYield => o = Some (user_entry_of b) ∧ running L st' t b ∧
      trap_words st' b = <[10%nat := 0]> (trap_words st b)
  | Some (ResumeRead buf) =>
      match o with
      | Some e => e = user_entry_of b ∧ running L st' t b ∧ trap_words st' b !!! 10%nat = 1 ∧
          keyboard st' = tail (keyboard st) ∧ let c := next_answer st in c ≠ 0 ∧
            ∀ va va', byte_at (areas (memory_set (inner b))) va buf →
              va' / 4096 ∈ areas_vpns (areas (memory_set (inner b))) → va' / 4096 ≠ TRAP_VPN →
              user_byte (smm st') (memory_set (inner b)) va' =
                if decide (va' = va) then Some (byte.of_Z c) else user_byte (smm st) (memory_set (inner b)) va'
      | None => idle L st' ∧ PARKED st' !! t = Some (ResumeRead buf) ∧ next_answer st = 0 ∧
          smm st' = smm st ∧ stasks st' !! t = Some (map_inner (set_task_status Ready) b)
      end
  end.

Lemma resume_spec L st st1 t b :
  running L (set_PARKED (delete t (PARKED st)) st1) t b → PARKED st1 = PARKED st →
  (∀ buf, PARKED st !! t = Some (ResumeRead buf) → one_byte (areas (memory_set (inner b))) buf) →
  kept t st st1 →
  wp (resume t) (λ o st', resumed_by L st t o st' ∧ resume_result L t b (PARKED st !! t) st1 o st') no_panic st1.
Proof.
  intros Hr HP Hbuf Hk0. unfold resume. do 4 wp_step. rewrite HP.
  set (st2 := set_PARKED (delete t (PARKED st)) st1) in *.
  assert (Hk2 : kept t st st2) by (eapply kept_trans; [exact Hk0|apply kept_refl; [done|]; intros u Hu; simpl; rewrite HP; by apply lookup_delete_ne]).
  assert (Hret : wp (e ← trap_return; mret (Some e)) (λ o st', resumed_by L st t o st' ∧
    resume_result L t b None st1 o st') no_panic st2).
  { wp_step. eapply wp_trap_return; [done|]. wp_step. pose proof (running_stvec _ _ _ _ TRAMPOLINE Hr) as Hr'.
    split; [split; [by exists b|eapply kept_trans; [exact Hk2|by apply kept_refl]]|by split_and!]. }
  destruct (PARKED st !! t) as [[| |buf]|] eqn:Hp; [exact Hret| | |exact Hret].
  - eapply wp_call; [by apply (finish_call L st2 t b 0)|done|]. intros e st' (Hr' & Hw & -> & _ & Hk' & _). wp_step.
    split; [split; [by exists b|by eapply kept_trans]|by split_and!].
  - eapply wp_call; [apply (poll_call L st2 t b buf); [done|by apply Hbuf]|done|]. intros [n|] st3 Hres.
    + destruct Hres as (-> & Hr3 & Hk3 & Hkb & Hc & Hby).
      eapply wp_call; [by apply (finish_call L st3 t b)|done|]. intros e st' (Hr' & Hw & -> & _ & Hk' & Hkb' & Hown). wp_step.
      split; [split; [by exists b|eapply kept_trans; [exact Hk2|by eapply kept_trans]]|]. split; [done|]. split; [done|]. split.
      { rewrite Hw. apply list_lookup_total_insert_eq. unfold trap_words. rewrite length_load_words. lia. }
      split; [by rewrite Hkb'|]. split; [done|]. intros va va' Hva Hin Hne. rewrite Hown by done. by apply (Hby va).
    + destruct Hres as ([Hi Hk'] & Hp' & Hkb & Hm & HT). wp_step. split; [split; [done|by eapply kept_trans]|].
      split_and!; [done..|]. by rewrite HT, lookup_insert_eq.
Qed.

(** An iteration of the idle loop: nothing is ready, or a process is switched to. *)
Lemma run_tasks_chosen L st :
  idle L st → wp run_tasks_step (λ o st', (o = None ∧ st' = st ∧ ∀ u, u ∈ ready_queue (sys_kernel st) → usize_MAX ≤ task_stride (sys_kernel st) u) ∨
    ∃ t b b', t ∈ ready_queue (sys_kernel st) ∧ stasks st !! t = Some b ∧ resumed_by L st t o st' ∧
      memory_set (inner b') = memory_set (inner b) ∧ trap_cx_ppn (inner b') = trap_cx_ppn (inner b) ∧
      kernel_stack b' = kernel_stack b ∧ resume_result L t b' (PARKED st !! t) st o st') no_panic st.
Proof.
  intros Hidle. pose proof Hidle as [Hok Hc]. unfold run_tasks_step. wp_step. apply wp_with_kernel.
  eapply wp_mono; [apply (run_ok L); [apply Hok|done]| |done].
  intros [t|] k' (Hk & Hm & Ho); [|destruct Ho as [-> Hq]; wp_step; left; split_and!; [done|by destruct st|done]].
  destruct Ho as (Hc' & Hin & _ & b & n & Hb & HT).
  eapply wp_weaken; [eapply (resume_spec L st); [by eapply switched_to|done| |by eapply kept_local; [|exact HT|simpl; rewrite Hm|]]|].
  - simpl. intros buf Hp. destruct (so_parked _ _ Hok t _ Hp) as (b0 & Hb0 & _ & Hone). by simplify_eq.
  - intros o st' [Hres Hrr]. right. eexists t, b, _. split_and!; [done..| | | |].
    4: { unfold resume_result, trap_words in Hrr |- *. cbn [sys_kernel set_sys_kernel keyboard] in Hrr. rewrite Hm in Hrr. exact Hrr. }
    all: done.
Qed.

Lemma run_tasks_spec L st :
  idle L st → wp run_tasks_step (resumed L st) no_panic st.
Proof.
  intros Hidle. eapply wp_weaken; [by apply run_tasks_chosen|].
  intros o st' [(-> & -> & _)|(t & b & b' & _ & _ & Hres & _)].
  - split; [done|]. exists 0%nat. by apply kept_refl.
  - destruct o; [by exists t|]. destruct Hres. split; [done|by exists t].
Qed.

(** ** The machine *)

(** The words of a trap context that belong to the kernel and that [__alltraps] loads:
    the token of its address space, its stack for the process, and [trap_handler]. *)
Record kernel_words (st : system) (b : TaskControlBlock) : Prop := {
  kw_satp : trap_words st b !!! 34%nat = MemorySet_token (KERNEL_SPACE (k_mem (sys_kernel st)));
  kw_sp : trap_words st b !!! 35%nat = KernelStack_get_top (kernel_stack b);
  kw_handler : trap_words st b !!! 36%nat = trap_handler_addr;
}.

(** The traps of [sys_step]: every fault, interrupt and unknown system call, but a system
    call that the kernel knows only with arguments that [call_ok] accepts ([exit] of the
    first process, which panics, is admitted).  The other calls make the kernel panic or
    never return, or they corrupt it: an [munmap] of the trap context, a [waitpid] whose
    pointer crosses a page. *)
Definition trap_admitted (st : system) (t : nat) (b : TaskControlBlock) (scause : Trap) : Prop :=
  scause = UserEnvCall → ∀ c, syscall_of (call_id st b) = Some c → c ≠ Exit →
    call_ok (entry st b) t b c (call_args st b).

Lemma exit_initproc_call L st t b code :
  running L st t b → t = INITPROC (sys_kernel st) →
  wp (with_kernel (exit_current_and_run_next code)) (λ _ _, False) (λ e, e = AlreadyBorrowed) st.
Proof.
  intros [_ Hc Hb] Hi. apply wp_with_kernel. unfold wp. by rewrite (exit_initproc _ t b code Hc Hb (eq_sym Hi)).
Qed.

Lemma exit_call_panics L st t b time :
  running L st t b → t = INITPROC (sys_kernel st) → syscall_of (call_id st b) = Some Exit →
  wp (user_env_call time) (λ _ _, False) (λ e, e = AlreadyBorrowed) st.
Proof.
  intros Hr Hi Hid. destruct (entry_running _ _ _ _ Hr) as (Hr1 & _). eapply wp_env_call; [done|]. apply wp_bind.
  unfold syscall. destruct (call_args st b) as [[[[a0 a1] a2] a3] a4].
  eapply wp_call; [by apply (syscall_times_call L _ t b), (syscall_of_range _ Exit)|by intros k []|].
  intros [] st' (b' & Hr' & _ & Hst'). rewrite Hid. unfold sys_exit.
  eapply wp_call; [apply (exit_initproc_call L st' t b'); [done|by rewrite Hst']|done|by intros []].
Qed.

(** A trap that is admitted is handled, or stops the machine. *)
Lemma trap_admitted_ok L st t b scause time o st' :
  running L st t b → trap_admitted st t b scause → trap_handler scause time st = Done o st' → trap_ok st t b scause.
Proof.
  intros Hr Had Hrun. pose proof (running_stvec _ _ _ _ trap_from_kernel_addr Hr) as Hr1.
  assert (Hexit : ∀ code, with_kernel (exit_current_and_run_next code) (set_stvec trap_from_kernel_addr st) ≠ Panic AlreadyBorrowed →
    t ≠ INITPROC (sys_kernel st)).
  { intros code Hne Hi. pose proof (exit_initproc_call L _ t b code Hr1 Hi) as Hp. unfold wp in Hp.
    by destruct (with_kernel _ _) as [[] ?|e|]; [|subst e|]. }
  unfold trap_handler, set_kernel_trap_entry, modify, mbind, M_bind in Hrun.
  destruct scause; simpl; try done;
    try (eapply Hexit; intros Hp; rewrite Hp in Hrun; discriminate Hrun).
  destruct (syscall_of (call_id st b)) as [c|] eqn:Hid.
  - exists c. split; [done|]. destruct (decide (c = Exit)) as [->|Hne]; [|by apply Had].
    destruct (call_args st b) as [[[[a0 a1] a2] a3] a4]. simpl. intros Hi.
    pose proof (exit_call_panics L _ t b time Hr1 Hi Hid) as Hp. unfold wp in Hp. by rewrite Hrun in Hp.
  - pose proof (unknown_call_spec L _ t b time Hr1 Hid) as Hp. unfold wp in Hp. by rewrite Hrun in Hp.
Qed.

(** What can happen next.  The process that runs computes on its own memory (its trap
    context included, into which [trap.S] saves its registers) or, when the kernel's words
    of its trap context are intact, traps; when there is none, the idle loop looks for
    one; keys are pressed at any time. *)
Inductive sys_step (st : system) : system → Prop :=
| step_trap t b scause time o st' :
    current (PROCESSOR (sys_kernel st)) = Some t → stasks st !! t = Some b →
    trap_admitted st t b scause → kernel_words st b →
    trap_handler scause time st = Done o st' → sys_step st st'
| step_compute t b ptr end_ data s' :
    current (PROCESSOR (sys_kernel st)) = Some t → stasks st !! t = Some b →
    user_written (smm st) (memory_set (inner b)) trampoline_map ptr end_ data s' →
    sys_step st (set_memory s' st)
| step_idle o st' :
    current (PROCESSOR (sys_kernel st)) = None → run_tasks_step st = Done o st' → sys_step st st'
| step_key c : sys_step st (set_keyboard (keyboard st ++ [c]) st).

Lemma sys_step_ok L st st' : system_ok L st → sys_step st st' → system_ok L st'.
Proof.
  intros Hok Hstep. destruct Hstep as [t b scause time o st' Hc Hb Had _ Hrun|t b ptr end_ data s' Hc Hb Hw|o st' Hc Hrun|c].
  - assert (Hr : running L st t b) by done. pose proof (trap_admitted_ok L _ _ _ _ _ _ _ Hr Had Hrun) as Htr.
    pose proof (wp_elim _ _ _ _ _ _ (trap_handler_spec L st t b scause time Hr Htr) Hrun) as Hd.
    destruct o; [|apply Hd]. destruct Hd as [[b' Hr'] _]. apply Hr'.
  - by apply (running_memory L st t b _ _ _ _ ltac:(done) Hw).
  - pose proof (wp_elim _ _ _ _ _ _ (run_tasks_spec L st (conj Hok Hc)) Hrun) as Hd.
    destruct o; [|apply Hd]. destruct Hd as (t & [b' Hr'] & _). apply Hr'.
  - destruct Hok. by split.
Qed.

Lemma sys_steps_ok L st st' : system_ok L st → rtc sys_step st st' → system_ok L st'.
Proof. intros Hok Hsteps. revert Hok. induction Hsteps; eauto using sys_step_ok. Qed.

(** A step is the step of one process, the one that runs if there is one. *)
Lemma sys_step_kept L st st' :
  system_ok L st → sys_step st st' →
  ∃ t, (∀ t', current (PROCESSOR (sys_kernel st)) = Some t' → t' = t) ∧ kept t st st'.
Proof.
  intros Hok Hstep. destruct Hstep as [t b scause time o st' Hc Hb Had _ Hrun|t b ptr end_ data s' Hc Hb Hw|o st' Hc Hrun|c].
  - assert (Hr : running L st t b) by done. exists t. split; [congruence|].
    pose proof (trap_admitted_ok L _ _ _ _ _ _ _ Hr Had Hrun) as Htr.
    pose proof (wp_elim _ _ _ _ _ _ (trap_handler_spec L st t b scause time Hr Htr) Hrun) as Hd.
    destruct o; apply Hd.
  - exists t. split; [congruence|]. apply kept_intro; [apply tasks_step_refl| |done].
    by apply (running_memory L st t b _ _ _ _ ltac:(done) Hw).
  - pose proof (wp_elim _ _ _ _ _ _ (run_tasks_spec L st (conj Hok Hc)) Hrun) as Hd.
    destruct o; [destruct Hd as (t & _ & ?)|destruct Hd as (_ & t & ?)]; exists t; (split; [congruence|done]).
  - exists (default 0%nat (current (PROCESSOR (sys_kernel st)))). split; [by intros t' ->|by apply kept_refl].
Qed.

(** ** In user mode traps go to the trampoline *)

Lemma trap_return_stvec : yields trap_return (λ _ st', stvec st' = TRAMPOLINE).
Proof.
  intros st e st'. unfold trap_return, set_user_trap_entry, modify, with_kernel, zoom, mbind, M_bind.
  by destruct (current_user_token _) as [a k| |]; [intros [= <- <-]|..].
Qed.

Lemma entry_stvec (m : M system user_entry) :
  yields m (λ _ st', stvec st' = TRAMPOLINE) →
  yields (e ← m; mret (Some e)) (λ o st', is_Some o → stvec st' = TRAMPOLINE).
Proof.
  intros Hm st o st'. unfold mbind, M_bind. destruct (m st) as [e st1| |] eqn:E; [|done..].
  intros [= <- <-] _. by eapply Hm.
Qed.

Lemma finish_syscall_stvec r : yields (finish_syscall r) (λ _ st', stvec st' = TRAMPOLINE).
Proof. unfold finish_syscall. do 2 (apply yields_bind; intros ?). apply trap_return_stvec. Qed.

Lemma trap_handler_stvec scause time :
  yields (trap_handler scause time) (λ o st', is_Some o → stvec st' = TRAMPOLINE).
Proof.
  apply yields_bind. intros []. assert (Hno : yields (mret None) (λ o (st' : system), is_Some (o : option user_entry) → stvec st' = TRAMPOLINE))
    by (apply yields_ret; by intros st [? [=]]).
  destruct scause; try (apply yields_bind; intros []; exact Hno); [|apply yields_bind; intros []; apply yields_bind; by intros []|apply yields_panic].
  unfold user_env_call. do 3 (apply yields_bind; intros ?). apply yields_bind. intros [r|]; [|exact Hno].
  apply entry_stvec, finish_syscall_stvec.
Qed.

Lemma run_tasks_stvec : yields run_tasks_step (λ o st', is_Some o → stvec st' = TRAMPOLINE).
Proof.
  assert (Hno : yields (mret None) (λ o (st' : system), is_Some (o : option user_entry) → stvec st' = TRAMPOLINE))
    by (apply yields_ret; by intros st [? [=]]).
  apply yields_bind. intros [t|]; [|exact Hno]. unfold resume. do 2 (apply yields_bind; intros ?).
  destruct a as [[| |buf]|]; [apply entry_stvec, trap_return_stvec|apply entry_stvec, finish_syscall_stvec| |apply entry_stvec, trap_return_stvec].
  apply yields_bind. intros [n|]; [|exact Hno]. apply entry_stvec, finish_syscall_stvec.
Qed.

(** While a process is the current one, it is in user mode between two steps. *)
Definition user_stvec (st : system) : Prop :=
  is_Some (current (PROCESSOR (sys_kernel st))) → stvec st = TRAMPOLINE.

Lemma sys_step_stvec L st st' : system_ok L st → sys_step st st' → user_stvec st → user_stvec st'.
Proof.
  intros Hok Hstep Hu. destruct Hstep as [t b scause time o st' Hc Hb Had _ Hrun|t b ptr end_ data s' Hc Hb Hw|o st' Hc Hrun|c].
  - assert (Hr : running L st t b) by done. pose proof (trap_admitted_ok L _ _ _ _ _ _ _ Hr Had Hrun) as Htr.
    destruct o as [e|]; intros Hsome.
    + by apply (trap_handler_stvec _ _ _ _ _ Hrun).
    + pose proof (wp_elim _ _ _ _ _ _ (trap_handler_spec L st t b scause time Hr Htr) Hrun) as [[_ Hnone] _].
      rewrite Hnone in Hsome. by destruct Hsome.
  - exact Hu.
  - destruct o as [e|]; intros Hsome; [by apply (run_tasks_stvec _ _ _ Hrun)|].
    pose proof (wp_elim _ _ _ _ _ _ (run_tasks_spec L st (conj Hok Hc)) Hrun) as [[_ Hnone] _].
    rewrite Hnone in Hsome. by destruct Hsome.
  - exact Hu.
Qed.

Lemma sys_steps_stvec L st st' : system_ok L st → rtc sys_step st st' → user_stvec st → user_stvec st'.
Proof. intros Hok Hsteps. revert Hok. induction Hsteps; eauto using sys_step_ok, sys_step_stvec. Qed.

(** ** What the invariant means *)

Lemma isolated_kernel L st t b f :
  system_ok L st → stasks st !! t = Some b → f ∈ task_frames b →
  (f ∉ ms_frames (KERNEL_SPACE (k_mem (sys_kernel st)))) ∧ (f ∉ lay_image L).
Proof.
  intros Hok Hb Hf. destruct (ko_mem _ _ (so_kernel _ _ Hok)) as (live & Hmp & _).
  pose proof (mp_take _ _ _ _ _ _ _ Hmp Hb) as Hmp'. rewrite app_nil_r in Hmp'. split.
  - by eapply mp_held_kernel.
  - intros Hi. destruct (mp_owns _ _ _ _ _ Hmp') as [Hnd _]. apply NoDup_app in Hnd as (_ & Hd & _).
    apply (Hd f Hf). unfold all_frames. rewrite !elem_of_app. auto.
Qed.

Lemma isolated_frames L st t u b b' f :
  system_ok L st → stasks st !! t = Some b → stasks st !! u = Some b' → u ≠ t →
  f ∈ task_frames b → f ∉ task_frames b'.
Proof.
  intros Hok Hb Hb' Hne Hf. destruct (ko_mem _ _ (so_kernel _ _ Hok)) as (live & Hmp & _).
  pose proof (mp_take _ _ _ _ _ _ _ Hmp Hb) as Hmp'. rewrite app_nil_r in Hmp'.
  eapply mp_held_task; [done|done|]. by rewrite lookup_delete_ne.
Qed.

Lemma distinct_pids L st : system_ok L st → NoDup (tasks_pids (stasks st)).
Proof.
  intros Hok. destruct (ko_mem _ _ (so_kernel _ _ Hok)) as (live & Hmp & Hl). rewrite <-Hl.
  eapply kso_live, kp_space, Hmp.
Qed.

End Traps.
