(* ===== verification/Waiting.v ===== *)
(** * Processes that wait

    A process gives up the processor at a resume point: a timer interrupt, [sys_yield],
    or [sys_read] of the console with no key pressed.  While other processes run it
    keeps its memory, and when the scheduler chooses it again it goes on from there. *)
From S2P Require Import Prelude Config Machine Address FrameAllocator Ownership.
From S2P Require Import PageTable PageTree PageTableSpec MemorySet MapAreaSpec MemorySetSpec.
From S2P Require Import AddressSpace UserSpace UserMemory Fork ElfLoad Pid Context Timer Task Scheduler.
From S2P Require Import SyscallProcess KernelInv ProcessSpec WaitSpec ExecSpec SyscallSpec KernelSteps.
From S2P Require Import Files FileSpec SyscallFile Trap SystemInv SystemCalls SystemSpec.
From coqutil Require Import Byte.

Section Waiting.
Context `{SystemEnv} `{!EasyFsLaws}.
Context (Hst : strampoline_ok) (Henv : env_ok).

Abbreviation smm st := (km_mm (k_mem (sys_kernel st))).
Abbreviation stasks st := (TASKS (sys_kernel st)).
Abbreviation scurrent st := (current (PROCESSOR (sys_kernel st))).

(** The process [t] is ready at the resume point [p], with the kernel stack [ks], the
    address space [ms] and the bytes of [s0]. *)
Definition waits (p : resume_point) (t : nat) (ks : KernelStack) (ms : MemorySet) (s0 : mm) (st : system) : Prop := ∃ b,
  stasks st !! t = Some b ∧ task_status (inner b) = Ready ∧ memory_set (inner b) = ms ∧ PARKED st !! t = Some p ∧ kernel_stack b = ks ∧
  ∀ va, va / 4096 ∈ areas_vpns (areas ms) → user_byte (smm st) ms va = user_byte s0 ms va.

(** A step of the system while [t] is not the current process. *)
Definition others_step (t : nat) (st st' : system) : Prop :=
  sys_step st st' ∧ scurrent st ≠ Some t ∧ scurrent st' ≠ Some t.

Lemma waits_kept p t u ks ms s0 st st' : u ≠ t → kept u st st' → waits p t ks ms s0 st → waits p t ks ms s0 st'.
Proof.
  intros Hne Hk (b & Hb & Hr & Hms & Hp & Hs & Hv).
  destruct (Hk t b ltac:(done) Hb Hr) as (b' & Hb' & Hr' & Hm' & Hv' & Hp' & Hs'). rewrite Hms in *.
  exists b'. split_and!; [done|done|done|congruence..|]. intros va Hva. by rewrite Hv', Hv.
Qed.

(** Chosen without coming to run: there is still no key. *)
Lemma waits_polled L p t ks ms s0 st o st' b' :
  waits p t ks ms s0 st → scurrent st' ≠ Some t → memory_set (inner b') = ms → kernel_stack b' = ks →
  resume_result L t b' (Some p) st o st' → waits p t ks ms s0 st'.
Proof.
  intros (b & _ & _ & _ & _ & _ & Hv) Hc' Hms Hks Hrr.
  assert (Hno : ¬ running L st' t b') by (intros Hr; exact (Hc' (ru_current _ _ _ _ Hr))).
  destruct p as [| |buf]; [by destruct Hrr as (_ & ? & _)..|].
  destruct o as [e|]; [by destruct Hrr as (_ & ? & _)|]. destruct Hrr as (_ & Hp & _ & Hm & HT).
  exists (map_inner (set_task_status Ready) b'). by rewrite Hm.
Qed.

Lemma waits_step L p t ks ms s0 st st' :
  system_ok L st → waits p t ks ms s0 st → others_step t st st' → waits p t ks ms s0 st'.
Proof using Hst Henv.
  intros Hok Hw (Hstep & Hc & Hc'). destruct (sys_step_kept Hst Henv L st st' Hok Hstep) as (u & Hu & Hk).
  destruct (scurrent st) as [t0|] eqn:Hcur.
  { specialize (Hu t0 eq_refl). eapply waits_kept; [|exact Hk|done]. congruence. }
  destruct Hstep as [t0 b scause time o st' Hc0|t0 b ptr end_ data s' Hc0|o st' _ Hrun|c]; [congruence..| |done].
  pose proof (wp_elim _ _ _ _ _ _ (run_tasks_chosen L st (conj Hok Hcur)) Hrun) as
    [(_ & -> & _)|(t1 & b1 & b1' & _ & Hb1 & Hres & Hms & _ & Hks & Hrr)]; [done|].
  destruct (decide (t1 = t)) as [->|Hne].
  - pose proof Hw as (b & Hb & _ & Hms0 & Hp & Hs0 & _). rewrite Hp in Hrr.
    eapply waits_polled; [done|done| | |exact Hrr]; congruence.
  - eapply waits_kept; [exact Hne| |done]. destruct o; apply Hres.
Qed.

Lemma waits_steps L p t ks ms s0 st st' :
  system_ok L st → waits p t ks ms s0 st → rtc (others_step t) st st' → system_ok L st' ∧ waits p t ks ms s0 st'.
Proof using Hst Henv.
  intros Hok Hw Hsteps. revert Hok Hw. induction Hsteps as [st|st st1 st' Hstep _ IH]; intros Hok Hw; [done|].
  apply IH; [|by eapply waits_step]. eapply (sys_step_ok Hst Henv); [exact Hok|apply Hstep].
Qed.

(** The idle loop switches back to the process. *)
Lemma switched_back L p t ks ms s0 st e st' :
  system_ok L st → scurrent st = None → waits p t ks ms s0 st → run_tasks_step st = Done (Some e) st' →
  scurrent st' = Some t →
  ∃ b, memory_set (inner b) = ms ∧ kernel_stack b = ks ∧ resume_result L t b (Some p) st (Some e) st' ∧
    ∀ va, va / 4096 ∈ areas_vpns (areas ms) → user_byte (smm st) ms va = user_byte s0 ms va.
Proof using Hst Henv.
  intros Hok Hc (b & Hb & Hr & Hms & Hp & Hs & Hv) Hrun Hc'.
  pose proof (wp_elim _ _ _ _ _ _ (run_tasks_chosen L st (conj Hok Hc)) Hrun) as
    [([=] & _)|(t1 & b1 & b' & _ & Hb1 & [[b1' Hr1'] _] & Hms' & _ & Hks & Hrr)].
  assert (t1 = t) as -> by (pose proof (ru_current _ _ _ _ Hr1'); congruence).
  rewrite Hb in Hb1. injection Hb1 as <-. rewrite Hp in Hrr. exists b'. split_and!; [congruence..|done|done].
Qed.

(** ** A read of the console *)

(** The kernel takes the answer 0 for no key. *)
Lemma read_waits_spec L st t b fd ptr :
  no_key = 0 → running L st t b → fd_lookup fd (inner b) = Some Stdin → buf_ok (memory_set (inner b)) ptr 1 →
  ptr / 4096 ≠ TRAP_VPN → next_answer st = 0 → ∃ st1,
  sys_read fd ptr 1 st = Done None st1 ∧ idle L st1 ∧
  ∀ st2 e st3, rtc (others_step t) st1 st2 → scurrent st2 = None →
    run_tasks_step st2 = Done (Some e) st3 → scurrent st3 = Some t →
    ∃ b3 c, running L st3 t b3 ∧ e = user_entry_of b3 ∧ memory_set (inner b3) = memory_set (inner b) ∧
      c ≠ 0 ∧ keyboard st2 = c :: keyboard st3 ∧ trap_words st3 b3 !!! 10%nat = 1 ∧
      ∀ va, va / 4096 ∈ areas_vpns (areas (memory_set (inner b))) → va / 4096 ≠ TRAP_VPN →
        user_byte (smm st3) (memory_set (inner b)) va =
          if decide (va = ptr) then Some (byte.of_Z c) else user_byte (smm st) (memory_set (inner b)) va.
Proof using Hst Henv.
  intros H0k Hr Hfd Hbuf Hne Hkb. destruct (read_console_call L st t b fd ptr Hr Hfd Hbuf) as (buf & Hat & Hwp).
  unfold wp in Hwp. destruct (sys_read fd ptr 1 st) as [[n|] st1| |] eqn:Hrun; [|..|done|done].
  { by destruct Hwp as (_ & _ & _ & _ & Hc & _). }
  destruct Hwp as ([Hi _] & Hp & _ & Hm & HT). exists st1. split_and!; [done..|].
  intros st2 e st3 Hsteps Hc2 Hrun3 Hc3.
  assert (Hw : waits (ResumeRead buf) t (kernel_stack b) (memory_set (inner b)) (smm st) st1).
  { exists (map_inner (set_task_status Ready) b). rewrite HT, lookup_insert_eq, Hm. by split_and!. }
  destruct (waits_steps L _ t _ _ _ st1 st2 (proj1 Hi) Hw Hsteps) as [Hok2 Hw2].
  destruct (switched_back L _ t _ _ _ st2 e st3 Hok2 Hc2 Hw2 Hrun3 Hc3) as (b3 & Hms & _ & (-> & Hr3 & Ha0 & Hk & Hc & Hby) & Hv).
  unfold next_answer in Hc, Hby. destruct (keyboard st2) as [|c ks] eqn:Hks; [done|]. simpl in Hk, Hc, Hby.
  exists b3, c. rewrite Hk. split_and!; [done..|]. rewrite Hms in Hby. intros va Hva Htr. rewrite (Hby ptr va Hat Hva Htr).
  case_decide; [done|]. by apply Hv.
Qed.
(** With a firmware that answers otherwise when there is no key, the call returns at once
    with that answer as the key. *)
Theorem read_takes_no_key L st t b fd ptr :
  no_key ≠ 0 → running L st t b → fd_lookup fd (inner b) = Some Stdin → buf_ok (memory_set (inner b)) ptr 1 →
  keyboard st = [] → ∃ st', sys_read fd ptr 1 st = Done (Some 1) st' ∧
    user_byte (smm st') (memory_set (inner b)) ptr = Some (byte.of_Z no_key).
Proof using Hst Henv.
  intros Hk Hr Hfd Hbuf Hkb. destruct (read_console_call L st t b fd ptr Hr Hfd Hbuf) as (buf & Hat & Hwp).
  assert (Ha : next_answer st = no_key) by (unfold next_answer; by rewrite Hkb).
  unfold wp in Hwp. destruct (sys_read fd ptr 1 st) as [[n|] st'| |]; [| |done|done].
  - destruct Hwp as (-> & _ & _ & _ & _ & Hby). exists st'. split; [done|]. destruct Hbuf as (_ & _ & _ & Hrange).
    rewrite (Hby ptr Hat ptr) by (apply Hrange; lia). by rewrite decide_True, Ha.
  - destruct Hwp as (_ & _ & Hn & _). congruence.
Qed.
End Waiting.
