(* ===== verification/Systems.v ===== *)
(** * What the running system promises

    The properties of traps and of system calls on files and programs, from the
    specifications of [FileSpec], [SystemCalls], [SystemSpec] and [Waiting], and what holds
    in every state that can be reached from a kernel that is up. *)
From S2P Require Import Prelude Config Machine Address FrameAllocator Ownership.
From S2P Require Import PageTable PageTree PageTableSpec MemorySet MapAreaSpec MemorySetSpec.
From S2P Require Import AddressSpace UserSpace UserMemory Fork KernelSpace ElfLoad Pid Context.
From S2P Require Import Timer Task Scheduler SyscallProcess KernelInv ProcessSpec WaitSpec ExecSpec.
From S2P Require Import SyscallSpec KernelSteps Boot Files FileSpec SyscallFile Trap.
From S2P Require Import SystemInv SystemCalls SystemSpec Waiting.
From coqutil Require Import Byte.

Section Properties.
Context `{SystemEnv} `{!EasyFsLaws}.
Context (Hst : strampoline_ok).
Context (Henv : env_ok).

Abbreviation smm st := (km_mm (k_mem (sys_kernel st))).
Abbreviation stasks st := (TASKS (sys_kernel st)).

(** ** Start and reachable states *)

(** A machine at the call of [run_tasks]; the first timer interrupt is set. *)
Definition boot_system (time : Z) (k : kernel) (d : disk) : system :=
  mkSystem _ k d ∅ 0 [] [] ∅ (set_next_trigger time) trap_from_kernel_addr.

Lemma boot_system_ok L time k d b :
  kernel_ok L k → TASKS k = {[ INITPROC k := b ]} → proc_ok ∅ b → system_ok L (boot_system time k d).
Proof.
  intros Hok HT Hb. split; simpl; [done| |done|by intros id [? ?]|done].
  intros t b' Ht. rewrite HT in Ht. by apply lookup_singleton_Some in Ht as [_ <-].
Qed.

Lemma fresh_proc_ok F p sp b : fresh_process p boot_files sp b → proc_ok F b.
Proof.
  intros Hfr. split; [by rewrite (fr_info _ _ _ _ Hfr)|]. intros fd id. rewrite (fr_files _ _ _ _ Hfr).
  unfold boot_files. do 3 (destruct fd as [|fd]; [done|]). done.
Qed.

(** What holds in every state: the invariant, pids are unique, no frame of a process
    belongs to another process, to the kernel's address space or to the kernel image, and
    while a process runs its traps go to the trampoline. *)
Record well_run (L : layout) (st : system) : Prop := {
  wr_ok : system_ok L st;
  wr_pids : NoDup (tasks_pids (stasks st));
  wr_isolated t b f : stasks st !! t = Some b → f ∈ task_frames b →
    (f ∉ ms_frames (KERNEL_SPACE (k_mem (sys_kernel st)))) ∧ (f ∉ lay_image L) ∧
    ∀ u b', u ≠ t → stasks st !! u = Some b' → f ∉ task_frames b';
  wr_stvec : user_stvec st;
}.

Lemma steps_well_run L st0 st :
  idle L st0 → rtc sys_step st0 st → well_run L st.
Proof using All.
  intros [Hok Hc] Hsteps. assert (Hst' : system_ok L st) by (by eapply sys_steps_ok).
  split; [done|by eapply distinct_pids| |].
  - intros t bt f Ht Hf. destruct (isolated_kernel _ _ _ _ _ Hst' Ht Hf). split_and!; [done..|].
    intros u b' Hne Hu. by eapply (isolated_frames _ _ t u).
  - eapply sys_steps_stvec; [done|done|exact Hok|exact Hsteps|]. intros [? Hr]. by rewrite Hc in Hr.
Qed.

(** C3: a step changes the memory of one process at most.  Whatever happens next in
    [sys_step], a computation, a fault, an interrupt, a system call whose arguments
    [call_ok] accepts (which excludes the calls that corrupt the kernel: a [waitpid] whose
    pointer crosses a page, an [munmap] of the trap context) from a process whose trap
    context has its kernel's words, the idle loop or a key, every process
    other than the one that runs (or that the idle loop chooses) that is ready stays
    ready and keeps its address space and its kernel stack, and every byte of its memory,
    its saved registers included, is the same. *)
Theorem step_touches_one_process L st st' :
  system_ok L st → sys_step st st' →
  ∃ t, (∀ t', current (PROCESSOR (sys_kernel st)) = Some t' → t' = t) ∧
    ∀ u b, u ≠ t → stasks st !! u = Some b → task_status (inner b) = Ready →
    ∃ b', stasks st' !! u = Some b' ∧ task_status (inner b') = Ready ∧
      memory_set (inner b') = memory_set (inner b) ∧
      (∀ va, va / 4096 ∈ areas_vpns (areas (memory_set (inner b))) →
        user_byte (smm st') (memory_set (inner b)) va = user_byte (smm st) (memory_set (inner b)) va) ∧
      PARKED st' !! u = PARKED st !! u ∧ kernel_stack b' = kernel_stack b.
Proof using All. apply sys_step_kept; done. Qed.

(** ** Traps *)


(** C6: a system call gets its arguments and its result through the trap context.  For a
    call the kernel can carry out ([trap_ok]: its number is known and [call_ok] accepts its
    arguments, so that, for instance, the pointer of a [waitpid] does not cross a page) the
    handler calls [syscall] with the number in [a7] and the arguments in [a0] to [a4], in
    the state that differs only in that [stvec] is the kernel's and [sepc] of the saved
    context is 4 further, past the [ecall].  When the call returns [r], the context in memory is the one the call
    left with [r] in [a0] and all other words as they were, [stvec] is the trampoline, and control goes to
    [__restore] in the trampoline with the trap context's address and the token of the
    process's address space.  When the call switches away,
    nothing is written.  No byte of another ready process changes.  The only panic is for
    want of the frames that the call needs. *)
Theorem ecall_returns_result L st t b time :
  running L st t b → trap_ok st t b UserEnvCall →
  let ws := <[33%nat := (trap_words st b !!! 33%nat) +u 4]> (trap_words st b) in
  trap_words (entry st b) b = ws ∧
  wp (trap_handler UserEnvCall time) (λ o st', trap_done L st t o st' ∧ ∃ ctl st1,
      syscall time (ws !!! 17%nat) (ws !!! 10%nat, ws !!! 11%nat, ws !!! 12%nat, ws !!! 13%nat, ws !!! 14%nat)
        (set_stvec trap_from_kernel_addr (entry st b)) = Done ctl st1 ∧
      match o, ctl with
      | Some e, Returned r => ∃ b1, running L st1 t b1 ∧ running L st' t b1 ∧
          trap_words st' b1 = <[10%nat := as_usize r]> (trap_words st1 b1) ∧
          e = user_entry_of b1 ∧ stvec st' = TRAMPOLINE ∧ kept t st1 st'
      | None, Switched => st' = st1
      | _, _ => False
      end) (out_of_frames (trap_frames st b UserEnvCall) st) st.
Proof using All.
  intros Hr Htr ws. destruct (entry_running L st t b Hr) as (_ & Hws & _). split; [exact Hws|].
  unfold ws. rewrite <-Hws. unfold trap_handler, set_kernel_trap_entry. do 2 wp_step.
  pose proof (running_stvec _ _ _ _ trap_from_kernel_addr Hr) as Hr0.
  eapply wp_mono; [exact (env_call_spec Hst Henv L _ t b time Hr0 (trap_ok_stvec _ _ _ _ _ Htr))| |done].
  intros o st' [Hd Hres]. split; [|exact Hres]. eapply trap_done_trans; [|exact Hd]. by apply kept_refl.
Qed.

(** The exit code of a process killed for a trap. *)
Definition fault_code (scause : Trap) : option Z :=
  match scause with
  | StoreFault | StorePageFault | InstructionFault | InstructionPageFault | LoadFault | LoadPageFault => Some (-2)
  | IllegalInstruction => Some (-3)
  | _ => None
  end.

(** C27: a process that faults is killed and nobody else.  For a page or access fault (exit
    code -2) or an illegal instruction (-3) in a process other than the first, the handler
    does not panic: the process is a zombie with that exit code, its children belong to
    the first process, its pages are free again, the ready queue is as it was, the
    processor is free and the invariant of the system holds. *)
Theorem fault_kills_process L st t b scause code time :
  running L st t b → t ≠ INITPROC (sys_kernel st) → fault_code scause = Some code →
  wp (trap_handler scause time) (λ o st', o = None ∧ idle L st' ∧
      ready_queue (sys_kernel st') = ready_queue (sys_kernel st) ∧
      (∃ bi, stasks st !! INITPROC (sys_kernel st) = Some bi ∧
         exit_tasks (stasks st) t (INITPROC (sys_kernel st)) b bi code (stasks st')) ∧
      (∀ f, f ∈ areas_frames (areas (memory_set (inner b))) → ¬ in_use (smm st') f) ∧
      DISK st' = DISK st ∧ OSINODES st' = OSINODES st) no_panic st.
Proof.
  intros Hr0 Hne Hcode. unfold trap_handler, set_kernel_trap_entry. do 2 wp_step.
  pose proof (running_stvec _ _ _ _ trap_from_kernel_addr Hr0) as Hr. clear Hr0.
  change (stasks st) with (stasks (set_stvec trap_from_kernel_addr st)).
  change (sys_kernel st) with (sys_kernel (set_stvec trap_from_kernel_addr st)) in Hne |- *.
  change (DISK st) with (DISK (set_stvec trap_from_kernel_addr st)).
  change (OSINODES st) with (OSINODES (set_stvec trap_from_kernel_addr st)).
  set (st0 := set_stvec trap_from_kernel_addr st) in *. clearbody st0. clear st. rename st0 into st.
  assert (Hx : wp (with_kernel (exit_current_and_run_next code);; mret (None : option user_entry)) (λ o st',
      (o = None ∧ ready_queue (sys_kernel st') = ready_queue (sys_kernel st) ∧
      (∃ bi, stasks st !! INITPROC (sys_kernel st) = Some bi ∧
         exit_tasks (stasks st) t (INITPROC (sys_kernel st)) b bi code (stasks st')) ∧
      (∀ f, f ∈ areas_frames (areas (memory_set (inner b))) → ¬ in_use (smm st') f) ∧
      DISK st' = DISK st ∧ OSINODES st' = OSINODES st) ∧ idle L st') no_panic st).
  { apply wp_bind, wp_with_kernel. destruct Hr as [Hok Hc Hb].
    eapply wp_mono; [apply (exit_ok L (sys_kernel st) t b code); [apply Hok|done..]| |done].
    intros [] k' (Hk & Hc' & Hq & _ & (bi & Hbi & Het) & Hfree & _). wp_step. split; [by eauto 10|].
    split; [|done]. apply (system_ok_step L st t); [done..|]. by eapply tasks_step_exit. }
  destruct scause; inversion Hcode; subst code; (eapply wp_mono; [exact Hx| |done]; naive_solver).
Qed.

(** C38: a process can stop the machine with a system call number the kernel does not
    know: the handler panics, on the [match] when the number is below 500 and on the
    index into the table of counters otherwise. *)
Theorem unknown_syscall_panics L st t b time :
  running L st t b → syscall_of (call_id st b) = None →
  trap_handler UserEnvCall time st =
    Panic (if decide (call_id st b < 500) then ExplicitPanic else IndexOutOfBounds).
Proof using All.
  intros Hr Hid. destruct (wp_cases _ _ _ _ (unknown_call_spec L _ t b time (running_stvec _ _ _ _ trap_from_kernel_addr Hr) Hid)) as [(? & ? & _ & [])|(e & He & ->)].
  exact He.
Qed.

(** ** Files *)

(** C30: [read_all] is one read of the whole file.  From offset 0 its loop over blocks of
    512 bytes ends after as many iterations as the file has blocks and one more, returns
    exactly the contents of the file and leaves the offset at its end, for every fuel
    that allows these iterations; nothing else in the system changes. *)
Theorem read_all_is_whole_file st id f fuel :
  OSINODES st !! id = Some f → os_offset f = 0 →
  let data := file_data (DISK st) (os_inode f) in
  Z.of_nat (length data) < 2 ^ 64 → (length data + 512 ≤ fuel * 512)%nat →
  OSInode_read_all fuel id st = Done data (move_to id (Z.of_nat (length data)) f st).
Proof.
  intros Hf Hoff data Hlen Hfuel.
  destruct (wp_no_panic _ _ _ (read_all_loop_spec st id f [] fuel Hf ltac:(lia) Hlen ltac:(rewrite Hoff, drop_0; exact Hfuel)))
    as (r & st' & Hrun & -> & ->).
  rewrite Hoff in Hrun. simpl in Hrun. unfold OSInode_read_all. fold data in Hrun. rewrite Hrun. f_equal.
  destruct data; [|done]. change (Z.of_nat (length [])) with 0. rewrite drop_nil, <-Hoff. by rewrite move_to_same.
Qed.

(** The lowest free descriptor. *)
Lemma open_fd_spec i id :
  let '(fd, l) := open_fd i id in
  (∀ j, (j < fd)%nat → ∃ f, fd_table i !! j = Some (Some f)) ∧ fd_lookup (Z.of_nat fd) i = None ∧
  fd_lookup (Z.of_nat fd) (set_fd_table l i) = Some (OSInodeRef id) ∧
  ∀ n, 0 ≤ n → n ≠ Z.of_nat fd → fd_lookup n (set_fd_table l i) = fd_lookup n i.
Proof.
  pose proof (alloc_fd_spec i) as Ha. unfold open_fd. destruct (alloc_fd i) as [fd i'].
  destruct Ha as (Hn & Hlow & Hsame & Hlen & _). pose proof (lookup_lt_Some _ _ _ Hn) as Hlt.
  assert (Hfd : (fd ≤ length (fd_table i))%nat).
  { destruct fd as [|fd]; [lia|]. destruct (Hlow fd) as [f Hf]; [lia|]. by apply lookup_lt_Some in Hf. }
  unfold fd_lookup. simpl. rewrite length_insert. split_and!; [done|..].
  - case_match eqn:Hle; [done|]. apply Z.leb_gt in Hle. rewrite Nat2Z.id, <-Hsame by lia. by rewrite Hn.
  - case_match eqn:Hle; [apply Z.leb_le in Hle; lia|]. by rewrite Nat2Z.id, list_lookup_insert_eq.
  - intros n Hn0 Hne. rewrite list_lookup_insert_ne by lia.
    destruct (decide (Z.to_nat n < length (fd_table i))%nat).
    + rewrite Hsame by done. by rewrite !(proj2 (Z.leb_gt _ _)) by lia.
    + rewrite (proj2 (Z.leb_le (Z.of_nat (length (fd_table i))) n)) by lia.
      rewrite (proj2 (Z.leb_le (Z.of_nat (length (fd_table i'))) n)) by lia. done.
Qed.

(** C28: [open] returns the lowest free descriptor.  For a path in the memory of the caller
    and flags without unknown bits: -1 when the file is not there and was not to be
    created (or could not), with no descriptor used; otherwise the lowest number that was
    free, which now refers to a new open file on that path at offset 0, readable and
    writable as the flags say, emptied when they ask for it; the other descriptors and
    the other files are as they were. *)
Theorem open_takes_lowest_descriptor L st t b ptr path flags :
  running L st t b → path_ok (smm st) (memory_set (inner b)) ptr path →
  OpenFlags_from_bits flags = Some flags →
  wp (sys_open ptr flags) (λ r st',
    (r = -1 ∧ root_find path (DISK st) = None ∧ running L st' t b ∧
      (OpenFlags_contains flags OpenFlags_CREATE = false → st' = st)) ∨
    (∃ id i st1 b', opened st path flags id i st1 ∧ DISK st' = DISK st1 ∧ OSINODES st' = OSINODES st1 ∧
      running L st' t b' ∧ 0 ≤ r ∧
      (∀ j, 0 ≤ j < r → is_Some (fd_lookup j (inner b))) ∧ fd_lookup r (inner b) = None ∧
      fd_lookup r (inner b') = Some (OSInodeRef id) ∧
      ∀ n, 0 ≤ n → n ≠ r → fd_lookup n (inner b') = fd_lookup n (inner b))) no_panic st.
Proof.
  intros Hr Hp Hfl. eapply wp_mono; [by apply (open_call L st t b ptr path flags)| |done].
  intros r st' [_ [?|(id & i & st1 & Ho & Hres)]]; [by left|right].
  pose proof (open_fd_spec (inner b) id) as Hfd. destruct (open_fd (inner b) id) as [fd l].
  destruct Hres as (-> & Hst' & Hr'), Hfd as (Hlow & Hnone & Hnew & Hrest).
  exists id, i, st1, (map_inner (set_fd_table l) b). split_and!; try done; [by rewrite Hst'..|lia|].
  intros j Hj. destruct (Hlow (Z.to_nat j)) as [f Hf]; [lia|]. exists f. unfold fd_lookup.
  apply lookup_lt_Some in Hf as Hl. rewrite (proj2 (Z.leb_gt _ _)) by lia. by rewrite Hf.
Qed.

(** C15: what is written to a file can be read back.  Two descriptors of the process refer
    to the same file at the same offset, not past its end; [len] bytes at [p] are written
    through one and [len] bytes read to [q] through the other.  Both calls return [len]
    and the bytes at [q] are the bytes that were at [p], however the two buffers are cut
    into pages; the file itself has them at that offset and is otherwise unchanged, and so
    is the memory of every other process. *)
Theorem write_then_read_file L st t b fd fd' id id' f f' p q len :
  running L st t b → fd_lookup fd (inner b) = Some (OSInodeRef id) →
  fd_lookup fd' (inner b) = Some (OSInodeRef id') → id ≠ id' →
  OSINODES st !! id = Some f → OSINODES st !! id' = Some f' →
  os_inode f' = os_inode f → os_offset f' = os_offset f →
  buf_ok (memory_set (inner b)) p len → buf_ok (memory_set (inner b)) q len →
  let data := file_data (DISK st) (os_inode f) in
  (Z.to_nat (os_offset f) ≤ length data)%nat → Z.of_nat (length data) < 2 ^ 63 →
  file_room (DISK st) (os_inode f) (Z.to_nat (os_offset f) + Z.to_nat len) → os_offset f + len < 2 ^ 63 →
  let text := user_bytes (smm st) (memory_set (inner b)) p len in
  wp (n ← sys_write fd p len; o ← sys_read fd' q len; mret (n, o)) (λ r st',
      r = (len, Some len) ∧ running L st' t b ∧
      user_bytes (smm st') (memory_set (inner b)) q len = text ∧
      file_data (DISK st') (os_inode f) = splice (Z.to_nat (os_offset f)) text data ∧
      others_unchanged (delete t (stasks st)) (smm st) (smm st')) no_panic st.
Proof.
  intros Hr Hfd Hfd' Hne Hf Hf' Hi Ho Hp Hq data Hlen Hmax Hroom Hend text.
  pose proof Hp as (_ & Hlen0 & _). pose proof (so_offset _ _ (ru_ok _ _ _ _ Hr) _ _ Hf) as Hoff.
  eapply wp_call; [by eapply (write_file_call L st t b fd p len id f)|done|].
  intros n st1 (-> & Hr1 & Hw). fold text in Hw. destruct Hw as [Hk Hdata _ _ _ Hfiles _]. fold data in Hdata.
  assert (Hsp : length (splice (Z.to_nat (os_offset f)) text data) =
                (Z.to_nat (os_offset f) + Z.to_nat len `max` (length data - Z.to_nat (os_offset f)))%nat).
  { rewrite length_splice by done. unfold text. by rewrite length_user_bytes. }
  assert (Hf1 : OSINODES st1 !! id' = Some f') by (by rewrite Hfiles, lookup_insert_ne).
  eapply wp_call; [eapply (read_file_call L st1 t b fd' q len id' f'); [done..|]|done|].
  { rewrite Hi, Hdata, Hsp. lia. }
  rewrite Hi, Ho, Hdata. unfold read_len. rewrite Hsp.
  replace (Z.min len _) with len by lia. intros o st2 (-> & Hr2 & (s' & Hwr & ->) & _ & Hoth). wp_step.
  rewrite Hk in *. split_and!; try done.
  assert (Htl : Z.of_nat (length text) = len) by (unfold text; rewrite length_user_bytes; lia).
  rewrite <-Htl in Hwr. rewrite Hi, Ho, Hdata in Hwr. change (user_bytes s' (memory_set (inner b)) q len = text).
  rewrite <-Htl at 1. eapply user_bytes_written; [|exact Hwr|]; [rewrite Htl; apply Hq|].
  intros j Hj. simpl. rewrite <-(splice_at (Z.to_nat (os_offset f)) text data j) by lia. f_equal. lia.
Qed.

(** [write] to the console prints the bytes of the buffer.  If it returns, it returns
    the length, the screen shows the bytes of the buffer in order, however the pages cut
    them, they are valid UTF-8 and nothing else changes; it panics only when the buffer
    holds a byte above 127, so ASCII text is always printed. *)
Theorem console_write_prints L st t b fd ptr len :
  running L st t b → fd_lookup fd (inner b) = Some Stdout → buf_ok (memory_set (inner b)) ptr len →
  let text := user_bytes (smm st) (memory_set (inner b)) ptr len in
  wp (sys_write fd ptr len) (λ r st', r = len ∧ st' = set_screen (screen st ++ text) st ∧
      utf8_valid (byte.unsigned <$> text) = true ∧ running L st' t b)
    (λ e, e = UnwrapNone ∧ ∃ c, c ∈ text ∧ 128 ≤ byte.unsigned c) st.
Proof.
  intros Hr Hfd Hbuf text. destruct (write_console_call L st t b fd ptr len Hr Hfd Hbuf) as (v & Hv & <- & Hwp).
  eapply wp_mono; [exact Hwp| |].
  - intros r st' (-> & Hp & -> & Hr'). split_and!; [done|done| |done]. by eapply pieces_valid_text.
  - intros e [-> Hp]. split; [done|].
    destruct (decide (Forall (λ c, byte.unsigned c < 128) text)) as [Ha|Ha]; [by destruct Hp; eapply ascii_pieces|].
    apply not_Forall_Exists in Ha; [|apply _]. apply Exists_exists in Ha as (c & Hc & Hge). exists c. split; [done|]. simpl in Hge. lia.
Qed.

(** A character that is cut by a page boundary stops the machine.  A buffer whose two
    bytes are a well-formed two-byte character of UTF-8, the first at the end of a page
    and the second at the start of the next, makes [write] to the console panic. *)
Theorem split_character_panics L st t b fd ptr c1 c2 :
  running L st t b → fd_lookup fd (inner b) = Some Stdout → buf_ok (memory_set (inner b)) ptr 2 →
  ptr mod 4096 = 4095 → user_bytes (smm st) (memory_set (inner b)) ptr 2 = [c1; c2] →
  128 ≤ byte.unsigned c1 → utf8_valid [byte.unsigned c1; byte.unsigned c2] = true →
  sys_write fd ptr 2 st = Panic UnwrapNone.
Proof.
  intros Hr Hfd Hbuf Hend Htext H1 _.
  destruct (write_console_call L st t b fd ptr 2 Hr Hfd Hbuf) as (v & Hv & Hlen & Hwp).
  destruct (wp_cases _ _ _ _ Hwp) as [(r & st' & _ & _ & Hp & _)|(e & He & -> & _)]; [exfalso|done].
  destruct v as [|sl v]; [simpl in Hlen; lia|]. destruct Hv as (Hl & Hpg & _), Hp as [Hp _].
  replace (bs_len sl) with 1 in Hp by lia. change 2 with (1 + 1) in Htext.
  rewrite user_bytes_app in Htext by lia. change [c1; c2] with ([c1] ++ [c2]) in Htext.
  apply app_inj_1 in Htext as [Hc _]; [|by rewrite length_user_bytes]. rewrite Hc in Hp.
  cbn [fmap list_fmap utf8_valid] in Hp. by rewrite (proj2 (Z.ltb_ge _ _) H1) in Hp.
Qed.

(** C29: reading the console waits for a key, with a firmware that answers 0 when there is
    none.  When a process asks for one byte of the console, into a mapped byte of its memory
    outside the trap context, and no key was pressed, the call suspends it and the
    processor is free.  Other processes run, as [sys_step] lets them (their system calls
    have arguments that [call_ok] accepts), keys may be pressed, and the process may be
    chosen in vain, any number of times; when it comes back to user mode, it is because of a key: the key is taken
    from the keyboard and is at the address the process gave, the call has returned 1,
    and every other byte of its memory, but for its trap context, is as it was when it made the call. *)
Theorem read_waits_for_key L st t b fd ptr :
  no_key = 0 → running L st t b → fd_lookup fd (inner b) = Some Stdin → buf_ok (memory_set (inner b)) ptr 1 →
  ptr / 4096 ≠ TRAP_VPN → next_answer st = 0 → ∃ st1,
  sys_read fd ptr 1 st = Done None st1 ∧ idle L st1 ∧
  ∀ st2 e st3, rtc (others_step t) st1 st2 → current (PROCESSOR (sys_kernel st2)) = None →
    run_tasks_step st2 = Done (Some e) st3 → current (PROCESSOR (sys_kernel st3)) = Some t →
    ∃ b3 c, running L st3 t b3 ∧ e = user_entry_of b3 ∧ memory_set (inner b3) = memory_set (inner b) ∧
      c ≠ 0 ∧ keyboard st2 = c :: keyboard st3 ∧ trap_words st3 b3 !!! 10%nat = 1 ∧
      ∀ va, va / 4096 ∈ areas_vpns (areas (memory_set (inner b))) → va / 4096 ≠ TRAP_VPN →
        user_byte (smm st3) (memory_set (inner b)) va =
          if decide (va = ptr) then Some (byte.of_Z c) else user_byte (smm st) (memory_set (inner b)) va.
Proof using All. by apply (read_waits_spec Hst Henv). Qed.

(** A file that was opened for reading only is written all the same. *)
Theorem read_only_file_written L st t b fd id f ptr len :
  running L st t b → fd_lookup fd (inner b) = Some (OSInodeRef id) → OSINODES st !! id = Some f →
  os_writable f = false → buf_ok (memory_set (inner b)) ptr len →
  let data := file_data (DISK st) (os_inode f) in
  let text := user_bytes (smm st) (memory_set (inner b)) ptr len in
  (Z.to_nat (os_offset f) ≤ length data)%nat → os_offset f + len < 2 ^ 63 →
  file_room (DISK st) (os_inode f) (Z.to_nat (os_offset f) + Z.to_nat len) →
  wp (sys_write fd ptr len) (λ r st', r = len ∧
    file_data (DISK st') (os_inode f) = splice (Z.to_nat (os_offset f)) text data) no_panic st.
Proof.
  intros Hr Hfd Hf _ Hp data text Hlen Hend Hroom. pose proof Hp as (_ & Hlen0 & _).
  pose proof (so_offset _ _ (ru_ok _ _ _ _ Hr) _ _ Hf) as Hoff.
  eapply wp_mono; [by eapply (write_file_call L st t b fd ptr len id f)| |done].
  intros n st1 (-> & _ & Hw). by split; [|apply Hw].
Qed.

(** ** Programs *)

(** C8: [exec] replaces the program.  For a path in the memory of the caller that names
    no file it returns -1 and changes nothing.  When the file is a program the loader
    accepts, the call returns 0 and the process, with the same pid, kernel stack, files
    and family, has an address space that holds the segments of that file; its trap
    context enters the program at its entry point with the stack pointer at the top of
    the new stack; the frames of the old address space are free, the disk is as it was
    and no other process changes.  The only panic is for want of frames: when the file
    exists and fewer frames are free than three and three for each page of the program.
    (A file that is not a program the loader accepts, [program_ok], is left out.) *)
Theorem exec_replaces_program L st t b ptr path :
  running L st t b → path_ok (smm st) (memory_set (inner b)) ptr path → program_ok st path →
  wp (sys_exec ptr) (λ r st',
    (root_find path (DISK st) = None ∧ r = -1 ∧ st' = st) ∨
    (∃ i elf phs b', root_find path (DISK st) = Some i ∧ elf_ok (file_data (DISK st) i) elf phs ∧ r = 0 ∧
       running L st' t b' ∧ pid b' = pid b ∧ kernel_stack b' = kernel_stack b ∧
       inner b' = set_trap_cx_ppn (trap_cx_ppn (inner b')) (set_memory_set (memory_set (inner b')) (inner b)) ∧
       program_start (file_data (DISK st) i) elf phs (MemorySet_token (KERNEL_SPACE (k_mem (sys_kernel st'))))
         (KernelStack_get_top (kernel_stack b')) (smm st') (inner b') ∧
       (∀ f, f ∈ task_frames b → ¬ in_use (smm st') f) ∧ DISK st' = DISK st ∧
       others_unchanged (delete t (stasks st)) (smm st) (smm st')))
    (λ e, e = UnwrapNone ∧ ∃ i elf phs, root_find path (DISK st) = Some i ∧ elf_ok (file_data (DISK st) i) elf phs ∧
       (free_frames (smm st) < 3 + 3 * length (segs_vpns (elf_layout (file_data (DISK st) i) (loads phs))))%nat) st.
Proof using All.
  intros Hr Hpath Hprog. eapply wp_mono; [by apply (exec_call Hst Henv L st t b ptr path)| |].
  - by intros r st' [_ Hres].
  - intros e (-> & n & (i & elf & phs & Hi & He & ->) & Hlt). split; [done|]. by exists i, elf, phs.
Qed.

End Properties.

(** ** A machine with a file system in memory *)

Record demo_disk : Type := mkDisk { dd_names : list (list byte * nat); dd_files : list (list byte) }.
#[global] Instance demo_disk_eq_dec : EqDecision demo_disk.
Proof. solve_decision. Defined.

Definition dd_find (p : list byte) (d : demo_disk) : option nat :=
  match list_find (λ e : list byte * nat, e.1 = p) (dd_names d) with
  | Some (_, (_, i)) => Some i
  | None => None
  end.
Definition dd_data (d : demo_disk) (i : nat) : list byte := default [] (dd_files d !! i).
Definition dd_set (i : nat) (l : list byte) (d : demo_disk) : demo_disk :=
  mkDisk (dd_names d) (<[i := l]> (dd_files d)).

Definition demo_fs : EasyFs := {|
  disk := demo_disk; Inode := nat; root_find := dd_find;
  root_create p d := let i := length (dd_files d) in
    (Some i, mkDisk ((p, i) :: dd_names d) (dd_files d ++ [[]]));
  root_linkat old new d := match dd_find old d with
    | Some i => (0, mkDisk ((new, i) :: dd_names d) (dd_files d)) | None => (-1, d) end;
  root_unlinkat p d := match dd_find p d with
    | Some _ => (0, mkDisk (filter (λ e : list byte * nat, e.1 ≠ p) (dd_names d)) (dd_files d))
    | None => (-1, d) end;
  root_find_inode_id_by_block blk _ _ := Some blk;
  inode_clear i d := dd_set i [] d;
  inode_read_at i off n d := take n (drop (Z.to_nat off) (dd_data d i));
  inode_write_at i off l d := (Z.of_nat (length l), dd_set i (splice (Z.to_nat off) l (dd_data d i)) d);
  inode_get_nlink i d := Z.of_nat (length (filter (λ e : list byte * nat, e.2 = i) (dd_names d)));
  inode_get_block_metadata i _ := (Z.of_nat i, 0);
  inode_find_file_type _ _ := INODE_FILE;
|}.

Lemma dd_data_set i l d j :
  dd_data (dd_set i l d) j = if decide (i = j ∧ (i < length (dd_files d))%nat) then l else dd_data d j.
Proof.
  unfold dd_data, dd_set. simpl. case_decide as Hd.
  - destruct Hd as [<- Hl]. by rewrite list_lookup_insert_eq.
  - destruct (decide (i = j)) as [<-|Hne]; [|by rewrite list_lookup_insert_ne].
    by rewrite list_insert_ge by naive_solver lia.
Qed.

Definition demo_fs_laws : @EasyFsLaws demo_fs.
Proof.
  refine (@Build_EasyFsLaws demo_fs dd_data (λ d i _, (i < length (dd_files d))%nat) _ _ _ _ _).
  - done.
  - intros d i off l _ _ Hi. simpl. split_and!; [done|by rewrite dd_data_set, decide_True|..|done].
    + intros j Hj. rewrite dd_data_set, decide_False; naive_solver.
    + intros j _. simpl. by rewrite length_insert.
  - intros d i. simpl. split_and!; [| |done].
    + rewrite dd_data_set. case_decide as Hd; [done|]. unfold dd_data. by rewrite lookup_ge_None_2 by naive_solver lia.
    + intros j Hj. rewrite dd_data_set, decide_False; naive_solver.
  - intros d p _. simpl. split_and!.
    + unfold dd_find. simpl. by rewrite decide_True.
    + unfold dd_data. simpl. by rewrite list_lookup_middle.
    + intros q Hq. unfold dd_find. simpl. rewrite decide_False by done.
      by destruct (list_find _ (dd_names d)) as [[? []]|].
    + intros j Hj. unfold dd_data. simpl. destruct (decide (j < length (dd_files d))%nat).
      * by rewrite lookup_app_l.
      * rewrite !lookup_ge_None_2; [done|lia|]. rewrite length_app. simpl. lia.
  - done.
Defined.

Definition demo_env : SystemEnv := {|
  se_kernel := boot_env; se_fs := demo_fs; se_input := 0; sys_fuel := 4; TaskInfo_repr _ := [];
  alltraps_addr := 0x87fbc000; restore_addr := 0x87fbc0a8;
  trap_from_kernel_addr := 0x87fbc200 |}.
#[local] Existing Instance demo_env.
#[local] Instance demo_laws : EasyFsLaws := demo_fs_laws.

(** One file, with the empty name: the program of the first process. *)
Definition demo_files : demo_disk := mkDisk [([], 0%nat)] [demo_elf_data].

(** The kernel is up, and the first process is in user mode. *)
Definition demo_start : M mm (option user_entry * system) :=
  k ← boot_kernel 0x87fbf000 demo_elf_data;
  with_statics (λ _, boot_system 0 k demo_files) run_tasks_step (λ st, km_mm (k_mem (sys_kernel st))).

Definition start_check (st : system) (b : TaskControlBlock) : Prop :=
  current (PROCESSOR (sys_kernel st)) = Some 0%nat ∧ (DISK st : demo_disk) = demo_files ∧ next_osinode st = 0%nat ∧
  pa_current (PID_ALLOCATOR (k_mem (sys_kernel st))) = 1 ∧
  free_frames (km_mm (k_mem (sys_kernel st))) = 46%nat ∧
  areas_vpns (areas (memory_set (inner b))) = [0; 2; 3; TRAP_VPN] ∧
  fd_table (inner b) = boot_files ∧
  user_byte (km_mm (k_mem (sys_kernel st))) (memory_set (inner b)) 0x2ff0 = Some Corelib.Init.Byte.x00 ∧
  trap_words st b !!! 17%nat = 0.
#[global] Instance FileRef_eq_dec : EqDecision FileRef.
Proof. solve_decision. Defined.
#[global] Instance start_check_dec st b : Decision (start_check st b).
Proof. unfold start_check. apply _. Defined.

(** A test of the started system by evaluation. *)
Definition demo_test (P : system → TaskControlBlock → bool) : bool :=
  match demo_start power_on with
  | Done (Some _, st) _ => match TASKS (sys_kernel st) !! 0%nat with
                           | Some b => bool_decide (start_check st b) && P st b | None => false end
  | _ => false
  end.

Lemma demo_boot_with P :
  demo_test P = true →
  ∃ L o st b s, demo_start power_on = Done (o, st) s ∧ running L st 0 b ∧ start_check st b ∧ P st b = true.
Proof.
  unfold demo_test. destruct (demo_start power_on) as [[[e|] st] s| |] eqn:Hrun; [|discriminate..].
  destruct (TASKS (sys_kernel st) !! 0%nat) as [b|] eqn:Hb; [|discriminate]. intros [Hd HP]%andb_prop.
  apply bool_decide_eq_true in Hd.
  assert (Hwp : wp demo_start (λ r _, ∃ L st, resumed L st r.1 r.2) (λ e, e = UnwrapNone) power_on).
  { unfold demo_start. eapply wp_call; [eapply (@boot_kernel_spec boot_env boot_strampoline 0x87fbf000 demo_elf_data
      demo_elf [demo_ph] power_on boot_layout_ok eq_refl eq_refl eq_refl boot_env_ok boot_elf_ok eq_refl)|done|].
    clear. intros k s (ks & b & m & Hok & Hk & _ & Hfr & _). apply wp_with_statics.
    assert (Hidle : idle (boot_layout ks) (boot_system 0 k demo_files)).
    { split; [|by subst k]. eapply boot_system_ok; [exact Hok| |by eapply fresh_proc_ok]. by subst k. }
    eapply wp_mono; [exact (@run_tasks_spec demo_env _ _ Hidle)| |intros e []].
    intros o st Hr. eexists (boot_layout ks), _. exact Hr. }
  destruct (wp_elim _ _ _ _ _ _ Hwp Hrun) as (L & stb & t & [b' Hr] & _). cbn [fst snd] in Hr.
  exists L, (Some e), st, b, s. split; [reflexivity|]. split; [|split; [exact Hd|exact HP]].
  pose proof (proj1 Hd) as Hc. split; [apply Hr|exact Hc|exact Hb].
Qed.

Lemma demo_boot : ∃ L o st b s, demo_start power_on = Done (o, st) s ∧ running L st 0 b ∧ start_check st b.
Proof.
  destruct (demo_boot_with (λ _ _, true)) as (L & o & st & b & s & Hrun & Hr & Hd & _).
  { vm_compute. reflexivity. }
  exists L, o, st, b, s. split; [exact Hrun|]. split; [exact Hr|exact Hd].
Qed.

Lemma demo_started : ∃ L st b, running L st 0 b ∧ start_check st b.
Proof. destruct demo_boot as (L & _ & st & b & _ & _ & Hr & Hd). exists L, st, b. split; [exact Hr|exact Hd]. Qed.

(** The user stack of the first process: pages 2 and 3. *)
Lemma demo_buf st b ptr len :
  start_check st b → 0x2000 ≤ ptr → 0 ≤ len → ptr + len ≤ 0x4000 → buf_ok (memory_set (inner b)) ptr len.
Proof.
  intros (_ & _ & _ & _ & _ & Hvp & _) Hp Hl He. split_and!; [lia|lia|lia|]. intros va Hva. rewrite Hvp.
  assert (va / 4096 = 2 ∨ va / 4096 = 3) as [-> | ->] by (Z.div_mod_to_equations; lia); [right; left|].
  right. right. left.
Qed.

(** The empty path, in zeroed stack memory. *)
Lemma demo_path st b :
  start_check st b → path_ok (km_mm (k_mem (sys_kernel st))) (memory_set (inner b)) 0x2ff0 [].
Proof.
  intros Hd. pose proof (demo_buf st b 0x2ff0 1 Hd ltac:(lia) ltac:(lia) ltac:(lia)) as (_ & _ & _ & Hr).
  destruct Hd as (_ & _ & _ & _ & _ & _ & _ & Hz & _).
  split; [simpl; lia|exact Hr|split; [done|exact Hz]|simpl; lia].
Qed.

(** The file it names. *)
Lemma demo_program (st : system) (b : TaskControlBlock) :
  start_check st b → root_find [] (DISK st) = Some 0%nat ∧ file_data (DISK st) 0%nat = demo_elf_data.
Proof.
  intros (_ & Hdisk & _). assert (E : DISK st = demo_files) by exact Hdisk.
  rewrite E. split; reflexivity.
Qed.

Definition demo_words (st : system) (b : TaskControlBlock) : bool :=
  bool_decide (trap_words st b !!! 34%nat = MemorySet_token (KERNEL_SPACE (k_mem (sys_kernel st))) ∧
    trap_words st b !!! 35%nat = KernelStack_get_top (kernel_stack b) ∧
    trap_words st b !!! 36%nat = trap_handler_addr).

Lemma demo_words_ok st b : demo_words st b = true → kernel_words st b.
Proof. intros (H34 & H35 & H36)%bool_decide_eq_true. split; [exact H34|exact H35|exact H36]. Qed.

(** A second process is running. *)
Definition demo_second : M system (option user_entry) :=
  with_kernel sys_fork;; park ResumeYield;; run_tasks_step.

Lemma demo_second_ok L st b :
  running L st 0 b → start_check st b → wp demo_second (λ o st', ∃ st2, resumed L st2 o st') (λ _, True) st.
Proof.
  intros Hr (_ & _ & _ & Hpid & _). unfold demo_second.
  eapply wp_call; [apply (@fork_call demo_env boot_strampoline L st 0 b Hr)|done|].
  { rewrite Hpid. split; vm_compute; congruence. }
  intros _ st1 [[b1 Hr1] _]. eapply wp_call; [by apply (@park_parks demo_env L st1 0 b1 ResumeYield)|by intros e []|].
  intros [] st2 [[Hi _] _]. eapply wp_mono; [by apply (@run_tasks_spec demo_env L st2)| |done].
  intros o st3 Hres. by exists st2.
Qed.

Lemma demo_two : ∃ L st b, running L st 1 b ∧ INITPROC (sys_kernel st) = 0%nat ∧
  kernel_words st b ∧ ∃ b0, TASKS (sys_kernel st) !! 0%nat = Some b0 ∧ task_status (inner b0) = Ready.
Proof.
  destruct (done_inv (('(_, st) ← demo_start; with_statics (λ _, st) demo_second (λ st, km_mm (k_mem (sys_kernel st)))) power_on)
    (λ r _, bool_decide (is_Some r.1 ∧ current (PROCESSOR (sys_kernel r.2)) = Some 1%nat ∧
                         INITPROC (sys_kernel r.2) = 0%nat ∧
                         (task_status ∘ inner <$> TASKS (sys_kernel r.2) !! 0%nat) = Some Ready) &&
              match TASKS (sys_kernel r.2) !! 1%nat with Some b => demo_words r.2 b | None => false end))
    as ([o st] & s & Hrun & Hd).
  { vm_compute. reflexivity. }
  apply andb_prop in Hd as [Hd Hkw].
  apply bool_decide_eq_true in Hd as ([e He] & Hc & Hi & Hs). cbn [fst snd] in He, Hc, Hi, Hs, Hkw. subst o.
  assert (Hwp : wp ('(_, st) ← demo_start; with_statics (λ _, st) demo_second (λ st, km_mm (k_mem (sys_kernel st))))
                  (λ r _, ∃ L st2, resumed L st2 r.1 r.2) (λ _, True) power_on).
  { destruct demo_boot as (L & o & st0 & b & s0 & Hdr & Hr & Hd). apply wp_bind. unfold wp at 1. rewrite Hdr.
    apply wp_with_statics. eapply wp_mono; [exact (demo_second_ok L st0 b Hr Hd)| |done].
    intros o' st' [st2 Hres]. by exists L, st2. }
  destruct (wp_elim _ _ _ _ _ _ Hwp Hrun) as (L & st2 & t & [b Hr] & _). cbn [fst snd] in Hr.
  pose proof Hr as [_ Hc' _]. rewrite Hc in Hc'. injection Hc' as <-. exists L, st, b. split; [exact Hr|]. split; [exact Hi|].
  rewrite (ru_block _ _ _ _ Hr) in Hkw. split; [exact (demo_words_ok st b Hkw)|].
  apply fmap_Some in Hs as (b0 & Hb0 & Hs). exists b0. split; [exact Hb0|exact (eq_sym Hs)].
Qed.

(** ** Witnesses *)

(** With two processes, the one that runs faults; the first process does not notice. *)
Lemma step_touches_one_process_witness :
  ∃ L st b st' b0, running L st 1 b ∧ trap_handler StorePageFault 0 st = Done None st' ∧ sys_step st st' ∧
    TASKS (sys_kernel st') !! 0%nat = Some b0 ∧ task_status (inner b0) = Ready.
Proof.
  destruct demo_two as (L & st & b & Hr & Hi & Hkw & b1 & Hb1 & Hready).
  assert (Hne : 1%nat ≠ INITPROC (sys_kernel st)) by (rewrite Hi; discriminate).
  assert (Htr : trap_admitted st 1 b StorePageFault) by (intros Hno; discriminate Hno).
  destruct (wp_no_panic _ _ _ (@exit_call demo_env L _ 1 b (-2) (running_stvec _ _ _ _ trap_from_kernel_addr Hr) Hne)) as ([] & st' & Hrun & _).
  assert (Hstep : trap_handler StorePageFault 0 st = Done None st').
  { unfold trap_handler, set_kernel_trap_entry, modify, mbind, M_bind. rewrite Hrun. reflexivity. }
  pose proof (step_trap st 1 b StorePageFault 0 None st' (ru_current _ _ _ _ Hr) (ru_block _ _ _ _ Hr) Htr Hkw Hstep) as Hs.
  destruct (@step_touches_one_process demo_env demo_laws boot_strampoline boot_env_ok L st st' (ru_ok _ _ _ _ Hr) Hs)
    as (t & Ht & Hkept).
  rewrite <-(Ht 1%nat (ru_current _ _ _ _ Hr)) in Hkept.
  destruct (Hkept 0%nat b1 ltac:(discriminate) Hb1 Hready) as (b0 & Hb0 & Hr0 & _).
  exists L, st, b, st', b0. split; [exact Hr|]. split; [exact Hstep|]. split; [exact Hs|]. split; [exact Hb0|exact Hr0].
Defined.


Lemma unknown_syscall_panics_witness :
  ∃ L st b, running L st 0 b ∧ trap_handler UserEnvCall 0 st = Panic ExplicitPanic.
Proof.
  destruct demo_started as (L & st & b & Hr & _ & _ & _ & _ & _ & _ & _ & _ & Ha7). exists L, st, b. split; [exact Hr|].
  destruct (@entry_running demo_env L st 0 b Hr) as (_ & Hw & _).
  assert (Hid : call_id st b = 0).
  { unfold call_id. rewrite Hw, list_lookup_total_insert_ne by lia. exact Ha7. }
  rewrite (@unknown_syscall_panics demo_env demo_laws boot_strampoline boot_env_ok L st 0 b 0 Hr); rewrite Hid; reflexivity.
Defined.

(** The first process asks for its pid. *)
Lemma ecall_returns_result_witness :
  ∃ L st b, running L st 0 b ∧ trap_words st b !!! 17%nat = SYSCALL_GETPID ∧
    wp (trap_handler UserEnvCall 0) (λ o st', trap_done L st 0 o st') no_panic st.
Proof.
  destruct demo_started as (L & st0 & b & Hr0 & _).
  destruct (@running_trap_word demo_env L st0 0 b 17 SYSCALL_GETPID Hr0 ltac:(lia) ltac:(split; vm_compute; congruence))
    as (Hr & Hw & _).
  match type of Hr with running _ ?s _ _ => set (st := s) in Hr, Hw end. clearbody st.
  assert (Ha7 : trap_words st b !!! 17%nat = SYSCALL_GETPID).
  { rewrite Hw. apply list_lookup_total_insert_eq. unfold trap_words. rewrite length_load_words. lia. }
  exists L, st, b. split; [exact Hr|]. split; [exact Ha7|].
  destruct (@entry_running demo_env L st 0 b Hr) as (_ & He & _).
  assert (Hid : syscall_of (call_id st b) = Some GetPid).
  { unfold call_id. rewrite He, list_lookup_total_insert_ne, Ha7 by lia. reflexivity. }
  assert (Htr : trap_ok st 0 b UserEnvCall).
  { exists GetPid. split; [exact Hid|by destruct (call_args st b) as [[[[? ?] ?] ?] ?]]. }
  eapply wp_mono; [exact (proj2 (@ecall_returns_result demo_env demo_laws boot_strampoline boot_env_ok L st 0 b 0 Hr Htr))| |].
  - intros o st' [Hd _]. exact Hd.
  - intros e (_ & n & (_ & c & Hc & Hn) & _). rewrite Hid in Hc. injection Hc as <-.
    by destruct (call_args st b) as [[[[? ?] ?] ?] ?].
Defined.

Lemma open_takes_lowest_descriptor_witness :
  ∃ L st b st' b', running L st 0 b ∧ sys_open 0x2ff0 OpenFlags_RDONLY st = Done 3 st' ∧ running L st' 0 b'.
Proof.
  destruct demo_started as (L & st & b & Hr & Hd).
  destruct (wp_no_panic _ _ _ (@open_takes_lowest_descriptor demo_env demo_laws L st 0 b 0x2ff0 [] OpenFlags_RDONLY Hr
    (demo_path st b Hd) eq_refl)) as (r & st' & Hrun & Hres).
  pose proof Hd as (_ & _ & _ & _ & _ & _ & Hfd & _).
  destruct Hres as [(_ & Hn & _)|(id & i & st1 & b' & _ & _ & _ & Hr' & Hr0 & Hlow & Hnone & _)].
  { exfalso. rewrite (proj1 (demo_program st b Hd)) in Hn. discriminate Hn. }
  exists L, st, b, st', b'. split; [exact Hr|]. split; [|exact Hr']. rewrite Hrun. f_equal.
  destruct (Z_lt_le_dec 3 r) as [Hlt|Hle].
  - exfalso. destruct (Hlow 3 ltac:(lia)) as [f Hf]. unfold fd_lookup in Hf. rewrite Hfd in Hf. discriminate Hf.
  - assert (r = 0 ∨ r = 1 ∨ r = 2 ∨ r = 3) as [-> |[-> |[-> | ->]]] by lia; [exfalso..|reflexivity];
      unfold fd_lookup in Hnone; rewrite Hfd in Hnone; discriminate Hnone.
Defined.

Lemma console_write_prints_witness :
  ∃ L st b, running L st 0 b ∧
    wp (sys_write 1 0x2ff0 1) (λ r st', r = 1 ∧ screen st' = screen st ++ [Corelib.Init.Byte.x00]) no_panic st.
Proof.
  destruct demo_started as (L & st & b & Hr & Hd). exists L, st, b. split; [exact Hr|].
  pose proof Hd as (_ & _ & _ & _ & _ & _ & Hfd & Hz & _).
  assert (Ht : user_bytes (km_mm (k_mem (sys_kernel st))) (memory_set (inner b)) 0x2ff0 1 = [Corelib.Init.Byte.x00]).
  { unfold user_bytes. change (seqZ 0x2ff0 1) with [0x2ff0]. cbn [fmap list_fmap]. rewrite Hz. reflexivity. }
  eapply wp_mono; [exact (@console_write_prints demo_env L st 0 b 1 0x2ff0 1 Hr
    ltac:(unfold fd_lookup; rewrite Hfd; reflexivity) (demo_buf st b 0x2ff0 1 Hd ltac:(lia) ltac:(lia) ltac:(lia)))| |].
  - intros r st' (Hlen & -> & _). split; [exact Hlen|]. rewrite Ht. reflexivity.
  - intros e (_ & c & Hc & Hge). rewrite Ht in Hc. apply list_elem_of_singleton in Hc. rewrite Hc in Hge.
    vm_compute in Hge. apply Hge. reflexivity.
Defined.

Lemma exec_replaces_program_witness :
  ∃ L st b, running L st 0 b ∧ root_find [] (DISK st) = Some 0%nat ∧
    wp (sys_exec 0x2ff0) (λ r st', r = 0 ∧ ∃ b', running L st' 0 b') no_panic st.
Proof.
  destruct demo_started as (L & st & b & Hr & Hd). exists L, st, b. split; [exact Hr|].
  destruct (demo_program st b Hd) as [Hfind Hdata].
  assert (Hprog : program_ok st []).
  { intros i Hi. rewrite Hfind in Hi. injection Hi as <-. cbv zeta. rewrite Hdata. split; [exists demo_elf, [demo_ph]; exact boot_elf_ok|]. split; vm_compute; [congruence|lia]. }
  split; [exact Hfind|].
  eapply wp_mono; [exact (@exec_replaces_program demo_env demo_laws boot_strampoline boot_env_ok L st 0 b 0x2ff0 [] Hr
    (demo_path st b Hd) Hprog)| |].
  - intros r st' [(Hn & _)|(i & elf & phs & b' & _ & _ & -> & Hr' & _)].
    + exfalso. rewrite Hfind in Hn. discriminate Hn.
    + split; [reflexivity|]. exists b'. exact Hr'.
  - intros e (_ & i & elf & phs & Hi & [Hparse _ Hhead _ _ _ _ _] & Hlt). rewrite Hfind in Hi. injection Hi as <-.
    rewrite Hdata in Hparse, Hlt. change (Some demo_elf = Some elf) in Hparse. injection Hparse as <-.
    change (Some [demo_ph] = Some phs) in Hhead. injection Hhead as <-.
    pose proof Hd as (_ & _ & _ & _ & Hfree & _). unfold no_panic. rewrite Hfree in Hlt.
    apply Nat.ltb_lt in Hlt. vm_compute in Hlt. discriminate Hlt.
Defined.

Lemma read_all_is_whole_file_witness :
  ∃ (st : system) f st', OSINODES st !! 0%nat = Some f ∧ OSInode_read_all 2 0 st = Done demo_elf_data st'.
Proof.
  destruct demo_started as (L & st & b & _ & Hd). destruct (demo_program st b Hd) as [_ Hdata].
  set (f := mkOSInode (@se_fs demo_env) true false 0 0%nat).
  exists (set_OSINODES {[ 0%nat := f ]} st), f. eexists. split; [exact (lookup_singleton_eq 0%nat f)|]. rewrite <-Hdata.
  apply (@read_all_is_whole_file demo_env demo_laws (set_OSINODES {[ 0%nat := f ]} st) 0 f 2
    (lookup_singleton_eq 0%nat f) eq_refl);
    change (os_inode f) with 0%nat; change (DISK (set_OSINODES _ st)) with (DISK st); rewrite Hdata; vm_compute;
    [congruence|lia].
Defined.

Lemma fault_kills_process_witness :
  ∃ L st b st', running L st 1 b ∧ trap_handler StorePageFault 0 st = Done None st' ∧ idle L st'.
Proof.
  destruct demo_two as (L & st & b & Hr & Hi & _). exists L, st, b.
  destruct (wp_no_panic _ _ _ (@fault_kills_process demo_env L st 1 b StorePageFault (-2) 0 Hr
    ltac:(rewrite Hi; discriminate) eq_refl)) as (o & st' & Hrun & -> & Hidle & _).
  exists st'. split; [exact Hr|]. split; [exact Hrun|exact Hidle].
Defined.

Lemma split_character_panics_witness :
  ∃ L st b, running L st 0 b ∧ sys_write 1 0x2fff 2 st = Panic UnwrapNone.
Proof.
  destruct demo_started as (L & st & b & Hr & Hd). pose proof Hd as (_ & _ & _ & _ & _ & _ & Hfd & _).
  pose proof (demo_buf st b 0x2fff 2 Hd ltac:(lia) ltac:(lia) ltac:(lia)) as Hbuf.
  pose proof Hbuf as (_ & _ & _ & Hrange). destruct (ru_live _ _ _ _ Hr) as [[Hms Hfr _] _].
  set (l := [Corelib.Init.Byte.xc3; Corelib.Init.Byte.xa9]).
  destruct (wp_no_panic _ _ _ (write_bytes_spec _ _ _ 0x2fff (bytes_at l) 2 Hms Hfr ltac:(lia) ltac:(lia) ltac:(lia) Hrange))
    as ([] & s' & _ & Hw).
  destruct (@running_memory demo_env L st 0 b _ _ _ _ Hr Hw) as [Hr' _].
  exists L, (set_memory s' st), b. split; [exact Hr'|].
  exact (@split_character_panics demo_env L (set_memory s' st) 0 b 1 0x2fff Corelib.Init.Byte.xc3 Corelib.Init.Byte.xa9 Hr'
    ltac:(unfold fd_lookup; rewrite Hfd; reflexivity) Hbuf eq_refl
    (user_bytes_written _ _ _ 0x2fff (bytes_at l) s' l Hrange Hw (λ i _, eq_refl))
    ltac:(vm_compute; congruence) eq_refl).
Defined.

(** The file is opened without being emptied. *)
Lemma demo_open L (st : system) b flags :
  running L st 0 b → path_ok (km_mm (k_mem (sys_kernel st))) (memory_set (inner b)) 0x2ff0 [] →
  OpenFlags_from_bits flags = Some flags → truncates flags = false → (DISK st : demo_disk) = demo_files →
  ∃ st' b' id n f, running L st' 0 b' ∧ memory_set (inner b') = memory_set (inner b) ∧
    k_mem (sys_kernel st') = k_mem (sys_kernel st) ∧ DISK st' = DISK st ∧
    0 ≤ n ∧ fd_lookup n (inner b') = Some (OSInodeRef id) ∧ fd_lookup n (inner b) = None ∧
    (∀ j, 0 ≤ j → j ≠ n → fd_lookup j (inner b') = fd_lookup j (inner b)) ∧
    OSINODES st !! id = None ∧ OSINODES st' = <[id := f]> (OSINODES st) ∧ os_inode f = 0%nat ∧ os_offset f = 0.
Proof.
  intros Hr Hp Hfl Htr Hdisk.
  destruct (wp_no_panic _ _ _ (@open_call demo_env demo_laws L st 0 b 0x2ff0 [] flags Hr Hp Hfl)) as (r & st' & _ & _ & Hres).
  assert (Hfind : root_find [] (DISK st) = Some 0%nat) by (by change (dd_find [] (DISK st) = Some 0%nat); rewrite Hdisk).
  destruct Hres as [(_ & Hn & _)|(id & i & st1 & Ho & Hres)]; [exfalso; rewrite Hfind in Hn; discriminate Hn|].
  pose proof (open_fd_spec (inner b) id) as Hfd. destruct (open_fd (inner b) id) as [fd l].
  destruct Hres as (_ & -> & Hr'), Hfd as (_ & Hnone & Hnew & Hrest).
  destruct Ho as [[-> _] Hfile _ Hold _ _ Hsame _].
  assert (Hi : i = 0%nat).
  { destruct Hold as [Hold|[Hold _]]; rewrite Hfind in Hold; [injection Hold as <-; done|discriminate Hold]. }
  eexists _, _, (next_osinode st), (Z.of_nat fd), _. split; [exact Hr'|]. split; [done|]. split; [done|].
  split; [exact (Hsame Htr)|]. split; [lia|]. split; [exact Hnew|]. split; [exact Hnone|]. split; [exact Hrest|].
  split; [|split; [exact Hfile|split; [exact Hi|done]]].
  destruct (OSINODES st !! next_osinode st) eqn:E; [|done].
  pose proof (so_fresh _ _ (ru_ok _ _ _ _ Hr) (next_osinode st) (mk_is_Some _ _ E)). lia.
Qed.

Lemma write_then_read_file_witness :
  ∃ L st b fd fd', running L st 0 b ∧
    wp (n ← sys_write fd 0x2ff0 2; o ← sys_read fd' 0x2fff 2; mret (n, o)) (λ r _, r = (2, Some 2)) no_panic st.
Proof.
  destruct demo_started as (L & st0 & b0 & Hr0 & Hd). pose proof Hd as (_ & Hdisk & _).
  pose proof (demo_path st0 b0 Hd) as Hp0.
  destruct (demo_open L st0 b0 OpenFlags_RDWR Hr0 Hp0 eq_refl eq_refl Hdisk)
    as (st1 & b1 & id & n & f & Hr1 & Hms1 & Hk1 & Hd1 & Hn0 & Hn & Hfree & _ & Hid & Hf1 & Hi & Hoff).
  destruct (demo_open L st1 b1 OpenFlags_RDONLY Hr1 ltac:(rewrite Hk1, Hms1; exact Hp0) eq_refl eq_refl ltac:(rewrite Hd1; exact Hdisk))
    as (st & b & id' & n' & f' & Hr & Hms & Hk & Hd2 & _ & Hn' & Hfree' & Hrest & Hid' & Hf2 & Hi' & Hoff').
  exists L, st, b, n, n'. split; [exact Hr|].
  assert (Hne : id ≠ id') by (intros <-; rewrite Hf1, lookup_insert_eq in Hid'; discriminate Hid').
  assert (Hnn : n ≠ n') by (intros <-; rewrite Hn in Hfree'; discriminate Hfree').
  assert (HD : file_data (DISK st) 0%nat = demo_elf_data) by (rewrite Hd2, Hd1; exact (proj2 (demo_program st0 b0 Hd))).
  assert (Hbuf : ∀ p, 0x2000 ≤ p → p + 2 ≤ 0x4000 → buf_ok (memory_set (inner b)) p 2)
    by (intros p H1 H2; rewrite Hms, Hms1; exact (demo_buf st0 b0 p 2 Hd H1 ltac:(lia) H2)).
  eapply wp_mono; [apply (@write_then_read_file demo_env demo_laws L st 0 b n n' id id' f f' 0x2ff0 0x2fff 2 Hr)| |].
  - rewrite Hrest by done. exact Hn.
  - exact Hn'.
  - exact Hne.
  - rewrite Hf2, lookup_insert_ne, Hf1 by (exact (not_eq_sym Hne)). apply lookup_insert_eq.
  - rewrite Hf2. apply lookup_insert_eq.
  - rewrite Hi, Hi'. reflexivity.
  - rewrite Hoff, Hoff'. reflexivity.
  - apply Hbuf; lia.
  - apply Hbuf; lia.
  - rewrite Hi, HD, Hoff. simpl. lia.
  - rewrite Hi, HD. vm_compute. reflexivity.
  - rewrite Hi, Hd2, Hd1. assert (E : DISK st0 = demo_files) by exact Hdisk. rewrite E. exact Nat.lt_0_1.
  - rewrite Hoff. lia.
  - intros r st' [Hres _]. exact Hres.
  - intros e He. exact He.
Defined.

(** A process that waits for a key is woken by one. *)
Lemma read_waits_for_key_witness :
  ∃ L st b st1 st3 b3, running L st 0 b ∧ sys_read 0 0x2ff1 1 st = Done None st1 ∧
    others_step 0 st1 (set_keyboard (keyboard st1 ++ [65]) st1) ∧ running L st3 0 b3 ∧
    user_byte (km_mm (k_mem (sys_kernel st3))) (memory_set (inner b)) 0x2ff1 = Some Corelib.Init.Byte.x41.
Proof.
  destruct (demo_boot_with (λ st _, match keyboard st, sys_read 0 0x2ff1 1 st with
      | [], Done None st1 => match run_tasks_step (set_keyboard (keyboard st1 ++ [65]) st1) with
                             | Done (Some _) st3 => bool_decide (current (PROCESSOR (sys_kernel st3)) = Some 0%nat ∧ keyboard st1 = [])
                             | _ => false end
      | _, _ => false end)) as (L & _ & st & b & _ & _ & Hr & Hd & HP).
  { vm_compute. reflexivity. }
  destruct (keyboard st) eqn:Hk; [|discriminate HP].
  pose proof (demo_buf st b 0x2ff1 1 Hd ltac:(lia) ltac:(lia) ltac:(lia)) as Hbuf.
  pose proof Hd as (_ & _ & _ & _ & _ & Hvp & Hfd & _).
  destruct (@read_waits_for_key demo_env demo_laws boot_strampoline boot_env_ok L st 0 b 0 0x2ff1 eq_refl Hr
    ltac:(unfold fd_lookup; rewrite Hfd; reflexivity) Hbuf ltac:(vm_compute; congruence) ltac:(unfold next_answer; rewrite Hk; reflexivity))
    as (st1 & Hrun & [Hok Hc] & Hback).
  rewrite Hrun in HP. destruct (run_tasks_step (set_keyboard (keyboard st1 ++ [65]) st1)) as [[e|] st3| |] eqn:Hrun3; [|discriminate HP..].
  apply bool_decide_eq_true in HP as [Hc3 Hk1].
  assert (Hs : others_step 0 st1 (set_keyboard (keyboard st1 ++ [65]) st1)).
  { split; [apply step_key|]. split; rewrite ?Hc; [discriminate|]. change (current (PROCESSOR (sys_kernel st1)) ≠ Some 0%nat).
    rewrite Hc. discriminate. }
  destruct (Hback _ e st3 (rtc_once _ _ Hs) Hc Hrun3 Hc3) as (b3 & c & Hr3 & _ & _ & _ & Hkey & _ & Hby).
  exists L, st, b, st1, st3, b3. split; [exact Hr|]. split; [exact Hrun|]. split; [exact Hs|]. split; [exact Hr3|].
  assert (c = 65) as -> by (change (keyboard st1 ++ [65] = c :: keyboard st3) in Hkey; rewrite Hk1 in Hkey; injection Hkey as <- _; reflexivity).
  rewrite (Hby 0x2ff1); [reflexivity| |vm_compute; congruence]. rewrite Hvp. right. left.
Defined.
