(* ===== verification/Hart.v ===== *)
(** * The hart and the assembly of the kernel ([src/trap/trap.S], [src/task/switch.S])

    A hart has its integer registers, the control registers the kernel uses, a privilege
    mode and physical memory.  Every load, store and instruction fetch goes through the
    MMU of [Mmu]; an access that the MMU refuses, or that is not aligned, has no next
    state.  [alltraps_code], [restore_code] and [switch_code] are the routines
    [__alltraps], [__restore] and [__switch], instruction by instruction; the size of an
    encoded instruction (the assembler may compress) is a parameter. *)
From S2P Require Import Prelude Config Machine Address FrameAllocator Ownership.
From S2P Require Import PageTable PageTree PageTableSpec Mmu MemorySet.

Inductive csr : Set := Satp | Sscratch | Sstatus | Sepc.

Inductive instr : Set :=
| Sd (rs2 rs1 : nat) (off : Z)
| Ld (rd rs1 : nat) (off : Z)
| Csrrw (rd : nat) (c : csr) (rs1 : nat)
| Csrr (rd : nat) (c : csr)
| Csrw (c : csr) (rs1 : nat)
| Mv (rd rs1 : nat)
| SfenceVma
| Jr (rs1 : nat)
| Sret.

Record hart : Type := mkHart {
  gpr : list Z;
  satp : Z;
  sscratch : Z;
  sstatus : Z;
  sepc : Z;
  pc : Z;
  priv : privilege;
  hmem : memory;
}.

(** Registers: [x0] is zero. *)
Definition reg (h : hart) (r : nat) : Z := match r with O => 0 | _ => gpr h !!! r end.
Definition set_gpr (g : list Z) (h : hart) : hart :=
  mkHart g (satp h) (sscratch h) (sstatus h) (sepc h) (pc h) (priv h) (hmem h).
Definition set_reg (r : nat) (v : Z) (h : hart) : hart :=
  match r with O => h | _ => set_gpr (<[r := v]> (gpr h)) h end.
Definition set_pc (v : Z) (h : hart) : hart :=
  mkHart (gpr h) (satp h) (sscratch h) (sstatus h) (sepc h) v (priv h) (hmem h).
Definition set_hmem (m : memory) (h : hart) : hart :=
  mkHart (gpr h) (satp h) (sscratch h) (sstatus h) (sepc h) (pc h) (priv h) m.

Definition get_csr (c : csr) (h : hart) : Z :=
  match c with Satp => satp h | Sscratch => sscratch h | Sstatus => sstatus h | Sepc => sepc h end.
Definition set_csr (c : csr) (v : Z) (h : hart) : hart :=
  match c with
  | Satp => mkHart (gpr h) v (sscratch h) (sstatus h) (sepc h) (pc h) (priv h) (hmem h)
  | Sscratch => mkHart (gpr h) (satp h) v (sstatus h) (sepc h) (pc h) (priv h) (hmem h)
  | Sstatus => mkHart (gpr h) (satp h) (sscratch h) v (sepc h) (pc h) (priv h) (hmem h)
  | Sepc => mkHart (gpr h) (satp h) (sscratch h) (sstatus h) v (pc h) (priv h) (hmem h)
  end.

(** The physical address of an aligned 8-byte access. *)
Definition translate8 (h : hart) (acc : access) (va : Z) : option Z :=
  if va mod 8 =? 0 then mmu_translate (satp h) (hmem h) (priv h) acc va else None.

(** [sstatus]: bit 1 is [SIE], bit 5 [SPIE], bit 8 [SPP]. *)
Definition put_bit (w i : Z) (b : bool) : Z := if b then Z.setbit w i else Z.clearbit w i.

(** An exception or interrupt in user mode, and the return from one. *)
Definition take_trap (stvec : Z) (h : hart) : hart :=
  let st := put_bit (put_bit (Z.clearbit (sstatus h) 8) 5 (Z.testbit (sstatus h) 1)) 1 false in
  mkHart (gpr h) (satp h) (sscratch h) st (pc h) stvec SupervisorMode (hmem h).
Definition do_sret (h : hart) : hart :=
  let st := Z.clearbit (Z.setbit (put_bit (sstatus h) 1 (Z.testbit (sstatus h) 5)) 5) 8 in
  mkHart (gpr h) (satp h) (sscratch h) st (sepc h) (sepc h)
    (if Z.testbit (sstatus h) 8 then SupervisorMode else UserMode) (hmem h).

(** ** The code *)

(* src: src/src/trap/trap.S 12-54 __alltraps *)
Definition alltraps_code : list instr :=
  [Csrrw 2 Sscratch 2; Sd 1 2 (1 * 8); Sd 3 2 (3 * 8)] ++
  ((λ n, Sd n 2 (Z.of_nat n * 8)) <$> seq 5 27) ++
  [Csrr 5 Sstatus; Csrr 6 Sepc; Sd 5 2 (32 * 8); Sd 6 2 (33 * 8);
   Csrr 7 Sscratch; Sd 7 2 (2 * 8);
   Ld 5 2 (34 * 8); Ld 6 2 (36 * 8); Ld 2 2 (35 * 8);
   Csrw Satp 5; SfenceVma; Jr 6].

(* src: src/src/trap/trap.S 55-84 __restore *)
Definition restore_code : list instr :=
  [Csrw Satp 11; SfenceVma; Csrw Sscratch 10; Mv 2 10;
   Ld 5 2 (32 * 8); Ld 6 2 (33 * 8); Csrw Sstatus 5; Csrw Sepc 6;
   Ld 1 2 (1 * 8); Ld 3 2 (3 * 8)] ++
  ((λ n, Ld n 2 (Z.of_nat n * 8)) <$> seq 5 27) ++
  [Ld 2 2 (2 * 8); Sret].

(** The registers [s0] to [s11]. *)
Definition s_reg (n : nat) : nat := if (n <? 2)%nat then (8 + n)%nat else (16 + n)%nat.

(* src: src/src/task/switch.S 10-26 __switch *)
Definition switch_code : list instr :=
  [Sd 2 10 8; Sd 1 10 0] ++ ((λ n, Sd (s_reg n) 10 ((Z.of_nat n + 2) * 8)) <$> seq 0 12) ++
  [Ld 1 11 0] ++ ((λ n, Ld (s_reg n) 11 ((Z.of_nat n + 2) * 8)) <$> seq 0 12) ++
  [Ld 2 11 8; Jr 1].

(** ** Execution *)

(** Instructions take two or four bytes. *)
Class Assembler := {
  ilen : instr → Z;
  ilen_cases i : ilen i = 2 ∨ ilen i = 4;
}.

Section Execution.
Context `{Assembler}.

Definition next (i : instr) (h : hart) : hart := set_pc (pc h +u ilen i) h.

Definition exec (i : instr) (h : hart) : option hart :=
  match i with
  | Sd rs2 rs1 off =>
      pa ← translate8 h Store (reg h rs1 +u off);
      Some (next i (set_hmem (store64 (hmem h) pa (reg h rs2)) h))
  | Ld rd rs1 off =>
      pa ← translate8 h Load (reg h rs1 +u off);
      Some (next i (set_reg rd (load64 (hmem h) pa) h))
  | Csrrw rd c rs1 => Some (next i (set_reg rd (get_csr c h) (set_csr c (reg h rs1) h)))
  | Csrr rd c => Some (next i (set_reg rd (get_csr c h) h))
  | Csrw c rs1 => Some (next i (set_csr c (reg h rs1) h))
  | Mv rd rs1 => Some (next i (set_reg rd (reg h rs1) h))
  | SfenceVma => Some (next i h)
  | Jr rs1 => Some (set_pc (Z.land (reg h rs1) (Z.lnot 1)) h)
  | Sret => Some (do_sret h)
  end.

Fixpoint exec_seq (code : list instr) (h : hart) : option hart :=
  match code with
  | [] => Some h
  | i :: code => h' ← exec i h; exec_seq code h'
  end.

Definition code_size (code : list instr) : Z := foldr (λ i n, ilen i + n) 0 code.

(** The instruction at byte [o] of [code]. *)
Fixpoint instr_at (code : list instr) (o : Z) : option instr :=
  match code with
  | [] => None
  | i :: code => if o =? 0 then Some i else if o <? 0 then None else instr_at code (o - ilen i)
  end.

(** The section [.text.trampoline] of the linker script, at [strampoline]. *)
Definition trampoline_text : list instr := alltraps_code ++ restore_code.

Context `{LinkerSymbols}.

(** Fetch and execute, with the trampoline as the only code there is. *)
Definition fetch (h : hart) : option instr :=
  pa ← mmu_translate (satp h) (hmem h) (priv h) Fetch (pc h);
  instr_at trampoline_text (pa - strampoline).
Definition step (h : hart) : option hart := i ← fetch h; exec i h.
Fixpoint steps (n : nat) (h : hart) : option hart :=
  match n with O => Some h | S n => h' ← step h; steps n h' end.

(** ** Sizes and fetching *)

Lemma code_size_app c1 c2 : code_size (c1 ++ c2) = code_size c1 + code_size c2.
Proof. unfold code_size. induction c1 as [|i c1 IH]; simpl; lia. Qed.

Lemma code_size_bounds c : 2 * Z.of_nat (length c) ≤ code_size c ≤ 4 * Z.of_nat (length c).
Proof. induction c as [|i c IH]; [done|]. simpl. destruct (ilen_cases i); lia. Qed.

Lemma instr_at_app c i c' : instr_at (c ++ i :: c') (code_size c) = Some i.
Proof.
  induction c as [|j c IH]; [done|]. pose proof (code_size_bounds c). destruct (ilen_cases j) as [Hj|Hj];
  cbn [app instr_at]; change (code_size (j :: c)) with (ilen j + code_size c);
  rewrite (proj2 (Z.eqb_neq _ 0)), (proj2 (Z.ltb_ge _ 0)) by lia;
  by replace (ilen j + code_size c - ilen j) with (code_size c) by lia.
Qed.

Lemma trampoline_size : code_size trampoline_text ≤ 4096.
Proof. pose proof (code_size_bounds trampoline_text) as Hb. change (length trampoline_text) with 81%nat in Hb. lia. Qed.

Lemma steps_app n1 n2 h : steps (n1 + n2) h = (h' ← steps n1 h; steps n2 h').
Proof. revert h. induction n1 as [|n1 IH]; intros h; [done|]. simpl. destruct (step h); [|done]. apply IH. Qed.

(** The trampoline can be fetched. *)
Definition fetchable (h : hart) : Prop :=
  ∀ o, 0 ≤ o < 4096 → mmu_translate (satp h) (hmem h) (priv h) Fetch (TRAMPOLINE + o) = Some (strampoline + o).

(** [code] is at the program counter of [h], and leads to [h']. *)
Definition runs (code : list instr) (h h' : hart) : Prop := ∀ pre post,
  trampoline_text = pre ++ code ++ post → pc h = TRAMPOLINE + code_size pre →
  steps (length code) h = Some h'.

Lemma runs_offset pre code post :
  trampoline_text = pre ++ code ++ post → (0 < length code)%nat → 0 ≤ code_size pre < 4096.
Proof.
  intros Htext Hl. pose proof trampoline_size as Hs. rewrite Htext, !code_size_app in Hs.
  pose proof (code_size_bounds pre). pose proof (code_size_bounds code). pose proof (code_size_bounds post). lia.
Qed.

Lemma runs_nil h : runs [] h h.
Proof. by intros pre post _ _. Qed.

Lemma runs_one i h h' : fetchable h → exec i h = Some h' → runs [i] h h'.
Proof.
  intros Hf He pre post Htext Hpc. cbn [length steps]. unfold step, fetch. rewrite Hpc, Hf.
  - cbn [mbind option_bind]. replace (strampoline + code_size pre - strampoline) with (code_size pre) by lia.
    rewrite Htext. cbn [app]. rewrite instr_at_app. cbn [mbind option_bind]. by rewrite He.
  - eapply runs_offset; [exact Htext|simpl; lia].
Qed.

Lemma runs_app c1 c2 h h1 h2 :
  runs c1 h h1 → pc h1 = pc h +u code_size c1 → (0 < length c2)%nat → runs c2 h1 h2 → runs (c1 ++ c2) h h2.
Proof.
  intros H1 Hpc Hl H2 pre post Htext Hp. rewrite length_app, steps_app.
  rewrite <-app_assoc in Htext. rewrite (H1 pre (c2 ++ post) Htext Hp). cbn [mbind option_bind].
  rewrite app_assoc in Htext. pose proof (runs_offset (pre ++ c1) c2 post Htext Hl) as Ho.
  apply (H2 (pre ++ c1) post Htext). rewrite code_size_app in *. rewrite Hpc, Hp.
  pose proof (code_size_bounds c1). pose proof (code_size_bounds pre).
  change TRAMPOLINE with (2 ^ 64 - 4096) in *. rewrite usize_add_small; lia.
Qed.

Lemma runs_cons i c h h1 h2 :
  fetchable h → exec i h = Some h1 → pc h1 = pc h +u ilen i → (0 < length c)%nat → runs c h1 h2 →
  runs (i :: c) h h2.
Proof.
  intros Hf He Hpc Hl Hr. eapply (runs_app [i]); [by apply runs_one| |done|exact Hr].
  change (code_size [i]) with (ilen i + 0). by rewrite Z.add_0_r.
Qed.

(** The same with the final state described by a predicate. *)
Definition leads (code : list instr) (h : hart) (Q : hart → Prop) : Prop := ∃ h', runs code h h' ∧ Q h'.

Lemma leads_one i h h1 (Q : hart → Prop) : fetchable h → exec i h = Some h1 → Q h1 → leads [i] h Q.
Proof. intros. exists h1. by split; [apply runs_one|]. Qed.

Lemma leads_cons i c h h1 Q :
  fetchable h → exec i h = Some h1 → pc h1 = pc h +u ilen i → (0 < length c)%nat → leads c h1 Q →
  leads (i :: c) h Q.
Proof. intros ? ? ? ? (h' & Hr & HQ). exists h'. split; [by eapply runs_cons|done]. Qed.

Lemma leads_app c1 c2 h h1 Q :
  runs c1 h h1 → pc h1 = pc h +u code_size c1 → (0 < length c2)%nat → leads c2 h1 Q → leads (c1 ++ c2) h Q.
Proof. intros ? ? ? (h' & Hr & HQ). exists h'. split; [by eapply runs_app|done]. Qed.

Lemma code_size_usize_add a c1 c2 :
  a +u code_size (c1 ++ c2) = a +u code_size c1 +u code_size c2.
Proof.
  rewrite code_size_app. unfold usize_add, wrap64. rewrite Zplus_mod_idemp_l. f_equal. lia.
Qed.
End Execution.
