(* ===== verification/Paging.v ===== *)
(** * Turning paging on ([MemorySet::activate], [mm::init])

    The kernel is loaded and runs without translation until [activate] writes [satp].
    Nothing moves at that moment: every address the kernel may use is translated to
    itself, by the MMU of [Mmu] on the tables that [new_kernel] has built. *)
From S2P Require Import Prelude Config Machine Address FrameAllocator Ownership.
From S2P Require Import PageTable PageTree PageTableSpec Mmu MemorySet MapAreaSpec MemorySetSpec.
From S2P Require Import AddressSpace Fork KernelSpace Hart.

(** [sfence.vma] has no effect on a hart without a TLB. *)
(* src: src/src/mm/memory_set.rs 316-324 MemorySet::activate *)
Definition MemorySet_activate (ms : MemorySet) (h : hart) : hart := set_csr Satp (MemorySet_token ms) h.

(** What a hart in the kernel can do at [va]. *)
Definition hart_translate (h : hart) (acc : access) (va : Z) : option Z :=
  mmu_translate (satp h) (hmem h) (priv h) acc va.

Section Paging.
Context `{LinkerSymbols}.

(** The kernel's sections are readable and never the user's. *)
Lemma section_flags sec acc :
  sec ∈ kernel_sections → flags_allow SupervisorMode acc sec.2 = perm_allows acc sec.2 ∧
    flags_allow UserMode acc sec.2 = false.
Proof.
  unfold kernel_sections. intros Hin.
  repeat (apply elem_of_cons in Hin as [->|Hin]; [by destruct acc|]). by apply not_elem_of_nil in Hin.
Qed.

Lemma low_va va : 0 ≤ va < MEMORY_END → is_usize va ∧ canonical va = true ∧ va_vpn va = va / 4096.
Proof.
  unfold MEMORY_END. intros Hva. unfold is_usize, usize_modulus, canonical, va_vpn. split_and!; [lia..| |zsolve].
  replace (va / 2 ^ 38) with 0 by zsolve. done.
Qed.

Lemma section_va sec va :
  sections_ok → sec ∈ kernel_sections → va / 4096 ∈ vpns (sec_range sec) → 0 ≤ va < MEMORY_END.
Proof.
  intros [Hall _] Hin Hv%elem_of_vpns. rewrite Forall_forall in Hall. destruct (Hall sec Hin) as (H1 & H2 & _).
  unfold sec_range, page_range, MEMORY_END in *. simpl in Hv. zsolve.
Qed.

Lemma section_translate s0 s ks p acc sec va :
  sections_ok → sections_mapped s0 kernel_sections s ks → sec ∈ kernel_sections → va / 4096 ∈ vpns (sec_range sec) →
  mmu_translate (MemorySet_token ks) (phys s) p acc va = if flags_allow p acc sec.2 then Some va else None.
Proof.
  intros Hsec Hsm Hin Hv. destruct (low_va va (section_va sec va Hsec Hin Hv)) as (Hu & Hc & Hvp).
  destruct (section_page_ppn sec _ Hsec Hin Hv) as [Hppn Hperm].
  unfold MemorySet_token. rewrite mmu_lookup by (done || apply (sm_ok _ _ _ _ Hsm)).
  unfold page_translate. rewrite Hc, Hvp, (section_lookup _ _ _ _ sec _ Hsm Hin Hv). cbn [negb].
  rewrite page_translate_new by (done || unfold is_perm in Hperm; lia). case_match; [|done]. f_equal. zsolve.
Qed.

(** C12: turning paging on is transparent.  Before [activate] the hart uses physical
    addresses.  After it, on the tables built by [new_kernel], an access of the kernel
    to an address of its sections, the free memory or the device registers goes to the
    same physical address if the permissions of the section allow it and faults
    otherwise; so the instruction after the write of [satp] is fetched from where it was
    loaded, the text cannot be written and nothing else can be executed.  Addresses
    outside fault, except for the trampoline page, and in user mode every address of
    the kernel faults. *)
Theorem activate_is_transparent s h0 :
  strampoline_ok → linker_layout → mm_wf s → satp h0 = 0 → priv h0 = SupervisorMode →
  wp MemorySet_new_kernel (λ ks s', ∀ acc va,
      let h := MemorySet_activate ks (set_hmem (phys s') h0) in
      hart_translate (set_hmem (phys s') h0) acc va = Some va ∧
      (∀ sec, sec ∈ kernel_sections → va / 4096 ∈ vpns (sec_range sec) →
        hart_translate h acc va = (if perm_allows acc sec.2 then Some va else None) ∧
        mmu_translate (satp h) (hmem h) UserMode acc va = None) ∧
      (is_usize va → (va_vpn va ∉ secs_vpns kernel_sections) → va_vpn va ≠ TRAMPOLINE_VPN → hart_translate h acc va = None))
    (kernel_oom s) s.
Proof.
  intros Hst Hll Hwf Hsatp Hp. pose proof (layout_sections_ok Hll) as Hsec.
  eapply wp_mono; [by apply new_kernel_spec| |done]. intros ks s' Hsm acc va h.
  pose proof (sm_ok _ _ _ _ Hsm) as Hok. unfold hart_translate, h. cbn [MemorySet_activate set_csr set_hmem satp hmem priv].
  rewrite Hp. split_and!; [by rewrite Hsatp|intros sec Hin Hv|intros Hu Hn Hne].
  - destruct (section_flags sec acc Hin) as [Hs Hus].
    by rewrite !(section_translate _ _ _ _ _ sec va Hsec Hsm Hin Hv), Hs, Hus.
  - unfold MemorySet_token. rewrite mmu_lookup by (done || apply Hok). unfold page_translate.
    destruct (canonical va); [|done].
    rewrite (ms_lookup_other _ _ _ _ Hok); [|apply va_vpn_bounds|by rewrite (sections_vpns _ _ _ _ Hsm)].
    unfold trampoline_map. by rewrite lookup_singleton_ne.
Qed.
End Paging.

Lemma activate_is_transparent_witness :
  ∃ ks s', @MemorySet_new_kernel small_symbols demo_boot = Done ks s' ∧
    let h := MemorySet_activate ks (mkHart [] 0 0 0 0 0x87ffb040 SupervisorMode (phys s')) in
    hart_translate h Fetch 0x87ffb044 = Some 0x87ffb044 ∧ hart_translate h Store 0x87ffb044 = None.
Proof.
  destruct (wp_cases _ _ _ _ (@activate_is_transparent small_symbols demo_boot
    (mkHart [] 0 0 0 0 0x87ffb040 SupervisorMode (λ _, Corelib.Init.Byte.x00)) small_strampoline small_layout demo_boot_wf eq_refl eq_refl))
    as [(ks & s' & Hrun & Htr)|(k & _ & Hf)].
  - exists ks, s'. split; [exact Hrun|].
    assert (Hin : (0x87ffb000, 0x87ffc000, Z.lor MapPermission_R MapPermission_X) ∈ @kernel_sections small_symbols) by left.
    assert (Hv : 0x87ffb044 / 4096 ∈ vpns (sec_range (0x87ffb000, 0x87ffc000, Z.lor MapPermission_R MapPermission_X)))
      by (apply elem_of_vpns; vm_compute; split; congruence).
    split; [exact (proj1 (proj1 (proj2 (Htr Fetch 0x87ffb044)) _ Hin Hv))|exact (proj1 (proj1 (proj2 (Htr Store 0x87ffb044)) _ Hin Hv))].
  - destruct (small_enough k Hf).
Defined.
