(* ===== verification/Start.v ===== *)
(** * Start-up ([rust_main] of [src/main.rs], [mm::init])

    From the moment the firmware enters [rust_main] to the call of [run_tasks], on one
    machine: the hart with its physical memory, the frame allocator, the heap, what was
    asked of the firmware, the queues of the block device and the interrupt enable
    register.  The statics [KERNEL_SPACE], [BLOCK_DEVICE], [ROOT_INODE] and [INITPROC]
    are made where they are first used and passed on; [rust_main] ends with the [system]
    that [run_tasks] works on.  A firmware call that does not return is [OutOfFuel].

    The kernel allocates its own collections on the heap, too; they are values here, so
    only [heap_test] uses it. *)
From S2P Require Import Prelude Config Machine Heap Address FrameAllocator Ownership.
From S2P Require Import PageTable PageTree PageTableSpec Mmu MemorySet MapAreaSpec MemorySetSpec.
From S2P Require Import AddressSpace UserSpace UserMemory Fork KernelSpace TableCost ElfLoad Pid Driver Context.
From S2P Require Import Timer Task Scheduler SyscallProcess KernelInv ProcessSpec ExecSpec Boot.
From S2P Require Import Files Console FileSpec SyscallFile Trap SystemInv SystemCalls SystemSpec Systems Hart Paging.

(** What the build and the crates bring: the linker symbols used only here, the
    environment variable [LOG], [EasyFileSystem::open] (which checks the super block) and
    [Inode::ls] of the root directory. *)
Class BootEnv `{EasyFs} `{VirtIOBlk} := {
  sbss : Z;
  HEAP_SPACE : Z;
  boot_stack_lower_bound : Z;
  boot_stack_top : Z;
  env_LOG : option string;
  efs_open : vdev → option disk;
  root_ls : disk → list text;
}.

Record machine `{LockedHeap} : Type := mkMachine {
  mc_hart : hart;
  mc_frames : StackFrameAllocator;
  mc_heap : heap;
  mc_queue : list FrameTracker;
  mc_sbi : trace;
  mc_sie : Z;
}.

Section Start.
Context `{SystemEnv} `{Firmware} `{LogCrate} `{LockedHeap} `{VirtIOBlk} `{!BootEnv}.

(** ** Views of the machine *)

Definition mc_mm (σ : machine) : mm := {| phys := hmem (mc_hart σ); FRAME_ALLOCATOR := mc_frames σ |}.
Definition set_mc_mm (s : mm) (σ : machine) : machine :=
  mkMachine _ (set_hmem (phys s) (mc_hart σ)) (FRAME_ALLOCATOR s) (mc_heap σ) (mc_queue σ) (mc_sbi σ) (mc_sie σ).
Definition set_mc_hart (h : hart) (σ : machine) : machine :=
  mkMachine _ h (mc_frames σ) (mc_heap σ) (mc_queue σ) (mc_sbi σ) (mc_sie σ).
Definition set_mc_sbi (t : trace) (σ : machine) : machine :=
  mkMachine _ (mc_hart σ) (mc_frames σ) (mc_heap σ) (mc_queue σ) t (mc_sie σ).
Definition set_mc_sie (z : Z) (σ : machine) : machine :=
  mkMachine _ (mc_hart σ) (mc_frames σ) (mc_heap σ) (mc_queue σ) (mc_sbi σ) z.

Definition on_mm {A} (m : M mm A) : M machine A := zoom mc_mm set_mc_mm m.

Definition mc_heap_state (σ : machine) : heap_state := mkHeapState _ (mc_heap σ) (hmem (mc_hart σ)).
Definition on_heap {A} (m : M heap_state A) : M machine A :=
  zoom mc_heap_state (λ s σ, mkMachine _ (set_hmem (heap_mem s) (mc_hart σ)) (mc_frames σ) (HEAP_ALLOCATOR s)
    (mc_queue σ) (mc_sbi σ) (mc_sie σ)) m.

Definition console {A} (m : C A) : M machine A := λ σ,
  match m (mc_sbi σ) with
  | Returns a t => Done a (set_mc_sbi t σ)
  | Halts _ => OutOfFuel
  | Panics _ _ => Panic ExplicitPanic
  end.

(** ** Memory *)

Definition push_section (ms : MemorySet) (start end_ perm : Z) : M machine MemorySet :=
  on_mm (a ← MapArea_new (VirtAddr_from_usize start) (VirtAddr_from_usize end_) Identical perm;
         MemorySet_push ms a None).

Definition section_line (name : string) (start end_ : Z) : text :=
  lit "[Kernel] " ++ lit name ++ lit " [" ++ fmt_0x start ++ lit ", " ++ fmt_0x end_ ++ lit ")".

(** [MemorySet::new_kernel] with its messages. *)
(* src: src/src/mm/memory_set.rs 106-203 MemorySet::new_kernel *)
Definition new_kernel_printing : M machine MemorySet :=
  memory_set ← on_mm MemorySet_new_bare;
  memory_set ← on_mm (MemorySet_map_trampoline memory_set);
  console (println (section_line ".text" stext etext));;
  console (println (section_line ".rodata" srodata erodata));;
  console (println (section_line ".data" sdata edata));;
  console (println (section_line ".bss" sbss_with_stack ebss));;
  console (println (lit "[Kernel] mapping .text section"));;
  memory_set ← push_section memory_set stext etext (Z.lor MapPermission_R MapPermission_X);
  console (println (lit "[Kernel] mapping .rodata section"));;
  memory_set ← push_section memory_set srodata erodata MapPermission_R;
  console (println (lit "[Kernel] mapping .data section"));;
  memory_set ← push_section memory_set sdata edata MapPermission_R;
  console (println (lit "[Kernel] mapping .bss section"));;
  memory_set ← push_section memory_set sbss_with_stack ebss (Z.lor MapPermission_R MapPermission_W);
  console (println (lit "[Kernel] mapping physical memory"));;
  memory_set ← push_section memory_set ekernel MEMORY_END (Z.lor MapPermission_R MapPermission_W);
  console (println (lit "[Kernel] mapping memory-mapped registers"));;
  foldM (λ memory_set pair,
    push_section memory_set (fst pair) (fst pair +u snd pair) (Z.lor MapPermission_R MapPermission_W)) memory_set MMIO.

(* src: src/src/mm/memory_set.rs 590-594 KERNEL_SPACE *)
Definition KERNEL_SPACE_init : M machine MemorySet := new_kernel_printing.

(* src: src/src/mm/heap_allocator.rs 31-60 heap_test *)
Definition heap_test_printing : M machine unit :=
  on_heap (heap_test sbss ebss);;
  console (println (lit "[Kernel] heap_test passed!")).

(* src: src/src/mm/mod.rs 24-34 init *)
Definition mm_init : M machine MemorySet :=
  on_heap (init_heap HEAP_SPACE);;
  on_mm (init_frame_allocator ekernel);;
  kernel_space ← KERNEL_SPACE_init;
  modify (λ σ, set_mc_hart (MemorySet_activate kernel_space (mc_hart σ)) σ);;
  heap_test_printing;;
  mret kernel_space.

(* src: src/src/mm/memory_set.rs 612-640 remap_test *)
Definition remap_test_printing (kernel_space : MemorySet) : M machine unit :=
  on_mm (remap_test kernel_space);;
  console (println (lit "[Kernel] remap_test passed!")).

(** ** The first process *)

(* src: src/src/drivers/block/mod.rs 12-15 BLOCK_DEVICE *)
Definition BLOCK_DEVICE_init (kernel_space : MemorySet) : M machine vdev :=
  zoom (λ σ, mkHal (static_kmem kernel_space (mc_mm σ)) (mc_queue σ))
    (λ h σ, mkMachine _ (set_hmem (phys (hal_mm h)) (mc_hart σ)) (FRAME_ALLOCATOR (hal_mm h)) (mc_heap σ)
              (QUEUE_FRAMES h) (mc_sbi σ) (mc_sie σ)) VirtIOBlock_new.

(* src: src/src/fs/inode.rs 74-80 ROOT_INODE *)
Definition ROOT_INODE_init (kernel_space : MemorySet) : M machine disk :=
  dev ← BLOCK_DEVICE_init kernel_space;
  match efs_open dev with Some d => mret d | None => panic AssertFailed end.

(** The system before there is a process, with the root directory at hand. *)
Definition root_system (m : kmem) (d : disk) : system :=
  mkSystem _ {| k_mem := m; TASKS := ∅; next_task := 0; ready_queue := []; PROCESSOR := Processor_new; INITPROC := 0 |}
    d ∅ 0 [] [] ∅ 0 0.

(** The memory of the machine is that of the system. *)
Definition on_system {A} (st : system) (m : M system A) : M machine (A * system) :=
  on_mm (with_statics (λ s, set_memory s st) m (λ st, km_mm (k_mem (sys_kernel st)))).

(* src: src/src/task/mod.rs 27-33 INITPROC *)
Definition INITPROC_init (kernel_space : MemorySet) : M machine system :=
  d ← ROOT_INODE_init kernel_space;
  s ← gets mc_mm;
  '(elf_data, st) ← on_system (root_system (static_kmem kernel_space s) d) (initproc_elf sys_fuel);
  '(b, m) ← on_mm (with_statics (static_kmem kernel_space) (TaskControlBlock_new elf_data) km_mm);
  mret (set_sys_kernel (static_kernel b m) st).

(** ** [rust_main] *)

(** Up to [run_tasks]; [time] is the counter when the timer is set. *)
(* src: src/src/main.rs 47-68 rust_main *)
Definition rust_main (time : Z) : M machine system :=
  on_mm (clear_bss sbss);;
  let max_level := logging_init env_LOG in
  console (show_os_sections max_level (stext, etext) (srodata, erodata) (sdata, edata) (sbss, ebss)
             (boot_stack_lower_bound, boot_stack_top));;
  console (println (lit "[Kernel] Hello, World!"));;
  kernel_space ← mm_init;
  remap_test_printing kernel_space;;
  st ← INITPROC_init kernel_space;
  '(_, st) ← on_system st (with_kernel add_initproc);
  console (println (lit "[Kernel] After initproc!"));;
  '(_, st) ← on_system st trap_init;
  modify (λ σ, set_mc_sie (enable_timer_interrupt (mc_sie σ)) σ);;
  console (set_timer (set_next_trigger time));;
  let st := set_trigger (set_next_trigger time) st in
  console (list_apps root_ls (DISK st));;
  mret st.
End Start.
