(* ===== verification/StartSpec.v ===== *)
(** * What the start-up achieves

    The stages of [rust_main]: each does to memory and processes what the components
    promise ([KernelSpace], [TableCost], [Heap], [Driver], [Boot], [FileSpec]), and the
    messages add up to the boot log. *)
From S2P Require Import Prelude Config Machine Heap Address FrameAllocator Ownership.
From S2P Require Import PageTable PageTree PageTableSpec Mmu MemorySet MapAreaSpec MemorySetSpec.
From S2P Require Import AddressSpace UserSpace UserMemory Fork KernelSpace TableCost ElfLoad Pid Driver Context.
From S2P Require Import Timer Task Scheduler SyscallProcess KernelInv ProcessSpec ExecSpec Boot.
From S2P Require Import Files Console FileSpec SyscallFile Trap SystemInv SystemCalls SystemSpec Systems Hart Paging Start.

Section StartSpec.
Context `{SystemEnv} `{!EasyFsLaws} `{FirmwareLaws} `{LogCrateLaws} `{LockedHeapLaws} `{VirtIOBlk} `{!BootEnv}.

(** ** A routine on memory, with messages in between *)

(** The machine [σ] with the memory and allocator [s] and the trace [t]. *)
Definition at_ (s : mm) (t : trace) (σ : machine) : machine := set_mc_sbi t (set_mc_mm s σ).

Lemma at_id σ : at_ (mc_mm σ) (mc_sbi σ) σ = σ.
Proof. by destruct σ as [[]]. Qed.

Lemma at_at s t s' t' σ : at_ s' t' (at_ s t σ) = at_ s' t' σ.
Proof. done. Qed.

Lemma mc_mm_at s t σ : mc_mm (at_ s t σ) = s.
Proof. by destruct s. Qed.

(** [m'] does to memory what [m] does and prints [log]. *)
Definition prints {A} (m : M mm A) (m' : M machine A) (log : trace) : Prop := ∀ s t σ,
  m' (at_ s t σ) = match m s with
                   | Done a s' => Done a (at_ s' (t ++ log) σ)
                   | Panic k => Panic k
                   | OutOfFuel => OutOfFuel
                   end.

Lemma prints_ret {A} (a : A) : prints (mret a) (mret a) [].
Proof. intros s t σ. unfold mret, M_ret. by rewrite app_nil_r. Qed.

Lemma prints_bind {A B} (m : M mm A) (f : A → M mm B) f' l :
  (∀ a, prints (f a) (f' a) l) → prints (m ≫= f) (on_mm m ≫= f') l.
Proof.
  intros Hf s t σ. unfold mbind, M_bind, on_mm, zoom. rewrite mc_mm_at. destruct (m s) as [a s'| |]; [|done..]. exact (Hf a s' t σ).
Qed.

Lemma prints_println {A} (m : M mm A) m' l x :
  prints m m' l → prints m (console (println x);; m') (line x ++ l).
Proof.
  intros Hm s t σ. unfold mbind, M_bind, console. cbn [at_ set_mc_sbi mc_sbi]. rewrite println_run by apply putchar_returns.
  transitivity (m' (at_ s (t ++ line x) σ)); [done|]. by rewrite Hm, app_assoc.
Qed.

Lemma prints_assoc {A B C} (m : M mm A) (f : A → M mm B) (g : B → M mm C) m' l :
  prints ((a ← m; f a) ≫= g) m' l → prints (a ← m; f a ≫= g) m' l.
Proof. intros Hp s t σ. rewrite Hp. unfold mbind, M_bind. by destruct (m s). Qed.

Definition kernel_space_log : trace :=
  line (section_line ".text" stext etext) ++ line (section_line ".rodata" srodata erodata) ++
  line (section_line ".data" sdata edata) ++ line (section_line ".bss" sbss_with_stack ebss) ++
  line (lit "[Kernel] mapping .text section") ++ line (lit "[Kernel] mapping .rodata section") ++
  line (lit "[Kernel] mapping .data section") ++ line (lit "[Kernel] mapping .bss section") ++
  line (lit "[Kernel] mapping physical memory") ++ line (lit "[Kernel] mapping memory-mapped registers").

(** The messages of [new_kernel] do not interfere with it. *)
Lemma new_kernel_prints : prints MemorySet_new_kernel new_kernel_printing kernel_space_log.
Proof.
  unfold MemorySet_new_kernel, new_kernel_printing, kernel_space_log, push_section.
  apply prints_bind. intros bare. apply prints_bind. intros ms0. do 4 apply prints_println.
  do 5 (apply prints_println, prints_assoc, prints_bind; intros ?).
  rewrite <-(app_nil_r (line (lit "[Kernel] mapping memory-mapped registers"))).
  apply prints_println. cbn [foldM MMIO]. apply prints_bind. intros ms. apply prints_ret.
Qed.

Lemma wp_prints {A} (m : M mm A) m' log (Q : A → machine → Prop) E σ :
  prints m m' log → wp m (λ a s, Q a (at_ s (mc_sbi σ ++ log) σ)) E (mc_mm σ) → wp m' Q E σ.
Proof.
  intros Hp Hm. unfold wp in *. rewrite <-(at_id σ), (Hp (mc_mm σ) (mc_sbi σ) σ). by destruct (m (mc_mm σ)).
Qed.

Lemma wp_on_mm {A} (m : M mm A) (Q : A → machine → Prop) E σ :
  wp m (λ a s, Q a (set_mc_mm s σ)) E (mc_mm σ) → wp (on_mm m) Q E σ.
Proof. apply wp_zoom. Qed.

Lemma wp_console {A} (m : C A) a log (Q : A → machine → Prop) E σ :
  m (mc_sbi σ) = Returns a (mc_sbi σ ++ log) → Q a (set_mc_sbi (mc_sbi σ ++ log) σ) → wp (console m) Q E σ.
Proof. unfold wp, console. by intros ->. Qed.

Lemma wp_println x (Q : unit → machine → Prop) E σ :
  Q tt (set_mc_sbi (mc_sbi σ ++ line x) σ) → wp (console (println x)) Q E σ.
Proof. apply wp_console. apply println_run, putchar_returns. Qed.

(** ** The messages *)

Definition sections_log : trace :=
  if decide (level_rank Info ≤ filter_rank (logging_init env_LOG)) then
    line (log_line Info (show_range "Kernel Section Info: .text   : " stext etext)) ++
    line (log_line Info (show_range "Kernel Section Info: .rodata : " srodata erodata)) ++
    line (log_line Info (show_range "Kernel Section Info: .sdata  : " sdata edata)) ++
    line (log_line Info (show_range "Kernel Section Info: .bss    : " sbss ebss)) ++
    line (log_line Info (show_range "Kernel Stack Info: " boot_stack_lower_bound boot_stack_top))
  else [].

Lemma show_os_sections_run t :
  show_os_sections (logging_init env_LOG) (stext, etext) (srodata, erodata) (sdata, edata) (sbss, ebss)
    (boot_stack_lower_bound, boot_stack_top) t = Returns tt (t ++ sections_log).
Proof.
  assert (Hi : ∀ args t, info (logging_init env_LOG) args t = Returns tt (t ++ if decide (level_rank Info ≤ filter_rank (logging_init env_LOG))
    then line (log_line Info args) else [])) by (intros; apply log_prints_enabled_line, putchar_returns).
  unfold show_os_sections, mbind, C_bind. rewrite !Hi. unfold sections_log. case_decide; [|by rewrite !app_nil_r].
  by rewrite <-!app_assoc.
Qed.

Lemma set_timer_run z t : set_timer z t = Returns tt (t ++ [timer_request z]).
Proof.
  unfold set_timer, mbind, C_bind, sbi_call. fold (timer_request z). by destruct (timer_returns t z) as [r ->].
Qed.

(** The transcript of the boot, for a disk with these files. *)
Definition boot_log (time : Z) (d : disk) : trace :=
  sections_log ++ line (lit "[Kernel] Hello, World!") ++ kernel_space_log ++ line (lit "[Kernel] heap_test passed!") ++
  line (lit "[Kernel] remap_test passed!") ++ line (lit "[Kernel] After initproc!") ++
  [timer_request (set_next_trigger time)] ++
  line (lit "/**** APPS ****/") ++ mjoin (line <$> root_ls d) ++ line (lit "/**************/").

(** ** [mm::init] *)

Context (Hst : strampoline_ok) (Henv : env_ok).

(** The image as [linker.ld] lays it out, with code, constants and data, and with the
    heap inside the [.bss]. *)
Record image_layout : Prop := {
  il_linker : linker_layout;
  il_text : stext < etext;
  il_rodata : srodata < erodata;
  il_data : sdata < edata;
  il_bss : sbss_with_stack ≤ sbss ≤ HEAP_SPACE;
  il_heap : HEAP_SPACE + KERNEL_HEAP_SIZE ≤ ebss;
}.

(** The allocator runs out of memory in [heap_test]. *)
Definition heap_refuses : Prop := ∃ m,
  heap_test sbss ebss (mkHeapState _ (heap_init HEAP_SPACE KERNEL_HEAP_SIZE heap_empty) m) = Panic ExplicitPanic.

(** The frames of the kernel's tables lie behind its image. *)
Lemma kernel_frames_behind s0 s ks f x :
  linker_layout → FRAME_ALLOCATOR s0 = boot_pool ekernel → sections_mapped s0 kernel_sections s ks →
  f ∈ ms_frames ks → f * 4096 ≤ x → ekernel ≤ x.
Proof.
  intros [Hb Ho _] Hpool Hsm Hf Hx. unfold MEMORY_END in Ho.
  assert (Hn : f ∉ seqZ 0 ((ekernel + 4095) / 4096)).
  { intros Hin. apply (boot_in_use s0 f Hpool) in Hin.
    destruct (step_other _ _ _ _ (sm_step _ _ _ _ Hsm) f Hin (not_elem_of_nil f)) as (_ & Hk & _). done. }
  pose proof (owns_is_ppn _ _ f (step_wf _ _ _ _ (sm_step _ _ _ _ Hsm)) (step_owns _ _ _ _ (sm_step _ _ _ _ Hsm)) Hf) as Hp.
  rewrite elem_of_seqZ in Hn. unfold is_ppn in Hp. zsolve.
Qed.

(** The kernel's address space is made and [k] frames are free. *)
Record space_up (k : nat) (ks : MemorySet) (σ : machine) : Prop := {
  su_space : ∃ m0, sections_mapped {| phys := m0; FRAME_ALLOCATOR := boot_pool ekernel |} kernel_sections (mc_mm σ) ks;
  su_free : (k ≤ free_frames (mc_mm σ))%nat;
  su_order : unrecycled (mc_mm σ);
}.

(** The machine after [mm::init]. *)
Record memory_up (σ : machine) (k : nat) (ks : MemorySet) (σ' : machine) : Prop := {
  mu_up : space_up k ks σ';
  mu_satp : satp (mc_hart σ') = MemorySet_token ks;
  mu_heap : heap_live (mc_heap σ') = ∅;
  mu_sbi : mc_sbi σ' = mc_sbi σ ++ kernel_space_log ++ line (lit "[Kernel] heap_test passed!");
  mu_queue : mc_queue σ' = mc_queue σ;
  mu_hart : priv (mc_hart σ') = priv (mc_hart σ);
}.

Lemma mm_init_spec σ k :
  image_layout → mc_frames σ = fa_new → mc_heap σ = heap_empty →
  (1 + length kernel_tables + k ≤ Z.to_nat (0x88000 - (ekernel + 4095) / 4096))%nat →
  wp mm_init (memory_up σ k) (λ e, e = ExplicitPanic ∧ heap_refuses) σ.
Proof using All.
  intros [Hll _ _ _ Hbss Hheap] Hnew Hh0 Hk. unfold mm_init, on_heap, init_heap. wp_step. apply wp_zoom. wp_step.
  cbn [HEAP_ALLOCATOR heap_mem mc_heap_state]. rewrite Hh0. set (h0 := heap_init HEAP_SPACE KERNEL_HEAP_SIZE heap_empty).
  set (σ1 := mkMachine _ _ _ _ _ _ _). wp_step. apply wp_on_mm. unfold wp at 1.
  rewrite init_frame_allocator_spec; [|destruct Hll as [? ? _]; unfold MEMORY_END in *; lia|exact Hnew].
  set (s2 := {| phys := _; FRAME_ALLOCATOR := boot_pool ekernel |}).
  wp_step. unfold KERNEL_SPACE_init. eapply wp_prints; [exact new_kernel_prints|].
  change (mc_mm (set_mc_mm s2 σ1)) with s2.
  eapply wp_mono; [apply (wp_keeps unrecycled); [apply new_kernel_unrecycled|done|]| |].
  { apply (new_kernel_fits k); [done|by apply layout_sections_ok|by apply boot_pool_wf|exact Hk]. }
  2: { by intros e []. }
  intros ks s3 [[Hsm Hfree] Hun]. do 2 wp_step. set (σ4 := set_mc_hart _ _).
  unfold heap_test_printing, on_heap. do 2 wp_step. apply wp_zoom. destruct (init_law HEAP_SPACE KERNEL_HEAP_SIZE) as [Hreg Hlive].
  fold h0 in Hreg, Hlive. change (mc_heap_state σ4) with (mkHeapState _ h0 (phys s3)).
  pose proof (heap_test_spec sbss ebss (mkHeapState _ h0 (phys s3))) as Hht. cbn [HEAP_ALLOCATOR] in Hht. rewrite Hreg in Hht.
  specialize (Hht ltac:(simpl; lia) ltac:(simpl; lia)). unfold wp in Hht |- * at 1.
  destruct (heap_test sbss ebss (mkHeapState _ h0 (phys s3))) as [[] [h5 m5]|e|] eqn:Hrun; [| |done].
  2: { subst e. split; [done|]. by exists (phys s3). }
  destruct Hht as [[_ Hkept] Hl5]. cbn [HEAP_ALLOCATOR heap_mem] in Hkept, Hl5. rewrite Hreg in Hkept.
  apply wp_println. wp_step.
  assert (Hag : ∀ f, f ∈ ms_frames ks → page_agree (phys s3) m5 f).
  { intros f Hf x Hx. symmetry. apply (hk_out _ _ _ _ Hkept). right. simpl.
    pose proof (kernel_frames_behind s2 s3 ks f x Hll eq_refl Hsm Hf ltac:(lia)). destruct Hll as [_ Ho _]. lia. }
  split; [split|..]; try done.
  - eexists. exact (sections_mapped_agree s2 s3 ks m5 Hsm Hag).
  - simpl. by rewrite Hl5, Hlive.
  - simpl. by rewrite <-app_assoc.
Qed.

(** ** The first process *)

Definition initproc_name : list byte := String.list_byte_of_string "ch6b_initproc".

(** The disk behind the block device holds the file of the first program. *)
Record disk_ready (elf_data : list byte) (elf : ElfFile) (phs : list ProgramHeader) : Prop := {
  dr_queues : Forall (λ pages, 0 ≤ pages < 2 ^ 44) vblk_queues;
  dr_mount queues : ∃ dev d i, vblk_new VIRTIO0 queues = Some dev ∧ efs_open dev = Some d ∧
    root_find initproc_name d = Some i ∧ file_data d i = elf_data;
  dr_elf : elf_ok elf_data elf phs;
  dr_len : Z.of_nat (length elf_data) < 2 ^ 64;
  dr_fuel : (length elf_data + 512 ≤ sys_fuel * 512)%nat;
}.

Lemma initproc_elf_spec st i fuel :
  root_find initproc_name (DISK st) = Some i →
  let data := file_data (DISK st) i in
  Z.of_nat (length data) < 2 ^ 64 → (length data + 512 ≤ fuel * 512)%nat →
  wp (initproc_elf fuel) (λ r st', r = data ∧ sys_kernel st' = sys_kernel st ∧ DISK st' = DISK st ∧
    PARKED st' = PARKED st ∧ next_osinode st' = S (next_osinode st) ∧
    OSINODES st' = <[next_osinode st := mkOSInode _ true false (Z.of_nat (length data)) i]> (OSINODES st)) no_panic st.
Proof.
  intros Hi data Hlen Hfuel. unfold initproc_elf, open_file. fold initproc_name.
  change (OpenFlags_read_write OpenFlags_RDONLY) with (true, false).
  change (OpenFlags_contains OpenFlags_RDONLY OpenFlags_CREATE) with false.
  change (OpenFlags_contains OpenFlags_RDONLY OpenFlags_TRUNC) with false. cbv beta iota.
  do 3 wp_step. rewrite Hi. unfold OSInode_new. repeat wp_step.
  set (st1 := mkSystem _ _ _ _ _ _ _ _ _ _).
  eapply wp_mono; [apply (read_all_spec st1 (next_osinode st) (mkOSInode _ true false 0 i)); [apply lookup_insert_eq|done|done|done]| |done].
  intros r st' (-> & Hk & Hd & Hp & _ & _ & Hn & _ & Ho). simpl in Ho. rewrite insert_insert_eq in Ho. by split_and!.
Qed.

(** A change of memory, the allocator and the queues of the device. *)
Definition only_mem (σ σ' : machine) : Prop := ∃ m fa q,
  σ' = mkMachine _ (set_hmem m (mc_hart σ)) fa (mc_heap σ) q (mc_sbi σ) (mc_sie σ).

Lemma only_mem_trans σ1 σ2 σ3 : only_mem σ1 σ2 → only_mem σ2 σ3 → only_mem σ1 σ3.
Proof. intros (m & fa & q & ->) (m' & fa' & q' & ->). by exists m', fa', q'. Qed.

(** The sections, and with the image the queues of the block device. *)
Definition start_layout (ks : MemorySet) (queue : list Z) : layout :=
  mkLayout (areas ks) (seqZ 0 ((ekernel + 4095) / 4096) ++ queue) (root_ppn (page_table ks)).

Lemma root_inode_spec σ ks k elf_data elf phs :
  linker_layout → disk_ready elf_data elf phs → space_up (Z.to_nat queue_pages + k) ks σ → mc_queue σ = [] →
  wp (ROOT_INODE_init ks) (λ d σ', ∃ i, root_find initproc_name d = Some i ∧ file_data d i = elf_data ∧
      mem_part (start_layout ks (mc_queue σ')) (static_kmem ks (mc_mm σ')) [] ∅ [] ∧
      (k ≤ free_frames (mc_mm σ'))%nat ∧ only_mem σ σ') no_panic σ.
Proof using All.
  intros Hll [Hq Hmount _ _ _] [[m0 Hsm] Hfree Hun] Hq0. unfold ROOT_INODE_init, BLOCK_DEVICE_init. wp_step. apply wp_zoom.
  set (h := mkHal _ _). assert (Hmm : hal_mm h = mc_mm σ) by done.
  assert (Hpos : 0 ≤ queue_pages) by (unfold queue_pages; clear -Hq; induction Hq; simpl; lia).
  eapply wp_mono; [apply (block_device_spec h); [rewrite Hmm; apply (step_wf _ _ _ _ (sm_step _ _ _ _ Hsm))|by rewrite Hmm|done]|..].
  2: { rewrite Hmm. intros e [_ [Hf|[queues Hf]]]; [lia|]. destruct (Hmount queues) as (dev & d & i & Hd & _). congruence. }
  intros dev h' (taken & queues & [Hqt Hst' [Hks Hpid]] & Hlen & Hdev).
  destruct (Hmount queues) as (dev' & d & i & Hd & Ho & Hi & Hdata). rewrite Hdev in Hd. injection Hd as <-. rewrite Ho. wp_step.
  exists i. rewrite Hmm in Hst'. split_and!; [done|done| | |by eexists _, _, _].
  - pose proof (boot_mem_part (mkMM m0 (boot_pool ekernel)) _ ks Hll eq_refl Hsm) as Hmp.
    apply (mp_step_all _ _ _ _ _ (hal_mm h') taken) in Hmp; [|exact Hst']. apply mp_adopt in Hmp.
    change (QUEUE_FRAMES h = []) in Hq0. rewrite Hq0 in Hqt. cbn [mc_queue]. rewrite Hqt.
    replace (mc_mm _) with (hal_mm h') by (by destruct (hal_mm h')). exact Hmp.
  - replace (mc_mm _) with (hal_mm h') by (by destruct (hal_mm h')). pose proof (step_count _ _ _ _ Hst') as Hc. simpl in Hc. lia.
Qed.

(** ** [INITPROC] *)

Lemma wp_on_system {A} st (m : M system A) (Q : A * system → machine → Prop) E σ :
  km_mm (k_mem (sys_kernel st)) = mc_mm σ →
  wp m (λ a st', Q (a, st') (set_mc_mm (km_mm (k_mem (sys_kernel st'))) σ)) E st → wp (on_system st m) Q E σ.
Proof. intros Hs Hm. apply wp_on_mm, wp_with_statics. rewrite <-Hs. by rewrite set_memory_id. Qed.

(** What [INITPROC] is made of, and where. *)
Record initproc_up (ks : MemorySet) (elf_data : list byte) (elf : ElfFile) (phs : list ProgramHeader)
    (st : system) (σ : machine) (b : TaskControlBlock) : Prop := {
  iu_disk : ∃ i, root_find initproc_name (DISK st) = Some i ∧ file_data (DISK st) i = elf_data ∧
    OSINODES st = {[ 0%nat := mkOSInode _ true false (Z.of_nat (length elf_data)) i ]};
  iu_fresh : next_osinode st = 1%nat ∧ PARKED st = ∅;
  iu_kernel : sys_kernel st = static_kernel b (k_mem (sys_kernel st));
  iu_mem : km_mm (k_mem (sys_kernel st)) = mc_mm σ;
  iu_part : mem_part (start_layout ks (mc_queue σ)) (k_mem (sys_kernel st)) [pid b] ∅ (task_frames b);
  iu_task : task_mem_ok (km_mm (k_mem (sys_kernel st))) b;
  iu_block : fresh_process None boot_files (elf_stack_top (loads phs)) b;
  iu_program : program_start elf_data elf phs (MemorySet_token ks) (KernelStack_get_top (kernel_stack b))
    (km_mm (k_mem (sys_kernel st))) (inner b);
}.

Lemma initproc_spec σ ks elf_data elf phs :
  linker_layout → disk_ready elf_data elf phs → mc_queue σ = [] →
  space_up (Z.to_nat queue_pages + (9 + 3 * length (segs_vpns (elf_layout elf_data (loads phs))))) ks σ →
  wp (INITPROC_init ks) (λ st σ', only_mem σ σ' ∧ ∃ b, initproc_up ks elf_data elf phs st σ' b) no_panic σ.
Proof using All.
  intros Hll Hdr Hq0 Hmu. pose proof Hdr as [_ _ Helf Hlen Hfuel]. unfold INITPROC_init.
  eapply wp_call; [by eapply root_inode_spec|done|]. intros d σ1 (i & Hi & Hdata & Hmp & Hfree & Hom). do 2 wp_step.
  wp_step. apply wp_on_system; [done|].
  eapply wp_mono; [apply (initproc_elf_spec (root_system (static_kmem ks (mc_mm σ1)) d) i sys_fuel Hi); simpl; rewrite Hdata; done| |done].
  cbn [root_system DISK next_osinode OSINODES PARKED sys_kernel]. rewrite Hdata.
  intros r st1 (-> & Hk & Hd & Hp & Hn & Ho). rewrite Hk. wp_step. apply wp_on_mm, wp_with_statics.
  change (mc_mm (set_mc_mm (mc_mm σ1) σ1)) with (mc_mm σ1).
  assert (Hpf : pid_fits (pa_current PidAllocator_new)) by (split; vm_compute; congruence).
  eapply wp_mono; [exact (new_task_spec Hst _ _ [] ∅ elf_data elf phs Henv Hmp Hpf Helf)| |].
  2: { intros e [_ Hf]. simpl in Hf. lia. }
  intros b m (_ & Hfr & Hmp' & Hb & Hps & _). wp_step.
  split; [eapply only_mem_trans; [exact Hom|]; by eexists _, _, _|]. exists b.
  split; cbn [set_sys_kernel sys_kernel DISK OSINODES next_osinode PARKED static_kernel k_mem].
  - exists i. rewrite Hd. by split_and!.
  - done.
  - done.
  - by destruct (km_mm m).
  - exact Hmp'.
  - exact Hb.
  - exact Hfr.
  - replace (MemorySet_token ks) with (MemorySet_token (KERNEL_SPACE m)); [exact Hps|].
    unfold MemorySet_token, PageTable_token. by rewrite (mp_root _ _ _ _ _ Hmp').
Qed.

(** ** [rust_main] *)

(** The frames that the boot takes: the kernel's tables, the queues of the block device
    and at most three frames for each page of the first program. *)
Definition boot_frames (elf_data : list byte) (phs : list ProgramHeader) : nat :=
  1 + length kernel_tables +
  (Z.to_nat queue_pages + (9 + 3 * length (segs_vpns (elf_layout elf_data (loads phs))))).

(** The machine as the firmware starts it. *)
Record powered_on (σ : machine) : Prop := {
  po_frames : mc_frames σ = fa_new;
  po_heap : mc_heap σ = heap_empty;
  po_queue : mc_queue σ = [];
  po_priv : priv (mc_hart σ) = SupervisorMode;
}.

(** The machine at the call of [run_tasks]. *)
Record booted (time : Z) (elf_data : list byte) (elf : ElfFile) (phs : list ProgramHeader) (σ0 : machine)
    (L : layout) (st : system) (σ : machine) (b : TaskControlBlock) : Prop := {
  bt_idle : idle L st;
  bt_mem : km_mm (k_mem (sys_kernel st)) = mc_mm σ;
  bt_sections : Forall2 (λ sec a, vpn_range a = sec_range sec ∧ map_type a = Identical ∧ map_perm a = sec.2)
    kernel_sections (lay_base L);
  bt_image : lay_image L = seqZ 0 ((ekernel + 4095) / 4096) ++ mc_queue σ;
  bt_tasks : TASKS (sys_kernel st) = {[ INITPROC (sys_kernel st) := b ]};
  bt_queue : ready_queue (sys_kernel st) = [INITPROC (sys_kernel st)];
  bt_parked : PARKED st = ∅;
  bt_block : fresh_process None boot_files (elf_stack_top (loads phs)) b;
  bt_program : program_start elf_data elf phs (MemorySet_token (KERNEL_SPACE (k_mem (sys_kernel st))))
    (KernelStack_get_top (kernel_stack b)) (km_mm (k_mem (sys_kernel st))) (inner b);
  bt_disk : ∃ i, root_find initproc_name (DISK st) = Some i ∧ file_data (DISK st) i = elf_data;
  bt_satp : satp (mc_hart σ) = MemorySet_token (KERNEL_SPACE (k_mem (sys_kernel st)));
  bt_priv : priv (mc_hart σ) = SupervisorMode;
  bt_stvec : stvec st = trap_from_kernel_addr;
  bt_timer : next_trigger st = set_next_trigger time ∧ Z.testbit (mc_sie σ) 5 = true;
  bt_heap : heap_live (mc_heap σ) = ∅;
  bt_log : mc_sbi σ = mc_sbi σ0 ++ boot_log time (DISK st);
}.

Lemma trigger_stvec_ok L st z z' : system_ok L st → system_ok L (set_trigger z (set_stvec z' st)).
Proof. intros []. by split. Qed.

(** The process is queued and the system satisfies the invariant. *)
Lemma start_system_ok ks elf_data elf phs st σ b :
  initproc_up ks elf_data elf phs st σ b →
  idle (start_layout ks (mc_queue σ)) (set_sys_kernel (set_ready_queue [0%nat] (sys_kernel st)) st).
Proof.
  intros [(i & _ & _ & Ho) [Hn Hp] Hk _ Hmp Hb Hfr _]. split; [|by rewrite Hk]. split; cbn [set_sys_kernel sys_kernel OSINODES PARKED next_osinode].
  - rewrite Hk. apply single_process_ok; [done..|apply Hfr|apply Hfr|]. rewrite (fr_prio _ _ _ _ Hfr). lia.
  - intros t b' Ht. rewrite Hk in Ht. change (({[0%nat := b]} : gmap nat TaskControlBlock) !! t = Some b') in Ht.
    apply lookup_singleton_Some in Ht as [_ <-]. by eapply fresh_proc_ok.
  - intros t p. by rewrite Hp, lookup_empty.
  - intros id. rewrite Ho, Hn. intros <-%lookup_singleton_is_Some. lia.
  - intros id f. rewrite Ho. intros [_ <-]%lookup_singleton_Some. simpl. lia.
Qed.

Lemma rust_main_spec time elf_data elf phs σ :
  image_layout → disk_ready elf_data elf phs → powered_on σ →
  (boot_frames elf_data phs ≤ Z.to_nat (0x88000 - (ekernel + 4095) / 4096))%nat →
  wp (rust_main time) (λ st σ', ∃ L b, booted time elf_data elf phs σ L st σ' b)
    (λ e, e = ExplicitPanic ∧ heap_refuses) σ.
Proof using All.
  intros Hil Hdr [Hf0 Hh0 Hq0 Hpriv] Hfr. pose proof (il_linker Hil) as Hll. unfold rust_main.
  wp_step. apply wp_on_mm. unfold clear_bss, set_phys. wp_step. cbv zeta.
  wp_step. apply (wp_console _ tt sections_log); [apply show_os_sections_run|]. wp_step. apply wp_println.
  set (σ1 := set_mc_sbi _ _).
  eapply wp_call; [apply (mm_init_spec σ1); [done..|exact Hfr]|done|]. intros ks σ2 Hmu.
  pose proof Hmu as [[[m0 Hsm] Hfree Hun] Hsat Hheap Hsbi Hq2 Hpr].
  unfold remap_test_printing. apply wp_bind. wp_step. apply wp_on_mm. unfold wp at 1.
  rewrite (remap_test_spec (mkMM m0 (boot_pool ekernel)) _ ks Hll (il_text Hil) (il_rodata Hil) (il_data Hil) Hsm). apply wp_println.
  replace (set_mc_mm (mc_mm σ2) σ2) with σ2 by (by destruct σ2 as [[]]). set (σ3 := set_mc_sbi _ σ2).
  eapply wp_call; [apply (initproc_spec σ3 ks elf_data elf phs Hll Hdr)|by intros e []|]; [exact (eq_trans Hq2 Hq0)|by split; [exists m0|..]|].
  intros st σ4 [(m4 & fa4 & q4 & Hσ4) [b Hup]]. pose proof Hup as [(i & Hi & Hdata & Ho) [Hn Hp] Hk Hmm _ _ Hblock Hprog].
  wp_step. apply wp_on_system; [exact Hmm|]. apply wp_with_kernel. unfold add_initproc, add_task, TaskManager_add.
  repeat wp_step. apply wp_println.
  replace (vec_push (ready_queue (sys_kernel st)) (INITPROC (sys_kernel st))) with [0%nat] by (by rewrite Hk).
  pose proof (start_system_ok _ _ _ _ _ _ _ Hup) as Hidle. set (st5 := set_sys_kernel _ st) in Hidle |- *.
  wp_step. apply wp_on_system; [by destruct (km_mm (k_mem (sys_kernel st5)))|].
  unfold trap_init, set_kernel_trap_entry. repeat wp_step. eapply wp_console; [apply set_timer_run|]. wp_step.
  eapply wp_console; [apply list_apps_run|]. wp_step.
  exists (start_layout ks (mc_queue σ4)), b. destruct Hidle as [Hok Hcur].
  assert (Htok : MemorySet_token (KERNEL_SPACE (k_mem (sys_kernel st5))) = MemorySet_token ks).
  { destruct (ko_mem _ _ (so_kernel _ _ Hok)) as (live & Hmp & _). unfold MemorySet_token, PageTable_token.
    by rewrite (mp_root _ _ _ _ _ Hmp). }
  split.
  - split; [|exact Hcur]. by apply trigger_stvec_ok.
  - set (s5 := km_mm (k_mem (sys_kernel st5))). change (s5 = mkMM (phys s5) (FRAME_ALLOCATOR s5)). by destruct s5.
  - exact (sm_areas _ _ _ _ Hsm).
  - done.
  - cbn. by rewrite Hk.
  - cbn. by rewrite Hk.
  - exact Hp.
  - exact Hblock.
  - cbn. cbn in Htok. rewrite Htok. exact Hprog.
  - by exists i.
  - cbn. cbn in Htok. rewrite Htok, Hσ4. exact Hsat.
  - cbn. rewrite Hσ4. exact (eq_trans Hpr Hpriv).
  - done.
  - split; [done|]. apply (Z.setbit_eq (mc_sie σ4)). lia.
  - cbn. rewrite Hσ4. exact Hheap.
  - transitivity (((mc_sbi σ4 ++ line (lit "[Kernel] After initproc!")) ++ [timer_request (set_next_trigger time)]) ++
      (line (lit "/**** APPS ****/") ++ mjoin (line <$> root_ls (DISK st)) ++ line (lit "/**************/"))); [reflexivity|].
    rewrite Hσ4. cbn [mc_sbi]. unfold σ3. cbn [set_mc_sbi mc_sbi]. rewrite Hsbi. unfold σ1. cbn [set_mc_sbi mc_sbi set_mc_mm].
    change (DISK (set_trigger _ _)) with (DISK st). unfold boot_log. by rewrite <-!app_assoc.
Qed.
End StartSpec.
