(* ===== verification/UserMode.v ===== *)
(** * What the hart sees of an address space

    The MMU of [Mmu] on the page tables that the kernel keeps: the supervisor reaches
    the trap context and the trampoline of the current process, at the same virtual
    address in every address space, and a program in user mode reaches its own frames
    and nothing else.  This is what makes [step_compute] of [SystemSpec] all that a
    program can do to memory. *)
From S2P Require Import Prelude Config Machine Address FrameAllocator Ownership.
From S2P Require Import PageTable PageTree PageTableSpec Mmu MemorySet MapAreaSpec MemorySetSpec.
From S2P Require Import AddressSpace UserSpace UserMemory Fork ElfLoad Pid Context Timer Task Scheduler.
From S2P Require Import SyscallProcess KernelInv ProcessSpec WaitSpec ExecSpec SyscallSpec KernelSteps.
From S2P Require Import Files FileSpec SyscallFile Trap SystemInv SystemCalls SystemSpec.

(** The top of the address space. *)
Lemma top_va vpn o :
  2 ^ 26 ≤ vpn < 2 ^ 27 → 0 ≤ o < 4096 → let va := 2 ^ 64 - 2 ^ 39 + vpn * 4096 + o in
  is_usize va ∧ canonical va = true ∧ va_vpn va = vpn ∧ va mod 4096 = o.
Proof.
  intros Hv Ho va. split_and!.
  - unfold is_usize, usize_modulus, va. lia.
  - unfold canonical. replace (va / 2 ^ 38) with (2 ^ 26 - 1); [by rewrite orb_true_r|unfold va; zsolve].
  - unfold va_vpn, va. zsolve.
  - unfold va. zsolve.
Qed.

Section Spaces.
Context `{LinkerSymbols}.
Context (Hst : strampoline_ok).

(** The trampoline is at the top of every address space, user or kernel. *)
Lemma fetch_trampoline s ms o :
  MemorySet_ok s ms trampoline_map → 0 ≤ o < 4096 →
  mmu_translate (MemorySet_token ms) (phys s) SupervisorMode Fetch (TRAMPOLINE + o) = Some (strampoline + o).
Proof.
  intros Hok Ho. destruct (top_va TRAMPOLINE_VPN o ltac:(by vm_compute) Ho) as (Hu & Hc & Hv & Hm).
  change (2 ^ 64 - 2 ^ 39 + TRAMPOLINE_VPN * 4096) with TRAMPOLINE in *.
  unfold MemorySet_token. rewrite mmu_lookup by (done || apply Hok). unfold page_translate. rewrite Hc, Hv, Hm.
  rewrite (ms_lookup_other _ _ _ _ Hok) by (try (apply (ms_extra _ _ _ _ Hok); unfold trampoline_map;
    rewrite lookup_singleton_eq; by eexists); by vm_compute).
  unfold trampoline_map. rewrite lookup_singleton_eq. unfold trampoline_pte. cbn [negb].
  assert (Hp : is_ppn (strampoline / 4096)) by (destruct Hst; unfold is_ppn; zsolve).
  rewrite allowed_new, readable_new, PTE_ppn_new by (done || by vm_compute).
  simpl. f_equal. destruct Hst. zsolve.
Qed.

(** A page of an area. *)
Lemma area_translate s ms X a vpn f p acc va :
  MemorySet_ok s ms X → a ∈ areas ms → data_frames a !! vpn = Some f → is_usize va → va_vpn va = vpn →
  mmu_translate (MemorySet_token ms) (phys s) p acc va =
    if canonical va && flags_allow p acc (map_perm a) then Some (f * 4096 + va mod 4096) else None.
Proof.
  intros Hok Ha Hf Hu Hv. unfold MemorySet_token. rewrite mmu_lookup by (done || apply Hok).
  unfold page_translate. rewrite Hv. pose proof (ms_areas _ _ _ _ Hok a Ha) as Hwf.
  assert (is_Some (data_frames a !! vpn)) as [Ht Hin]%(area_dom _ Hwf) by eauto.
  assert (Hp : is_ppn f) by (eapply ms_frame_ppn; [done|by exists a]).
  assert (Hpm : 0 ≤ map_perm a < 2 ^ 8) by (apply Hwf).
  rewrite (ms_lookup_area _ _ _ _ Hok a vpn Ha Hin). unfold area_pte, area_ppn. rewrite Ht, Hf. cbn [fmap option_fmap option_map].
  destruct (canonical va); [|done]. by apply page_translate_new.
Qed.

Lemma area_unique s ms X a a' vpn f f' :
  MemorySet_ok s ms X → a ∈ areas ms → a' ∈ areas ms → data_frames a !! vpn = Some f →
  data_frames a' !! vpn = Some f' → a = a'.
Proof.
  intros Hok Ha Ha' Hf Hf'.
  assert (Hv : vpn ∈ vpns (vpn_range a)) by (apply (area_dom _ (ms_areas _ _ _ _ Hok a Ha)); eauto).
  assert (Hv' : vpn ∈ vpns (vpn_range a')) by (apply (area_dom _ (ms_areas _ _ _ _ Hok a' Ha')); eauto).
  pose proof (ms_disjoint _ _ _ _ Hok) as Hnd. apply elem_of_Permutation in Ha as [al Hal].
  rewrite Hal in Hnd, Ha'. rewrite areas_vpns_cons in Hnd. apply NoDup_app in Hnd as (_ & Hd & _).
  apply elem_of_cons in Ha' as [->|Ha']; [done|]. destruct (Hd vpn Hv). apply elem_of_areas_vpns. eauto.
Qed.

(** The supervisor reaches the trap context of a live process. *)
Lemma trap_translate s i acc o :
  live_ok s i → acc ≠ Fetch → 0 ≤ o < 4096 →
  mmu_translate (MemorySet_token (memory_set i)) (phys s) SupervisorMode acc (TRAP_CONTEXT_BASE + o) =
    Some (trap_cx_ppn i * 4096 + o).
Proof.
  intros [Hok _ (a & Ha & Hf & Hp)] Hacc Ho.
  destruct (top_va TRAP_VPN o ltac:(by vm_compute) Ho) as (Hu & Hc & Hv & Hm).
  change (2 ^ 64 - 2 ^ 39 + TRAP_VPN * 4096) with TRAP_CONTEXT_BASE in *.
  rewrite (area_translate s _ _ a TRAP_VPN (trap_cx_ppn i)) by done. rewrite Hc, Hp, Hm. by destruct acc.
Qed.

(** What user mode reaches: a page of an area that has [U] and the permission. *)
Lemma user_translate s i acc va pa :
  live_ok s i → is_usize va →
  mmu_translate (MemorySet_token (memory_set i)) (phys s) UserMode acc va = Some pa →
  ∃ a f, a ∈ areas (memory_set i) ∧ data_frames a !! va_vpn va = Some f ∧ pa = f * 4096 + va mod 4096 ∧
    perm_allows acc (map_perm a) = true ∧ perm_user (map_perm a) = true ∧ va_vpn va ≠ TRAP_VPN ∧
    f ≠ trap_cx_ppn i.
Proof.
  intros [Hok Hfr (a0 & Ha0 & Hf0 & Hp0)] Hu Htr.
  assert (Hin : va_vpn va ∈ areas_vpns (areas (memory_set i))).
  { destruct (decide (va_vpn va ∈ areas_vpns (areas (memory_set i)))) as [|Hn]; [done|exfalso].
    unfold MemorySet_token in Htr. rewrite mmu_lookup in Htr by (done || apply Hok). unfold page_translate in Htr.
    rewrite (ms_lookup_other _ _ _ _ Hok _ (va_vpn_bounds va) Hn) in Htr. destruct (canonical va); [|done].
    destruct (decide (va_vpn va = TRAMPOLINE_VPN)) as [Heq|Hne].
    - unfold trampoline_map in Htr. rewrite Heq, lookup_singleton_eq in Htr. unfold trampoline_pte in Htr. cbn [negb] in Htr.
      rewrite allowed_new, andb_false_r in Htr; [done| |by vm_compute]. destruct Hst. unfold is_ppn. zsolve.
    - unfold trampoline_map in Htr. by rewrite lookup_singleton_ne in Htr by done. }
  destruct (framed_frame _ _ _ _ Hok Hfr Hin) as (f & a & Ha & Hf). exists a, f.
  rewrite (area_translate s _ _ a (va_vpn va) f) in Htr by done.
  unfold flags_allow in Htr. destruct (canonical va && _) eqn:Hb; [|done]. injection Htr as <-.
  apply andb_prop in Hb as [_ Hb]. apply andb_prop in Hb as [Hb _]. apply andb_prop in Hb as [Hacc Hus].
  assert (Hne : f ≠ trap_cx_ppn i).
  { intros ->. assert (va_vpn va = TRAP_VPN) as Heq.
    { eapply (ms_frame_inj _ _ _ Hok); [by exists a|by exists a0]. }
    assert (a = a0) as ->; [|by rewrite Hp0 in Hus]. rewrite Heq in Hf.
    by eapply (area_unique _ _ _ a a0 TRAP_VPN _ _ Hok). }
  split_and!; try done. intros Heq. apply Hne. rewrite Heq in Hf.
  eapply (ms_frame_fun _ _ _ Hok TRAP_VPN); [by exists a|by exists a0].
Qed.
End Spaces.
