(* ===== verification/Trampoline.v ===== *)
(** * The trampoline: entering and leaving the kernel

    [__alltraps] and [__restore] of [Hart], run on the hart with their fetches, loads
    and stores translated by the page tables of the kernel model.  [__alltraps] saves
    the registers of the interrupted program in its trap context and arrives at
    [trap_handler] in the kernel's address space; [__restore] goes back to user mode with
    the registers of the trap context.  Both change the address space while they run,
    which works because the trampoline is mapped at the same address in all of them. *)
From S2P Require Import Prelude Config Machine Address FrameAllocator Ownership.
From S2P Require Import PageTable PageTree PageTableSpec Mmu MemorySet MapAreaSpec MemorySetSpec.
From S2P Require Import AddressSpace UserSpace UserMemory Fork ElfLoad Pid Context Timer Task Scheduler.
From S2P Require Import SyscallProcess KernelInv ProcessSpec WaitSpec ExecSpec SyscallSpec KernelSteps.
From S2P Require Import Files FileSpec SyscallFile Trap SystemInv SystemCalls SystemSpec Hart UserMode.

Lemma reg_set_eq h r v : (0 < r < length (gpr h))%nat → reg (set_reg r v h) r = v.
Proof. destruct r; [lia|]. intros. simpl. by rewrite list_lookup_total_insert_eq by lia. Qed.
Lemma reg_set_ne h r r' v : r ≠ r' → reg (set_reg r v h) r' = reg h r'.
Proof. destruct r, r'; try done. intros. simpl. by rewrite list_lookup_total_insert_ne by lia. Qed.
Lemma length_gpr_set r v h : length (gpr (set_reg r v h)) = length (gpr h).
Proof. destruct r; [done|]. apply length_insert. Qed.

(** The registers hold machine words. *)
Record hart_ok (h : hart) : Prop := {
  ho_len : length (gpr h) = 32%nat;
  ho_regs r : is_usize (reg h r);
  ho_sstatus : is_usize (sstatus h);
  ho_sepc : is_usize (sepc h);
  ho_sscratch : is_usize (sscratch h);
}.

Lemma reg_out h r : (length (gpr h) ≤ r)%nat → is_usize (reg h r).
Proof. intros Hr. destruct r; [done|]. unfold reg. by rewrite list_lookup_total_alt, lookup_ge_None_2. Qed.

Lemma set_reg_ok r v h : hart_ok h → is_usize v → hart_ok (set_reg r v h).
Proof.
  intros [Hl Hg ? ? ?] Hv. destruct r as [|r]; [done|]. split; try done.
  - by rewrite length_gpr_set.
  - intros r'. destruct (decide (S r = r')) as [<-|Hne]; [|by rewrite reg_set_ne].
    destruct (decide (S r < length (gpr h))%nat); [by rewrite reg_set_eq by lia|].
    apply reg_out. rewrite length_gpr_set. lia.
Qed.

Lemma reg_next `{Assembler} i h r : reg (next i h) r = reg h r.
Proof. done. Qed.
Lemma reg_set_csr c v h r : reg (set_csr c v h) r = reg h r.
Proof. by destruct c. Qed.
Lemma reg_set_hmem m h r : reg (set_hmem m h) r = reg h r.
Proof. done. Qed.
Lemma reg_set_pc v h r : reg (set_pc v h) r = reg h r.
Proof. done. Qed.
Lemma gpr_set_csr c v h : gpr (set_csr c v h) = gpr h.
Proof. by destruct c. Qed.

(** Compute a register after a sequence of updates. *)
Ltac reg_solve :=
  repeat first [rewrite reg_next | rewrite reg_set_csr | rewrite reg_set_hmem | rewrite reg_set_pc
               | rewrite reg_set_ne by done
               | rewrite reg_set_eq by (simpl; rewrite ?gpr_set_csr, ?length_insert; simpl; lia)];
  try done.

Section Trampoline.
Context `{SystemEnv} `{!EasyFsLaws} `{Assembler}.
Context (Hst : strampoline_ok) (Henv : env_ok).

Abbreviation smm st := (km_mm (k_mem (sys_kernel st))).
Abbreviation stasks st := (TASKS (sys_kernel st)).
Abbreviation kernel_space st := (KERNEL_SPACE (k_mem (sys_kernel st))).

(** The hart runs in supervisor mode in the address space of the process [t], its
    memory is that of [st]. *)
Record in_space (L : layout) (st : system) (t : nat) (b : TaskControlBlock) (h : hart) : Prop := {
  is_run : running L st t b;
  is_mem : hmem h = phys (smm st);
  is_satp : satp h = MemorySet_token (memory_set (inner b));
  is_priv : priv h = SupervisorMode;
}.

Lemma in_space_fetch L st t b h : in_space L st t b h → fetchable h.
Proof.
  intros [Hr Hm Hs Hp] o Ho. rewrite Hm, Hs, Hp. apply fetch_trampoline; [done| |done].
  destruct (ru_live _ _ _ _ Hr) as [Hl _]. apply Hl.
Qed.

Lemma kernel_fetch L st h :
  system_ok L st → hmem h = phys (smm st) → satp h = MemorySet_token (kernel_space st) →
  priv h = SupervisorMode → fetchable h.
Proof.
  intros Hok Hm Hs Hp o Ho. rewrite Hm, Hs, Hp. apply fetch_trampoline; [done| |done].
  destruct (ko_mem _ _ (so_kernel _ _ Hok)) as (live & Hmp & _). eapply kso_ok, kp_space, mp_proc, Hmp.
Qed.

Lemma trap_access L st t b h acc k :
  in_space L st t b h → acc ≠ Fetch → (k < 37)%nat →
  translate8 h acc (TRAP_CONTEXT_BASE +u Z.of_nat k * 8) = Some (trap_cx b + 8 * Z.of_nat k).
Proof.
  intros [Hr Hm Hs Hp] Hacc Hk. destruct (ru_live _ _ _ _ Hr) as [Hl _].
  change TRAP_CONTEXT_BASE with (2 ^ 64 - 8192). rewrite usize_add_small by lia.
  unfold translate8. rewrite (proj2 (Z.eqb_eq _ 0)) by zsolve. rewrite Hm, Hs, Hp.
  change (2 ^ 64 - 8192) with TRAP_CONTEXT_BASE. rewrite (trap_translate (smm st)) by (done || lia).
  unfold trap_cx. f_equal. lia.
Qed.

(** The system after the hart has written to memory. *)
Definition in_kernel (st : system) (h : hart) : system :=
  set_memory {| phys := hmem h; FRAME_ALLOCATOR := FRAME_ALLOCATOR (smm st) |} st.

(** Only the trap context of [t] is written. *)
Record cx_step (t : nat) (b : TaskControlBlock) (st st' : system) : Prop := {
  cs_state : st' = set_memory {| phys := phys (smm st'); FRAME_ALLOCATOR := FRAME_ALLOCATOR (smm st) |} st;
  cs_kept : kept t st st';
  cs_kernel : kernel_space st' = kernel_space st;
  cs_own va : va / 4096 ∈ areas_vpns (areas (memory_set (inner b))) → va / 4096 ≠ TRAP_VPN →
    user_byte (smm st') (memory_set (inner b)) va = user_byte (smm st) (memory_set (inner b)) va;
}.

Lemma cx_step_trans t b st1 st2 st3 : cx_step t b st1 st2 → cx_step t b st2 st3 → cx_step t b st1 st3.
Proof.
  intros [He Hk Hs Ho] [He' Hk' Hs' Ho']. split; [|by eapply kept_trans|by rewrite Hs'|].
  { etransitivity; [exact He'|]. replace (FRAME_ALLOCATOR (smm st2)) with (FRAME_ALLOCATOR (smm st1)) by (by rewrite He).
    generalize {| phys := phys (smm st3); FRAME_ALLOCATOR := FRAME_ALLOCATOR (smm st1) |}. intros s. by rewrite He. }
  intros va Hva Hne. by rewrite Ho', Ho.
Qed.

(** A register is saved in the trap context. *)
Lemma exec_save L st t b h r k :
  in_space L st t b h → hart_ok h → reg h 2 = TRAP_CONTEXT_BASE → (k < 37)%nat → ∃ st',
  let h' := next (Sd r 2 (Z.of_nat k * 8)) (set_hmem (phys (smm st')) h) in
  exec (Sd r 2 (Z.of_nat k * 8)) h = Some h' ∧ in_space L st' t b h' ∧
  trap_words st' b = <[k := reg h r]> (trap_words st b) ∧ cx_step t b st st'.
Proof.
  intros Hin Hh Hsp Hk. pose proof (ho_regs h Hh r) as Hv.
  destruct (running_trap_word L st t b k (reg h r) (is_run _ _ _ _ _ Hin) Hk Hv) as (Hr' & Hw & Hkp).
  destruct (ru_live _ _ _ _ (is_run _ _ _ _ _ Hin)) as [[Hms Hfr Htr%trap_page_frame] _].
  destruct (write_trap_word (smm st) _ _ _ k (reg h r) Hms Hfr Htr Hk Hv) as (_ & _ & Hown).
  eexists. split_and!; [|split; [exact Hr'|done|apply Hin..]|exact Hw|by split; [|exact Hkp|..]].
  unfold exec. rewrite Hsp, (trap_access L st t b) by done. cbn [mbind option_bind].
  by rewrite (is_mem _ _ _ _ _ Hin).
Qed.

(** A word of the trap context is loaded. *)
Lemma exec_load L st t b h rd k :
  in_space L st t b h → reg h 2 = TRAP_CONTEXT_BASE → (k < 37)%nat →
  exec (Ld rd 2 (Z.of_nat k * 8)) h =
    Some (next (Ld rd 2 (Z.of_nat k * 8)) (set_reg rd (trap_words st b !!! k) h)).
Proof.
  intros Hin Hsp Hk. unfold exec. rewrite Hsp, (trap_access L st t b) by done. cbn [mbind option_bind].
  rewrite (is_mem _ _ _ _ _ Hin). unfold trap_words, load_words.
  rewrite list_lookup_total_alt, list_lookup_fmap, lookup_seq_lt by done. done.
Qed.

(** Where [h'] is a hart that differs from [h] in its memory and program counter. *)
Definition moved (h : hart) (n : Z) (m : memory) : hart := set_pc (pc h +u n) (set_hmem m h).

Lemma moved_ok h n m : hart_ok h → hart_ok (moved h n m).
Proof. intros []. by split. Qed.

Lemma next_ok i h : hart_ok h → hart_ok (next i h).
Proof. intros []. by split. Qed.

(** The block of [SAVE_GP]. *)
Lemma save_regs L t b rs h st :
  in_space L st t b h → hart_ok h → reg h 2 = TRAP_CONTEXT_BASE → Forall (λ r, r < 32)%nat rs → rs ≠ [] →
  let code := (λ n, Sd n 2 (Z.of_nat n * 8)) <$> rs in ∃ st',
  let h' := moved h (code_size code) (phys (smm st')) in
  runs code h h' ∧ in_space L st' t b h' ∧
  trap_words st' b = foldl (λ ws r, <[r := reg h r]> ws) (trap_words st b) rs ∧ cx_step t b st st'.
Proof.
  intros Hin Hh Hsp Hrs Hne. revert h st Hin Hh Hsp Hne.
  induction Hrs as [|r rs Hr Hrs IH]; intros h st Hin Hh Hsp Hne; [done|]. cbv zeta in *.
  destruct (exec_save L st t b h r r Hin Hh Hsp ltac:(lia)) as (st1 & He & Hin1 & Hw1 & Hk1).
  set (h1 := next _ _) in He, Hin1. destruct rs as [|r' rs].
  - exists st1. replace (moved h _ _) with h1.
    + split_and!; try done. cbn [fmap list_fmap]. apply runs_one; [by eapply in_space_fetch|done].
    + unfold h1, next, moved. cbn [fmap list_fmap code_size foldr]. by rewrite Z.add_0_r.
  - destruct (IH h1 st1 Hin1 ltac:(by apply (moved_ok h)) Hsp ltac:(done)) as (st2 & Hrun & Hin2 & Hw2 & Hk2).
    exists st2. assert (Heq : moved h (code_size ((λ n, Sd n 2 (Z.of_nat n * 8)) <$> r :: r' :: rs)) (phys (smm st2)) =
      moved h1 (code_size ((λ n, Sd n 2 (Z.of_nat n * 8)) <$> r' :: rs)) (phys (smm st2))).
    { unfold moved, h1, next. simpl. unfold set_pc, set_hmem. simpl. f_equal.
      unfold usize_add, wrap64. rewrite Zplus_mod_idemp_l. f_equal. lia. }
    rewrite Heq. split_and!.
    + rewrite fmap_cons. eapply runs_cons; [by eapply in_space_fetch|exact He|done|simpl; lia|exact Hrun].
    + done.
    + rewrite Hw2, Hw1. done.
    + by eapply cx_step_trans.
Qed.

(** What [__alltraps] makes of the words [ws] of the trap context. *)
Definition saved_words (h : hart) (ws : list Z) : list Z :=
  (λ k, if decide (k ∈ [0; 4; 34; 35; 36]%nat) then ws !!! k
        else if decide (k = 32%nat) then sstatus h else if decide (k = 33%nat) then sepc h else reg h k)
  <$> seq 0 37.

(** The order of the stores does not matter. *)
Lemma saved_words_stores h ws h0 :
  length ws = 37%nat → (∀ r, r ≠ 2%nat → reg h0 r = reg h r) →
  <[2%nat := reg h 2]> (<[33%nat := sepc h]> (<[32%nat := sstatus h]>
    (foldl (λ ws r, <[r := reg h0 r]> ws) (<[3%nat := reg h 3]> (<[1%nat := reg h 1]> ws)) (seq 5 27)))) =
  saved_words h ws.
Proof.
  intros Hl Heq. do 37 (destruct ws as [|? ws]; [done|]). destruct ws; [|done].
  cbn [seq foldl]. rewrite !Heq by done. reflexivity.
Qed.

(** ** [__alltraps] *)

(** On the way to [trap_handler]: the loads of the kernel's half of the context. *)
Lemma alltraps_tail L st t b h :
  in_space L st t b h → length (gpr h) = 32%nat → reg h 2 = TRAP_CONTEXT_BASE →
  trap_words st b !!! 34%nat = MemorySet_token (kernel_space st) →
  leads [Ld 5 2 (34 * 8); Ld 6 2 (36 * 8); Ld 2 2 (35 * 8); Csrw Satp 5; SfenceVma; Jr 6] h (λ h',
    hmem h' = phys (smm st) ∧ satp h' = MemorySet_token (kernel_space st) ∧ priv h' = SupervisorMode ∧
    reg h' 2 = trap_words st b !!! 35%nat ∧ pc h' = Z.land (trap_words st b !!! 36%nat) (Z.lnot 1)).
Proof.
  intros Hin Hlen Hsp Hks. pose proof Hin as [Hr Hm Hs Hp].
  eapply leads_cons; [by eapply in_space_fetch|exact (exec_load L st t b h 5 34 Hin Hsp ltac:(lia))|done|simpl; lia|].
  set (h1 := next _ _). assert (Hin1 : in_space L st t b h1) by done.
  assert (Hsp1 : reg h1 2 = TRAP_CONTEXT_BASE) by (unfold h1; reg_solve).
  eapply leads_cons; [by eapply in_space_fetch|exact (exec_load L st t b h1 6 36 Hin1 Hsp1 ltac:(lia))|done|simpl; lia|].
  set (h2 := next _ _). assert (Hin2 : in_space L st t b h2) by done.
  assert (Hsp2 : reg h2 2 = TRAP_CONTEXT_BASE) by (unfold h2; reg_solve).
  eapply leads_cons; [by eapply in_space_fetch|exact (exec_load L st t b h2 2 35 Hin2 Hsp2 ltac:(lia))|done|simpl; lia|].
  set (h3 := next _ _). assert (Hin3 : in_space L st t b h3) by done.
  assert (H5 : reg h3 5 = trap_words st b !!! 34%nat) by (unfold h3, h2, h1; reg_solve).
  eapply leads_cons; [by eapply in_space_fetch|reflexivity|done|simpl; lia|].
  set (h4 := next _ _). assert (Hs4 : satp h4 = MemorySet_token (kernel_space st)) by (by rewrite <-Hks, <-H5).
  assert (Hf4 : fetchable h4) by (by apply (kernel_fetch L st); [apply Hr|..]).
  eapply leads_cons; [exact Hf4|reflexivity|done|simpl; lia|].
  eapply leads_one; [exact Hf4|reflexivity|]. split_and!; [done|exact Hs4|done|..].
  - unfold h4, h3, h2, h1. reg_solve.
  - cbn [pc set_pc]. f_equal. unfold h4, h3, h2, h1. reg_solve.
Qed.

(** The status, the program counter and the user stack pointer. *)
Lemma alltraps_csrs L st t b h c Q :
  in_space L st t b h → hart_ok h → reg h 2 = TRAP_CONTEXT_BASE → (0 < length c)%nat →
  (∀ h' st', in_space L st' t b h' → length (gpr h') = 32%nat → reg h' 2 = TRAP_CONTEXT_BASE →
     trap_words st' b = <[2%nat := sscratch h]> (<[33%nat := sepc h]> (<[32%nat := sstatus h]> (trap_words st b))) →
     cx_step t b st st' → leads c h' Q) →
  leads ([Csrr 5 Sstatus; Csrr 6 Sepc; Sd 5 2 (32 * 8); Sd 6 2 (33 * 8); Csrr 7 Sscratch; Sd 7 2 (2 * 8)] ++ c) h Q.
Proof.
  intros Hin Hh Hsp Hc HQ. pose proof Hh as [Hlen _ Hss Hse Hsc].
  eapply leads_cons; [by eapply in_space_fetch|reflexivity|done|simpl; lia|]. set (h1 := next _ _).
  assert (Hin1 : in_space L st t b h1) by (by destruct Hin).
  assert (Hok1 : hart_ok h1) by exact (next_ok _ _ (set_reg_ok 5 _ h Hh Hss)).
  eapply leads_cons; [by eapply in_space_fetch|reflexivity|done|simpl; lia|]. set (h2 := next _ _).
  assert (Hin2 : in_space L st t b h2) by (by destruct Hin).
  assert (Hok2 : hart_ok h2) by exact (next_ok _ _ (set_reg_ok 6 _ h1 Hok1 Hse)).
  assert (Hr2 : reg h2 2 = TRAP_CONTEXT_BASE ∧ reg h2 5 = sstatus h ∧ reg h2 6 = sepc h).
  { unfold h2, h1. split_and!; reg_solve. }
  destruct Hr2 as (Hsp2 & H25 & H26).
  destruct (exec_save L st t b h2 5 32 Hin2 Hok2 Hsp2 ltac:(lia)) as (st3 & He3 & Hin3 & Hw3 & Hk3).
  eapply leads_cons; [by eapply in_space_fetch|exact He3|done|simpl; lia|].
  set (h3 := next _ _) in Hin3 |- *. assert (Hok3 : hart_ok h3) by exact (moved_ok h2 _ _ Hok2).
  destruct (exec_save L st3 t b h3 6 33 Hin3 Hok3 Hsp2 ltac:(lia)) as (st4 & He4 & Hin4 & Hw4 & Hk4).
  eapply leads_cons; [by eapply in_space_fetch|exact He4|done|simpl; lia|].
  set (h4 := next _ _) in Hin4 |- *. assert (Hok4 : hart_ok h4) by exact (moved_ok h3 _ _ Hok3).
  eapply leads_cons; [by eapply in_space_fetch|reflexivity|done|simpl; lia|]. set (h5 := next _ _).
  assert (Hin5 : in_space L st4 t b h5) by (by destruct Hin4).
  assert (Hok5 : hart_ok h5) by exact (next_ok _ _ (set_reg_ok 7 _ h4 Hok4 Hsc)).
  assert (Hsp5 : reg h5 2 = TRAP_CONTEXT_BASE) by (unfold h5; reg_solve).
  destruct (exec_save L st4 t b h5 7 2 Hin5 Hok5 Hsp5 ltac:(lia)) as (st6 & He6 & Hin6 & Hw6 & Hk6).
  eapply leads_cons; [by eapply in_space_fetch|exact He6|done|done|].
  eapply HQ; [exact Hin6|apply Hok5|exact Hsp5| |by eapply cx_step_trans; [|eapply cx_step_trans]].
  rewrite Hw6, Hw4, Hw3. change (reg h3 6) with (reg h2 6). rewrite H25, H26.
  replace (reg h5 7) with (sscratch h); [done|]. unfold h5. symmetry. rewrite reg_next, reg_set_eq; [done|].
  rewrite (ho_len _ Hok4). lia.
Qed.

Lemma alltraps_spec L st t b h :
  in_space L st t b h → hart_ok h → pc h = TRAMPOLINE → sscratch h = TRAP_CONTEXT_BASE →
  trap_words st b !!! 34%nat = MemorySet_token (kernel_space st) →
  ∃ h' st', steps (length alltraps_code) h = Some h' ∧ running L st' t b ∧ cx_step t b st st' ∧ trap_words st' b = saved_words h (trap_words st b) ∧
    hmem h' = phys (smm st') ∧ satp h' = MemorySet_token (kernel_space st) ∧ priv h' = SupervisorMode ∧
    reg h' 2 = trap_words st b !!! 35%nat ∧ pc h' = Z.land (trap_words st b !!! 36%nat) (Z.lnot 1).
Proof.
  intros Hin Hh Hpc Hsc Hks. set (ws := trap_words st b) in *.
  assert (Hlw : length ws = 37%nat) by apply length_load_words.
  enough (leads alltraps_code h (λ h', ∃ st', running L st' t b ∧ cx_step t b st st' ∧ trap_words st' b = saved_words h ws ∧ hmem h' = phys (smm st') ∧ satp h' = MemorySet_token (kernel_space st) ∧
    priv h' = SupervisorMode ∧ reg h' 2 = ws !!! 35%nat ∧ pc h' = Z.land (ws !!! 36%nat) (Z.lnot 1))) as (h' & Hrun & st' & HQ).
  { exists h', st'. split; [|done]. apply (Hrun [] restore_code); [done|]. rewrite Hpc. done. }
  pose proof Hh as [Hlen Hg Hss Hse _].
  eapply leads_cons; [by eapply in_space_fetch|reflexivity|done|simpl; lia|]. set (h0 := next _ _).
  assert (Hin0 : in_space L st t b h0) by (by destruct Hin).
  assert (Hok0 : hart_ok h0).
  { apply next_ok, set_reg_ok; [|apply Hh].
    split; try done. exact (Hg 2%nat). }
  assert (Hsp0 : reg h0 2 = TRAP_CONTEXT_BASE) by (unfold h0; reg_solve).
  assert (Hreg0 : ∀ r, r ≠ 2%nat → reg h0 r = reg h r) by (intros r Hr; unfold h0; reg_solve).
  destruct (exec_save L st t b h0 1 1 Hin0 Hok0 Hsp0 ltac:(lia)) as (st1 & He1 & Hin1 & Hw1 & Hk1).
  eapply leads_cons; [by eapply in_space_fetch|exact He1|done|simpl; lia|]. set (h1 := next _ _) in Hin1 |- *.
  destruct (exec_save L st1 t b h1 3 3 Hin1 (moved_ok h0 _ _ Hok0) Hsp0 ltac:(lia)) as (st2 & He2 & Hin2 & Hw2 & Hk2).
  eapply leads_cons; [by eapply in_space_fetch|exact He2|done|simpl; lia|]. set (h2 := next _ _) in Hin2 |- *.
  destruct (save_regs L t b (seq 5 27) h2 st2 Hin2 (moved_ok h1 _ _ (moved_ok h0 _ _ Hok0)) Hsp0) as (st3 & Hrun3 & Hin3 & Hw3 & Hk3); [|done|].
  { apply Forall_forall. intros r Hr%elem_of_seq. lia. }
  eapply leads_app; [exact Hrun3|done|simpl; lia|]. set (h3 := moved _ _ _) in Hin3 |- *.
  assert (Hok3 : hart_ok h3) by apply (moved_ok h2), (moved_ok h1), (moved_ok h0), Hok0.
  apply (alltraps_csrs L st3 t b h3); [done|done|exact Hsp0|simpl; lia|].
  intros h4 st4 Hin4 Hl4 Hsp4 Hw4 Hk4.
  assert (Hw : trap_words st4 b = saved_words h ws).
  { rewrite Hw4, Hw3, Hw2, Hw1. fold ws. change (reg h1 3) with (reg h0 3). rewrite (Hreg0 1%nat), (Hreg0 3%nat) by done.
    apply (saved_words_stores h ws h0 Hlw Hreg0). }
  assert (Hcx : cx_step t b st st4)
    by exact (cx_step_trans _ _ _ _ _ Hk1 (cx_step_trans _ _ _ _ _ Hk2 (cx_step_trans _ _ _ _ _ Hk3 Hk4))).
  pose proof (cs_kernel _ _ _ _ Hcx) as Hks'.
  destruct (alltraps_tail L st4 t b h4 Hin4 Hl4 Hsp4) as (h5 & Hrun5 & Hm5 & Hs5 & Hp5 & Hr5 & Hpc5).
  { rewrite Hw, Hks'. exact Hks. }
  rewrite Hw in Hr5, Hpc5. exists h5. split; [exact Hrun5|]. exists st4. rewrite Hks' in Hs5. split_and!; try assumption.
  apply Hin4.
Qed.

(** ** [__restore] *)

(** The block of [LOAD_GP]. *)
Lemma load_regs L st t b rs h :
  in_space L st t b h → reg h 2 = TRAP_CONTEXT_BASE → Forall (λ r, (0 < r < 32)%nat ∧ r ≠ 2%nat) rs → rs ≠ [] →
  let code := (λ n, Ld n 2 (Z.of_nat n * 8)) <$> rs in
  let h' := moved (set_gpr (foldl (λ g r, <[r := trap_words st b !!! r]> g) (gpr h) rs) h) (code_size code) (hmem h) in
  runs code h h' ∧ in_space L st t b h'.
Proof.
  intros Hin Hsp Hrs Hne. revert h Hin Hsp Hne.
  induction Hrs as [|r rs Hr Hrs IH]; intros h Hin Hsp Hne; [done|]. cbv zeta in *.
  pose proof (exec_load L st t b h r r Hin Hsp ltac:(lia)) as He. set (h1 := next _ _) in He.
  assert (Hh1 : h1 = moved (set_gpr (<[r := trap_words st b !!! r]> (gpr h)) h) (ilen (Ld r 2 (Z.of_nat r * 8))) (hmem h)).
  { unfold h1, next, moved, set_reg. by destruct r; [lia|]. }
  assert (Hin1 : in_space L st t b h1) by (rewrite Hh1; by destruct Hin).
  split; [|by destruct Hin]. destruct rs as [|r' rs].
  - cbn [fmap list_fmap foldl]. replace (moved _ _ _) with h1.
    + apply runs_one; [by eapply in_space_fetch|done].
    + rewrite Hh1. cbn [code_size foldr]. by rewrite Z.add_0_r.
  - assert (Hsp1 : reg h1 2 = TRAP_CONTEXT_BASE).
    { unfold h1. rewrite reg_next, reg_set_ne by lia. done. }
    destruct (IH h1 Hin1 Hsp1 ltac:(done)) as [Hrun _]. rewrite fmap_cons.
    eapply runs_cons; [by eapply in_space_fetch|exact He|by rewrite Hh1|simpl; lia|]. revert Hrun.
    replace (moved _ _ (hmem h1)) with (moved (set_gpr
      (foldl (λ g r0, <[r0:=trap_words st b !!! r0]> g) (gpr h) (r :: r' :: rs)) h)
      (code_size (Ld r 2 (Z.of_nat r * 8) :: ((λ n, Ld n 2 (Z.of_nat n * 8)) <$> r' :: rs))) (hmem h)); [done|].
    rewrite Hh1. unfold moved, set_pc, set_hmem, set_gpr. cbn [pc gpr satp sscratch sstatus sepc priv hmem foldl]. f_equal.
    change (code_size (?i :: ?c)) with (ilen i + code_size c).
    unfold usize_add, wrap64. rewrite Zplus_mod_idemp_l. f_equal. lia.
Qed.

(** The registers after the loads. *)
Lemma lookup_loaded (ws g : list Z) rs r :
  (r < length g)%nat →
  foldl (λ g r, <[r := ws !!! r]> g) g rs !!! r = if decide (r ∈ rs) then ws !!! r else g !!! r.
Proof.
  revert g. induction rs as [|r' rs IH]; intros g Hr; [done|]. cbn [foldl].
  rewrite IH by (by rewrite length_insert). destruct (decide (r = r')) as [->|Hne].
  - rewrite (decide_True (P := r' ∈ r' :: rs)) by (by left). case_decide; [done|]. by rewrite list_lookup_total_insert_eq.
  - rewrite list_lookup_total_insert_ne by done. repeat case_decide; try done; set_solver.
Qed.

Definition restored (h : hart) (ws : list Z) (token : Z) (h' : hart) : Prop :=
  hmem h' = hmem h ∧ satp h' = token ∧ sscratch h' = TRAP_CONTEXT_BASE ∧ pc h' = ws !!! 33%nat ∧ sepc h' = ws !!! 33%nat ∧
  sstatus h' = sstatus (do_sret (set_csr Sstatus (ws !!! 32%nat) h)) ∧
  priv h' = (if Z.testbit (ws !!! 32%nat) 8 then SupervisorMode else UserMode) ∧
  (∀ r, (0 < r < 32)%nat → r ≠ 4%nat → reg h' r = ws !!! r) ∧ reg h' 4 = reg h 4 ∧ length (gpr h') = 32%nat.

(** The control registers come from the trap context. *)
Lemma restore_csrs L st t b h3 c Q :
  in_space L st t b h3 → length (gpr h3) = 32%nat → reg h3 2 = TRAP_CONTEXT_BASE → (0 < length c)%nat →
  (∀ h', in_space L st t b h' → length (gpr h') = 32%nat → reg h' 2 = TRAP_CONTEXT_BASE → reg h' 4 = reg h3 4 →
     sscratch h' = sscratch h3 → sstatus h' = trap_words st b !!! 32%nat → sepc h' = trap_words st b !!! 33%nat →
     leads c h' Q) →
  leads ([Ld 5 2 (32 * 8); Ld 6 2 (33 * 8); Csrw Sstatus 5; Csrw Sepc 6] ++ c) h3 Q.
Proof.
  intros Hin3 Hl3 Hsp3 Hc HQ.
  eapply leads_cons; [by eapply in_space_fetch|exact (exec_load L st t b h3 5 32 Hin3 Hsp3 ltac:(lia))|done|simpl; lia|].
  set (h4 := next _ _). assert (Hin4 : in_space L st t b h4) by (by destruct Hin3).
  assert (Hsp4 : reg h4 2 = TRAP_CONTEXT_BASE) by (unfold h4; reg_solve).
  eapply leads_cons; [by eapply in_space_fetch|exact (exec_load L st t b h4 6 33 Hin4 Hsp4 ltac:(lia))|done|simpl; lia|].
  set (h5 := next _ _). assert (Hin5 : in_space L st t b h5) by (by destruct Hin4).
  assert (H5 : reg h5 2 = TRAP_CONTEXT_BASE ∧ reg h5 4 = reg h3 4 ∧ sscratch h5 = sscratch h3 ∧ length (gpr h5) = 32%nat ∧
    reg h5 5 = trap_words st b !!! 32%nat ∧ reg h5 6 = trap_words st b !!! 33%nat).
  { unfold h5, h4. split_and!; [reg_solve|by reg_solve|done| |reg_solve|reg_solve]. simpl. by rewrite !length_insert. }
  clearbody h5. clear h4 Hsp4 Hin4. destruct H5 as (Hsp5 & H54 & Hsc5 & Hl5 & H55 & H56).
  eapply leads_cons; [by eapply in_space_fetch|reflexivity|done|simpl; lia|]. set (h6 := next _ _).
  assert (Hin6 : in_space L st t b h6) by (by destruct Hin5).
  eapply leads_cons; [by eapply in_space_fetch|reflexivity|done|done|].
  apply HQ; [by destruct Hin6|exact Hl5|exact Hsp5|exact H54|exact Hsc5|exact H55|exact H56].
Qed.

(** From the change of address space to the loads of the registers. *)
Lemma restore_head L st t b h c Q :
  in_space L st t b h → length (gpr h) = 32%nat → reg h 10 = TRAP_CONTEXT_BASE → (0 < length c)%nat →
  (∀ h', in_space L st t b h' → length (gpr h') = 32%nat → reg h' 2 = TRAP_CONTEXT_BASE → reg h' 4 = reg h 4 →
     sscratch h' = TRAP_CONTEXT_BASE → sstatus h' = trap_words st b !!! 32%nat → sepc h' = trap_words st b !!! 33%nat →
     leads c h' Q) →
  leads ([SfenceVma; Csrw Sscratch 10; Mv 2 10; Ld 5 2 (32 * 8); Ld 6 2 (33 * 8); Csrw Sstatus 5; Csrw Sepc 6] ++ c) h Q.
Proof.
  intros Hin Hlen H10 Hc HQ. pose proof Hin as [Hr Hm Hs Hp].
  eapply leads_cons; [by eapply in_space_fetch|reflexivity|done|simpl; lia|]. set (h1 := next _ _).
  assert (Hin1 : in_space L st t b h1) by done.
  eapply leads_cons; [by eapply in_space_fetch|reflexivity|done|simpl; lia|]. set (h2 := next _ _).
  assert (Hin2 : in_space L st t b h2) by done.
  eapply leads_cons; [by eapply in_space_fetch|reflexivity|done|simpl; lia|]. set (h3 := next _ _).
  assert (Hin3 : in_space L st t b h3) by done.
  apply (restore_csrs L st t b h3); [done|unfold h3; simpl; by rewrite length_insert| |done|].
  { unfold h3, h2, h1. reg_solve. }
  intros h' Hin' Hl' Hsp' H4' Hsc' Hss' Hse'. apply HQ; try done.
  - rewrite H4'. unfold h3. by rewrite reg_next, reg_set_ne by lia.
  - rewrite Hsc'. exact H10.
Qed.

Lemma restore_spec L st t b h :
  running L st t b → hmem h = phys (smm st) → satp h = MemorySet_token (kernel_space st) → priv h = SupervisorMode →
  length (gpr h) = 32%nat → pc h = TRAMPOLINE + code_size alltraps_code → reg h 10 = TRAP_CONTEXT_BASE →
  reg h 11 = MemorySet_token (memory_set (inner b)) →
  ∃ h', steps (length restore_code) h = Some h' ∧
    restored h (trap_words st b) (MemorySet_token (memory_set (inner b))) h'.
Proof.
  intros Hr Hm Hs Hp Hlen Hpc H10 H11. set (ws := trap_words st b).
  enough (leads restore_code h (restored h ws (MemorySet_token (memory_set (inner b))))) as (h' & Hrun & HQ).
  { exists h'. split; [|done]. apply (Hrun alltraps_code []); [by rewrite app_nil_r|done]. }
  eapply leads_cons; [by eapply kernel_fetch; [apply Hr|..]|reflexivity|done|simpl; lia|]. set (h1 := next _ _).
  assert (Hin1 : in_space L st t b h1) by done.
  apply (restore_head L st t b h1); [done|done|done|simpl; lia|].
  intros h2 Hin2 Hl2 Hsp2 H42 Hsc2 Hss2 Hse2.
  destruct (load_regs L st t b (1%nat :: 3%nat :: seq 5 27) h2 Hin2 Hsp2) as [Hrun3 Hin3]; [|done|].
  { apply Forall_forall. intros r. rewrite !elem_of_cons, elem_of_seq. lia. }
  apply (leads_app ((λ n, Ld n 2 (Z.of_nat n * 8)) <$> 1%nat :: 3%nat :: seq 5 27) [Ld 2 2 (2 * 8); Sret] h2 _ _ Hrun3);
    [done|simpl; lia|]. set (h3 := moved _ _ _) in Hin3 |- *.
  assert (Hreg3 : ∀ r, (0 < r < 32)%nat → reg h3 r =
    if decide (r ∈ 1%nat :: 3%nat :: seq 5 27) then ws !!! r else reg h2 r).
  { intros r Hr3. unfold h3, moved. rewrite reg_set_pc, reg_set_hmem. destruct r as [|r]; [lia|].
    cbn [reg set_gpr gpr]. fold ws. apply lookup_loaded. lia. }
  assert (Hl3 : length (gpr h3) = 32%nat).
  { unfold h3. cbn [moved set_pc set_hmem set_gpr gpr]. clear -Hl2. revert Hl2. generalize (gpr h2).
    induction (1%nat :: 3%nat :: seq 5 27) as [|r rs IH]; intros g Hg; [done|]. cbn [foldl]. apply IH. by rewrite length_insert. }
  assert (Hsp3 : reg h3 2 = TRAP_CONTEXT_BASE) by (rewrite (Hreg3 2%nat) by lia; done).
  eapply leads_cons; [by eapply in_space_fetch|exact (exec_load L st t b h3 2 2 Hin3 Hsp3 ltac:(lia))|done|simpl; lia|].
  set (h4 := next _ _). assert (Hin4 : in_space L st t b h4) by (by destruct Hin3).
  eapply leads_one; [by eapply in_space_fetch|reflexivity|].
  assert (Hreg : ∀ r, reg (do_sret h4) r = reg (set_reg 2 (ws !!! 2%nat) h3) r) by done.
  unfold restored. rewrite !Hreg. split_and!.
  - by rewrite Hm, <-(is_mem _ _ _ _ _ Hin3).
  - apply Hin3.
  - exact Hsc2.
  - exact Hse2.
  - exact Hse2.
  - change (sstatus (do_sret h4)) with (sstatus (do_sret h2)). cbn [do_sret sstatus set_csr]. by rewrite Hss2.
  - cbn [do_sret priv]. change (sstatus h4) with (sstatus h2). by rewrite Hss2.
  - intros r Hr4 Hne. rewrite Hreg. destruct (decide (r = 2%nat)) as [->|Hne2]; [by apply reg_set_eq; lia|].
    rewrite reg_set_ne, Hreg3 by lia. rewrite decide_True; [done|]. rewrite !elem_of_cons, elem_of_seq. lia.
  - rewrite reg_set_ne, Hreg3 by lia. rewrite decide_False; [exact H42|]. rewrite !elem_of_cons, elem_of_seq. lia.
  - change (length (gpr (set_reg 2 (ws !!! 2%nat) h3)) = 32%nat). by rewrite length_gpr_set.
Qed.
End Trampoline.
