(* ===== verification/Switch.v ===== *)
(** * Switching kernel threads ([src/task/switch.S], [src/task/switch.rs])

    [__switch] of [Hart] on two [TaskContext]s in memory.  It runs in the kernel's
    address space, where the contexts are identity mapped; that is a hypothesis here
    ([mapped]).  The callee-saved registers of the caller end up in the first context and
    those of the second in the registers, and nothing else of memory changes: to its
    caller, [__switch] is a function call that returns when someone switches back. *)
From S2P Require Import Prelude Config Machine Address FrameAllocator Ownership.
From S2P Require Import PageTable PageTree PageTableSpec Mmu MemorySet MapAreaSpec MemorySetSpec.
From S2P Require Import AddressSpace UserSpace UserMemory Fork ElfLoad Pid Context Timer Task Scheduler.
From S2P Require Import SyscallProcess KernelInv ProcessSpec WaitSpec ExecSpec SyscallSpec KernelSteps.
From S2P Require Import Files FileSpec SyscallFile Trap SystemInv SystemCalls SystemSpec Hart UserMode Trampoline.

(** The callee-saved registers, and a context in memory ([repr(C)]: 14 words). *)
Definition callee (h : hart) : TaskContext := mkTaskContext (reg h 1) (reg h 2) ((λ n, reg h (s_reg n)) <$> seq 0 12).
Definition load_tc (m : memory) (a : Z) : TaskContext :=
  let ws := load_words m a 14 in mkTaskContext (ws !!! 0%nat) (ws !!! 1%nat) (drop 2 ws).

Section Switch.
Context `{Assembler}.

(** The 14 words at [a] are mapped at their physical address, whatever is stored in
    the 14 words at [cur]. *)
Definition mapped (h : hart) (cur a : Z) : Prop :=
  0 ≤ a ∧ a + 112 ≤ 2 ^ 64 ∧ a mod 8 = 0 ∧
  ∀ m acc k, (∀ x, x < cur ∨ cur + 112 ≤ x → m x = hmem h x) → acc ≠ Fetch → (k < 14)%nat →
    mmu_translate (satp h) m (priv h) acc (a + Z.of_nat k * 8) = Some (a + Z.of_nat k * 8).

Lemma mapped_access h cur a m acc k :
  mapped h cur a → (∀ x, x < cur ∨ cur + 112 ≤ x → m x = hmem h x) → acc ≠ Fetch → (k < 14)%nat →
  ∀ h', satp h' = satp h → priv h' = priv h → hmem h' = m →
  translate8 h' acc (a +u Z.of_nat k * 8) = Some (a + 8 * Z.of_nat k).
Proof.
  intros (Ha & Hb & Hal & Hm) Hag Hacc Hk h' Hs Hp Hh. rewrite usize_add_small by lia.
  unfold translate8. rewrite (proj2 (Z.eqb_eq _ 0)) by zsolve. rewrite Hs, Hp, Hh, Hm by done. f_equal. lia.
Qed.

(** The blocks of stores and loads. *)
Definition save_code (l : list (nat * nat)) : list instr := (λ '(r, k), Sd r 10 (Z.of_nat k * 8)) <$> l.
Definition load_code (l : list (nat * nat)) : list instr := (λ '(r, k), Ld r 11 (Z.of_nat k * 8)) <$> l.
Definition slots : list (nat * nat) := (λ n, (s_reg n, n + 2)%nat) <$> seq 0 12.

Lemma switch_code_blocks :
  switch_code = save_code ((2, 1) :: (1, 0) :: slots)%nat ++ load_code (((1, 0) :: slots) ++ [(2, 1)])%nat ++ [Jr 1].
Proof. reflexivity. Qed.

Lemma exec_seq_app c1 c2 h : exec_seq (c1 ++ c2) h = (h' ← exec_seq c1 h; exec_seq c2 h').
Proof. revert h. induction c1 as [|i c1 IH]; intros h; [done|]. simpl. destruct (exec i h); [|done]. apply IH. Qed.

(** Registers other than those of the list keep their values. *)
Definition same_regs (h h' : hart) : Prop :=
  gpr h' = gpr h ∧ satp h' = satp h ∧ priv h' = priv h.

Lemma save_block cur h0 l h :
  mapped h0 cur cur → satp h = satp h0 → priv h = priv h0 → reg h 10 = cur →
  (∀ x, x < cur ∨ cur + 112 ≤ x → hmem h x = hmem h0 x) →
  Forall (λ p, p.2 < 14)%nat l → (∀ p, p ∈ l → is_usize (reg h p.1)) →
  ∃ h', exec_seq (save_code l) h = Some h' ∧ same_regs h h' ∧
    (∀ x, x < cur ∨ cur + 112 ≤ x → hmem h' x = hmem h0 x) ∧
    load_words (hmem h') cur 14 = foldl (λ ws p, <[p.2 := reg h p.1]> ws) (load_words (hmem h) cur 14) l.
Proof.
  intros Hmap. revert h. induction l as [|[r k] l IH]; intros h Hs Hp Ha Hag Hl Hu.
  { exists h. by split_and!. }
  apply Forall_cons in Hl as [Hk Hl]. simpl in Hk.
  cbn [save_code fmap list_fmap exec_seq exec]. rewrite Ha.
  rewrite (mapped_access h0 cur cur (hmem h) Store k Hmap Hag) by done. cbn [mbind option_bind].
  set (h1 := next _ _).
  assert (Hag1 : ∀ x, x < cur ∨ cur + 112 ≤ x → hmem h1 x = hmem h0 x).
  { intros x Hx. unfold h1. cbn [next set_pc set_hmem hmem]. rewrite store64_out by lia. by apply Hag. }
  destruct (IH h1) as (h' & Hrun & (Hg & Hs' & Hp') & Hag' & Hw); [done..| |].
  { intros p Hpl. apply (Hu p). by right. }
  exists h'. split_and!; [exact Hrun|by split_and!|done|]. rewrite Hw. cbn [foldl].
  f_equal. unfold h1. cbn [next set_pc set_hmem hmem]. apply load_words_store64; [done|]. apply (Hu (r, k)). by left.
Qed.

Lemma load_block cur a h0 l h :
  mapped h0 cur a → satp h = satp h0 → priv h = priv h0 → reg h 11 = a →
  (∀ x, x < cur ∨ cur + 112 ≤ x → hmem h x = hmem h0 x) → length (gpr h) = 32%nat →
  Forall (λ p, (0 < p.1 < 32)%nat ∧ p.1 ≠ 11%nat ∧ (p.2 < 14)%nat) l → NoDup l.*1 →
  ∃ h', exec_seq (load_code l) h = Some h' ∧ hmem h' = hmem h ∧ satp h' = satp h ∧ priv h' = priv h ∧
    length (gpr h') = 32%nat ∧
    (∀ p, p ∈ l → reg h' p.1 = load_words (hmem h) a 14 !!! p.2) ∧ (∀ r, r ∉ l.*1 → reg h' r = reg h r).
Proof.
  intros Hmap. revert h. induction l as [|[r k] l IH]; intros h Hs Hp Ha Hag Hlen Hl Hnd.
  { exists h. split_and!; try done. by intros p ?%elem_of_nil. }
  apply Forall_cons in Hl as [(Hr & Hr11 & Hk) Hl]. simpl in Hr, Hr11, Hk. apply NoDup_cons in Hnd as [Hnin Hnd]. simpl in Hnin.
  cbn [load_code fmap list_fmap exec_seq exec]. rewrite Ha.
  rewrite (mapped_access h0 cur a (hmem h) Load k Hmap Hag) by done. cbn [mbind option_bind].
  set (v := load64 _ _). set (h1 := next _ _).
  assert (Hmem1 : hmem h1 = hmem h ∧ satp h1 = satp h ∧ priv h1 = priv h) by (unfold h1; by destruct r).
  destruct Hmem1 as (Hm1 & Hs1 & Hp1).
  destruct (IH h1) as (h' & Hrun & Hm & Hs' & Hp' & Hlen' & Hin & Hout); [congruence|congruence| | | |done|done|].
  { unfold h1. by rewrite reg_next, reg_set_ne. }
  { by rewrite Hm1. }
  { unfold h1. cbn [next set_pc gpr]. by rewrite length_gpr_set. }
  exists h'. split_and!; [exact Hrun|congruence..|done| |].
  - intros p [->|Hpl]%elem_of_cons; [|by rewrite <-Hm1; apply Hin]. cbn [fst snd]. rewrite Hout by done.
    unfold h1. rewrite reg_next, reg_set_eq by lia. unfold v, load_words.
    by rewrite list_lookup_total_alt, list_lookup_fmap, lookup_seq_lt by done.
  - intros r' Hr'. simpl in Hr'. apply not_elem_of_cons in Hr' as [Hne Hr']. rewrite Hout by done.
    unfold h1. rewrite reg_next. by apply reg_set_ne.
Qed.

(** The state in which [__switch] is called. *)
Record switch_call (h : hart) (cur nxt : Z) : Prop := {
  sc_hart : hart_ok h;
  sc_a0 : reg h 10 = cur;
  sc_a1 : reg h 11 = nxt;
  sc_cur : mapped h cur cur;
  sc_nxt : mapped h cur nxt;
  sc_apart : nxt + 112 ≤ cur ∨ cur + 112 ≤ nxt;
}.

Lemma load_words_agree m m' a n :
  (∀ x, a ≤ x < a + 8 * Z.of_nat n → m x = m' x) → load_words m a n = load_words m' a n.
Proof. intros Hag. apply load_words_shift. intros x Hx. apply Hag. lia. Qed.

(** What the stores leave in the context. *)
Lemma saved_callee h m cur ws :
  load_words m cur 14 = foldl (λ ws p, <[p.2 := reg h p.1]> ws) ws ((2, 1) :: (1, 0) :: slots)%nat →
  length ws = 14%nat → load_tc m cur = callee h.
Proof.
  intros Hw Hl. unfold load_tc. rewrite Hw. do 14 (destruct ws as [|? ws]; [done|]). destruct ws; [|done]. reflexivity.
Qed.

Lemma switch_spec h cur nxt :
  switch_call h cur nxt → ∃ h', exec_seq switch_code h = Some h' ∧
    load_tc (hmem h') cur = callee h ∧ callee h' = load_tc (hmem h) nxt ∧
    pc h' = Z.land (tc_ra (load_tc (hmem h) nxt)) (Z.lnot 1) ∧
    (∀ x, x < cur ∨ cur + 112 ≤ x → hmem h' x = hmem h x) ∧ satp h' = satp h ∧ priv h' = priv h.
Proof.
  intros [Hok H10 H11 Hcur Hnxt Hap]. rewrite switch_code_blocks, exec_seq_app.
  destruct (save_block cur h ((2, 1) :: (1, 0) :: slots)%nat h) as (h1 & Hrun1 & (Hg & Hs & Hp) & Hag & Hw); [done..| | |].
  { apply (bool_decide_eq_true_1 _). by vm_compute. }
  { intros p _. by apply ho_regs. }
  rewrite Hrun1. cbn [mbind option_bind]. rewrite exec_seq_app.
  destruct (load_block cur nxt h (((1, 0) :: slots) ++ [(2, 1)])%nat h1) as (h2 & Hrun2 & Hm2 & Hs2 & Hp2 & _ & Hin & _).
  1-6: first [done|congruence|idtac].
  { unfold reg in *. by rewrite Hg. }
  { rewrite Hg. apply Hok. }
  { apply (bool_decide_eq_true_1 _). by vm_compute. }
  { apply (bool_decide_eq_true_1 _). by vm_compute. }
  rewrite Hrun2. cbn [mbind option_bind exec_seq exec].
  assert (Hload : load_words (hmem h1) nxt 14 = load_words (hmem h) nxt 14) by (apply load_words_agree; intros x Hx; apply Hag; lia).
  rewrite Hload in Hin.
  assert (Hcal : callee h2 = load_tc (hmem h) nxt).
  { unfold callee, load_tc. f_equal.
    - apply (Hin (1, 0)%nat). by vm_compute; left.
    - apply (Hin (2, 1)%nat). apply elem_of_app. right. by left.
    - apply list_eq. intros n. rewrite list_lookup_fmap, lookup_drop. destruct (decide (n < 12)%nat) as [Hn|Hn].
      + rewrite lookup_seq_lt by done. cbn [fmap option_fmap option_map]. rewrite Nat.add_0_l.
        pose proof (Hin (s_reg n, n + 2)%nat) as Hn2. cbn [fst snd] in Hn2. rewrite Hn2.
        * rewrite list_lookup_total_alt. destruct (lookup_lt_is_Some_2 (load_words (hmem h) nxt 14) (n + 2)) as [v Hv].
          { rewrite length_load_words. lia. }
          cbn [snd]. rewrite Hv. rewrite Nat.add_comm in Hv. by rewrite Hv.
        * apply elem_of_app. left. right. apply list_elem_of_fmap. exists n. split; [done|]. apply elem_of_seq. lia.
      + rewrite lookup_seq_ge by lia. symmetry. apply lookup_ge_None_2. rewrite length_load_words. lia. }
  eexists. split; [reflexivity|]. cbn [set_pc hmem satp priv pc]. split_and!.
  - rewrite Hm2. eapply saved_callee; [exact Hw|]. apply length_load_words.
  - exact Hcal.
  - rewrite <-Hcal. done.
  - intros x Hx. rewrite Hm2. by apply Hag.
  - congruence.
  - congruence.
Qed.
(** ** The two callers: the idle loop and a process

    The call of [__switch] from Rust: the pointers in [a0] and [a1], the place to come
    back to in [ra]. *)
(* src: src/src/task/switch.rs 8-10 __switch *)
Definition switch_args (current_task_cx_ptr next_task_cx_ptr ra : Z) (h : hart) : hart :=
  set_reg 1 ra (set_reg 10 current_task_cx_ptr (set_reg 11 next_task_cx_ptr h)).

(** [idle_task_cx_ptr] is what [get_idle_task_cx_ptr] returns, a field of [PROCESSOR]. *)
(* src: src/src/task/processor.rs 109-118 schedule *)
Definition schedule (idle_task_cx_ptr switched_task_cx_ptr ra : Z) (h : hart) : option hart :=
  exec_seq switch_code (switch_args switched_task_cx_ptr idle_task_cx_ptr ra h).

(* src: src/src/task/processor.rs 95-98 run_tasks *)
Definition switch_to (idle_task_cx_ptr next_task_cx_ptr ra : Z) (h : hart) : option hart :=
  exec_seq switch_code (switch_args idle_task_cx_ptr next_task_cx_ptr ra h).

(** A process that calls [schedule] continues the idle loop where it had switched to a
    process, if nobody has written to the idle context since. *)
Lemma schedule_returns_to_idle idle nxt ra h cur ra' h2 :
  switch_call (switch_args idle nxt ra h) idle nxt → switch_call (switch_args cur idle ra' h2) cur idle →
  ∃ h1, switch_to idle nxt ra h = Some h1 ∧ callee h1 = load_tc (hmem h) nxt ∧
    ((∀ x, idle ≤ x < idle + 112 → hmem h2 x = hmem h1 x) →
     ∃ h3, schedule idle cur ra' h2 = Some h3 ∧ pc h3 = Z.land ra (Z.lnot 1) ∧
       callee h3 = callee (switch_args idle nxt ra h)).
Proof.
  intros Hsc Hsc2. destruct (switch_spec _ _ _ Hsc) as (h1 & Hrun & Hsave & Hload & _).
  destruct (switch_spec _ _ _ Hsc2) as (h3 & Hrun3 & _ & Hload3 & Hpc3 & _).
  exists h1. split_and!; [done|exact Hload|]. intros Hag. exists h3.
  assert (Htc : load_tc (hmem (switch_args cur idle ra' h2)) idle = callee (switch_args idle nxt ra h)).
  { rewrite <-Hsave. unfold load_tc. by rewrite (load_words_agree _ (hmem h1) idle 14) by (intros; apply Hag; lia). }
  rewrite Htc in Hload3, Hpc3. split_and!; [done| |done]. rewrite Hpc3. f_equal. cbn [tc_ra callee].
  pose proof (ho_len _ (sc_hart _ _ _ Hsc)) as Hl. unfold switch_args in *. rewrite length_gpr_set in Hl.
  apply reg_set_eq. lia.
Qed.

End Switch.
