(* ===== verification/Preempt.v ===== *)
(** * Preemption is transparent

    A program is interrupted by the timer, other processes run for any number of
    steps, and the program is resumed: it continues in user mode at the instruction
    where it was interrupted, with its registers and its memory.  The proof joins the
    trampoline, [trap_handler], the scheduler and the isolation of processes. *)
From S2P Require Import Prelude Config Machine Address FrameAllocator Ownership.
From S2P Require Import PageTable PageTree PageTableSpec Mmu MemorySet MapAreaSpec MemorySetSpec.
From S2P Require Import AddressSpace UserSpace UserMemory Fork ElfLoad Pid Context Timer Task Scheduler.
From S2P Require Import SyscallProcess KernelInv ProcessSpec WaitSpec ExecSpec SyscallSpec KernelSteps.
From S2P Require Import Files FileSpec SyscallFile Trap SystemInv SystemCalls SystemSpec Waiting Hart UserMode Trampoline.

(** After a trap from user mode the previous privilege is recorded as user. *)
Lemma take_trap_spp stvec h : Z.testbit (sstatus (take_trap stvec h)) 8 = false.
Proof.
  unfold take_trap, put_bit. cbn [sstatus]. rewrite Z.clearbit_neq by lia.
  destruct (Z.testbit _ 1); [rewrite Z.setbit_neq by lia|rewrite Z.clearbit_neq by lia]; apply Z.clearbit_eq.
Qed.

Lemma usize_bits x : is_usize x ↔ ∀ i, 64 ≤ i → Z.testbit x i = false.
Proof.
  unfold is_usize, usize_modulus. split.
  - intros Hx i Hi. rewrite <-(Z.mod_small x (2 ^ 64)) by done. by apply Z.mod_pow2_bits_high.
  - intros Hx. replace x with (x mod 2 ^ 64); [by apply Z.mod_pos_bound|]. apply Z.bits_inj'. intros i Hi.
    destruct (decide (i < 64)); [by apply Z.mod_pow2_bits_low|].
    by rewrite Hx, Z.mod_pow2_bits_high by lia.
Qed.

Lemma put_bit_usize w i b : is_usize w → 0 ≤ i < 64 → is_usize (put_bit w i b).
Proof.
  rewrite !usize_bits. intros Hw Hi j Hj. unfold put_bit.
  destruct b; [rewrite Z.setbit_neq by lia|rewrite Z.clearbit_neq by lia]; by apply Hw.
Qed.

Lemma take_trap_ok stvec h : hart_ok h → is_usize (pc h) → hart_ok (take_trap stvec h).
Proof.
  intros [Hl Hg Hss _ Hsc] Hpc. split; try done. cbn [take_trap sstatus].
  apply put_bit_usize; [|lia]. apply put_bit_usize; [|lia]. by apply (put_bit_usize _ 8 false).
Qed.

Section Preempt.
Context `{SystemEnv} `{!EasyFsLaws} `{Assembler}.
Context (Hst : strampoline_ok) (Henv : env_ok).

Abbreviation smm st := (km_mm (k_mem (sys_kernel st))).
Abbreviation stasks st := (TASKS (sys_kernel st)).
Abbreviation kernel_space st := (KERNEL_SPACE (k_mem (sys_kernel st))).
Abbreviation scurrent st := (current (PROCESSOR (sys_kernel st))).

(** The timer interrupt parks the process. *)
Lemma timer_spec L st t b time :
  running L st t b →
  wp (trap_handler SupervisorTimer time) (λ o st', o = None ∧ idle L st' ∧ PARKED st' !! t = Some ResumeTrap ∧
    smm st' = smm st ∧ stasks st' = <[t := map_inner (set_task_status Ready) b]> (stasks st)) no_panic st.
Proof.
  intros Hr%(running_stvec _ _ _ _ trap_from_kernel_addr). unfold trap_handler, set_kernel_trap_entry. do 4 wp_step.
  assert (Hr' : running L (set_trigger (set_next_trigger time) (set_stvec trap_from_kernel_addr st)) t b).
  { destruct Hr as [[] ? ?]. by split; [split|..]. }
  eapply wp_call; [by apply (park_spec L _ t b)|done|]. intros [] st' [[[Hi _] Hp] [Hm HT]]. by wp_step.
Qed.

(** The trap context is part of what a process sees. *)
Lemma cx_words_kept s i s' i' :
  live_ok s i → live_ok s' i' → memory_set i' = memory_set i →
  (∀ va, va / 4096 ∈ areas_vpns (areas (memory_set i)) →
     user_byte s' (memory_set i) va = user_byte s (memory_set i) va) →
  load_words (phys s') (trap_cx_ppn i' * 4096) 37 = load_words (phys s) (trap_cx_ppn i * 4096) 37.
Proof.
  intros [Hok _ Htr%trap_page_frame] [Hok' _ Htr'%trap_page_frame] Hms Hv. rewrite Hms in Hok', Htr'.
  symmetry. apply load_words_shift. intros x Hx. set (va := TRAP_VPN * 4096 + x).
  assert (Hva : va / 4096 = TRAP_VPN ∧ va mod 4096 = x) by (unfold va, TRAP_VPN; zsolve). destruct Hva as [Hdiv Hmod].
  assert (Hin : va / 4096 ∈ areas_vpns (areas (memory_set i))) by (rewrite Hdiv; by eapply ms_frame_vpn).
  specialize (Hv va Hin). unfold user_byte in Hv.
  rewrite (user_addr_frame _ _ _ Hok' va (trap_cx_ppn i')), (user_addr_frame _ _ _ Hok va (trap_cx_ppn i)), Hmod in Hv
    by (by rewrite Hdiv). by injection Hv.
Qed.

(** [__restore] follows [__alltraps] in the section. *)
Definition text_layout : Prop :=
  0 ≤ alltraps_addr ∧ restore_addr = alltraps_addr + code_size alltraps_code ∧ restore_addr < 2 ^ 64.

Lemma restore_va_eq b : text_layout → restore_va (user_entry_of b) = TRAMPOLINE + code_size alltraps_code.
Proof.
  intros (Ha & Hr & Hb). cbn [restore_va user_entry_of]. pose proof (code_size_bounds alltraps_code) as Hs.
  change (length alltraps_code) with 42%nat in Hs. rewrite Hr. unfold usize_sub.
  replace (alltraps_addr + code_size alltraps_code - alltraps_addr) with (code_size alltraps_code) by lia.
  rewrite wrap64_small by (unfold is_usize, usize_modulus; lia).
  change TRAMPOLINE with (2 ^ 64 - 4096). rewrite usize_add_small; lia.
Qed.

(** The hart while the program of [t] runs.  Of the words that [__alltraps] loads only the
    token is fixed here: the program can have the other two overwritten by a system call.
    They are intact when [kernel_words] holds. *)
Record user_hart (L : layout) (st : system) (t : nat) (b : TaskControlBlock) (h : hart) : Prop := {
  uh_run : running L st t b;
  uh_ok : hart_ok h;
  uh_pc : is_usize (pc h);
  uh_mem : hmem h = phys (smm st);
  uh_satp : satp h = MemorySet_token (memory_set (inner b));
  uh_sscratch : sscratch h = TRAP_CONTEXT_BASE;
  uh_priv : priv h = UserMode;
  uh_stvec : stvec st = TRAMPOLINE;
  uh_kernel : trap_words st b !!! 34%nat = MemorySet_token (kernel_space st);
}.

(** The hart at the first instruction of [trap_handler]: in supervisor mode, in the address
    space of the kernel and on the kernel stack of the process. *)
Record in_trap_handler (st : system) (b : TaskControlBlock) (h : hart) : Prop := {
  it_pc : pc h = trap_handler_addr;
  it_sp : reg h 2 = KernelStack_get_top (kernel_stack b);
  it_satp : satp h = MemorySet_token (kernel_space st);
  it_priv : priv h = SupervisorMode;
}.

(** The hart at the jump to [__restore] that ends [trap_return]. *)
Record return_hart (st : system) (e : user_entry) (h : hart) : Prop := {
  rh_len : length (gpr h) = 32%nat;
  rh_pc : pc h = restore_va e;
  rh_a0 : reg h 10 = ue_a0 e;
  rh_a1 : reg h 11 = ue_a1 e;
  rh_mem : hmem h = phys (smm st);
  rh_satp : satp h = MemorySet_token (kernel_space st);
  rh_priv : priv h = SupervisorMode;
  rh_tp : is_usize (reg h 4);
}.

(** The kernel's page table never moves. *)
Lemma kernel_token_fixed L st st' :
  system_ok L st → system_ok L st' → MemorySet_token (kernel_space st') = MemorySet_token (kernel_space st).
Proof.
  intros Hok Hok'. destruct (ko_mem _ _ (so_kernel _ _ Hok)) as (l & Hmp & _), (ko_mem _ _ (so_kernel _ _ Hok')) as (l' & Hmp' & _).
  unfold MemorySet_token, PageTable_token. by rewrite (mp_root _ _ _ _ _ Hmp), (mp_root _ _ _ _ _ Hmp').
Qed.

(** [__restore] takes the hart to user mode when the context says so. *)
Lemma enter_user L st t b h :
  running L st t b → text_layout → return_hart st (user_entry_of b) h → stvec st = TRAMPOLINE →
  Z.testbit (trap_words st b !!! 32%nat) 8 = false → trap_words st b !!! 34%nat = MemorySet_token (kernel_space st) →
  ∃ h', steps (length restore_code) h = Some h' ∧ user_hart L st t b h' ∧
    restored h (trap_words st b) (MemorySet_token (memory_set (inner b))) h'.
Proof using Hst Henv.
  intros Hr Htext [Hl Hpc H10 H11 Hm Hsk Hp Htp] Hv Hspp Hk. rewrite restore_va_eq in Hpc by done.
  destruct (restore_spec Hst Henv L st t b h Hr Hm Hsk Hp Hl Hpc H10 H11) as (h' & Hrun & Hres).
  exists h'. split_and!; [done| |done]. pose proof Hres as (Hm' & Hs' & Hsc' & Hpc' & Hse' & Hss' & Hp' & Hreg & H4 & Hl').
  pose proof (trap_words_usize st b) as Hu. split; try done.
  - split; [done| | |by rewrite Hse'|by rewrite Hsc'].
    + intros r. destruct (decide (r = 4%nat)) as [->|Hne]; [by rewrite H4|]. destruct r as [|r]; [done|].
      destruct (decide (S r < 32)%nat); [by rewrite Hreg by lia|]. apply reg_out. lia.
    + rewrite Hss'. cbn [do_sret sstatus set_csr].
      apply (put_bit_usize _ 8 false); [|lia]. apply (put_bit_usize _ 5 true); [|lia]. apply put_bit_usize; [done|lia].
  - by rewrite Hpc'.
  - congruence.
  - by rewrite Hp', Hspp.
Qed.

Lemma enter_kernel L st t b h :
  user_hart L st t b h → ∃ h1 st1,
  steps (length alltraps_code) (take_trap (stvec st) h) = Some h1 ∧ running L st1 t b ∧ cx_step t b st st1 ∧
  trap_words st1 b = saved_words (take_trap (stvec st) h) (trap_words st b) ∧
  hmem h1 = phys (smm st1) ∧ satp h1 = MemorySet_token (kernel_space st) ∧ priv h1 = SupervisorMode ∧
  reg h1 2 = trap_words st b !!! 35%nat ∧ pc h1 = Z.land (trap_words st b !!! 36%nat) (Z.lnot 1).
Proof using Hst Henv.
  intros [Hr Hh Hpc Hm Hs Hsc Hp -> Hk]. apply (alltraps_spec Hst L st t b); try done.
  by apply take_trap_ok.
Qed.

(** What [h'] has of a program interrupted in [h]: everything but [tp]. *)
Record continues (h h' : hart) : Prop := {
  co_regs r : (r < 32)%nat → r ≠ 4%nat → reg h' r = reg h r;
  co_pc : pc h' = pc h;
  co_priv : priv h' = UserMode;
  co_satp : satp h' = satp h;
  co_sscratch : sscratch h' = TRAP_CONTEXT_BASE;
}.

Lemma leave_kernel L st t b h st4 b4 h4 :
  user_hart L st t b h → memory_set (inner b4) = memory_set (inner b) → stvec st4 = TRAMPOLINE →
  text_layout → running L st4 t b4 → return_hart st4 (user_entry_of b4) h4 →
  trap_words st4 b4 = saved_words (take_trap (stvec st) h) (trap_words st b) →
  ∃ h5, steps (length restore_code) h4 = Some h5 ∧ user_hart L st4 t b4 h5 ∧ continues h h5 ∧ reg h5 4 = reg h4 4.
Proof using Hst Henv.
  intros Hu Hms Hv Htext Hr Hrh Hw.
  destruct (enter_user L st4 t b4 h4 Hr Htext Hrh Hv) as (h5 & Hrun & Hu5 & Hm5 & Hs5 & Hsc5 & Hpc5 & _ & _ & _ & Hreg & H4 & _).
  - rewrite Hw. change (saved_words (take_trap (stvec st) h) (trap_words st b) !!! 32%nat) with (sstatus (take_trap (stvec st) h)).
    apply take_trap_spp.
  - rewrite Hw. change (saved_words (take_trap (stvec st) h) (trap_words st b) !!! 34%nat) with (trap_words st b !!! 34%nat).
    rewrite (uh_kernel _ _ _ _ _ Hu). symmetry. by apply (kernel_token_fixed L); [apply Hu|apply Hr].
  - exists h5. rewrite Hw in Hpc5, Hreg. split_and!; [done..| |done]. split.
    + intros [|r] Hr5 Hne; [done|]. rewrite Hreg by (done || lia). unfold saved_words.
      rewrite list_lookup_total_alt, list_lookup_fmap, lookup_seq_lt by lia. cbn [fmap option_fmap option_map default from_option Nat.add id].
      rewrite decide_False by (rewrite !elem_of_cons, elem_of_nil; lia). rewrite !decide_False by lia. done.
    + exact Hpc5.
    + apply Hu5.
    + by rewrite Hs5, Hms, (uh_satp _ _ _ _ _ Hu).
    + done.
Qed.

(** The words of the kernel are where [__alltraps] leaves them. *)
Lemma saved_kernel_words L st t b h st4 b4 :
  running L st t b → running L st4 t b4 → kernel_stack b4 = kernel_stack b →
  trap_words st4 b4 = saved_words h (trap_words st b) → kernel_words st b → kernel_words st4 b4.
Proof.
  intros Hr Hr4 Hks Hw [H34 H35 H36].
  assert (Hkeep : ∀ k, k ∈ [34; 35; 36]%nat → trap_words st4 b4 !!! k = trap_words st b !!! k).
  { rewrite Hw. intros k [-> |[-> |[-> |[]%elem_of_nil]%elem_of_cons]%elem_of_cons]%elem_of_cons; done. }
  split; rewrite Hkeep by (rewrite !elem_of_cons; auto).
  - rewrite H34. symmetry. apply (kernel_token_fixed L); [apply Hr|apply Hr4].
  - by rewrite Hks.
  - done.
Qed.

Lemma clear_even a : Z.testbit a 0 = false → Z.land a (Z.lnot 1) = a.
Proof.
  intros Ha. apply Z.bits_inj'. intros i Hi. rewrite Z.land_spec, Z.lnot_spec by lia.
  destruct (decide (i = 0)) as [->|Hne]; [by rewrite Ha|].
  replace (Z.testbit 1 i) with false; [by rewrite andb_true_r|]. symmetry. apply (Z.pow2_bits_false 0). lia.
Qed.

Lemma preempted_spec L st t b h time :
  user_hart L st t b h → kernel_words st b → text_layout → Z.testbit trap_handler_addr 0 = false → ∃ h1 st2,
  steps (length alltraps_code) (take_trap (stvec st) h) = Some h1 ∧ in_trap_handler st b h1 ∧
  running L (in_kernel st h1) t b ∧
  trap_handler SupervisorTimer time (in_kernel st h1) = Done None st2 ∧
  ∀ st3 e st4 h4,
    rtc (others_step t) st2 st3 → scurrent st3 = None →
    run_tasks_step st3 = Done (Some e) st4 → scurrent st4 = Some t → return_hart st4 e h4 →
    ∃ b4 h5, steps (length restore_code) h4 = Some h5 ∧ user_hart L st4 t b4 h5 ∧ kernel_words st4 b4 ∧
      continues h h5 ∧ reg h5 4 = reg h4 4 ∧ memory_set (inner b4) = memory_set (inner b) ∧
      ∀ va, va / 4096 ∈ areas_vpns (areas (memory_set (inner b))) → va / 4096 ≠ TRAP_VPN →
        user_byte (smm st4) (memory_set (inner b)) va = user_byte (smm st) (memory_set (inner b)) va.
Proof using Hst Henv.
  intros Hu Hkw Htext Heven.
  destruct (enter_kernel L st t b h Hu) as (h1 & st1 & Hrun1 & Hr1 & Hcx & Hw1 & Hm1 & Hsat1 & Hp1 & H2 & Hpc1).
  rewrite (kw_sp _ _ Hkw) in H2. rewrite (kw_handler _ _ Hkw), clear_even in Hpc1 by done.
  assert (Hin : in_kernel st h1 = st1) by (unfold in_kernel; rewrite (cs_state _ _ _ _ Hcx), Hm1; done).
  pose proof (timer_spec L st1 t b time Hr1) as Hwp. unfold wp in Hwp.
  destruct (trap_handler SupervisorTimer time st1) as [o st2| |] eqn:Htrap; [|done..].
  destruct Hwp as (-> & [Hok2 _] & Hp2 & Hmm2 & HT2).
  exists h1, st2. rewrite Hin. split_and!; [done..|]. intros st3 e st4 h4 Hsteps Hc3 Hrun Hc4 Hrh.
  assert (Hw2 : waits ResumeTrap t (kernel_stack b) (memory_set (inner b)) (smm st1) st2).
  { exists (map_inner (set_task_status Ready) b). rewrite HT2, lookup_insert_eq, Hmm2. by split_and!. }
  destruct (waits_steps Hst Henv L _ t _ _ _ st2 st3 Hok2 Hw2 Hsteps) as [Hok3 Hw3].
  destruct (switched_back Hst Henv L _ t _ _ _ st3 e st4 Hok3 Hc3 Hw3 Hrun Hc4) as (b4 & Hms4 & Hks4 & ([= ->] & Hr4 & Hm4) & Hv3).
  pose proof Hv3 as Hv4. rewrite <-Hm4 in Hv4.
  assert (Hw4 : trap_words st4 b4 = saved_words (take_trap (stvec st) h) (trap_words st b)).
  { rewrite <-Hw1. unfold trap_words, trap_cx. apply cx_words_kept; [..|done|done].
    - by destruct (ru_live _ _ _ _ Hr1).
    - by destruct (ru_live _ _ _ _ Hr4). }
  destruct (leave_kernel L st t b h st4 b4 h4 Hu Hms4 ltac:(by apply (run_tasks_stvec _ _ _ Hrun)) Htext Hr4 Hrh Hw4)
    as (h5 & Hrun5 & Hu5 & Hco & H4).
  exists b4, h5. assert (Hkw4 : kernel_words st4 b4) by (by eapply saved_kernel_words; [apply Hu|..]).
  split_and!; [done..|]. intros va Hva Hne. rewrite Hv4 by done. by apply (cs_own _ _ _ _ Hcx).
Qed.
End Preempt.
