(* ===== verification/Hardware.v ===== *)
(** * The kernel on the hart: properties

    What the page tables, the trampoline and [__switch] achieve together on the hart of
    [Hart] and [Mmu], for every system that satisfies the invariant. *)
From S2P Require Import Prelude Config Machine Address FrameAllocator Ownership.
From S2P Require Import PageTable PageTree PageTableSpec Mmu MemorySet MapAreaSpec MemorySetSpec.
From S2P Require Import AddressSpace UserSpace UserMemory Fork KernelSpace ElfLoad Pid Context Timer Task Scheduler.
From S2P Require Import SyscallProcess KernelInv ProcessSpec WaitSpec ExecSpec SyscallSpec KernelSteps Boot Processes.
From S2P Require Import Files FileSpec SyscallFile Trap SystemInv SystemCalls SystemSpec Waiting Systems.
From S2P Require Import Hart UserMode Trampoline Switch Preempt.
From coqutil Require Import Byte Word.LittleEndianList.

Section Properties.
Context `{SystemEnv} `{!EasyFsLaws} `{Assembler}.
Context (Hst : strampoline_ok) (Henv : env_ok).

Abbreviation smm st := (km_mm (k_mem (sys_kernel st))).
Abbreviation stasks st := (TASKS (sys_kernel st)).
Abbreviation kernel_space st := (KERNEL_SPACE (k_mem (sys_kernel st))).
Abbreviation scurrent st := (current (PROCESSOR (sys_kernel st))).

(** C4: user mode is confined.  Whatever address a program accesses in user mode, if
    the MMU translates it, the access goes to a frame that an area of the process holds
    for that page, with [U] and the permission for the access; it is not the frame of
    the trap context, not a page table, and no frame of the kernel, of the kernel image
    or of another process. *)
Theorem user_mode_confined L st t b acc va pa :
  running L st t b → is_usize va →
  mmu_translate (MemorySet_token (memory_set (inner b))) (phys (smm st)) UserMode acc va = Some pa →
  ∃ a f, a ∈ areas (memory_set (inner b)) ∧ data_frames a !! va_vpn va = Some f ∧ pa = f * 4096 + va mod 4096 ∧
    perm_allows acc (map_perm a) = true ∧ perm_user (map_perm a) = true ∧ f ≠ trap_cx_ppn (inner b) ∧
    (f ∉ frames (page_table (memory_set (inner b)))) ∧ (f ∉ ms_frames (kernel_space st)) ∧ (f ∉ lay_image L) ∧
    ∀ u b', u ≠ t → stasks st !! u = Some b' → f ∉ task_frames b'.
Proof using Hst.
  intros Hr Hu Htr. destruct (ru_live _ _ _ _ Hr) as [Hl _]. pose proof (lo_ms _ _ Hl) as Hms.
  destruct (user_translate Hst (smm st) (inner b) acc va pa Hl Hu Htr) as (a & f & Ha & Hf & Hpa & Hacc & Hus & _ & Hne).
  assert (Hfr : ms_frame (areas (memory_set (inner b))) (va_vpn va) f) by (by exists a).
  assert (Hin : f ∈ task_frames b) by (unfold task_frames, ms_frames; apply elem_of_app; right; by eapply ms_frame_in).
  pose proof Hr as [Hok _ Hb]. destruct (isolated_kernel L st t b f Hok Hb Hin) as [Hk Hi].
  exists a, f. split_and!; try done; [by eapply ms_frame_not_table|].
  intros u b' Hn Hb'. by eapply (isolated_frames L st t u b b').
Qed.

(** C5: preemption is transparent.  When the timer interrupts a program whose trap context
    has the kernel's words ([kernel_words]: nothing was read over them), [__alltraps]
    (with [__restore] behind it, [text_layout], and [trap_handler] at an even address)
    arrives at [trap_handler] in supervisor mode, in the kernel's address space and on the
    kernel stack of the process, and [trap_handler] parks the process; other processes run
    for any number of steps of [sys_step] (their system calls are those whose arguments
    [call_ok] accepts, and their trap contexts have the kernel's words); when the scheduler
    chooses the process again, [trap_return] and [__restore] take the hart back to user
    mode, to the same instruction, with all the registers the program had (except [tp],
    which [trap.S] does not save), in the same address space, and every byte of the
    program's memory is what it was.  The hart and the kernel's words are then fit for
    the next interrupt. *)
Theorem preemption_is_transparent L st t b h time :
  user_hart L st t b h → kernel_words st b → text_layout → Z.testbit trap_handler_addr 0 = false → ∃ h1 st2,
  steps (length alltraps_code) (take_trap (stvec st) h) = Some h1 ∧ in_trap_handler st b h1 ∧
  running L (in_kernel st h1) t b ∧
  trap_handler SupervisorTimer time (in_kernel st h1) = Done None st2 ∧
  ∀ st3 e st4 h4,
    rtc (others_step t) st2 st3 → scurrent st3 = None →
    run_tasks_step st3 = Done (Some e) st4 → scurrent st4 = Some t → return_hart st4 e h4 →
    ∃ b4 h5, steps (length restore_code) h4 = Some h5 ∧ user_hart L st4 t b4 h5 ∧ kernel_words st4 b4 ∧
      continues h h5 ∧ reg h5 4 = reg h4 4 ∧ memory_set (inner b4) = memory_set (inner b) ∧
      ∀ va, va / 4096 ∈ areas_vpns (areas (memory_set (inner b))) → va / 4096 ≠ TRAP_VPN →
        user_byte (smm st4) (memory_set (inner b)) va = user_byte (smm st) (memory_set (inner b)) va.
Proof using Hst Henv. by apply preempted_spec. Qed.

(** C13: [__switch] is a function call.  It stores the callee-saved registers of the
    caller in the first context, changes nothing else in memory, and continues with the
    registers of the second one at its [ra]; for a context made by [goto_trap_return]
    that is [trap_return] on the kernel stack of the task.  When anyone switches back to
    the first context, unchanged in the meantime, the caller continues after the call
    with its callee-saved registers. *)
Theorem switch_returns_to_caller h cur nxt :
  switch_call h cur nxt → ∃ h1, exec_seq switch_code h = Some h1 ∧
    callee h1 = load_tc (hmem h) nxt ∧ (∀ x, x < cur ∨ cur + 112 ≤ x → hmem h1 x = hmem h x) ∧
    (∀ ret ksp, load_tc (hmem h) nxt = TaskContext_goto_trap_return ret ksp → Z.testbit ret 0 = false →
       pc h1 = ret ∧ reg h1 2 = ksp) ∧
    ∀ h2 other, switch_call h2 other cur → (∀ x, cur ≤ x < cur + 112 → hmem h2 x = hmem h1 x) →
      ∃ h3, exec_seq switch_code h2 = Some h3 ∧ callee h3 = callee h ∧ pc h3 = Z.land (reg h 1) (Z.lnot 1).
Proof.
  intros Hsc. destruct (switch_spec h cur nxt Hsc) as (h1 & Hrun & Hsave & Hload & Hpc & Hout & _).
  exists h1. split_and!; [done..| |].
  - intros ret ksp Htc Heven. rewrite Htc in Hpc, Hload. cbn [TaskContext_goto_trap_return tc_ra] in Hpc. split.
    + rewrite Hpc. apply Z.bits_inj'. intros i Hi. rewrite Z.land_spec, Z.lnot_spec by done.
      destruct (decide (i = 0)) as [->|Hn]; [by rewrite Heven|].
      replace (Z.testbit 1 i) with false; [by rewrite andb_true_r|].
      symmetry. apply (Z.bits_above_log2 1 i); simpl; lia.
    + by injection Hload.
  - intros h2 other Hsc2 Hag. destruct (switch_spec h2 other cur Hsc2) as (h3 & Hrun3 & _ & Hload3 & Hpc3 & _).
    assert (Htc : load_tc (hmem h2) cur = callee h).
    { rewrite <-Hsave. unfold load_tc. by rewrite (load_words_agree (hmem h2) (hmem h1) cur 14) by (intros; apply Hag; lia). }
    rewrite Htc in Hload3, Hpc3. by exists h3.
Qed.

(** The word [k] of the trap context, from the bytes at its user address. *)
Lemma trap_word_bytes L st t b k l :
  running L st t b → (k < 37)%nat → length l = 8%nat →
  (∀ j, (j < 8)%nat → user_byte (smm st) (memory_set (inner b)) (TRAP_VPN * 4096 + 8 * Z.of_nat k + Z.of_nat j) = l !! j) →
  trap_words st b !!! k = le_combine l.
Proof.
  intros Hr Hk Hl Hj. destruct (ru_live _ _ _ _ Hr) as [[Hms _ Htr%trap_page_frame] _].
  unfold trap_words, load_words, trap_cx. rewrite list_lookup_total_alt, list_lookup_fmap, lookup_seq_lt by done.
  cbn [fmap option_fmap option_map default from_option Nat.add id]. unfold load64. f_equal. apply list_eq. intros i.
  destruct (decide (i < 8)%nat) as [Hi|Hi]; [|rewrite !lookup_ge_None_2; [done|lia|rewrite length_load_bytes; lia]].
  rewrite lookup_load_bytes, <-Hj by done.
  set (va := TRAP_VPN * 4096 + 8 * Z.of_nat k + Z.of_nat i).
  assert (Hva : va / 4096 = TRAP_VPN ∧ va mod 4096 = 8 * Z.of_nat k + Z.of_nat i) by (unfold va, TRAP_VPN, TRAMPOLINE_VPN; zsolve).
  destruct Hva as [Hdiv Hmod]. unfold user_byte.
  rewrite (user_addr_frame _ _ _ Hms va (trap_cx_ppn (inner b))), Hmod by (by rewrite Hdiv).
  cbn [fmap option_fmap option_map]. do 2 f_equal. lia.
Qed.

(** C40: a process can take over the kernel.  [sys_read] does not refuse a buffer in
    the trap context, which is mapped without [U]: reading eight bytes of a file to the
    place of [trap_handler] succeeds, and at the next trap [__alltraps] jumps, in
    supervisor mode, to the address that the file holds. *)
Theorem read_redirects_traps L st t b fd id f :
  running L st t b → fd_lookup fd (inner b) = Some (OSInodeRef id) → OSINODES st !! id = Some f →
  let data := file_data (DISK st) (os_inode f) in
  Z.of_nat (length data) < 2 ^ 63 → os_offset f + 8 ≤ Z.of_nat (length data) →
  let target := le_combine (take 8 (drop (Z.to_nat (os_offset f)) data)) in
  wp (sys_read fd (TRAP_VPN * 4096 + 8 * 36) 8) (λ r st', r = Some 8 ∧ running L st' t b ∧
    trap_words st' b !!! 36%nat = target ∧
    ∀ h, user_hart L st' t b h → ∃ h1, steps (length alltraps_code) (take_trap (stvec st') h) = Some h1 ∧
      priv h1 = SupervisorMode ∧ pc h1 = Z.land target (Z.lnot 1)) no_panic st.
Proof using Hst Henv.
  intros Hr Hfd Hf data Hlen Hoff target. destruct (ru_live _ _ _ _ Hr) as [[Hms Hfr Htr%trap_page_frame] _].
  destruct (ms_frame_vpn _ _ _ Hms _ _ Htr) as [Hvp _].
  assert (Hdiv : ∀ va, TRAP_VPN * 4096 + 8 * 36 ≤ va < TRAP_VPN * 4096 + 8 * 36 + 8 → va / 4096 = TRAP_VPN)
    by (unfold TRAP_VPN, TRAMPOLINE_VPN; intros; zsolve).
  assert (Hbuf : buf_ok (memory_set (inner b)) (TRAP_VPN * 4096 + 8 * 36) 8).
  { split_and!; [by vm_compute..|]. intros va Hva. by rewrite (Hdiv va Hva). }
  pose proof (so_offset _ _ (ru_ok _ _ _ _ Hr) id f Hf) as Ho.
  eapply wp_mono; [by apply (read_file_call L st t b fd _ 8 id f)| |done]. cbv zeta. fold data.
  replace (read_len data (os_offset f) 8) with 8 by (unfold read_len; lia).
  intros r st' (-> & Hr' & (s' & Hw & Hst') & _).
  assert (H36 : trap_words st' b !!! 36%nat = target).
  { apply (trap_word_bytes L st' t b 36); [done|lia| |].
    - rewrite length_take, length_drop. lia.
    - intros j Hj. replace (smm st') with s' by (by rewrite Hst').
      rewrite (uw_bytes _ _ _ _ _ _ _ Hw) by (rewrite Hdiv by lia; done). rewrite decide_True by lia.
      rewrite lookup_take_lt, lookup_drop by lia. unfold bytes_at.
      destruct (lookup_lt_is_Some_2 data (Z.to_nat (os_offset f) + j)) as [x Hx]; [lia|].
      fold data. rewrite Hx. replace (Z.to_nat _) with (Z.to_nat (os_offset f) + j)%nat by lia. by rewrite Hx. }
  split_and!; [done|done|done|]. intros h Hu.
  destruct (enter_kernel Hst Henv L st' t b h Hu) as (h1 & st1 & Hrun & _ & _ & _ & _ & _ & Hp & _ & Hpc).
  exists h1. rewrite <-H36. by split_and!.
Qed.
End Properties.

(** ** The machine of [Systems] with a hart *)

#[local] Existing Instance demo_env.
#[local] Existing Instance demo_laws.
#[local] Instance demo_asm : Assembler := {| ilen _ := 4; ilen_cases _ := or_intror eq_refl |}.

Definition demo_hart (st : system) (b : TaskControlBlock) : hart := {|
  gpr := Z.of_nat <$> seq 0 32; satp := MemorySet_token (memory_set (inner b)); sscratch := TRAP_CONTEXT_BASE;
  sstatus := 2; sepc := 0; pc := 0x40; priv := UserMode; hmem := phys (km_mm (k_mem (sys_kernel st))) |}.

Definition kernel_cx (st : system) (b : TaskControlBlock) : bool :=
  bool_decide (trap_words st b !!! 34%nat = MemorySet_token (KERNEL_SPACE (k_mem (sys_kernel st)))) &&
  bool_decide (stvec st = TRAMPOLINE).

Lemma demo_user_hart L st b : running L st 0 b → kernel_cx st b = true → user_hart L st 0 b (demo_hart st b).
Proof.
  intros Hr [Hk%bool_decide_eq_true Hv%bool_decide_eq_true]%andb_prop. split; try reflexivity; [exact Hr| |by vm_compute|exact Hv|exact Hk].
  split; [reflexivity| |by vm_compute..]. intros [|r]; [done|]. unfold reg. cbn [demo_hart gpr].
  rewrite list_lookup_total_alt, list_lookup_fmap. destruct (seq 0 32 !! S r) as [x|] eqn:E; [|done].
  apply lookup_seq in E. unfold is_usize, usize_modulus. simpl. lia.
Qed.

Lemma demo_text : text_layout.
Proof. by vm_compute. Qed.

(** A store to the user stack. *)
Definition stack_store (st : system) (b : TaskControlBlock) : option Z :=
  mmu_translate (MemorySet_token (memory_set (inner b))) (phys (km_mm (k_mem (sys_kernel st)))) UserMode Store 0x2ff0.

Lemma user_mode_confined_witness :
  ∃ L st b a f, running L st 0 b ∧ a ∈ areas (memory_set (inner b)) ∧ data_frames a !! 2 = Some f ∧
    stack_store st b = Some (f * 4096 + 0xff0) ∧ f ≠ trap_cx_ppn (inner b).
Proof.
  destruct (demo_boot_with (λ st b, bool_decide (is_Some (stack_store st b)))) as (L & o & st & b & s & _ & Hr & _ & HP).
  { vm_compute. reflexivity. }
  apply bool_decide_eq_true in HP as [pa Hpa].
  destruct (@user_mode_confined demo_env boot_strampoline L st 0 b Store 0x2ff0 pa Hr ltac:(vm_compute; split; congruence) Hpa)
    as (a & f & Ha & Hf & Heq & _ & _ & Hne & _).
  exists L, st, b, a, f. split; [exact Hr|]. split; [exact Ha|]. split; [exact Hf|]. split; [|exact Hne].
  rewrite Hpa, Heq. reflexivity.
Defined.

(** The program is interrupted; nobody else is ready, so it is chosen again. *)
Definition preempt_check (st : system) (b : TaskControlBlock) : bool :=
  kernel_cx st b && (demo_words st b &&
  match steps (length alltraps_code) (take_trap (stvec st) (demo_hart st b)) with
  | Some h1 => match trap_handler SupervisorTimer 0 (in_kernel st h1) with
               | Done None st2 => bool_decide (current (PROCESSOR (sys_kernel st2)) = None) &&
                   match run_tasks_step st2 with
                   | Done (Some e) st4 => bool_decide (current (PROCESSOR (sys_kernel st4)) = Some 0%nat)
                   | _ => false
                   end
               | _ => false
               end
  | None => false
  end).

Lemma demo_preempt : ∃ L st b, running L st 0 b ∧ preempt_check st b = true.
Proof.
  destruct (demo_boot_with preempt_check) as (L & o & st & b & s & _ & Hr & _ & HP).
  { vm_compute. reflexivity. }
  exists L, st, b. by split.
Qed.

Lemma preemption_is_transparent_witness :
  ∃ L st b h1 st4 b4 h4 h5, running L st 0 b ∧ in_trap_handler st b h1 ∧ running L st4 0 b4 ∧
    steps (length restore_code) h4 = Some h5 ∧ reg h5 7 = 7 ∧ pc h5 = 0x40 ∧ priv h5 = UserMode.
Proof.
  destruct demo_preempt as (L & st & b & Hr & HP). unfold preempt_check in HP.
  apply andb_prop in HP as [Hk HP]. apply andb_prop in HP as [Hw HP].
  destruct (@preemption_is_transparent demo_env demo_laws demo_asm boot_strampoline boot_env_ok L st 0 b (demo_hart st b) 0
    (demo_user_hart L st b Hr Hk) (demo_words_ok st b Hw) demo_text eq_refl) as (h1 & st2 & Hrun & Hin & _ & Htrap & Hrest).
  rewrite Hrun, Htrap in HP. apply andb_prop in HP as [Hc2 HP]. apply bool_decide_eq_true in Hc2.
  destruct (run_tasks_step st2) as [[e|] st4| |] eqn:Hstep; [|discriminate..]. apply bool_decide_eq_true in HP.
  set (h4 := {| gpr := <[10%nat := ue_a0 e]> (<[11%nat := ue_a1 e]> (replicate 32 0));
    satp := MemorySet_token (KERNEL_SPACE (k_mem (sys_kernel st4))); sscratch := 0; sstatus := 0; sepc := 0;
    pc := restore_va e; priv := SupervisorMode; hmem := phys (km_mm (k_mem (sys_kernel st4))) |}).
  destruct (Hrest st2 e st4 h4 (rtc_refl _ _) Hc2 Hstep HP ltac:(split; [reflexivity..|vm_compute; split; congruence])) as (b4 & h5 & Hrun5 & Hu5 & _ & Hco & _).
  exists L, st, b, h1, st4, b4, h4, h5. split; [exact Hr|]. split; [exact Hin|]. split; [exact (uh_run _ _ _ _ _ Hu5)|]. split; [exact Hrun5|].
  destruct Hco as [Hreg Hpc Hp _ _]. split; [exact (Hreg 7%nat ltac:(lia) ltac:(lia))|]. split; [exact Hpc|exact Hp].
Defined.

(** Without translation. *)
Definition bare_hart : hart := {|
  gpr := <[10%nat := 0x1000]> (<[11%nat := 0x2000]> (Z.of_nat <$> seq 0 32)); satp := 0; sscratch := 0; sstatus := 0;
  sepc := 0; pc := 0; priv := SupervisorMode; hmem _ := Corelib.Init.Byte.x00 |}.

Lemma bare_mapped cur a : 0 ≤ a → a + 112 ≤ 2 ^ 64 → a mod 8 = 0 → mapped bare_hart cur a.
Proof. intros H1 H2 H3. split_and!; [done..|]. intros m acc k _ _ _. reflexivity. Qed.

Lemma switch_returns_to_caller_witness :
  ∃ h1, exec_seq switch_code bare_hart = Some h1 ∧ callee h1 = load_tc (hmem bare_hart) 0x2000 ∧ pc h1 = 0.
Proof.
  destruct (@switch_returns_to_caller demo_asm bare_hart 0x1000 0x2000) as (h1 & Hrun & Hload & _ & Hret & _).
  { split; [|reflexivity|reflexivity|apply bare_mapped; by vm_compute|apply bare_mapped; by vm_compute|right; by vm_compute].
    split; [reflexivity| |by vm_compute..]. intros r. destruct (decide (32 ≤ r)%nat); [by apply reg_out|].
    do 32 (destruct r as [|r]; [by vm_compute|]). lia. }
  exists h1. split; [exact Hrun|]. split; [exact Hload|]. exact (proj1 (Hret 0 0 eq_refl eq_refl)).
Defined.

Lemma read_redirects_traps_witness :
  ∃ L st b fd, running L st 0 b ∧
    wp (sys_read fd (TRAP_VPN * 4096 + 8 * 36) 8) (λ r st', r = Some 8 ∧
      trap_words st' b !!! 36%nat = le_combine (take 8 demo_elf_data)) no_panic st.
Proof.
  destruct demo_started as (L & st0 & b0 & Hr0 & Hd). pose proof Hd as (_ & Hdisk & _).
  pose proof (demo_path st0 b0 Hd) as Hp0.
  destruct (demo_open L st0 b0 OpenFlags_RDONLY Hr0 Hp0 eq_refl eq_refl Hdisk)
    as (st & b & id & n & f & Hr & Hms & Hk & Hd1 & Hn0 & Hn & _ & _ & _ & Hf & Hi & Hoff).
  assert (HD : file_data (DISK st) (os_inode f) = demo_elf_data) by (rewrite Hi, Hd1; exact (proj2 (demo_program st0 b0 Hd))).
  assert (Hid : OSINODES st !! id = Some f) by (rewrite Hf; apply lookup_insert_eq).
  exists L, st, b, n. split; [exact Hr|].
  eapply wp_mono; [apply (@read_redirects_traps demo_env demo_laws demo_asm boot_strampoline boot_env_ok L st 0 b n id f Hr Hn Hid)| |].
  - rewrite HD. vm_compute. reflexivity.
  - rewrite HD, Hoff. vm_compute. congruence.
  - rewrite HD, Hoff. intros r st' (-> & _ & Hw & _). split; [reflexivity|exact Hw].
  - intros e He. exact He.
Defined.
