(* ===== verification/Bringup.v ===== *)
(** * From power-on to the first program: properties

    [rust_main] on the machine that the firmware starts, the idle loop behind it, and
    [__restore]: the kernel comes up, hands the hart to the first program, and every
    state that is reached from there satisfies the invariant. *)
From S2P Require Import Prelude Config Machine Heap Address FrameAllocator Ownership.
From S2P Require Import PageTable PageTree PageTableSpec Mmu MemorySet MapAreaSpec MemorySetSpec.
From S2P Require Import AddressSpace UserSpace UserMemory Fork KernelSpace TableCost ElfLoad Pid Driver Context.
From S2P Require Import Timer Task Scheduler SyscallProcess KernelInv ProcessSpec ExecSpec KernelSteps Boot.
From S2P Require Import Files Console FileSpec SyscallFile Trap SystemInv SystemCalls SystemSpec Waiting Systems Hart Paging.
From S2P Require Import Start StartSpec UserMode Trampoline Preempt.

Section Bringup.
Context `{SystemEnv} `{!EasyFsLaws} `{FirmwareLaws} `{LogCrateLaws} `{LockedHeapLaws} `{VirtIOBlk} `{!BootEnv}.
Context `{Assembler}.
Context (Hst : strampoline_ok) (Henv : env_ok).

Abbreviation smm st := (km_mm (k_mem (sys_kernel st))).
Abbreviation kernel_space st := (KERNEL_SPACE (k_mem (sys_kernel st))).

(** What the image, the disk, the machine and the heap must be for the kernel to start. *)
Record can_boot (elf_data : list byte) (elf : ElfFile) (phs : list ProgramHeader) (σ : machine) : Prop := {
  cb_layout : image_layout;
  cb_disk : disk_ready elf_data elf phs;
  cb_power : powered_on σ;
  cb_frames : (boot_frames elf_data phs ≤ Z.to_nat (0x88000 - (ekernel + 4095) / 4096))%nat;
  cb_heap : ¬ heap_refuses;
}.

Lemma rust_main_returns time elf_data elf phs σ :
  can_boot elf_data elf phs σ → ∃ L st σ' b,
    rust_main time σ = Done st σ' ∧ booted time elf_data elf phs σ L st σ' b.
Proof using All.
  intros [Hil Hdr Hpo Hfr Hh]. pose proof (rust_main_spec Hst Henv time elf_data elf phs σ Hil Hdr Hpo Hfr) as Hwp.
  unfold wp in Hwp. destruct (rust_main time σ) as [st σ'| |] eqn:Hrun; [|by destruct Hwp as [_ ?]|done].
  destruct Hwp as (L & b & Hb). by exists L, st, σ', b.
Qed.

(** C11: the kernel comes up.  On the machine as the firmware starts it, with an image laid
    out as by [linker.ld], a disk that holds the first program and enough frames, and
    unless the allocator refuses the blocks of [heap_test], [rust_main] passes its tests and returns: the
    kernel's sections are mapped as they should be and paging is on; the one process is
    [INITPROC], ready and never yet run, with the program of the file [ch6b_initproc]; the
    invariant of the system holds; the heap is empty, traps in the kernel and the timer are
    set up, and the transcript is the boot log, message by message. *)
Theorem boot_completes time elf_data elf phs σ :
  can_boot elf_data elf phs σ → ∃ L st σ' b,
    rust_main time σ = Done st σ' ∧ booted time elf_data elf phs σ L st σ' b.
Proof using All. apply rust_main_returns. Qed.

(** C1: every state that the machine reaches by [sys_step] is well run.  After [rust_main],
    whatever processes compute, whichever faults, interrupts and system calls they cause
    and keys are pressed, in every order: the invariant of the system holds, pids are
    unique, no frame of a process belongs to another process, to the kernel's address
    space, to the kernel image or to the queues of the block device, and while a process
    runs its traps go to the trampoline.  The steps of [sys_step] leave out: a trap while
    the kernel's words in the trap context of the process are overwritten, and a system
    call known to the kernel whose arguments [call_ok] does not accept (unmapped memory or
    memory beyond 2^39, a descriptor or an ELF file of the wrong kind, an [munmap] of the
    trap context, a [waitpid] pointer that crosses a page, an [sbrk] off the heap, and the
    rest of the list at [call_ok]). *)
Theorem reachable_states_well_run time elf_data elf phs σ :
  can_boot elf_data elf phs σ → ∃ L st0 σ', rust_main time σ = Done st0 σ' ∧
    lay_image L = seqZ 0 ((ekernel + 4095) / 4096) ++ mc_queue σ' ∧
    ∀ st, rtc sys_step st0 st → well_run L st.
Proof using All.
  intros Hcb. destruct (rust_main_returns time elf_data elf phs σ Hcb) as (L & st0 & σ' & b & Hmain & Hbt).
  exists L, st0, σ'. split_and!; [done|exact (bt_image _ _ _ _ _ _ _ _ _ Hbt)|]. intros st Hsteps.
  eapply (steps_well_run Hst Henv); [exact (bt_idle _ _ _ _ _ _ _ _ _ Hbt)|exact Hsteps].
Qed.

(** ** The first entry to user mode *)

(** The hart at the jump to [__restore], with what [rust_main] set up in [g]. *)
Record at_restore (g : hart) (st : system) (e : user_entry) (h : hart) : Prop := {
  ar_len : length (gpr h) = 32%nat;
  ar_pc : pc h = restore_va e;
  ar_a0 : reg h 10 = ue_a0 e;
  ar_a1 : reg h 11 = ue_a1 e;
  ar_tp : is_usize (reg h 4);
  ar_mem : hmem h = phys (smm st);
  ar_satp : satp h = satp g;
  ar_priv : priv h = priv g;
}.

(** The first iteration of the idle loop takes the first process. *)
Lemma first_process_chosen time elf_data elf phs σ L st σ' b :
  booted time elf_data elf phs σ L st σ' b → ∃ b' st',
    run_tasks_step st = Done (Some (user_entry_of b')) st' ∧ running L st' (INITPROC (sys_kernel st)) b' ∧
    smm st' = smm st ∧ memory_set (inner b') = memory_set (inner b) ∧ trap_cx_ppn (inner b') = trap_cx_ppn (inner b) ∧
    kernel_stack b' = kernel_stack b.
Proof using All.
  intros Hbt. pose proof (run_tasks_chosen L st (bt_idle _ _ _ _ _ _ _ _ _ Hbt)) as Hwp. unfold wp in Hwp.
  destruct (run_tasks_step st) as [o st'| |] eqn:Hrun; [|done..].
  destruct Hwp as [(_ & _ & Hq)|(t & b0 & b' & Ht & Hb0 & _ & Hms & Htr & Hks & Hrr)].
  - specialize (Hq (INITPROC (sys_kernel st))). rewrite (bt_queue _ _ _ _ _ _ _ _ _ Hbt) in Hq.
    specialize (Hq (list_elem_of_here _ _)). unfold task_stride in Hq.
    rewrite (bt_tasks _ _ _ _ _ _ _ _ _ Hbt), lookup_singleton_eq, (fr_stride _ _ _ _ (bt_block _ _ _ _ _ _ _ _ _ Hbt)) in Hq. done.
  - rewrite (bt_queue _ _ _ _ _ _ _ _ _ Hbt) in Ht. apply list_elem_of_singleton in Ht as ->.
    rewrite (bt_tasks _ _ _ _ _ _ _ _ _ Hbt), lookup_singleton_eq in Hb0. injection Hb0 as <-.
    rewrite (bt_parked _ _ _ _ _ _ _ _ _ Hbt), lookup_empty in Hrr. destruct Hrr as (-> & Hr & Hm). by exists b', st'.
Qed.

(** The registers of a program that starts. *)
Lemma start_words satp ksp elf phs m a :
  load_cx m a = start_cx elf phs satp ksp →
  let ws := load_words m a 37 in
  Z.testbit (ws !!! 32%nat) 8 = false ∧ ws !!! 33%nat = elf_entry_point elf ∧ ws !!! 34%nat = satp ∧
  ws !!! 35%nat = ksp ∧ ws !!! 36%nat = trap_handler_addr ∧
  ∀ r, (r < 32)%nat → ws !!! r = if decide (r = 2%nat) then elf_stack_top (loads phs) else 0.
Proof.
  intros Hcx ws. unfold load_cx in Hcx. fold ws in Hcx. clearbody ws. split_and!.
  - apply (f_equal cx_sstatus) in Hcx. cbn in Hcx. rewrite Hcx. apply Z.clearbit_eq.
  - exact (f_equal cx_sepc Hcx).
  - exact (f_equal cx_kernel_satp Hcx).
  - exact (f_equal cx_kernel_sp Hcx).
  - exact (f_equal cx_trap_handler Hcx).
  - intros r Hr. apply (f_equal cx_x) in Hcx. change (take 32 ws = <[2%nat := elf_stack_top (loads phs)]> (replicate 32 0)) in Hcx.
    rewrite <-(lookup_total_take_lt ws 32 r Hr), Hcx.
    case_decide as Hr2; [subst r; done|]. rewrite list_lookup_total_insert_ne by done. by apply lookup_total_replicate_2.
Qed.

(** C2: the kernel starts the first program.  When the image, the disk and the memory
    are in order, [rust_main] returns, the first iteration of the idle loop switches to
    [INITPROC], and [__restore] takes the hart to user mode, to the entry point of the
    ELF file, with the stack pointer at the top of the user stack and zero in all other
    registers (except [tp], which keeps the value of the kernel), in the address space that holds the
    segments of the file; the hart and the kernel's words of the trap context are then in
    the state from which traps are handled. *)
Theorem boot_reaches_user_mode time elf_data elf phs σ :
  can_boot elf_data elf phs σ → text_layout → ∃ L st σ' b e st',
  rust_main time σ = Done st σ' ∧ run_tasks_step st = Done (Some e) st' ∧
  image (elf_layout elf_data (loads phs)) (smm st') (memory_set (inner b)) (trap_cx_ppn (inner b)) ∧
  ∀ h, at_restore (mc_hart σ') st' e h → ∃ h', steps (length restore_code) h = Some h' ∧
    user_hart L st' (INITPROC (sys_kernel st)) b h' ∧ kernel_words st' b ∧ pc h' = elf_entry_point elf ∧ reg h' 4 = reg h 4 ∧
    ∀ r, (r < 32)%nat → r ≠ 4%nat → reg h' r = if decide (r = 2%nat) then elf_stack_top (loads phs) else 0.
Proof using All.
  intros Hcb Htext. destruct (rust_main_returns time elf_data elf phs σ Hcb) as (L & st & σ' & b & Hmain & Hbt).
  destruct (first_process_chosen _ _ _ _ _ _ _ _ _ Hbt) as (b' & st' & Hrun & Hr & Hm & Hms & Htr & Hks).
  destruct (bt_program _ _ _ _ _ _ _ _ _ Hbt) as [Him Hcx]. rewrite <-Hms, <-Htr, <-Hm in Him. rewrite <-Htr, <-Hm in Hcx.
  exists L, st, σ', b', (user_entry_of b'), st'. split_and!; [done..|].
  intros h [Hl Hpc Ha0 Ha1 Htp Hmem Hsatp Hpriv].
  assert (Hk : MemorySet_token (kernel_space st') = MemorySet_token (kernel_space st))
    by (apply (kernel_token_fixed L); [apply (bt_idle _ _ _ _ _ _ _ _ _ Hbt)|apply Hr]).
  destruct (start_words _ _ _ _ _ _ Hcx) as (Hspp & Hsepc & Hkt & Hksp & Htrap & Hws).
  destruct (enter_user Hst Henv L st' _ b' h Hr Htext) as (h' & Hsteps & Hu & Hres).
  - split; [done..| | |done]; [by rewrite Hsatp, Hk, (bt_satp _ _ _ _ _ _ _ _ _ Hbt)|by rewrite Hpriv, (bt_priv _ _ _ _ _ _ _ _ _ Hbt)].
  - by apply (run_tasks_stvec _ _ _ Hrun).
  - exact Hspp.
  - rewrite Hk. exact Hkt.
  - exists h'. destruct Hres as (_ & _ & _ & Hpc' & _ & _ & _ & Hreg & Hr4 & _). split_and!; [done|done| |by rewrite Hpc'|done|].
    { split; [by rewrite Hk|by rewrite Hks|done]. }
    intros [|r] Hr32 Hne; [done|]. rewrite Hreg by (done || lia). by apply Hws.
Qed.
End Bringup.

(** ** A machine with a 32 MB heap in its image and a disk with one program *)

Definition image_symbols : LinkerSymbols :=
  {| stext := 0x80200000; etext := 0x80220000; srodata := 0x80220000; erodata := 0x80230000;
     sdata := 0x80230000; edata := 0x80240000; sbss_with_stack := 0x80240000; ebss := 0x82280000;
     ekernel := 0x82280000; strampoline := 0x80201000 |}.
Definition image_kernel : KernelEnv :=
  {| env_linker := image_symbols; ElfFile_new := λ _, Some demo_elf; sstatus_read := 0x100;
     trap_return_addr := 0x80202000; trap_handler_addr := 0x80203000 |}.
Definition image_env : SystemEnv := {|
  se_kernel := image_kernel; se_fs := demo_fs; se_input := 0; sys_fuel := 4; TaskInfo_repr _ := [];
  alltraps_addr := 0x80201000; restore_addr := 0x802010a8; trap_from_kernel_addr := 0x80204000 |}.
#[local] Existing Instance image_env.
#[local] Instance image_laws : EasyFsLaws := demo_fs_laws.
#[local] Existing Instance ram_disk.
#[local] Existing Instances demo_firmware demo_firmware_laws demo_log demo_log_laws demo_allocator demo_allocator_laws.
#[local] Instance image_asm : Assembler := {| ilen _ := 4; ilen_cases _ := or_intror eq_refl |}.

Definition image_files : demo_disk := mkDisk [(initproc_name, 0%nat)] [demo_elf_data].
#[local] Instance image_boot : BootEnv := {|
  sbss := 0x80250000; HEAP_SPACE := 0x80280000; boot_stack_lower_bound := 0x80240000; boot_stack_top := 0x80250000;
  env_LOG := None; efs_open _ := Some (image_files : disk); root_ls (d : disk) := [lit "ch6b_initproc"] |}.

Definition image_on : machine :=
  mkMachine _ {| gpr := replicate 32 0; satp := 0; sscratch := 0; sstatus := 0; sepc := 0; pc := 0x80200000;
                 priv := SupervisorMode; hmem _ := Corelib.Init.Byte.x00 |} fa_new heap_empty [] [] 0.

Lemma image_strampoline : strampoline_ok.
Proof. split; [vm_compute; split; congruence|reflexivity]. Qed.

Lemma image_env_ok : env_ok.
Proof. split; vm_compute; split; congruence. Qed.

Lemma image_text : text_layout.
Proof. by vm_compute. Qed.

(** The allocator has room for [heap_test], whatever is in memory. *)
Lemma image_heap : ¬ heap_refuses.
Proof.
  intros [m Hm]. apply (f_equal (λ o, match o with Done _ _ => true | _ => false end)) in Hm. revert Hm.
  vm_compute. congruence.
Qed.

Lemma image_boots : can_boot demo_elf_data demo_elf [demo_ph] image_on.
Proof.
  split.
  - split; [split; [vm_compute; congruence|vm_compute; repeat split; congruence|repeat constructor]|reflexivity..| |];
      [split; vm_compute; congruence|vm_compute; congruence].
  - split; [by apply Forall_singleton| |by destruct boot_elf_ok|reflexivity|vm_compute; lia].
    intros queues. eexists _, _, 0%nat. split; [reflexivity|]. split; [reflexivity|]. by split.
  - by split.
  - assert (Hle : Nat.leb (boot_frames demo_elf_data [demo_ph]) (Z.to_nat (0x88000 - (ekernel + 4095) / 4096)) = true)
      by (vm_compute; reflexivity).
    by apply Nat.leb_le.
  - exact image_heap.
Qed.

Lemma boot_completes_witness : ∃ L st σ' b,
  rust_main 0 image_on = Done st σ' ∧ idle L st ∧ ready_queue (sys_kernel st) = [INITPROC (sys_kernel st)] ∧
  prio (inner b) = 16.
Proof.
  destruct (@boot_completes image_env image_laws demo_firmware demo_firmware_laws demo_log demo_log_laws demo_allocator
    demo_allocator_laws ram_disk image_boot image_asm image_strampoline image_env_ok 0 _ _ _ _ image_boots)
    as (L & st & σ' & b & Hrun & Hbt).
  exists L, st, σ', b. split; [exact Hrun|]. split; [exact (bt_idle _ _ _ _ _ _ _ _ _ Hbt)|].
  split; [exact (bt_queue _ _ _ _ _ _ _ _ _ Hbt)|exact (fr_prio _ _ _ _ (bt_block _ _ _ _ _ _ _ _ _ Hbt))].
Defined.

Lemma reachable_states_well_run_witness : ∃ L st0 σ',
  rust_main 0 image_on = Done st0 σ' ∧ well_run L (set_keyboard (keyboard st0 ++ [65]) st0).
Proof.
  destruct (@reachable_states_well_run image_env image_laws demo_firmware demo_firmware_laws demo_log demo_log_laws demo_allocator
    demo_allocator_laws ram_disk image_boot image_asm image_strampoline image_env_ok 0 _ _ _ _ image_boots)
    as (L & st0 & σ' & Hrun & _ & Hwell).
  exists L, st0, σ'. split; [exact Hrun|]. apply Hwell, rtc_once, step_key.
Defined.

(** The program starts at the address 0 with its stack below 0x4000. *)
Lemma boot_reaches_user_mode_witness : ∃ st σ' h h',
  rust_main 0 image_on = Done st σ' ∧ steps (length restore_code) h = Some h' ∧
  pc h' = elf_entry_point demo_elf ∧ priv h' = UserMode ∧ reg h' 2 = elf_stack_top (loads [demo_ph]).
Proof.
  destruct (@boot_reaches_user_mode image_env image_laws demo_firmware demo_firmware_laws demo_log demo_log_laws demo_allocator
    demo_allocator_laws ram_disk image_boot image_asm image_strampoline image_env_ok 0 _ _ _ _ image_boots image_text)
    as (L & st & σ' & b & e & st' & Hrun & _ & _ & Hgo).
  set (h := {| gpr := <[10%nat := ue_a0 e]> (<[11%nat := ue_a1 e]> (replicate 32 0));
    satp := satp (mc_hart σ'); sscratch := 0; sstatus := 0; sepc := 0;
    pc := restore_va e; priv := priv (mc_hart σ'); hmem := phys (km_mm (k_mem (sys_kernel st'))) |}).
  destruct (Hgo h ltac:(split; try reflexivity; vm_compute; split; congruence)) as (h' & Hsteps & Hu & _ & Hpc & _ & Hreg).
  exists st, σ', h, h'. split; [exact Hrun|]. split; [exact Hsteps|]. split; [exact Hpc|].
  split; [exact (uh_priv _ _ _ _ _ Hu)|exact (Hreg 2%nat ltac:(lia) ltac:(lia))].
Defined.
